(** * Elastic B-Tree: a shallow embedding of [internal/tree] and its properties

    The Go package keeps a B-tree as a graph of heap-allocated [Node] structs
    linked by child pointers and [Parent] back pointers, and mutates it in
    place.  Deletion navigates upwards through [Parent], so the embedding keeps
    the heap explicit: a finite map from addresses to node records, threaded
    through a small state-and-panic monad.  Every Go field read is a [load] at
    the point where the source reads, every field write a [modify]; aliasing
    between nodes is therefore whatever the pointers say.

    Conventions.
    - Go [int] is 64 bits wide; arithmetic on it is written with [wrap].
    - A slice is a list; its capacity is taken equal to its length, so
      re-slicing beyond the length panics.
    - Logging calls ([Infof], [Errorf]) do not touch the tree and are left
      out; [Panicf] is kept, with its format string as the panic message.
      The tree's [Logger] is assumed to be installed.
    - Recursive methods take a [fuel] argument; running out of it is the
      distinguished outcome [OutOfFuel], never a result. *)

From stdpp Require Import gmap list strings sorting.
From Stdlib Require Import ZArith Lia.

Set Warnings "-register-all".

Local Open Scope Z_scope.

(** ** Machine integers and slices *)

Definition wrap (z : Z) : Z := (z + 2 ^ 63) mod 2 ^ 64 - 2 ^ 63.

Definition max_int : Z := 2 ^ 63 - 1.
Definition min_int : Z := - 2 ^ 63.

Definition len {A} (l : list A) : Z := Z.of_nat (length l).

(** ** Outcomes: a value, a returned Go [error], a panic, or exhausted fuel *)

Inductive outcome (A : Type) : Type :=
| Ok (a : A)
| Error (msg : string)
| Panic (msg : string)
| OutOfFuel.
Arguments Ok {A} a.
Arguments Error {A} msg.
Arguments Panic {A} msg.
Arguments OutOfFuel {A}.

Definition ptr := positive.

Section Model.

(** Values are opaque ([interface{}]); [vnil] is the nil interface value. *)
Context {V : Type} (vnil : V).

(** ** Data model (node.go, tree.go) *)

Record Node := mkNode {
  Keys : list Z;
  Children : list ptr;
  IsLeaf : bool;
  Parent : option ptr;
  Size : Z;
  MaxKeys : Z;
  MinKeys : Z;
  Values : list V
}.

Record Tree := mkTree {
  Root : option ptr;
  Degree : Z;
  Tree_Size : Z;
  Height : Z;
  Comparator : Z -> Z -> Z
}.

(** The Go heap restricted to nodes, the allocation pointer, and the tree. *)
Record state := mkState {
  mem : gmap ptr Node;
  next_ptr : ptr;
  tree : Tree
}.

Definition set_Keys (x : list Z) (n : Node) : Node :=
  mkNode x (Children n) (IsLeaf n) (Parent n) (Size n) (MaxKeys n) (MinKeys n) (Values n).
Definition set_Children (x : list ptr) (n : Node) : Node :=
  mkNode (Keys n) x (IsLeaf n) (Parent n) (Size n) (MaxKeys n) (MinKeys n) (Values n).
Definition set_Parent (x : option ptr) (n : Node) : Node :=
  mkNode (Keys n) (Children n) (IsLeaf n) x (Size n) (MaxKeys n) (MinKeys n) (Values n).
Definition set_Size (x : Z) (n : Node) : Node :=
  mkNode (Keys n) (Children n) (IsLeaf n) (Parent n) x (MaxKeys n) (MinKeys n) (Values n).
Definition set_Values (x : list V) (n : Node) : Node :=
  mkNode (Keys n) (Children n) (IsLeaf n) (Parent n) (Size n) (MaxKeys n) (MinKeys n) x.

Definition set_Root (x : option ptr) (t : Tree) : Tree :=
  mkTree x (Degree t) (Tree_Size t) (Height t) (Comparator t).
Definition set_Tree_Size (x : Z) (t : Tree) : Tree :=
  mkTree (Root t) (Degree t) x (Height t) (Comparator t).
Definition set_Height (x : Z) (t : Tree) : Tree :=
  mkTree (Root t) (Degree t) (Tree_Size t) x (Comparator t).

(** ** The monad *)

Definition M (A : Type) : Type := state -> outcome (A * state).

Definition ret {A} (a : A) : M A := fun st => Ok (a, st).

Definition bind {A B} (c : M A) (k : A -> M B) : M B :=
  fun st =>
    match c st with
    | Ok (a, st') => k a st'
    | Error msg => Error msg
    | Panic msg => Panic msg
    | OutOfFuel => OutOfFuel
    end.

Definition panic {A} (msg : string) : M A := fun _ => Panic msg.
Definition out_of_fuel {A} : M A := fun _ => OutOfFuel.

Notation "'do' x <- c ; k" := (bind c (fun x => k))
  (at level 10, x name, c at level 100, k at level 200).
Notation "c ;; k" := (bind c (fun _ => k))
  (at level 100, k at level 200, right associativity).

Definition get_tree : M Tree := fun st => Ok (tree st, st).
Definition modify_tree (f : Tree -> Tree) : M unit :=
  fun st => Ok (tt, mkState (mem st) (next_ptr st) (f (tree st))).

Definition nil_deref : string := "invalid memory address or nil pointer dereference".

Definition load (p : ptr) : M Node :=
  fun st =>
    match mem st !! p with
    | Some n => Ok (n, st)
    | None => Panic nil_deref
    end.

Definition modify (p : ptr) (f : Node -> Node) : M unit :=
  fun st =>
    match mem st !! p with
    | Some _ => Ok (tt, mkState (alter f p (mem st)) (next_ptr st) (tree st))
    | None => Panic nil_deref
    end.

(** [&Node{...}] *)
Definition alloc (n : Node) : M ptr :=
  fun st =>
    Ok (next_ptr st,
        mkState (<[next_ptr st := n]> (mem st)) (Pos.succ (next_ptr st)) (tree st)).

(** Dereferencing a possibly nil pointer. *)
Definition deref (p : option ptr) : M ptr :=
  match p with
  | Some q => ret q
  | None => panic nil_deref
  end.

Fixpoint for_each {A} (l : list A) (body : A -> M unit) : M unit :=
  match l with
  | [] => ret tt
  | x :: l' => body x ;; for_each l' body
  end.

(** ** Slice operations *)

Definition index_range : string := "index out of range".
Definition slice_range : string := "slice bounds out of range".

(** [l[i]] *)
Definition index {A} (l : list A) (i : Z) : M A :=
  if i <? 0 then panic index_range
  else match l !! Z.to_nat i with
       | Some a => ret a
       | None => panic index_range
       end.

(** [l[i] = x] *)
Definition set_index {A} (l : list A) (i : Z) (x : A) : M (list A) :=
  if (0 <=? i) && (i <? len l) then ret (<[Z.to_nat i := x]> l)
  else panic index_range.

(** [l[:i]] *)
Definition slice_to {A} (l : list A) (i : Z) : M (list A) :=
  if (0 <=? i) && (i <=? len l) then ret (take (Z.to_nat i) l)
  else panic slice_range.

(** [l[i:]] *)
Definition slice_from {A} (l : list A) (i : Z) : M (list A) :=
  if (0 <=? i) && (i <=? len l) then ret (drop (Z.to_nat i) l)
  else panic slice_range.

(** [make([]T, n)] with zero value [z] *)
Definition make {A} (z : A) (n : Z) : M (list A) :=
  if n <? 0 then panic "makeslice: len out of range"
  else ret (replicate (Z.to_nat n) z).

(** [copy(dst, src)]: the first [min(len dst, len src)] cells of [dst] are
    overwritten. *)
Definition copy {A} (dst src : list A) : list A :=
  take (length dst) src ++ drop (length src) dst.

(** ** invariants.go *)

(** [checkInvariants]: every non-leaf node below [node] has one more child
    than its [Size]; a violation is a panic. *)
Fixpoint checkInvariants (fuel : nat) (node : option ptr) : M unit :=
  match fuel with
  | O => out_of_fuel
  | S f =>
    match node with
    | None => ret tt
    | Some p =>
      do n <- load p;
      if IsLeaf n then ret tt
      else if negb (len (Children n) =? wrap (Size n + 1))
      then panic "Invariant violation: node %v has %d keys but %d children (expected %d)"
      else for_each (Children n) (fun c => checkInvariants f (Some c))
    end
  end.

(** ** tree.go: construction *)

Definition default_comparator (a b : Z) : Z := wrap (a - b).

Definition NewTree (degree : Z) : outcome Tree :=
  if degree <? 2 then Panic "degree must be at least 2"
  else Ok (mkTree None degree 0 0 default_comparator).

(** A fresh heap around a tree value. *)
Definition init_state (t : Tree) : state := mkState ∅ 1%positive t.

(** ** tree.go: insertion *)

(** [normalizeChildren]: the fresh slice of [expected] cells is filled
    completely by [copy], since the source slice has that length. *)
Definition normalizeChildren (node : ptr) : M unit :=
  do n <- load node;
  if IsLeaf n then ret tt
  else
    let expected := wrap (Size n + 1) in
    if negb (len (Children n) =? expected) then
      if expected <? 0 then panic "makeslice: len out of range"
      else
        do s <- slice_to (Children n) expected;
        modify node (set_Children s)
    else ret tt.

Definition splitChild (fuel : nat) (parent : ptr) (idx : Z) : M unit :=
  do t <- get_tree;
  let d := Degree t in
  do pn <- load parent;
  do child <- index (Children pn) idx;
  checkInvariants fuel (Some child) ;;
  normalizeChildren parent ;;
  do cn <- load child;
  do medianKey <- index (Keys cn) (wrap (d - 1));
  do medianValue <- index (Values cn) (wrap (d - 1));
  do zk <- make 0 (wrap (d - 1));
  do zv <- make vnil (wrap (d - 1));
  do hk <- slice_from (Keys cn) d;
  do hv <- slice_from (Values cn) d;
  do hc <- (if IsLeaf cn then ret [] else slice_from (Children cn) d);
  do newChild <- alloc (mkNode (copy zk hk) hc (IsLeaf cn) (Some parent)
                               (wrap (d - 1)) (wrap (2 * d - 1)) (wrap (d - 1))
                               (copy zv hv));
  for_each hc (fun c => modify c (set_Parent (Some newChild))) ;;
  (* update the original child *)
  do cn <- load child;
  do lk <- slice_to (Keys cn) (wrap (d - 1));
  do lv <- slice_to (Values cn) (wrap (d - 1));
  do lc <- (if IsLeaf cn then ret (Children cn) else slice_to (Children cn) d);
  modify child (fun n => set_Children lc (set_Size (wrap (d - 1))
                           (set_Values lv (set_Keys lk n)))) ;;
  (* insert the median into the parent and attach the new child *)
  do pn <- load parent;
  do k1 <- slice_to (Keys pn) idx;
  do k2 <- slice_from (Keys pn) idx;
  do v1 <- slice_to (Values pn) idx;
  do v2 <- slice_from (Values pn) idx;
  do c1 <- slice_to (Children pn) (wrap (idx + 1));
  do c2 <- slice_from (Children pn) (wrap (idx + 1));
  modify parent (fun n =>
    set_Size (len (k1 ++ medianKey :: k2))
      (set_Children (c1 ++ newChild :: c2)
        (set_Values (v1 ++ medianValue :: v2)
          (set_Keys (k1 ++ medianKey :: k2) n)))) ;;
  normalizeChildren parent ;;
  checkInvariants fuel (Some child) ;;
  checkInvariants fuel (Some newChild) ;;
  checkInvariants fuel (Some parent).

(** [for i >= 0 && cmp(keys[i], key) > 0 { i-- }] *)
Fixpoint scan_down (cmp : Z -> Z -> Z) (keys : list Z) (key : Z)
    (fuel : nat) (i : Z) : M Z :=
  match fuel with
  | O => out_of_fuel
  | S f =>
    if i <? 0 then ret i
    else
      do k <- index keys i;
      if cmp k key >? 0 then scan_down cmp keys key f (i - 1) else ret i
  end.

(** [for i < size && cmp(keys[i], key) < 0 { i++ }] *)
Fixpoint scan_up (cmp : Z -> Z -> Z) (keys : list Z) (key : Z) (size : Z)
    (fuel : nat) (i : Z) : M Z :=
  match fuel with
  | O => out_of_fuel
  | S f =>
    if i <? size then
      do k <- index keys i;
      if cmp k key <? 0 then scan_up cmp keys key size f (i + 1) else ret i
    else ret i
  end.

Fixpoint insertNonFull (fuel : nat) (node : ptr) (key : Z) (value : V) : M unit :=
  match fuel with
  | O => out_of_fuel
  | S f =>
    do t <- get_tree;
    do n <- load node;
    let i := wrap (Size n - 1) in
    if IsLeaf n then
      do i <- scan_down (Comparator t) (Keys n) key (S (Z.to_nat (i + 1))) i;
      do k1 <- slice_to (Keys n) (wrap (i + 1));
      do k2 <- slice_from (Keys n) (wrap (i + 1));
      do v1 <- slice_to (Values n) (wrap (i + 1));
      do v2 <- slice_from (Values n) (wrap (i + 1));
      modify node (fun n => set_Size (wrap (Size n + 1))
                     (set_Values (v1 ++ value :: v2) (set_Keys (k1 ++ key :: k2) n)))
    else
      do i <- scan_down (Comparator t) (Keys n) key (S (Z.to_nat (i + 1))) i;
      let i := wrap (i + 1) in
      do c <- index (Children n) i;
      do cn <- load c;
      do i <- (if Size cn =? MaxKeys cn then
                 splitChild fuel node i ;;
                 do n' <- load node;
                 do k <- index (Keys n') i;
                 ret (if Comparator t k key <? 0 then wrap (i + 1) else i)
               else ret i);
      do n' <- load node;
      do c <- index (Children n') i;
      insertNonFull f c key value
  end.

Definition Insert (fuel : nat) (key : Z) (value : V) : M unit :=
  do t <- get_tree;
  match Root t with
  | None =>
    do r <- alloc (mkNode [key] [] true None 1
                          (wrap (2 * Degree t - 1)) (wrap (Degree t - 1)) [value]);
    modify_tree (fun t => set_Height 1 (set_Tree_Size (wrap (Tree_Size t + 1))
                            (set_Root (Some r) t)))
  | Some r =>
    checkInvariants fuel (Some r) ;;
    do rn <- load r;
    (if Size rn =? MaxKeys rn then
       do newRoot <- alloc (mkNode [] [r] false None 0
                                   (wrap (2 * Degree t - 1)) (wrap (Degree t - 1)) []);
       modify r (set_Parent (Some newRoot)) ;;
       splitChild fuel newRoot 0 ;;
       modify_tree (fun t => set_Height (wrap (Height t + 1)) (set_Root (Some newRoot) t))
     else ret tt) ;;
    do t <- get_tree;
    do r <- deref (Root t);
    insertNonFull fuel r key value ;;
    modify_tree (fun t => set_Tree_Size (wrap (Tree_Size t + 1)) t) ;;
    do t <- get_tree;
    checkInvariants fuel (Root t)
  end.

(** ** tree.go: search *)

Fixpoint searchNode (fuel : nat) (node : option ptr) (key : Z) : M (V * bool) :=
  match fuel with
  | O => out_of_fuel
  | S f =>
    match node with
    | None => ret (vnil, false)
    | Some p =>
      do t <- get_tree;
      do n <- load p;
      do i <- scan_up (Comparator t) (Keys n) key (Size n) (S (Z.to_nat (Size n))) 0;
      do hit <- (if i <? Size n then
                   do k <- index (Keys n) i;
                   ret (Comparator t k key =? 0)
                 else ret false);
      if hit : bool then
        do v <- index (Values n) i;
        ret (v, true)
      else if IsLeaf n then ret (vnil, false)
      else
        do c <- index (Children n) i;
        searchNode f (Some c) key
    end
  end.

Definition Search (fuel : nat) (key : Z) : M (V * bool) :=
  do t <- get_tree;
  searchNode fuel (Root t) key.

(** ** balance.go *)

(** [for i, child := range children { if child == node { childIndex = i; break } }],
    starting from [childIndex := -1]. *)
Fixpoint find_child (children : list ptr) (node : ptr) (i : Z) : Z :=
  match children with
  | [] => -1
  | c :: cs => if bool_decide (c = node) then i else find_child cs node (i + 1)
  end.

Definition borrowFromLeftSibling (fuel : nat) (parent : ptr) (idx : Z) : M unit :=
  do pn <- load parent;
  if (idx <=? 0) || (idx >=? len (Children pn))
  then panic "borrowFromLeftSibling: invalid parameters, index %d, parent.Children %d"
  else
    do node <- index (Children pn) idx;
    do leftSibling <- index (Children pn) (wrap (idx - 1));
    load node ;; load leftSibling ;;
    (* move parent's key down to node *)
    do pn <- load parent;
    do sk <- index (Keys pn) (wrap (idx - 1));
    do sv <- index (Values pn) (wrap (idx - 1));
    modify node (fun n => set_Size (wrap (Size n + 1))
                   (set_Values (sv :: Values n) (set_Keys (sk :: Keys n) n))) ;;
    (* move left sibling's last key to parent *)
    do ln <- load leftSibling;
    do lk <- index (Keys ln) (wrap (Size ln - 1));
    do pn <- load parent;
    do pks <- set_index (Keys pn) (wrap (idx - 1)) lk;
    modify parent (set_Keys pks) ;;
    do ln <- load leftSibling;
    do lv <- index (Values ln) (wrap (Size ln - 1));
    do pn <- load parent;
    do pvs <- set_index (Values pn) (wrap (idx - 1)) lv;
    modify parent (set_Values pvs) ;;
    (* remove borrowed key from left sibling *)
    do ln <- load leftSibling;
    do ks <- slice_to (Keys ln) (wrap (Size ln - 1));
    do vs <- slice_to (Values ln) (wrap (Size ln - 1));
    modify leftSibling (fun n => set_Size (wrap (Size n - 1))
                          (set_Values vs (set_Keys ks n))) ;;
    do nn <- load node;
    (if IsLeaf nn then ret tt
     else
       do ln <- load leftSibling;
       do borrowedChild <- index (Children ln) (Size ln);
       modify node (fun n => set_Children (borrowedChild :: Children n) n) ;;
       modify borrowedChild (set_Parent (Some node)) ;;
       do ln <- load leftSibling;
       do cs <- slice_to (Children ln) (wrap (Size ln + 1));
       modify leftSibling (set_Children cs)) ;;
    checkInvariants fuel (Some parent).

Definition borrowFromRightSibling (parent : ptr) (idx : Z) : M unit :=
  do pn <- load parent;
  do node <- index (Children pn) idx;
  do rightSibling <- index (Children pn) (wrap (idx + 1));
  (* move parent's key down to node *)
  do pn <- load parent;
  do sk <- index (Keys pn) idx;
  do sv <- index (Values pn) idx;
  modify node (fun n => set_Size (wrap (Size n + 1))
                 (set_Values (Values n ++ [sv]) (set_Keys (Keys n ++ [sk]) n))) ;;
  (* move right sibling's first key to parent *)
  do rn <- load rightSibling;
  do rk <- index (Keys rn) 0;
  do pn <- load parent;
  do pks <- set_index (Keys pn) idx rk;
  modify parent (set_Keys pks) ;;
  do rn <- load rightSibling;
  do rv <- index (Values rn) 0;
  do pn <- load parent;
  do pvs <- set_index (Values pn) idx rv;
  modify parent (set_Values pvs) ;;
  (* remove borrowed key from right sibling *)
  do rn <- load rightSibling;
  do ks <- slice_from (Keys rn) 1;
  do vs <- slice_from (Values rn) 1;
  modify rightSibling (fun n => set_Size (wrap (Size n - 1))
                         (set_Values vs (set_Keys ks n))) ;;
  do nn <- load node;
  if IsLeaf nn then ret tt
  else
    do rn <- load rightSibling;
    do borrowedChild <- index (Children rn) 0;
    modify node (fun n => set_Children (Children n ++ [borrowedChild]) n) ;;
    modify borrowedChild (set_Parent (Some node)) ;;
    do rn <- load rightSibling;
    do cs <- slice_from (Children rn) 1;
    modify rightSibling (set_Children cs).

Definition mergeWithLeftSibling (fuel : nat) (parent : ptr) (leftIndex : Z) : M unit :=
  do pn <- load parent;
  let originalParentSize := len (Keys pn) in
  if (leftIndex <? 0) || (leftIndex >=? originalParentSize)
  then panic "mergeWithLeftSibling: invalid merge index %d (parent has %d keys)"
  else if wrap (leftIndex + 1) >=? len (Children pn)
  then panic "mergeWithLeftSibling: not enough children, leftIndex %d, children length %d"
  else
    do leftSibling <- index (Children pn) leftIndex;
    do node <- index (Children pn) (wrap (leftIndex + 1));
    load leftSibling ;; load node ;;
    (* move the separator key from parent to leftSibling *)
    do pn <- load parent;
    do sk <- index (Keys pn) leftIndex;
    do sv <- index (Values pn) leftIndex;
    modify leftSibling (fun n => set_Size (len (Keys n ++ [sk]))
                          (set_Values (Values n ++ [sv]) (set_Keys (Keys n ++ [sk]) n))) ;;
    (* merge node's keys and values into leftSibling *)
    do nn <- load node;
    modify leftSibling (fun n => set_Size (len (Keys n ++ Keys nn))
                          (set_Values (Values n ++ Values nn)
                             (set_Keys (Keys n ++ Keys nn) n))) ;;
    do nn <- load node;
    (if IsLeaf nn then ret tt
     else
       modify leftSibling (fun n => set_Children (Children n ++ Children nn) n) ;;
       do nn <- load node;
       for_each (Children nn) (fun c => modify c (set_Parent (Some leftSibling)))) ;;
    (* remove the separator key and the merged child from parent *)
    do pn <- load parent;
    do k1 <- slice_to (Keys pn) leftIndex;
    do k2 <- slice_from (Keys pn) (wrap (leftIndex + 1));
    do v1 <- slice_to (Values pn) leftIndex;
    do v2 <- slice_from (Values pn) (wrap (leftIndex + 1));
    do c1 <- slice_to (Children pn) (wrap (leftIndex + 1));
    do c2 <- slice_from (Children pn) (wrap (leftIndex + 2));
    do cs <- set_index (c1 ++ c2) leftIndex leftSibling;
    modify parent (fun n => set_Size (len (k1 ++ k2))
                     (set_Children cs (set_Values (v1 ++ v2) (set_Keys (k1 ++ k2) n)))) ;;
    do pn <- load parent;
    if negb (len (Children pn) =? wrap (Size pn + 1))
    then panic "mergeWithLeftSibling: invariant violation: parent's children count %d != keys count %d + 1"
    else
      checkInvariants fuel (Some parent) ;;
      do pn <- load parent;
      if bool_decide (Parent pn = None) && (Size pn =? 0) then
        load leftSibling ;;
        modify_tree (set_Root (Some leftSibling)) ;;
        modify leftSibling (set_Parent None) ;;
        modify_tree (fun t => set_Height (wrap (Height t - 1)) t)
      else ret tt.

Definition mergeWithRightSibling (fuel : nat) (parent : ptr) (idx : Z) : M unit :=
  load parent ;;
  modify parent (fun n => set_Size (len (Keys n)) n) ;;
  do pn <- load parent;
  if Size pn =? 0
  then panic "mergeWithRightSibling: parent has 0 keys, cannot merge"
  else if (idx <? 0) || (idx >=? Size pn)
  then panic "mergeWithRightSibling: invalid index %d (parent has %d keys)"
  else if wrap (idx + 1) >=? len (Children pn)
  then panic "mergeWithRightSibling: not enough children, index %d, children length %d"
  else
    do node <- index (Children pn) idx;
    do rightSibling <- index (Children pn) (wrap (idx + 1));
    load node ;; load rightSibling ;;
    (* move parent's key down to node *)
    do pn <- load parent;
    do sk <- index (Keys pn) idx;
    do sv <- index (Values pn) idx;
    modify node (fun n => set_Size (len (Keys n ++ [sk]))
                   (set_Values (Values n ++ [sv]) (set_Keys (Keys n ++ [sk]) n))) ;;
    (* merge rightSibling's keys and values into node *)
    do rn <- load rightSibling;
    modify node (fun n => set_Size (len (Keys n ++ Keys rn))
                   (set_Values (Values n ++ Values rn) (set_Keys (Keys n ++ Keys rn) n))) ;;
    do nn <- load node;
    (if IsLeaf nn then ret tt
     else
       do rn <- load rightSibling;
       modify node (fun n => set_Children (Children n ++ Children rn) n) ;;
       do rn <- load rightSibling;
       for_each (Children rn) (fun c => modify c (set_Parent (Some node)))) ;;
    (* remove the merged key and rightSibling pointer from parent *)
    do pn <- load parent;
    do k1 <- slice_to (Keys pn) idx;
    do k2 <- slice_from (Keys pn) (wrap (idx + 1));
    do v1 <- slice_to (Values pn) idx;
    do v2 <- slice_from (Values pn) (wrap (idx + 1));
    do c1 <- slice_to (Children pn) (wrap (idx + 1));
    do c2 <- slice_from (Children pn) (wrap (idx + 2));
    modify parent (fun n => set_Size (len (k1 ++ k2))
                     (set_Children (c1 ++ c2) (set_Values (v1 ++ v2) (set_Keys (k1 ++ k2) n)))) ;;
    do pn <- load parent;
    if negb (len (Children pn) =? wrap (Size pn + 1))
    then panic "mergeWithRightSibling: invariant violation: parent's children count %d != keys count %d + 1"
    else checkInvariants fuel (Some parent).

Fixpoint balanceAfterDeletion (gas : nat) (fuel : nat) (node : ptr) : M unit :=
  match fuel with
  | O => out_of_fuel
  | S f =>
    do n <- load node;
    if (Size n >=? MinKeys n) || bool_decide (Parent n = None) then
      if bool_decide (Parent n = None) && (Size n =? 0) && (len (Children n) >? 0) then
        do c <- index (Children n) 0;
        modify_tree (set_Root (Some c)) ;;
        modify c (set_Parent None) ;;
        modify_tree (fun t => set_Height (wrap (Height t - 1)) t)
      else ret tt
    else
      do parent <- deref (Parent n);
      do pn <- load parent;
      let childIndex := find_child (Children pn) node 0 in
      if (childIndex <? 0) || (childIndex >=? len (Children pn))
      then panic "invalid child index %d in parent with %d children"
      else
        do borrowed <-
          (if childIndex >? 0 then
             do leftSibling <- index (Children pn) (wrap (childIndex - 1));
             do ln <- load leftSibling;
             if Size ln >? MinKeys ln then
               borrowFromLeftSibling gas parent childIndex ;; ret true
             else ret false
           else ret false);
        if borrowed : bool then ret tt
        else
          do pn <- load parent;
          do borrowed <-
            (if childIndex <? wrap (len (Children pn) - 1) then
               do rightSibling <- index (Children pn) (wrap (childIndex + 1));
               do rn <- load rightSibling;
               if Size rn >? MinKeys rn then
                 borrowFromRightSibling parent childIndex ;; ret true
               else ret false
             else ret false);
          if borrowed : bool then ret tt
          else
            (if childIndex >? 0
             then mergeWithLeftSibling gas parent (wrap (childIndex - 1))
             else mergeWithRightSibling gas parent childIndex) ;;
            do pn <- load parent;
            if Size pn <? MinKeys pn then balanceAfterDeletion gas f parent
            else ret tt
  end.

(** ** tree.go: deletion *)

(** [for !current.IsLeaf { current = current.Children[current.Size] }] *)
Fixpoint last_leaf (fuel : nat) (current : ptr) : M ptr :=
  match fuel with
  | O => out_of_fuel
  | S f =>
    do n <- load current;
    if IsLeaf n then ret current
    else do c <- index (Children n) (Size n); last_leaf f c
  end.

(** [for !current.IsLeaf { current = current.Children[0] }] *)
Fixpoint first_leaf (fuel : nat) (current : ptr) : M ptr :=
  match fuel with
  | O => out_of_fuel
  | S f =>
    do n <- load current;
    if IsLeaf n then ret current
    else do c <- index (Children n) 0; first_leaf f c
  end.

Definition getPredecessor (fuel : nat) (node : ptr) : M (ptr * Z * V) :=
  do current <- last_leaf fuel node;
  do n <- load current;
  do predKey <- index (Keys n) (wrap (Size n - 1));
  do predValue <- index (Values n) (wrap (Size n - 1));
  ret (current, predKey, predValue).

Definition getSuccessor (fuel : nat) (node : ptr) : M (ptr * Z * V) :=
  do current <- first_leaf fuel node;
  do n <- load current;
  do succKey <- index (Keys n) 0;
  do succValue <- index (Values n) 0;
  ret (current, succKey, succValue).

Definition mergeChildren (fuel : nat) (node : ptr) (idx : Z) : M unit :=
  do nn <- load node;
  if (idx <? 0) || (idx >=? wrap (len (Children nn) - 1))
  then panic "mergeChildren: invalid index %d (node.Children length %d)"
  else
    do leftChild <- index (Children nn) idx;
    do rightChild <- index (Children nn) (wrap (idx + 1));
    load leftChild ;; load rightChild ;;
    (* move the separator key from node to leftChild *)
    do nn <- load node;
    do sk <- index (Keys nn) idx;
    do sv <- index (Values nn) idx;
    modify leftChild (fun n => set_Size (len (Keys n ++ [sk]))
                        (set_Values (Values n ++ [sv]) (set_Keys (Keys n ++ [sk]) n))) ;;
    (* merge rightChild's keys and values into leftChild *)
    do rn <- load rightChild;
    modify leftChild (fun n => set_Size (len (Keys n ++ Keys rn))
                        (set_Values (Values n ++ Values rn)
                           (set_Keys (Keys n ++ Keys rn) n))) ;;
    do ln <- load leftChild;
    (if IsLeaf ln then ret tt
     else
       do rn <- load rightChild;
       modify leftChild (fun n => set_Children (Children n ++ Children rn) n) ;;
       do rn <- load rightChild;
       for_each (Children rn) (fun c => modify c (set_Parent (Some leftChild)))) ;;
    (* remove the separator key and the pointer for rightChild from node *)
    do nn <- load node;
    do k1 <- slice_to (Keys nn) idx;
    do k2 <- slice_from (Keys nn) (wrap (idx + 1));
    do v1 <- slice_to (Values nn) idx;
    do v2 <- slice_from (Values nn) (wrap (idx + 1));
    do c1 <- slice_to (Children nn) (wrap (idx + 1));
    do c2 <- slice_from (Children nn) (wrap (idx + 2));
    modify node (fun n => set_Size (len (k1 ++ k2))
                   (set_Children (c1 ++ c2) (set_Values (v1 ++ v2) (set_Keys (k1 ++ k2) n)))) ;;
    do nn <- load node;
    if negb (len (Children nn) =? wrap (Size nn + 1))
    then panic "mergeChildren: invariant violation: node's children count %d != keys count %d + 1"
    else
      checkInvariants fuel (Some node) ;;
      do nn <- load node;
      if (Size nn =? 0) && bool_decide (Parent nn = None) then
        load leftChild ;;
        modify_tree (set_Root (Some leftChild)) ;;
        modify leftChild (set_Parent None) ;;
        modify_tree (fun t => set_Height (wrap (Height t - 1)) t)
      else ret tt.

(** [deleteInternal], with the recursive calls to [deleteNode] abstracted as
    [deleteNode_rec]. *)
Definition deleteInternal (gas : nat) (deleteNode_rec : ptr -> Z -> M unit)
    (node : ptr) (idx : Z) : M unit :=
  do nn <- load node;
  do key <- index (Keys nn) idx;
  do leftChild <- index (Children nn) idx;
  do rightChild <- index (Children nn) (wrap (idx + 1));
  do ln <- load leftChild;
  if Size ln >? MinKeys ln then
    (* case 1: borrow predecessor *)
    do pred <- getPredecessor gas leftChild;
    let '(predNode, predKey, predValue) := pred in
    do nn <- load node;
    do ks <- set_index (Keys nn) idx predKey;
    do vs <- set_index (Values nn) idx predValue;
    modify node (fun n => set_Values vs (set_Keys ks n)) ;;
    deleteNode_rec predNode predKey ;;
    checkInvariants gas (Some node)
  else
    do rn <- load rightChild;
    if Size rn >? MinKeys rn then
      (* case 2: borrow successor *)
      do succ <- getSuccessor gas rightChild;
      let '(succNode, succKey, succValue) := succ in
      do nn <- load node;
      do ks <- set_index (Keys nn) idx succKey;
      do vs <- set_index (Values nn) idx succValue;
      modify node (fun n => set_Values vs (set_Keys ks n)) ;;
      deleteNode_rec succNode succKey ;;
      checkInvariants gas (Some node)
    else
      (* case 3: merge with sibling *)
      do nn <- load node;
      do degenerate <-
        match Parent nn with
        | None => ret true
        | Some q => do qn <- load q; ret (Size qn =? 0)
        end;
      if degenerate : bool then
        mergeChildren gas node idx ;;
        checkInvariants gas (Some node)
      else
        do parent <- deref (Parent nn);
        do pn <- load parent;
        let childIndex := find_child (Children pn) node 0 in
        if (childIndex <? 0) || (childIndex >=? len (Children pn))
        then panic "deleteInternal: node not found in parent's children"
        else
          (if childIndex >? 0 then
             mergeWithLeftSibling gas parent (wrap (childIndex - 1)) ;;
             do pn <- load parent;
             do c <- index (Children pn) (wrap (childIndex - 1));
             deleteNode_rec c key
           else
             mergeWithRightSibling gas parent childIndex ;;
             do pn <- load parent;
             do c <- index (Children pn) childIndex;
             deleteNode_rec c key) ;;
          checkInvariants gas (Some node).

Fixpoint deleteNode (gas : nat) (fuel : nat) (node : ptr) (key : Z) : M unit :=
  match fuel with
  | O => out_of_fuel
  | S f =>
    do t <- get_tree;
    do n <- load node;
    do i <- scan_up (Comparator t) (Keys n) key (Size n) (S (Z.to_nat (Size n))) 0;
    do hit <- (if i <? Size n then
                 do k <- index (Keys n) i;
                 ret (Comparator t k key =? 0)
               else ret false);
    (if hit : bool then
       if IsLeaf n then
         do k1 <- slice_to (Keys n) i;
         do k2 <- slice_from (Keys n) (wrap (i + 1));
         do v1 <- slice_to (Values n) i;
         do v2 <- slice_from (Values n) (wrap (i + 1));
         modify node (fun n => set_Size (wrap (Size n - 1))
                        (set_Values (v1 ++ v2) (set_Keys (k1 ++ k2) n))) ;;
         checkInvariants gas (Some node) ;;
         do n <- load node;
         if Size n <? MinKeys n then balanceAfterDeletion gas gas node
         else ret tt
       else deleteInternal gas (deleteNode gas f) node i
     else if negb (IsLeaf n) then
       do c <- index (Children n) i;
       deleteNode gas f c key
     else ret tt) ;;
    checkInvariants gas (Some node)
  end.

Definition Delete (fuel : nat) (key : Z) : M unit :=
  do t <- get_tree;
  match Root t with
  | None => ret tt
  | Some r =>
    deleteNode fuel fuel r key ;;
    do t <- get_tree;
    do r <- deref (Root t);
    do rn <- load r;
    (if (Size rn =? 0) && negb (IsLeaf rn) then
       do c <- index (Children rn) 0;
       modify_tree (fun t => set_Height (wrap (Height t - 1)) (set_Root (Some c) t)) ;;
       load c ;; ret tt
     else ret tt) ;;
    modify_tree (fun t => set_Tree_Size (wrap (Tree_Size t - 1)) t) ;;
    do t <- get_tree;
    checkInvariants fuel (Root t)
  end.

(** ** tree.go: validation *)

(** [for i := 1; i < node.Size; i++ { if cmp(keys[i-1], keys[i]) >= 0 { return false } }] *)
Fixpoint keys_sorted (cmp : Z -> Z -> Z) (keys : list Z) (size : Z)
    (fuel : nat) (i : Z) : M bool :=
  match fuel with
  | O => out_of_fuel
  | S f =>
    if i <? size then
      do a <- index keys (i - 1);
      do b <- index keys i;
      if cmp a b >=? 0 then ret false
      else keys_sorted cmp keys size f (i + 1)
    else ret true
  end.

(** The loop over the children in [validateNode]; [validate] is the
    recursive call. *)
Fixpoint validate_children (validate : ptr -> M bool) (node : ptr)
    (children : list ptr) : M bool :=
  match children with
  | [] => ret true
  | child :: rest =>
    do cn <- load child;
    if negb (bool_decide (Parent cn = Some node)) then ret false
    else
      do ok <- validate child;
      if ok : bool then validate_children validate node rest else ret false
  end.

Fixpoint validateNode (fuel : nat) (node : ptr) (isRoot : bool) : M bool :=
  match fuel with
  | O => out_of_fuel
  | S f =>
    do t <- get_tree;
    do n <- load node;
    if negb isRoot && ((Size n <? MinKeys n) || (Size n >? MaxKeys n)) then ret false
    else
      do sorted <- keys_sorted (Comparator t) (Keys n) (Size n) (S (Z.to_nat (Size n))) 1;
      if negb sorted then ret false
      else if negb (IsLeaf n) then
        validate_children (fun c => validateNode f c false) node (Children n)
      else ret true
  end.

Definition ValidateTree (fuel : nat) : M bool :=
  do t <- get_tree;
  match Root t with
  | None => ret true
  | Some r => validateNode fuel r true
  end.

(** ** Reading a tree off the heap

    [reify] follows the child pointers from [p] and returns the tree of
    nodes found, each with its address and with its [Parent] field erased
    (parent links are navigation data, not content).  The functions below
    it are the observations used to state properties. *)

Inductive btree : Type :=
| BNode (p : ptr) (n : Node) (kids : list btree).

Definition root_of (t : btree) : ptr := match t with BNode p _ _ => p end.
Definition node_of (t : btree) : Node := match t with BNode _ n _ => n end.
Definition kids_of (t : btree) : list btree := match t with BNode _ _ k => k end.

Definition erase (n : Node) : Node := set_Parent None n.

Fixpoint reify_list (rec : ptr -> option btree) (ps : list ptr) : option (list btree) :=
  match ps with
  | [] => Some []
  | p :: ps' =>
    match rec p, reify_list rec ps' with
    | Some t, Some ts => Some (t :: ts)
    | _, _ => None
    end
  end.

Fixpoint reify (fuel : nat) (h : gmap ptr Node) (p : ptr) : option btree :=
  match fuel with
  | O => None
  | S f =>
    match h !! p with
    | None => None
    | Some n =>
      if IsLeaf n then Some (BNode p (erase n) [])
      else
        match reify_list (reify f h) (Children n) with
        | Some ts => Some (BNode p (erase n) ts)
        | None => None
        end
    end
  end.

(** The tree hanging from [Root], read with as much fuel as there are
    cells: enough for any acyclic structure. *)
Definition tree_of (st : state) : option btree :=
  match Root (tree st) with
  | None => None
  | Some r => reify (S (size (mem st))) (mem st) r
  end.

Fixpoint ptrs (t : btree) : list ptr :=
  match t with
  | BNode p _ kids => p :: flat_map ptrs kids
  end.

Fixpoint height (t : btree) : nat :=
  match t with
  | BNode _ _ kids => S (foldr (fun k m => Nat.max (height k) m) O kids)
  end.

(** The sum of the node-local [Size] fields. *)
Fixpoint sum_sizes (t : btree) : Z :=
  match t with
  | BNode _ n kids => Size n + foldr (fun k s => sum_sizes k + s) 0 kids
  end.

(** Key/value pairs in symmetric order: child 0, key 0, child 1, key 1, ... *)
Fixpoint interleave {A} (subs : list (list A)) (seps : list A) : list A :=
  match subs with
  | [] => seps
  | s :: subs' =>
    s ++ match seps with
         | [] => interleave subs' []
         | x :: seps' => x :: interleave subs' seps'
         end
  end.

Fixpoint entries (t : btree) : list (Z * V) :=
  match t with
  | BNode _ n kids => interleave (map entries kids) (zip (Keys n) (Values n))
  end.

Definition keys_of (t : btree) : list Z := map fst (entries t).

(** The keys alone, node by node. *)
Inductive ktree : Type :=
| KNode (keys : list Z) (kids : list ktree).

Fixpoint key_shape (t : btree) : ktree :=
  match t with
  | BNode _ n kids => KNode (Keys n) (map key_shape kids)
  end.

(** ** Well-formed trees

    [node_ok]: the node-local part of the data-model invariants for degree
    [d]: [Size] is the number of keys, values run parallel to keys, the
    occupancy bounds are those of the degree, the node is not over-full, a
    leaf has no children and an internal node one more child than keys. *)
Definition node_ok (d : Z) (n : Node) : bool :=
  (Size n =? len (Keys n)) && (len (Values n) =? len (Keys n))
  && (MaxKeys n =? 2 * d - 1) && (MinKeys n =? d - 1)
  && (Size n <=? 2 * d - 1)
  && (if IsLeaf n then bool_decide (Children n = [])
      else len (Children n) =? Size n + 1).

Fixpoint shape_ok (d : Z) (t : btree) : bool :=
  match t with
  | BNode _ n kids =>
    node_ok d n
    && (if IsLeaf n then bool_decide (kids = [])
        else bool_decide (map root_of kids = Children n))
    && forallb (shape_ok d) kids
  end.

(** [node_ok], read as propositions. *)
Record node_facts (d : Z) (n : Node) : Prop := {
  nf_size : Size n = len (Keys n);
  nf_values : len (Values n) = len (Keys n);
  nf_max : MaxKeys n = 2 * d - 1;
  nf_min : MinKeys n = d - 1;
  nf_bound : Size n <= 2 * d - 1;
  nf_leaf : IsLeaf n = true -> Children n = [];
  nf_internal : IsLeaf n = false -> len (Children n) = Size n + 1
}.

(** A well-formed tree: every node is [node_ok], no node occurs twice (the
    pointer graph is a tree), and every address is below the allocation
    pointer. *)
Definition wf_tree (d : Z) (next : ptr) (t : btree) : bool :=
  shape_ok d t
  && bool_decide (NoDup (ptrs t))
  && forallb (fun p => Pos.ltb p next) (ptrs t).

(** [rep h t]: the heap [h] holds the tree [t], parent links apart. *)
Inductive rep (h : gmap ptr Node) : btree -> Prop :=
| rep_node p n n' kids :
    h !! p = Some n' ->
    erase n' = n ->
    Forall (rep h) kids ->
    rep h (BNode p n kids).

(** ** The split, as the specification words it

    For a full child of degree [d]: the original child keeps its lower
    [d-1] keys and values (and, if internal, its lower [d] children); the
    new sibling receives the upper [d-1] keys and values (and the upper [d]
    children); the parent receives the median at [idx] and the new sibling
    immediately after the original child. *)
Definition split_lower (d : Z) (child : Node) : Node :=
  mkNode (take (Z.to_nat (d - 1)) (Keys child))
         (if IsLeaf child then Children child
          else take (Z.to_nat d) (Children child))
         (IsLeaf child) (Parent child) (d - 1) (MaxKeys child) (MinKeys child)
         (take (Z.to_nat (d - 1)) (Values child)).

Definition split_upper (d : Z) (parent : ptr) (child : Node) : Node :=
  mkNode (drop (Z.to_nat d) (Keys child))
         (if IsLeaf child then [] else drop (Z.to_nat d) (Children child))
         (IsLeaf child) (Some parent) (d - 1) (2 * d - 1) (d - 1)
         (drop (Z.to_nat d) (Values child)).

Definition median_key (d : Z) (child : Node) : Z :=
  nth (Z.to_nat (d - 1)) (Keys child) 0.

Definition median_value (d : Z) (child : Node) : V :=
  nth (Z.to_nat (d - 1)) (Values child) vnil.

Definition split_parent (d idx : Z) (newChild : ptr) (child parent : Node) : Node :=
  let i := Z.to_nat idx in
  mkNode (take i (Keys parent) ++ median_key d child :: drop i (Keys parent))
         (take (S i) (Children parent) ++ newChild :: drop (S i) (Children parent))
         (IsLeaf parent) (Parent parent) (Size parent + 1)
         (MaxKeys parent) (MinKeys parent)
         (take i (Values parent) ++ median_value d child :: drop i (Values parent)).

(** The same on trees. *)
Definition tree_lower (d : Z) (tc : btree) : btree :=
  match tc with
  | BNode c cn kc => BNode c (split_lower d cn) (take (Z.to_nat d) kc)
  end.

Definition tree_upper (d : Z) (q : ptr) (tc : btree) : btree :=
  match tc with
  | BNode c cn kc => BNode q (erase (split_upper d q cn)) (drop (Z.to_nat d) kc)
  end.

(** ** Search order

    [agrees cmp key a]: between the stored key [a] and the probe [key] the
    comparator reports the order of the integers.  [ordered t]: the keys of
    [t], read in symmetric order, ascend. *)
Definition agrees (cmp : Z -> Z -> Z) (key a : Z) : Prop :=
  (cmp a key < 0 <-> a < key) /\ (cmp a key > 0 <-> a > key).

Definition ordered (t : btree) : Prop := StronglySorted Z.le (keys_of t).

(** The nodes of a tree, in preorder. *)
Fixpoint nodes (t : btree) : list Node :=
  match t with
  | BNode _ n kids => n :: flat_map nodes kids
  end.

(** [split_median d t a]: [a] is the median key of a full node of [t], the
    key that [splitChild] moves up when it splits that node. *)
Definition split_median (d : Z) (t : btree) (a : Z) : Prop :=
  exists n, In n (nodes t) /\ Size n = 2 * d - 1 /\ median_key d n = a.

(** [placed_at cmp M e t t']: [t'] is [t] with the pair [e] at the position
    that the scan of [insertNonFull],
    [for i >= 0 && cmp(keys[i], key) > 0 { i-- }], gives it.  The pair sits
    in a leaf [n] of [t']; in that leaf every pair behind it has a key that
    compares above the new key, and the pair before it, if there is one,
    has a key that does not.  In symmetric order the pairs of the old tree
    keep their order around the new one.  The pair before those of the
    leaf is a separator that an ancestor's scan stopped at, or the median
    of a split that compared below the new key: it does not compare above
    the new key.  The pair behind those of the leaf is a separator that an
    ancestor's scan passed, which compares above the new key, or else a key
    in [M] that does not compare below it. *)
Definition placed_at (cmp : Z -> Z -> Z) (M : Z -> Prop) (e : Z * V)
    (t t' : btree) : Prop :=
  exists (A K1 K2 B : list (Z * V)) (n : Node),
    entries t = A ++ K1 ++ K2 ++ B /\
    entries t' = A ++ K1 ++ e :: K2 ++ B /\
    In n (nodes t') /\ IsLeaf n = true /\
    zip (Keys n) (Values n) = K1 ++ e :: K2 /\
    Forall (fun x => cmp (fst x) (fst e) > 0) K2 /\
    (forall x, last K1 = Some x -> cmp (fst x) (fst e) <= 0) /\
    (forall x, last A = Some x -> cmp (fst x) (fst e) <= 0) /\
    (forall x, head B = Some x ->
       cmp (fst x) (fst e) > 0 \/ (cmp (fst x) (fst e) >= 0 /\ M (fst x))).

(** [placed cmp d e t t']: the same, where the only keys behind the new
    pair that may compare equal to it are medians of full nodes of [t]:
    medians that a split on the way down has moved up, the new pair having
    gone to the lower half. *)
Definition placed (cmp : Z -> Z -> Z) (d : Z) (e : Z * V) (t t' : btree) : Prop :=
  placed_at cmp (split_median d t) e t t'.

(** [grown d e st t st' t' news]: between the states [st] and [st'] the
    subtree [t] became [t'] by gaining the entry [e]: same root, same tree
    header, the nodes of [t'] are those of [t] and the freshly allocated
    [news], nothing outside [t] was touched, [t'] is again well-shaped, and
    it is again in search order where the comparator agrees with the order
    of the integers on the keys it met. *)
Record grown (d : Z) (e : Z * V) (st : state) (t : btree)
    (st' : state) (t' : btree) (news : list ptr) : Prop := {
  g_tree : tree st' = tree st;
  g_rep : rep (mem st') t';
  g_shape : shape_ok d t' = true;
  g_root : root_of t' = root_of t;
  g_ptrs : ptrs t' ≡ₚ news ++ ptrs t;
  g_news : Forall (fun q => (next_ptr st <= q < next_ptr st')%positive) news;
  g_nodup : NoDup news;
  g_next : (next_ptr st <= next_ptr st')%positive;
  g_frame : forall q, ~ In q (ptrs t) -> (q < next_ptr st)%positive ->
                      mem st' !! q = mem st !! q;
  g_entries : entries t' ≡ₚ e :: entries t;
  g_height : (height t' <= height t)%nat;
  g_ordered : Forall (agrees (Comparator (tree st)) (fst e)) (keys_of t) ->
              ordered t -> ordered t'
}.

(** Total correctness of a computation: it returns, and the result and
    final state satisfy [Q]. *)
Definition wp {A} (c : M A) (Q : A -> state -> Prop) (st : state) : Prop :=
  match c st with
  | Ok (a, st') => Q a st'
  | _ => False
  end.

(** The value a call returned, without the state. *)
Definition result_of {A} (o : outcome (A * state)) : outcome A :=
  match o with
  | Ok (a, _) => Ok a
  | Error msg => Error msg
  | Panic msg => Panic msg
  | OutOfFuel => OutOfFuel
  end.

(** A caller: a sequence of public mutating calls. *)
Inductive call : Type :=
| INS (key : Z) (value : V)
| DEL (key : Z).

Fixpoint run (fuel : nat) (calls : list call) : M unit :=
  match calls with
  | [] => ret tt
  | INS key value :: rest => Insert fuel key value ;; run fuel rest
  | DEL key :: rest => Delete fuel key ;; run fuel rest
  end.

(** The caller that inserts the given pairs, first to last. *)
Definition insert_all (kvs : list (Z * V)) : list call :=
  map (fun kv => INS (fst kv) (snd kv)) kvs.

(** Keys far enough from the ends of the 64-bit range that the difference
    of two of them does not wrap around. *)
Definition small_key (k : Z) : Prop := - 2 ^ 62 <= k < 2 ^ 62.

(** [holds d st kvs]: the tree of [st] has degree [d] and the default
    comparator, is well formed and in search order, and holds exactly the
    pairs [kvs], [Tree.Size] being their number. *)
Definition holds (d : Z) (st : state) (kvs : list (Z * V)) : Prop :=
  exists t,
    tree_of st = Some t /\
    wf_tree d (next_ptr st) t = true /\
    Degree (tree st) = d /\
    Comparator (tree st) = default_comparator /\
    ordered t /\
    entries t ≡ₚ kvs /\
    Tree_Size (tree st) = len kvs /\
    (height t <= length kvs)%nat.

End Model.

Arguments INS {V} key value.
Arguments DEL {V} key.

(** * Concrete trees and callers

    Values are strings here; ["nil"] stands for the nil interface. *)

Definition nil_string : string := "nil".
Definition fuel64 : nat := 64.

(** [NewTree(2, logger)] *)
Definition tree2 : Tree := mkTree None 2 0 0 default_comparator.

Definition go (calls : list call) : outcome (unit * state) :=
  run nil_string fuel64 calls (init_state (V := string) tree2).

(** Ten keys inserted in descending order. *)
Definition descending : list call :=
  [INS 100 "j"; INS 90 "i"; INS 80 "h"; INS 70 "g"; INS 60 "f";
   INS 50 "e"; INS 40 "d"; INS 30 "c"; INS 20 "b"; INS 10 "a"]%string.

(** A snapshot as the persistence layer may hand it over: an internal root
    with one key and a single child, parent pointers rebuilt. *)
Definition lopsided : state :=
  mkState
    (<[1%positive := mkNode [10] [2%positive] false None 1 3 1 ["x"%string]]>
       (<[2%positive := mkNode [5] [] true (Some 1%positive) 1 3 1 ["y"%string]]> ∅))
    3%positive
    (mkTree (Some 1%positive) 2 2 2 default_comparator).

(** A leaf that carries a child pointer. *)
Definition leaf_with_child : state :=
  mkState
    (<[1%positive := mkNode [10] [2%positive] true None 1 3 1 ["x"%string]]>
       (<[2%positive := mkNode [5] [] true (Some 1%positive) 1 3 1 ["y"%string]]> ∅))
    3%positive
    (mkTree (Some 1%positive) 2 1 1 default_comparator).

(** A root [20] over the leaves [10] and [30 40 50] (degree 2): the second
    child is full. *)
Definition split_demo_parent : @Node string :=
  mkNode [20] [1%positive; 3%positive] false None 1 3 1 ["b"%string].

Definition split_demo_child : @Node string :=
  mkNode [30; 40; 50] [] true (Some 2%positive) 3 3 1 ["c"; "d"; "e"]%string.

Definition split_demo : state :=
  mkState
    (<[1%positive := mkNode [10] [] true (Some 2%positive) 1 3 1 ["a"%string]]>
       (<[2%positive := split_demo_parent]>
          (<[3%positive := split_demo_child]> ∅)))
    4%positive
    (mkTree (Some 2%positive) 2 5 2 default_comparator).

Definition split_demo_tree : btree :=
  BNode 2%positive (erase split_demo_parent)
    [BNode 1%positive (mkNode [10] [] true None 1 3 1 ["a"%string]) [];
     BNode 3%positive (erase split_demo_child) []].

(** A single full leaf [10 20 30] (degree 2). *)
Definition dup_demo_root : @Node string :=
  mkNode [10; 20; 30] [] true None 3 3 1 ["a"; "b"; "c"]%string.

Definition dup_demo : state :=
  mkState (<[1%positive := dup_demo_root]> ∅) 2%positive
          (mkTree (Some 1%positive) 2 3 1 default_comparator).



(** * The rest of the package: further observations and models *)

Section Observations.
Context {V : Type}.

(** [all_nodes P t]: every node of [t] passes the test [P]. *)
Fixpoint all_nodes (P : @Node V -> bool) (t : @btree V) : bool :=
  match t with
  | BNode _ n kids => P n && forallb (all_nodes P) kids
  end.

(** The panic message of [checkInvariants]. *)
Definition check_msg : string :=
  "Invariant violation: node %v has %d keys but %d children (expected %d)".

(** What [checkInvariants] asks of one node: a leaf, or one more child than
    [Size]. *)
Definition count_ok (n : @Node V) : bool :=
  IsLeaf n || (len (Children n) =? wrap (Size n + 1)).

(** What [validateNode] asks of the keys: adjacent keys compare strictly
    below each other, and a node other than the root is within its
    occupancy bounds. *)
Fixpoint ascending (cmp : Z -> Z -> Z) (l : list Z) : bool :=
  match l with
  | [] => true
  | a :: l' =>
    match l' with
    | [] => true
    | b :: _ => (cmp a b <? 0) && ascending cmp l'
    end
  end.

Definition node_valid (cmp : Z -> Z -> Z) (isRoot : bool) (n : @Node V) : bool :=
  (isRoot || ((MinKeys n <=? Size n) && (Size n <=? MaxKeys n)))
  && ascending cmp (take (Z.to_nat (Size n)) (Keys n)).

Fixpoint keys_valid (cmp : Z -> Z -> Z) (isRoot : bool) (t : @btree V) : bool :=
  match t with
  | BNode _ n kids => node_valid cmp isRoot n && forallb (keys_valid cmp false) kids
  end.

(** What it asks of the parent links: every child of a node points back
    to it.  The root's own [Parent] is not looked at. *)
Definition parent_is (h : gmap ptr (@Node V)) (p : ptr) (k : @btree V) : bool :=
  match h !! root_of k with
  | Some kn => bool_decide (Parent kn = Some p)
  | None => false
  end.

Fixpoint parents_ok (h : gmap ptr (@Node V)) (t : @btree V) : bool :=
  match t with
  | BNode p _ kids => forallb (fun k => parent_is h p k && parents_ok h k) kids
  end.

(** ** tree.go: [RebuildParentPointers] *)

Notation "'do' x <- c ; k" := (bind c (fun x => k))
  (at level 10, x name, c at level 100, k at level 200).
Notation "c ;; k" := (bind c (fun _ => k))
  (at level 100, k at level 200, right associativity).

Fixpoint rebuildParents (fuel : nat) (node : ptr) : @M V unit :=
  match fuel with
  | O => out_of_fuel
  | S f =>
    do n <- load node;
    for_each (Children n) (fun child =>
      modify child (set_Parent (Some node)) ;;
      rebuildParents f child)
  end.

Definition RebuildParentPointers (fuel : nat) : @M V unit :=
  do t <- get_tree;
  match Root t with
  | None => ret tt
  | Some r => rebuildParents fuel r
  end.

End Observations.

(** * pkg/logger

    A [Level] is a Go [int].  The logger's sink, a [log.Logger], is kept as
    the list of lines handed to its [Output], oldest first; the date, time
    and file prefix that [log.Logger] adds is outside this package and not
    part of a line.  A call takes its message already formatted. *)
Module logger.

Definition Level : Type := Z.

Definition Debug : Level := 0.
Definition Info : Level := 1.
Definition Warn : Level := 2.
Definition Error : Level := 3.

(** [func (l Level) String() string] *)
Definition Level_String (l : Level) : string :=
  if l =? Debug then "DEBUG"
  else if l =? Info then "INFO"
  else if l =? Warn then "WARN"
  else if l =? Error then "ERROR"
  else "UNKNOWN".

Record Logger := mkLogger {
  level : Level;
  lines : list string
}.

(** [New(level, out)], on a sink that holds [out] already. *)
Definition New (lvl : Level) (out : list string) : Logger := mkLogger lvl out.

Definition logf (l : Logger) (lvl msg : string) : Logger :=
  mkLogger (level l) (lines l ++ [("[" ++ lvl ++ "] " ++ msg)%string]).

Definition Debugf (l : Logger) (msg : string) : Logger :=
  if level l <=? Debug then logf l "DEBUG" msg else l.

Definition Infof (l : Logger) (msg : string) : Logger :=
  if level l <=? Info then logf l "INFO" msg else l.

Definition Warnf (l : Logger) (msg : string) : Logger :=
  if level l <=? Warn then logf l "WARN" msg else l.

Definition Errorf (l : Logger) (msg : string) : Logger :=
  if level l <=? Error then logf l "ERROR" msg else l.

(** [Panicf] writes its line whatever the level and then panics with the
    message: the logger as it is left, and the panic value. *)
Definition Panicf (l : Logger) (msg : string) : Logger * string :=
  (mkLogger (level l) (lines l ++ [("PANIC: " ++ msg)%string]), msg).

(** [ParseLevel]: the level, and the error if there is one. *)
Definition ParseLevel (s : string) : Level * option string :=
  if String.eqb s "debug" then (Debug, None)
  else if String.eqb s "info" then (Info, None)
  else if String.eqb s "warn" then (Warn, None)
  else if String.eqb s "error" then (Error, None)
  else (Info, Some ("invalid log level: " ++ s)%string).

End logger.

(** * pkg/config

    The environment is the function [os.Getenv] computes: the value of a
    variable, empty when it is not set.  [strconv.Atoi] belongs to the Go
    library and is a parameter: [None] stands for its error. *)
Module config.

Record Config := mkConfig {
  TreeDegree : Z;
  LogLevel : logger.Level;
  StoragePath : string
}.

Section Load.
Variable atoi : string -> option Z.
Variable getenv : string -> string.

Definition degree_error (degreeStr : string) : string :=
  ("invalid TREE_DEGREE: " ++ degreeStr ++ " (must be >= 2)")%string.

Definition level_error (logLevelStr : string) : string :=
  ("invalid LOG_LEVEL: " ++ logLevelStr)%string.

Definition Load : outcome Config :=
  let cfg := mkConfig 3 logger.Info "data/tree.json" in
  let degreeStr := getenv "TREE_DEGREE" in
  match (if negb (String.eqb degreeStr "") then
           match atoi degreeStr with
           | None => Error (degree_error degreeStr)
           | Some degree =>
             if degree <? 2 then Error (degree_error degreeStr)
             else Ok (mkConfig degree (LogLevel cfg) (StoragePath cfg))
           end
         else Ok cfg) with
  | Ok cfg =>
    let logLevelStr := getenv "LOG_LEVEL" in
    match (if negb (String.eqb logLevelStr "") then
             match logger.ParseLevel logLevelStr with
             | (_, Some _) => Error (level_error logLevelStr)
             | (logLevel, None) =>
               Ok (mkConfig (TreeDegree cfg) logLevel (StoragePath cfg))
             end
           else Ok cfg) with
    | Ok cfg =>
      let storagePath := getenv "STORAGE_PATH" in
      if negb (String.eqb storagePath "") then
        Ok (mkConfig (TreeDegree cfg) (LogLevel cfg) storagePath)
      else Ok cfg
    | other => other
    end
  | other => other
  end.

End Load.

End config.

(** A root [20] over the leaves [10] and [30 40] (degree 2), in search
    order, with its parent pointers in place. *)
Definition order_demo_root : @Node string :=
  mkNode [20] [1%positive; 3%positive] false None 1 3 1 ["b"%string].

Definition order_demo : state :=
  mkState
    (<[1%positive := mkNode [10] [] true (Some 2%positive) 1 3 1 ["a"%string]]>
       (<[2%positive := order_demo_root]>
          (<[3%positive := mkNode [30; 40] [] true (Some 2%positive) 2 3 1
                             ["c"; "d"]%string]> ∅)))
    4%positive
    (mkTree (Some 2%positive) 2 4 2 default_comparator).

Definition order_demo_tree : btree :=
  BNode 2%positive (erase order_demo_root)
    [BNode 1%positive (mkNode [10] [] true None 1 3 1 ["a"%string]) [];
     BNode 3%positive (mkNode [30; 40] [] true None 2 3 1 ["c"; "d"]%string) []].

(** A tree as the loader reads it: a root [10] over the leaves [5] and
    [15], no parent pointer set. *)
Definition loaded_demo : state :=
  mkState
    (<[1%positive := mkNode [10] [2%positive; 3%positive] false None 1 3 1 ["x"%string]]>
       (<[2%positive := mkNode [5] [] true None 1 3 1 ["y"%string]]>
          (<[3%positive := mkNode [15] [] true None 1 3 1 ["z"%string]]> ∅)))
    4%positive
    (mkTree (Some 1%positive) 2 3 2 default_comparator).

Definition loaded_demo_tree : btree :=
  BNode 1%positive (mkNode [10] [2%positive; 3%positive] false None 1 3 1 ["x"%string])
    [BNode 2%positive (mkNode [5] [] true None 1 3 1 ["y"%string]) [];
     BNode 3%positive (mkNode [15] [] true None 1 3 1 ["z"%string]) []].

(** A root [20] over an empty leaf and the leaf [30 40] (degree 2): the
    state in which [balanceAfterDeletion] is called on the left leaf. *)
Definition lend_right_demo : state :=
  mkState
    (<[1%positive := mkNode [] [] true (Some 2%positive) 0 3 1 []]>
       (<[2%positive := order_demo_root]>
          (<[3%positive := mkNode [30; 40] [] true (Some 2%positive) 2 3 1
                             ["c"; "d"]%string]> ∅)))
    4%positive
    (mkTree (Some 2%positive) 2 3 2 default_comparator).

Definition lend_right_tree : btree :=
  BNode 2%positive (erase order_demo_root)
    [BNode 1%positive (mkNode [] [] true None 0 3 1 []) [];
     BNode 3%positive (mkNode [30; 40] [] true None 2 3 1 ["c"; "d"]%string) []].

(** A root [20] over the leaf [5 10] and an empty leaf: the state in which
    [balanceAfterDeletion] is called on the right leaf. *)
Definition lend_left_demo : state :=
  mkState
    (<[1%positive := mkNode [5; 10] [] true (Some 2%positive) 2 3 1
                       ["e"; "a"]%string]>
       (<[2%positive := order_demo_root]>
          (<[3%positive := mkNode [] [] true (Some 2%positive) 0 3 1 []]> ∅)))
    4%positive
    (mkTree (Some 2%positive) 2 3 2 default_comparator).

Definition lend_left_tree : btree :=
  BNode 2%positive (erase order_demo_root)
    [BNode 1%positive (mkNode [5; 10] [] true None 2 3 1 ["e"; "a"]%string) [];
     BNode 3%positive (mkNode [] [] true None 0 3 1 []) []].

(** * Properties *)


Section Proofs.

Context {V : Type} (vnil : V).

Implicit Types (st : @state V) (h : gmap ptr (@Node V)).
Implicit Types (n pn cn : @Node V).
Implicit Types (t tc tp k : @btree V) (kids kc ls : list (@btree V)).
Implicit Types (p c q : ptr).

(** ** Machine arithmetic *)

Lemma wrap_id (z : Z) : min_int <= z <= max_int -> wrap z = z.
Proof.
  unfold wrap, min_int, max_int. intros H.
  rewrite Z.mod_small by lia. lia.
Qed.

Lemma len_nonneg {A} (l : list A) : 0 <= len l.
Proof. unfold len. lia. Qed.

Lemma len_app {A} (l l' : list A) : len (l ++ l') = len l + len l'.
Proof. unfold len. rewrite length_app. lia. Qed.

Lemma len_cons {A} (x : A) (l : list A) : len (x :: l) = len l + 1.
Proof. unfold len. simpl. lia. Qed.

Lemma copy_full {A} (dst src : list A) :
  length dst = length src -> copy dst src = src.
Proof.
  intros H. unfold copy.
  rewrite take_ge by lia. rewrite drop_ge by lia. apply app_nil_r.
Qed.

(** ** Rules for [wp] *)

Lemma wp_elim {A} (c : M A) (Q : A -> state -> Prop) st :
  wp c Q st -> exists a st', c st = Ok (a, st') /\ Q a st'.
Proof.
  unfold wp. destruct (c st) as [[a st']| | |]; try contradiction. eauto.
Qed.

Lemma wp_intro {A} (c : M A) (Q : A -> state -> Prop) st a st' :
  c st = Ok (a, st') -> Q a st' -> wp c Q st.
Proof. unfold wp. intros ->. auto. Qed.

Lemma wp_mono {A} (c : M A) (Q Q' : A -> state -> Prop) st :
  wp c Q st -> (forall a st', Q a st' -> Q' a st') -> wp c Q' st.
Proof.
  unfold wp. destruct (c st) as [[a st']| | |]; auto.
Qed.

Lemma wp_bind {A B} (c : M A) (k : A -> M B) (Q : B -> state -> Prop) st :
  wp c (fun a st' => wp (k a) Q st') st -> wp (bind c k) Q st.
Proof.
  unfold wp, bind. destruct (c st) as [[a st']| | |]; auto.
Qed.

Lemma wp_ret {A} (a : A) (Q : A -> state -> Prop) st : Q a st -> wp (ret a) Q st.
Proof. auto. Qed.

Lemma wp_get_tree (Q : Tree -> state -> Prop) st :
  Q (tree st) st -> wp get_tree Q st.
Proof. auto. Qed.

Lemma wp_modify_tree f (Q : unit -> state -> Prop) st :
  Q tt (mkState (mem st) (next_ptr st) (f (tree st))) -> wp (modify_tree f) Q st.
Proof. auto. Qed.

Lemma wp_load p n (Q : Node -> state -> Prop) st :
  mem st !! p = Some n -> Q n st -> wp (load p) Q st.
Proof. unfold wp, load. intros ->. auto. Qed.

Lemma wp_modify p f n (Q : unit -> state -> Prop) st :
  mem st !! p = Some n ->
  Q tt (mkState (alter f p (mem st)) (next_ptr st) (tree st)) ->
  wp (modify p f) Q st.
Proof. unfold wp, modify. intros ->. auto. Qed.

Lemma wp_alloc n (Q : ptr -> state -> Prop) st :
  Q (next_ptr st)
    (mkState (<[next_ptr st := n]> (mem st)) (Pos.succ (next_ptr st)) (tree st)) ->
  wp (alloc n) Q st.
Proof. auto. Qed.

Lemma wp_deref p (Q : ptr -> state -> Prop) st :
  Q p st -> wp (deref (Some p)) Q st.
Proof. auto. Qed.

Lemma wp_index {A} (l : list A) (i : Z) (a : A) (Q : A -> state -> Prop) st :
  0 <= i -> l !! Z.to_nat i = Some a -> Q a st -> wp (index l i) Q st.
Proof.
  intros Hi Hl HQ. unfold wp, index.
  destruct (i <? 0) eqn:E; [apply Z.ltb_lt in E; lia|].
  rewrite Hl. exact HQ.
Qed.

Lemma wp_set_index {A} (l : list A) (i : Z) (x : A) (Q : list A -> state -> Prop) st :
  0 <= i < len l -> Q (<[Z.to_nat i := x]> l) st -> wp (set_index l i x) Q st.
Proof.
  intros Hi HQ. unfold wp, set_index.
  destruct (0 <=? i) eqn:E1; [|apply Z.leb_gt in E1; lia].
  destruct (i <? len l) eqn:E2; [|apply Z.ltb_ge in E2; lia].
  exact HQ.
Qed.

Lemma wp_slice_to {A} (l : list A) (i : Z) (Q : list A -> state -> Prop) st :
  0 <= i <= len l -> Q (take (Z.to_nat i) l) st -> wp (slice_to l i) Q st.
Proof.
  intros Hi HQ. unfold wp, slice_to.
  destruct (0 <=? i) eqn:E1; [|apply Z.leb_gt in E1; lia].
  destruct (i <=? len l) eqn:E2; [|apply Z.leb_gt in E2; lia].
  exact HQ.
Qed.

Lemma wp_slice_from {A} (l : list A) (i : Z) (Q : list A -> state -> Prop) st :
  0 <= i <= len l -> Q (drop (Z.to_nat i) l) st -> wp (slice_from l i) Q st.
Proof.
  intros Hi HQ. unfold wp, slice_from.
  destruct (0 <=? i) eqn:E1; [|apply Z.leb_gt in E1; lia].
  destruct (i <=? len l) eqn:E2; [|apply Z.leb_gt in E2; lia].
  exact HQ.
Qed.

Lemma wp_make {A} (z : A) (m : Z) (Q : list A -> state -> Prop) st :
  0 <= m -> Q (replicate (Z.to_nat m) z) st -> wp (make z m) Q st.
Proof.
  intros Hk HQ. unfold wp, make.
  destruct (m <? 0) eqn:E; [apply Z.ltb_lt in E; lia|]. exact HQ.
Qed.

(** ** Trees: induction, shape, representation *)

Lemma btree_ind' (P : @btree V -> Prop) :
  (forall p n kids, Forall P kids -> P (BNode p n kids)) -> forall t, P t.
Proof.
  intros H. fix IH 1. intros [p n kids]. apply H.
  induction kids as [|k kids IHk]; constructor; [apply IH | apply IHk].
Qed.

Lemma forallb_Forall {A} (f : A -> bool) (l : list A) :
  forallb f l = true <-> Forall (fun x => f x = true) l.
Proof.
  induction l as [|x l IH]; simpl.
  - split; auto.
  - rewrite andb_true_iff, IH. split.
    + intros [? ?]. constructor; auto.
    + intros H. inversion H; auto.
Qed.

Lemma node_ok_facts d n : node_ok d n = true <-> node_facts d n.
Proof.
  unfold node_ok. rewrite !andb_true_iff, !Z.eqb_eq, Z.leb_le. split.
  - intros [[[[[H1 H2] H3] H4] H5] H6]. split; auto.
    + intros L. rewrite L in H6. apply bool_decide_eq_true in H6. exact H6.
    + intros L. rewrite L in H6. apply Z.eqb_eq in H6. exact H6.
  - intros [H1 H2 H3 H4 H5 H6 H7]. repeat split; auto.
    destruct (IsLeaf n).
    + apply bool_decide_eq_true. auto.
    + apply Z.eqb_eq. auto.
Qed.

Lemma shape_ok_node d p n kids :
  shape_ok d (BNode p n kids) = true <->
  node_facts d n /\
  (IsLeaf n = true -> kids = []) /\
  (IsLeaf n = false -> map root_of kids = Children n) /\
  Forall (fun k => shape_ok d k = true) kids.
Proof.
  simpl. rewrite !andb_true_iff, node_ok_facts, forallb_Forall. split.
  - intros [[H1 H2] H3]. split; [exact H1|]. split; [|split; [|exact H3]].
    + intros L. rewrite L in H2. apply bool_decide_eq_true in H2. exact H2.
    + intros L. rewrite L in H2. apply bool_decide_eq_true in H2. exact H2.
  - intros (H1 & H2 & H3 & H4). split; [split; [exact H1|]|exact H4].
    destruct (IsLeaf n); apply bool_decide_eq_true; auto.
Qed.

Lemma erase_fields n :
  Keys (erase n) = Keys n /\ Values (erase n) = Values n /\
  Children (erase n) = Children n /\ IsLeaf (erase n) = IsLeaf n /\
  Size (erase n) = Size n /\ MaxKeys (erase n) = MaxKeys n /\
  MinKeys (erase n) = MinKeys n.
Proof. repeat split. Qed.

Lemma erase_idem n : erase (erase n) = erase n.
Proof. reflexivity. Qed.

Lemma erase_set_Parent x n : erase (set_Parent x n) = erase n.
Proof. reflexivity. Qed.

Lemma node_facts_erase d n : node_facts d (erase n) <-> node_facts d n.
Proof. split; intros [H1 H2 H3 H4 H5 H6 H7]; split; auto. Qed.

Lemma in_ptrs_kid t k q :
  In k (kids_of t) -> In q (ptrs k) -> In q (ptrs t).
Proof.
  destruct t as [p n kids]. simpl. intros Hk Hq. right.
  apply in_flat_map. eauto.
Qed.

Lemma root_in_ptrs t : In (root_of t) (ptrs t).
Proof. destruct t. simpl. auto. Qed.

(** [rep] only reads the cells of the tree, and only up to [Parent]. *)
Lemma rep_ext h h' t :
  rep h t ->
  (forall q, In q (ptrs t) -> erase <$> h' !! q = erase <$> h !! q) ->
  rep h' t.
Proof.
  induction t as [p n kids IH] using btree_ind'.
  intros Hrep Hext. inversion Hrep as [p0 n0 n' kids0 Hp He Hk]; subst.
  pose proof (Hext p (or_introl eq_refl)) as Hp'. rewrite Hp in Hp'. simpl in Hp'.
  destruct (h' !! p) as [n''|] eqn:E; [|discriminate].
  simpl in Hp'. assert (He : erase n'' = erase n') by congruence. clear Hp'.
  apply rep_node with (n' := n''); auto.
  rewrite Forall_forall in IH, Hk. apply Forall_forall. intros k Hin.
  apply IH; auto.
  intros q Hq. apply Hext. simpl. right. apply in_flat_map. exists k.
  split; [apply list_elem_of_In; exact Hin | exact Hq].
Qed.

Lemma rep_lookup h t :
  rep h t -> exists n', h !! root_of t = Some n' /\ erase n' = node_of t.
Proof. intros H. inversion H; subst. simpl. eauto. Qed.

Lemma rep_kids h t : rep h t -> Forall (rep h) (kids_of t).
Proof. intros H. inversion H; subst. simpl. auto. Qed.

(** ** [checkInvariants] on well-formed trees *)

Lemma wp_for_each_pure {A} (l : list A) (body : A -> M unit)
    (Q : unit -> state -> Prop) st :
  (forall x, In x l -> forall Q' : unit -> state -> Prop, Q' tt st -> wp (body x) Q' st) ->
  Q tt st -> wp (for_each l body) Q st.
Proof.
  induction l as [|x l IH]; simpl; intros Hb HQ.
  - apply wp_ret. exact HQ.
  - apply wp_bind. apply Hb; [auto|]. apply IH; auto.
Qed.

Lemma checkInvariants_node (f : nat) p n st (Q : unit -> state -> Prop) :
  mem st !! p = Some n ->
  (IsLeaf n = false ->
   len (Children n) = wrap (Size n + 1) /\
   forall c, In c (Children n) ->
     forall Q' : unit -> state -> Prop,
       Q' tt st -> wp (checkInvariants f (Some c)) Q' st) ->
  Q tt st ->
  wp (checkInvariants (S f) (Some p)) Q st.
Proof.
  intros Hp Hint HQ. simpl.
  apply wp_bind. eapply wp_load; [exact Hp|].
  destruct (IsLeaf n) eqn:L.
  - apply wp_ret. exact HQ.
  - destruct (Hint eq_refl) as [Hlen Hkids].
    rewrite Hlen, Z.eqb_refl. simpl.
    apply wp_for_each_pure; auto.
Qed.

(** Re-parenting a list of allocated nodes: the final heap is given by its
    lookups. *)
Lemma set_Parent_twice x n : set_Parent x (set_Parent x n) = set_Parent x n.
Proof. reflexivity. Qed.

Lemma wp_reparent x (cs : list ptr) st (Q : unit -> state -> Prop) :
  (forall q, In q cs -> is_Some (mem st !! q)) ->
  (forall h',
     (forall q, In q cs -> h' !! q = set_Parent x <$> mem st !! q) ->
     (forall q, ~ In q cs -> h' !! q = mem st !! q) ->
     Q tt (mkState h' (next_ptr st) (tree st))) ->
  wp (for_each cs (fun c => modify c (set_Parent x))) Q st.
Proof.
  revert st. induction cs as [|c cs IH]; intros st Hdom HQ; simpl.
  - apply wp_ret. destruct st as [h nx tr]. apply HQ; auto. intros q [].
  - apply wp_bind. destruct (Hdom c (or_introl eq_refl)) as [nc Hc].
    eapply wp_modify; [exact Hc|].
    apply IH; simpl.
    + intros q Hq. destruct (decide (c = q)) as [->|Hne].
      * rewrite lookup_alter_eq, Hc. simpl. eexists. reflexivity.
      * rewrite lookup_alter_ne by exact Hne. apply Hdom. right. exact Hq.
    + intros h' Hin Hout. apply HQ.
      * intros q [->|Hq].
        -- destruct (in_dec Pos.eq_dec q cs) as [Hi|Hni].
           ++ rewrite (Hin q Hi), lookup_alter_eq, Hc. reflexivity.
           ++ rewrite (Hout q Hni), lookup_alter_eq. reflexivity.
        -- rewrite (Hin q Hq). destruct (decide (c = q)) as [->|Hne].
           ++ rewrite lookup_alter_eq, Hc. reflexivity.
           ++ rewrite lookup_alter_ne by exact Hne. reflexivity.
      * intros q Hq. rewrite Hout by (intros Hi; apply Hq; right; exact Hi).
        rewrite lookup_alter_ne; [reflexivity|]. intros ->. apply Hq. left. reflexivity.
Qed.

Section Degree.

Variable d : Z.
Hypothesis d_min : 2 <= d.
Hypothesis d_max : d < 2 ^ 62.

Lemma pow62 : 2 ^ 62 * 2 = 2 ^ 63.
Proof. reflexivity. Qed.

Lemma d_wrap z : - (2 * d) - 2 <= z <= 2 * d + 1 -> wrap z = z.
Proof.
  intros H. apply wrap_id. unfold min_int, max_int. pose proof pow62. lia.
Qed.

Lemma size_wrap n (z : Z) :
  0 <= Size n <= 2 * d -> -2 <= z <= 1 -> wrap (Size n + z) = Size n + z.
Proof.
  intros H Hk. apply wrap_id. unfold min_int, max_int.
  assert (2 ^ 62 * 2 = 2 ^ 63) by reflexivity. lia.
Qed.

Lemma node_size_nonneg n : node_facts d n -> 0 <= Size n <= 2 * d.
Proof. intros H. rewrite (nf_size _ _ H). pose proof (len_nonneg (Keys n)).
  pose proof (nf_bound _ _ H). rewrite (nf_size _ _ H) in *. lia. Qed.

Lemma checkInvariants_ok (fuel : nat) t st (Q : unit -> state -> Prop) :
  rep (mem st) t -> shape_ok d t = true -> (height t <= fuel)%nat ->
  Q tt st ->
  wp (checkInvariants fuel (Some (root_of t))) Q st.
Proof.
  revert fuel Q.
  induction t as [p n kids IH] using btree_ind'.
  intros fuel Q Hrep Hshape Hh HQ.
  apply shape_ok_node in Hshape. destruct Hshape as (Hn & Hl & Hi & Hk).
  inversion Hrep as [p0 n0 n' kids0 Hp He Hrk]; subst.
  destruct fuel as [|f]; [simpl in Hh; lia|].
  simpl root_of. eapply checkInvariants_node; [exact Hp| |exact HQ].
  intros L. apply (proj1 (node_facts_erase _ _)) in Hn.
  split.
  - rewrite size_wrap; [|apply node_size_nonneg; exact Hn|lia].
    apply (nf_internal _ _ Hn L).
  - intros c Hc Q' HQ'.
    specialize (Hi L). simpl in Hi. rewrite <- Hi in Hc.
    apply in_map_iff in Hc. destruct Hc as (k & <- & Hin).
    rewrite Forall_forall in IH, Hk, Hrk.
    apply list_elem_of_In in Hin.
    apply IH; auto.
    simpl in Hh.
    assert (height k <= foldr (fun k m => Nat.max (height k) m) 0%nat kids)%nat.
    { clear -Hin. induction kids as [|k' kids' IHk]; [inversion Hin|].
      simpl. inversion Hin; subst; [lia|]. specialize (IHk H1). lia. }
    lia.
Qed.

(** *** Lists *)

Lemma interleave_perm {A} (subs : list (list A)) (seps : list A) :
  interleave subs seps ≡ₚ concat subs ++ seps.
Proof.
  revert seps. induction subs as [|s subs IH]; intros seps; simpl.
  - reflexivity.
  - rewrite <- app_assoc. apply Permutation_app_head.
    destruct seps as [|x seps].
    + apply IH.
    + rewrite IH. apply Permutation_middle.
Qed.

Lemma entries_perm p n kids :
  entries (BNode p n kids) ≡ₚ
  concat (map entries kids) ++ zip (Keys n) (Values n).
Proof. simpl. apply interleave_perm. Qed.

Lemma interleave_app {A} (l1 subs : list (list A)) (k1 seps : list A) :
  length l1 = length k1 ->
  interleave (l1 ++ subs) (k1 ++ seps) = interleave l1 k1 ++ interleave subs seps.
Proof.
  revert k1. induction l1 as [|s l1 IH]; intros [|x k1] H; simpl in *;
    try discriminate.
  - reflexivity.
  - rewrite IH by lia. rewrite <- app_assoc. reflexivity.
Qed.

Lemma interleave_app_sep {A} (l1 subs : list (list A)) (k1 seps : list A) (x : A) :
  length l1 = S (length k1) ->
  interleave (l1 ++ subs) (k1 ++ x :: seps)
  = interleave l1 k1 ++ x :: interleave subs seps.
Proof.
  revert k1. induction l1 as [|s l1 IH]; intros k1 H; simpl in *; [discriminate|].
  destruct k1 as [|y k1]; simpl in *.
  - destruct l1; [|discriminate]. simpl. rewrite app_nil_r. reflexivity.
  - rewrite IH by lia. rewrite <- app_assoc. reflexivity.
Qed.

(** The symmetric order around one subtree: what comes before it ends with
    the separator to its left, what comes after it starts with the separator
    to its right. *)
Lemma interleave_at {A} (l1 l2 : list (list A)) (seps : list A) :
  length (l1 ++ l2) = length seps ->
  exists X Y,
    (forall s, interleave (l1 ++ s :: l2) seps = X ++ s ++ Y) /\
    (forall a, (0 < length l1)%nat -> seps !! (length l1 - 1)%nat = Some a ->
               exists X', X = X' ++ [a]) /\
    (length l1 = 0%nat -> X = []) /\
    (forall a, seps !! length l1 = Some a -> exists Y', Y = a :: Y') /\
    (length l1 = length seps -> Y = []).
Proof.
  revert seps. induction l1 as [|s0 l1 IH]; intros seps H.
  - exists [], (match seps with
                | [] => interleave l2 []
                | x :: seps' => x :: interleave l2 seps'
                end).
    split; [intros s; reflexivity|].
    split; [simpl; intros; lia|]. split; [reflexivity|]. split.
    + intros a Ha. destruct seps as [|x seps]; [discriminate|].
      injection Ha as ->. eauto.
    + intros H0. destruct seps; [|discriminate].
      destruct l2; [reflexivity|discriminate].
  - destruct seps as [|x seps]; [discriminate|].
    destruct (IH seps) as (X & Y & HXY & HX1 & HX0 & HY1 & HY0).
    { simpl in H. lia. }
    exists (s0 ++ x :: X), Y.
    split.
    { intros s. simpl. rewrite HXY, <- app_assoc. reflexivity. }
    split.
    { intros a _ Ha.
      replace (length (s0 :: l1) - 1)%nat with (length l1) in Ha by (simpl; lia).
      destruct l1 as [|s1 l1].
      - injection Ha as ->. rewrite (HX0 eq_refl). exists s0. reflexivity.
      - destruct (HX1 a) as [X' ->]; [simpl; lia| |].
        + replace (length (s1 :: l1) - 1)%nat with (length l1) by (simpl; lia).
          exact Ha.
        + exists (s0 ++ x :: X'). rewrite <- app_assoc. reflexivity. }
    split; [discriminate|]. split.
    { intros a Ha. apply (HY1 a). exact Ha. }
    { intros H0. apply HY0. simpl in H0. lia. }
Qed.

Lemma map_fst_zip {A B} (l : list A) (k : list B) :
  length l = length k -> map fst (zip l k) = l.
Proof.
  revert k. induction l as [|x l IH]; intros [|y k] H; simpl in *;
    try discriminate; [reflexivity|].
  f_equal. apply IH. lia.
Qed.

Lemma zip_lookup_fst {A B} (l : list A) (k : list B) (i : nat) (ab : A * B) :
  zip l k !! i = Some ab -> l !! i = Some (fst ab).
Proof.
  revert k i. induction l as [|x l IH]; intros [|y k] [|i] H; simpl in *;
    try discriminate.
  - injection H as <-. reflexivity.
  - apply (IH k i). exact H.
Qed.

(** *** Ascending lists *)

Lemma sorted_lookup_le (l : list Z) (i j : nat) (a b : Z) :
  StronglySorted Z.le l -> l !! i = Some a -> l !! j = Some b ->
  (i <= j)%nat -> a <= b.
Proof.
  intros Hs. revert i j. induction Hs as [|x l Hs IH Hx]; intros i j Ha Hb Hij.
  - discriminate.
  - destruct i as [|i], j as [|j]; simpl in *; try lia.
    + injection Ha as <-. injection Hb as <-. lia.
    + injection Ha as <-. rewrite Forall_forall in Hx.
      apply Hx. apply list_elem_of_lookup. eauto.
    + apply (IH i j); auto. lia.
Qed.

Lemma sorted_last_bound (X : list Z) (a x : Z) :
  StronglySorted Z.le (X ++ [a]) -> In x (X ++ [a]) -> x <= a.
Proof.
  intros Hs Hx. apply in_app_iff in Hx. destruct Hx as [Hx|[<-|[]]]; [|lia].
  apply (StronglySorted_app_1_elem_of _ _ _ _ _ Hs).
  - apply list_elem_of_In. exact Hx.
  - apply list_elem_of_In. left. reflexivity.
Qed.

Lemma sorted_head_bound (Y : list Z) (a y : Z) :
  StronglySorted Z.le (a :: Y) -> In y (a :: Y) -> a <= y.
Proof.
  intros Hs [<-|Hy]; [lia|].
  apply StronglySorted_cons in Hs. destruct Hs as [Hs _].
  rewrite Forall_forall in Hs. apply Hs, list_elem_of_In, Hy.
Qed.

Lemma sorted_grow (X Y s s' : list Z) (key : Z) :
  StronglySorted Z.le (X ++ s ++ Y) ->
  StronglySorted Z.le s' -> s' ≡ₚ key :: s ->
  (forall x, In x X -> x <= key) -> (forall y, In y Y -> key <= y) ->
  StronglySorted Z.le (X ++ s' ++ Y).
Proof.
  intros Hs Hs' Hp HX HY.
  apply StronglySorted_app in Hs. destruct Hs as (H1 & H2 & H3).
  apply StronglySorted_app in H3. destruct H3 as (H3 & H4 & H5).
  assert (Hin : forall x, x ∈ s' -> x = key \/ x ∈ s).
  { intros x Hx. rewrite Hp in Hx. apply elem_of_cons in Hx. exact Hx. }
  apply StronglySorted_app_2; [|exact H2|apply StronglySorted_app_2; auto].
  - intros x1 x2 Hx1 Hx2. apply elem_of_app in Hx2.
    destruct Hx2 as [Hx2|Hx2].
    + destruct (Hin _ Hx2) as [->|Hx2'].
      * apply HX, list_elem_of_In, Hx1.
      * apply H1; [exact Hx1|]. apply elem_of_app. left. exact Hx2'.
    + apply H1; [exact Hx1|]. apply elem_of_app. right. exact Hx2.
  - intros x1 x2 Hx1 Hx2. destruct (Hin _ Hx1) as [->|Hx1'].
    + apply HY, list_elem_of_In, Hx2.
    + apply H3; assumption.
Qed.

Lemma sorted_insert_at (K : list Z) (key : Z) (i : nat) :
  StronglySorted Z.le K ->
  (forall m a, (m < i)%nat -> K !! m = Some a -> a <= key) ->
  (forall m a, (i <= m)%nat -> K !! m = Some a -> key <= a) ->
  StronglySorted Z.le (take i K ++ key :: drop i K).
Proof.
  intros Hs Hlo Hhi. rewrite <- (take_drop i K) in Hs.
  apply StronglySorted_app in Hs. destruct Hs as (H1 & H2 & H3).
  assert (Hd : forall y, y ∈ drop i K -> key <= y).
  { intros y Hy. apply list_elem_of_lookup in Hy. destruct Hy as [m Hm].
    rewrite lookup_drop in Hm. apply (Hhi (i + m)%nat); [lia|exact Hm]. }
  apply StronglySorted_app_2; [|exact H2|].
  - intros x1 x2 Hx1 Hx2. apply elem_of_cons in Hx2. destruct Hx2 as [->|Hx2].
    + apply list_elem_of_lookup in Hx1. destruct Hx1 as [m Hm].
      pose proof (lookup_lt_Some _ _ _ Hm) as Hlt. rewrite length_take in Hlt.
      rewrite lookup_take_lt in Hm by lia. apply (Hlo m); [lia|exact Hm].
    + apply H1; assumption.
  - constructor; [exact H3|]. apply Forall_forall. exact Hd.
Qed.

Lemma height_kid k kids :
  In k kids -> (height k <= foldr (fun k m => Nat.max (height k) m) 0%nat kids)%nat.
Proof.
  induction kids as [|k' kids' IH]; simpl; [tauto|].
  intros [->|Hin]; [lia|]. specialize (IH Hin). lia.
Qed.

Lemma height_kids_mono kids kids' :
  (forall k, In k kids' -> In k kids) ->
  (foldr (fun k m => Nat.max (height k) m) 0%nat kids'
   <= foldr (fun k m => Nat.max (height k) m) 0%nat kids)%nat.
Proof.
  induction kids' as [|k kids' IH]; simpl; intros H; [lia|].
  pose proof (height_kid k kids (H k (or_introl eq_refl))).
  assert (forall k0, In k0 kids' -> In k0 kids) by (intros; apply H; right; auto).
  specialize (IH H1). lia.
Qed.

Lemma in_take {A} (x : A) i l : In x (take i l) -> In x l.
Proof. rewrite <- (take_drop i l) at 2. rewrite in_app_iff. auto. Qed.

Lemma in_drop {A} (x : A) i l : In x (drop i l) -> In x l.
Proof. rewrite <- (take_drop i l) at 2. rewrite in_app_iff. auto. Qed.

Lemma len_take {A} (l : list A) (z : Z) :
  0 <= z <= len l -> len (take (Z.to_nat z) l) = z.
Proof. unfold len. intros H. rewrite length_take. lia. Qed.

Lemma len_drop {A} (l : list A) (z : Z) :
  0 <= z <= len l -> len (drop (Z.to_nat z) l) = len l - z.
Proof. unfold len. intros H. rewrite length_drop. lia. Qed.

Lemma insert_after {A} (l l' : list A) (x y : A) :
  take (S (length l)) (l ++ x :: l') ++ y :: drop (S (length l)) (l ++ x :: l')
  = l ++ x :: y :: l'.
Proof.
  induction l as [|a l IH]; simpl.
  - reflexivity.
  - f_equal. exact IH.
Qed.

(** *** The two halves of a full node *)

Lemma tree_lower_shape tc :
  shape_ok d tc = true -> Size (node_of tc) = 2 * d - 1 ->
  shape_ok d (tree_lower d tc) = true.
Proof.
  destruct tc as [c cn kc]. simpl node_of. intros Hs Hfull.
  apply shape_ok_node in Hs. destruct Hs as (Hn & Hl & Hi & Hk).
  destruct Hn as [N1 N2 N3 N4 N5 N6 N7].
  unfold tree_lower. apply shape_ok_node. simpl.
  split; [split; simpl|split; [|split]].
  - rewrite len_take; lia.
  - rewrite !len_take; lia.
  - exact N3.
  - exact N4.
  - lia.
  - intros L. rewrite L. auto.
  - intros L. rewrite L. rewrite len_take; [lia|]. specialize (N7 L). lia.
  - intros L. rewrite (Hl L). destruct (Z.to_nat d); reflexivity.
  - intros L. rewrite L. rewrite <- (Hi L). symmetry. apply firstn_map.
  - rewrite Forall_forall in *. intros k Hin. apply Hk.
    apply list_elem_of_In. apply list_elem_of_In in Hin. eapply in_take; eauto.
Qed.

Lemma tree_upper_shape q tc :
  shape_ok d tc = true -> Size (node_of tc) = 2 * d - 1 ->
  shape_ok d (tree_upper d q tc) = true.
Proof.
  destruct tc as [c cn kc]. simpl node_of. intros Hs Hfull.
  apply shape_ok_node in Hs. destruct Hs as (Hn & Hl & Hi & Hk).
  destruct Hn as [N1 N2 N3 N4 N5 N6 N7].
  unfold tree_upper. apply shape_ok_node. simpl.
  split; [split; simpl|split; [|split]].
  - rewrite len_drop; lia.
  - rewrite !len_drop; lia.
  - reflexivity.
  - reflexivity.
  - lia.
  - intros L. rewrite L. auto.
  - intros L. rewrite L. rewrite len_drop; [|specialize (N7 L); lia].
    specialize (N7 L). lia.
  - intros L. rewrite (Hl L). destruct (Z.to_nat d); reflexivity.
  - intros L. rewrite L. rewrite <- (Hi L). symmetry. apply skipn_map.
  - rewrite Forall_forall in *. intros k Hin. apply Hk.
    apply list_elem_of_In. apply list_elem_of_In in Hin. eapply in_drop; eauto.
Qed.

Lemma tree_halves_ptrs q tc :
  ptrs (tree_lower d tc) ++ ptrs (tree_upper d q tc) ≡ₚ q :: ptrs tc.
Proof.
  destruct tc as [c cn kc]. simpl.
  rewrite <- (take_drop (Z.to_nat d) kc) at 3. rewrite flat_map_app.
  rewrite <- Permutation_middle. apply perm_swap.
Qed.

Lemma tree_halves_height q tc :
  (height (tree_lower d tc) <= height tc)%nat /\
  (height (tree_upper d q tc) <= height tc)%nat.
Proof.
  destruct tc as [c cn kc]. simpl. split; apply le_n_S, height_kids_mono.
  - intros k. apply in_take.
  - intros k. apply in_drop.
Qed.

Lemma zip_app_same {A B} (l1 l2 : list A) (k1 k2 : list B) :
  length l1 = length k1 -> zip (l1 ++ l2) (k1 ++ k2) = zip l1 k1 ++ zip l2 k2.
Proof.
  revert k1. induction l1 as [|x l1 IH]; intros [|y k1] H; simpl in *; try discriminate.
  - reflexivity.
  - f_equal. apply IH. lia.
Qed.

Lemma split_at_median {A} (dflt : A) (l : list A) :
  len l = 2 * d - 1 ->
  l = take (Z.to_nat (d - 1)) l ++ nth (Z.to_nat (d - 1)) l dflt :: drop (Z.to_nat d) l.
Proof.
  intros H. unfold len in H.
  replace (Z.to_nat d) with (S (Z.to_nat (d - 1))) by lia.
  rewrite <- (take_drop (Z.to_nat (d - 1)) l) at 1. f_equal.
  rewrite (drop_S l (nth (Z.to_nat (d - 1)) l dflt) (Z.to_nat (d - 1))); [reflexivity|].
  destruct (nth_lookup_or_length l (Z.to_nat (d - 1)) dflt) as [E|E]; [exact E|lia].
Qed.

Lemma tree_halves_entries q tc :
  shape_ok d tc = true -> Size (node_of tc) = 2 * d - 1 ->
  entries (tree_lower d tc)
    ++ (median_key d (node_of tc), median_value vnil d (node_of tc))
    :: entries (tree_upper d q tc)
  ≡ₚ entries tc.
Proof.
  destruct tc as [c cn kc]. simpl node_of. intros Hs Hfull.
  apply shape_ok_node in Hs. destruct Hs as (Hn & _ & _ & _).
  destruct Hn as [N1 N2 N3 N4 N5 N6 N7].
  unfold tree_lower, tree_upper.
  rewrite !entries_perm. simpl Keys. simpl Values.
  rewrite (split_at_median 0 (Keys cn)) at 3 by lia.
  rewrite (split_at_median vnil (Values cn)) at 3 by lia.
  rewrite zip_app_same
    by (rewrite !length_take; unfold len in *; lia).
  simpl zip. fold (median_key d cn). fold (median_value vnil d cn).
  rewrite <- (take_drop (Z.to_nat d) kc) at 3.
  rewrite map_app, concat_app.
  solve_Permutation.
Qed.

(** The same in symmetric order: the split moves no entry past another. *)
Lemma tree_halves_entries_eq q tc :
  shape_ok d tc = true -> Size (node_of tc) = 2 * d - 1 ->
  entries (tree_lower d tc)
    ++ (median_key d (node_of tc), median_value vnil d (node_of tc))
    :: entries (tree_upper d q tc)
  = entries tc.
Proof.
  destruct tc as [c cn kc]. simpl node_of. intros Hs Hfull.
  apply shape_ok_node in Hs. destruct Hs as (Hn & Hl & Hi & _).
  destruct Hn as [N1 N2 N3 N4 N5 N6 N7].
  set (k1 := zip (take (Z.to_nat (d - 1)) (Keys cn)) (take (Z.to_nat (d - 1)) (Values cn))).
  set (k2 := zip (drop (Z.to_nat d) (Keys cn)) (drop (Z.to_nat d) (Values cn))).
  assert (EZ : zip (Keys cn) (Values cn)
               = k1 ++ (median_key d cn, median_value vnil d cn) :: k2).
  { rewrite (split_at_median 0 (Keys cn)) at 1 by lia.
    rewrite (split_at_median vnil (Values cn)) at 1 by lia.
    rewrite zip_app_same by (rewrite !length_take; unfold len in *; lia).
    reflexivity. }
  unfold tree_lower, tree_upper.
  cbn [entries split_lower split_upper erase set_Parent Keys Values].
  fold k1. fold k2. rewrite EZ.
  destruct (IsLeaf cn) eqn:L.
  - rewrite (Hl eq_refl). rewrite take_nil, drop_nil. reflexivity.
  - specialize (Hi eq_refl). specialize (N7 eq_refl).
    assert (Hkc : length kc = Z.to_nat (2 * d)).
    { rewrite <- (length_map root_of kc), Hi. unfold len in *. lia. }
    rewrite <- (take_drop (Z.to_nat d) kc) at 3.
    rewrite map_app. rewrite interleave_app_sep; [reflexivity|].
    unfold k1. rewrite length_map, length_take, length_zip, !length_take.
    unfold len in *. lia.
Qed.

Lemma interleave_snoc {A} (l1 : list (list A)) (s k1 : list A) :
  length l1 = length k1 -> interleave (l1 ++ [s]) k1 = interleave l1 k1 ++ s.
Proof.
  intros H. rewrite <- (app_nil_r k1) at 1. rewrite interleave_app by exact H.
  simpl. rewrite app_nil_r. reflexivity.
Qed.

(** *** The parent after the split *)

Lemma NoDup_tree_split p pn ls1 c cn kc ls2 :
  NoDup (ptrs (BNode p pn (ls1 ++ BNode c cn kc :: ls2))) ->
  p <> c /\
  (forall q, In q (flat_map ptrs ls1) \/ In q (flat_map ptrs ls2) -> q <> p /\ q <> c) /\
  (forall q, In q (flat_map ptrs kc) -> q <> p /\ q <> c).
Proof.
  simpl. rewrite flat_map_app. simpl. intros H.
  apply NoDup_cons in H. destruct H as [Hp H].
  rewrite list_elem_of_In in Hp. rewrite !in_app_iff in Hp. simpl in Hp.
  apply NoDup_app in H. destruct H as (_ & H1 & H).
  apply NoDup_cons in H. destruct H as [Hc H].
  rewrite list_elem_of_In, in_app_iff in Hc.
  split; [intros ->; apply Hp; right; left; reflexivity|]. split.
  - intros q [Hq|Hq].
    + split; [intros ->; apply Hp; left; exact Hq|]. intros ->.
      apply (H1 c); [apply list_elem_of_In; exact Hq|]. left.
    + split; [intros ->; apply Hp; right; right; apply in_app_iff; right; exact Hq|].
      intros ->. apply Hc. right. exact Hq.
  - intros q Hq.
    split; [intros ->; apply Hp; right; right; apply in_app_iff; left; exact Hq|].
    intros ->. apply Hc. left. exact Hq.
Qed.

Lemma split_ptrs p pn pn' nx ls1 tc ls2 :
  ptrs (BNode p pn' (ls1 ++ tree_lower d tc :: tree_upper d nx tc :: ls2))
  ≡ₚ nx :: ptrs (BNode p pn (ls1 ++ tc :: ls2)).
Proof.
  cbn [ptrs]. rewrite !flat_map_app. cbn [flat_map].
  rewrite (app_assoc (ptrs (tree_lower d tc))).
  rewrite tree_halves_ptrs. solve_Permutation.
Qed.

Lemma split_entries p pn nx ls1 tc ls2 :
  shape_ok d (BNode p pn (ls1 ++ tc :: ls2)) = true ->
  Size (node_of tc) = 2 * d - 1 ->
  entries (BNode p (split_parent vnil d (len ls1) nx (node_of tc) pn)
                 (ls1 ++ tree_lower d tc :: tree_upper d nx tc :: ls2))
  ≡ₚ entries (BNode p pn (ls1 ++ tc :: ls2)).
Proof.
  intros Hs Hfull.
  apply shape_ok_node in Hs. destruct Hs as (Hn & Hl & Hi & Hk).
  destruct Hn as [N1 N2 N3 N4 N5 N6 N7].
  assert (Htc : shape_ok d tc = true).
  { rewrite Forall_forall in Hk. apply Hk. apply list_elem_of_In.
    apply in_app_iff. right. left. reflexivity. }
  rewrite !entries_perm. cbn [Keys Values split_parent].
  unfold len. rewrite Nat2Z.id.
  rewrite zip_app_same
    by (rewrite !length_take; unfold len in *; lia).
  rewrite <- (take_drop (length ls1) (Keys pn)) at 3.
  rewrite <- (take_drop (length ls1) (Values pn)) at 3.
  rewrite zip_app_same
    by (rewrite !length_take; unfold len in *; lia).
  rewrite !map_app, !concat_app. cbn [map concat zip zip_with].
  rewrite <- (tree_halves_entries nx tc Htc Hfull).
  solve_Permutation.
Qed.

Lemma split_entries_eq p pn nx ls1 tc ls2 :
  shape_ok d (BNode p pn (ls1 ++ tc :: ls2)) = true ->
  Size (node_of tc) = 2 * d - 1 ->
  entries (BNode p (split_parent vnil d (len ls1) nx (node_of tc) pn)
                 (ls1 ++ tree_lower d tc :: tree_upper d nx tc :: ls2))
  = entries (BNode p pn (ls1 ++ tc :: ls2)).
Proof.
  intros Hs Hfull.
  apply shape_ok_node in Hs. destruct Hs as (Hn & Hl & Hi & Hk).
  destruct Hn as [N1 N2 N3 N4 N5 N6 N7].
  assert (Htc : shape_ok d tc = true).
  { rewrite Forall_forall in Hk. apply Hk. apply list_elem_of_In.
    apply in_app_iff. right. left. reflexivity. }
  assert (Hleaf : IsLeaf pn = false).
  { destruct (IsLeaf pn) eqn:L; [|reflexivity].
    specialize (Hl eq_refl). destruct ls1; discriminate. }
  specialize (Hi Hleaf). specialize (N7 Hleaf).
  assert (Hlen : (length ls1 + length ls2 = length (Keys pn))%nat).
  { apply (f_equal length) in Hi. rewrite length_map, length_app in Hi.
    cbn [length] in Hi. unfold len in *. lia. }
  set (i := length ls1).
  set (k1 := zip (take i (Keys pn)) (take i (Values pn))).
  set (k2 := zip (drop i (Keys pn)) (drop i (Values pn))).
  set (m := (median_key d (node_of tc), median_value vnil d (node_of tc))).
  assert (EZ : zip (Keys pn) (Values pn) = k1 ++ k2).
  { unfold k1, k2. rewrite <- zip_app_same
      by (rewrite !length_take; unfold len in *; lia).
    rewrite !take_drop. reflexivity. }
  assert (EZ' : zip (take i (Keys pn) ++ fst m :: drop i (Keys pn))
                    (take i (Values pn) ++ snd m :: drop i (Values pn))
                = k1 ++ m :: k2).
  { rewrite zip_app_same by (rewrite !length_take; unfold len in *; lia).
    reflexivity. }
  assert (Hk1 : length (map entries ls1) = length k1).
  { unfold k1. rewrite length_map, length_zip, !length_take.
    unfold len, i in *. lia. }
  cbn [entries Keys Values split_parent].
  unfold len. rewrite Nat2Z.id. fold i.
  change (median_key d (node_of tc)) with (fst m).
  change (median_value vnil d (node_of tc)) with (snd m).
  rewrite EZ', EZ.
  replace (ls1 ++ tree_lower d tc :: tree_upper d nx tc :: ls2)
    with ((ls1 ++ [tree_lower d tc]) ++ tree_upper d nx tc :: ls2)
    by (rewrite <- app_assoc; reflexivity).
  rewrite (map_app entries (ls1 ++ [tree_lower d tc])).
  rewrite interleave_app_sep
    by (rewrite length_map, length_app, <- Hk1, length_map; simpl; lia).
  rewrite (map_app entries ls1 [_]). cbn [map].
  rewrite interleave_snoc by exact Hk1.
  rewrite (map_app entries ls1 (tc :: ls2)). cbn [map].
  rewrite interleave_app by exact Hk1.
  cbn [interleave].
  rewrite <- (tree_halves_entries_eq nx tc Htc Hfull). fold m.
  rewrite <- !app_assoc. reflexivity.
Qed.

Lemma split_height p pn pn' nx ls1 tc ls2 :
  (height (BNode p pn' (ls1 ++ tree_lower d tc :: tree_upper d nx tc :: ls2))
   <= height (BNode p pn (ls1 ++ tc :: ls2)))%nat.
Proof.
  cbn [height]. apply le_n_S.
  pose proof (tree_halves_height nx tc) as [H1 H2].
  induction ls1 as [|k ls1 IH]; simpl in *; lia.
Qed.

Lemma split_kids_shape p pn nx ls1 tc ls2 :
  shape_ok d (BNode p pn (ls1 ++ tc :: ls2)) = true ->
  Size (node_of tc) = 2 * d - 1 ->
  Forall (fun k => shape_ok d k = true)
         (ls1 ++ tree_lower d tc :: tree_upper d nx tc :: ls2).
Proof.
  intros Hs Hfull.
  apply shape_ok_node in Hs. destruct Hs as (_ & _ & _ & Hk).
  apply Forall_app in Hk. destruct Hk as [H1 H2].
  apply Forall_cons in H2. destruct H2 as [Htc H2].
  apply Forall_app. split; [exact H1|].
  constructor; [apply tree_lower_shape; auto|].
  constructor; [apply tree_upper_shape; auto|]. exact H2.
Qed.

Lemma split_rep h h' p pn ls1 c cn kc ls2 nx :
  rep h (BNode p (erase pn) (ls1 ++ BNode c (erase cn) kc :: ls2)) ->
  NoDup (ptrs (BNode p (erase pn) (ls1 ++ BNode c (erase cn) kc :: ls2))) ->
  ~ In nx (ptrs (BNode p (erase pn) (ls1 ++ BNode c (erase cn) kc :: ls2))) ->
  h' !! p = Some (split_parent vnil d (len ls1) nx cn pn) ->
  h' !! c = Some (split_lower d cn) ->
  h' !! nx = Some (split_upper d p cn) ->
  (forall q, q <> p -> q <> c -> q <> nx -> erase <$> h' !! q = erase <$> h !! q) ->
  rep h' (BNode p (split_parent vnil d (len ls1) nx (erase cn) (erase pn))
            (ls1 ++ tree_lower d (BNode c (erase cn) kc)
                 :: tree_upper d nx (BNode c (erase cn) kc) :: ls2)).
Proof.
  intros Hrep Hnd Hnx Hp' Hc' Hn' Hframe.
  destruct (NoDup_tree_split _ _ _ _ _ _ _ Hnd) as (Hpc & Hsib & Hkc).
  assert (Hfresh : forall q,
    In q (flat_map ptrs ls1) \/ In q (flat_map ptrs kc) \/ In q (flat_map ptrs ls2) ->
    q <> nx).
  { intros q Hq ->. apply Hnx. cbn [ptrs]. right. rewrite flat_map_app.
    cbn [flat_map ptrs]. rewrite !in_app_iff. simpl. tauto. }
  inversion Hrep as [p0 n0 pn0 kids0 Hp He Hk]; subst.
  apply Forall_app in Hk. destruct Hk as [Hk1 Hk2].
  apply Forall_cons in Hk2. destruct Hk2 as [Htc Hk2].
  inversion Htc as [c0 n1 cn0 kc0 Hc Hec Hkc']; subst.
  assert (Hkeep : forall ks, Forall (rep h) ks ->
    (forall q, In q (flat_map ptrs ks) -> q <> p /\ q <> c /\ q <> nx) ->
    Forall (rep h') ks).
  { intros ks Hks Hq. rewrite Forall_forall in *. intros k Hin.
    eapply rep_ext; [apply Hks; exact Hin|].
    intros q Hqk. destruct (Hq q) as (? & ? & ?).
    { apply in_flat_map. exists k. split; [apply list_elem_of_In; exact Hin|exact Hqk]. }
    apply Hframe; auto. }
  eapply rep_node; [exact Hp'|reflexivity|].
  apply Forall_app. split.
  { apply Hkeep; [exact Hk1|]. intros q Hq.
    destruct (Hsib q (or_introl Hq)). split; [auto|split; [auto|]]. apply Hfresh. auto. }
  constructor.
  { eapply rep_node; [exact Hc'|reflexivity|].
    apply Hkeep.
    - rewrite Forall_forall in *. intros k Hin. apply Hkc'.
      apply list_elem_of_In. apply list_elem_of_In in Hin. eapply in_take; eauto.
    - intros q Hq.
      assert (In q (flat_map ptrs kc)).
      { apply in_flat_map in Hq. destruct Hq as (k & Hk & Hq).
        apply in_flat_map. exists k. split; [eapply in_take; eauto|auto]. }
      destruct (Hkc q H). split; [auto|split; [auto|]]. apply Hfresh. auto. }
  constructor.
  { eapply rep_node; [exact Hn'|reflexivity|].
    apply Hkeep.
    - rewrite Forall_forall in *. intros k Hin. apply Hkc'.
      apply list_elem_of_In. apply list_elem_of_In in Hin. eapply in_drop; eauto.
    - intros q Hq.
      assert (In q (flat_map ptrs kc)).
      { apply in_flat_map in Hq. destruct Hq as (k & Hk & Hq).
        apply in_flat_map. exists k. split; [eapply in_drop; eauto|auto]. }
      destruct (Hkc q H). split; [auto|split; [auto|]]. apply Hfresh. auto. }
  apply Hkeep; [exact Hk2|]. intros q Hq.
  destruct (Hsib q (or_intror Hq)). split; [auto|split; [auto|]]. apply Hfresh. auto.
Qed.

(** *** Running [splitChild] *)

Lemma normalizeChildren_ok p n st (Q : unit -> state -> Prop) :
  mem st !! p = Some n ->
  (IsLeaf n = false -> len (Children n) = wrap (Size n + 1)) ->
  Q tt st -> wp (normalizeChildren p) Q st.
Proof.
  intros Hp Hlen HQ. unfold normalizeChildren.
  apply wp_bind. eapply wp_load; [exact Hp|].
  destruct (IsLeaf n); [apply wp_ret; exact HQ|].
  rewrite (Hlen eq_refl), Z.eqb_refl. simpl. apply wp_ret. exact HQ.
Qed.

Lemma checkInvariants_parent (fuel : nat) p n kids st (Q : unit -> state -> Prop) :
  mem st !! p = Some n ->
  len (Children n) = wrap (Size n + 1) ->
  Children n = map root_of kids ->
  Forall (rep (mem st)) kids ->
  Forall (fun k => shape_ok d k = true) kids ->
  (height (BNode p n kids) <= fuel)%nat ->
  Q tt st ->
  wp (checkInvariants fuel (Some p)) Q st.
Proof.
  intros Hp Hlen Hch Hrep Hshape Hh HQ.
  destruct fuel as [|f]; [simpl in Hh; lia|].
  eapply checkInvariants_node; [exact Hp| |exact HQ].
  intros _. split; [exact Hlen|].
  intros c Hc Q' HQ'. rewrite Hch in Hc.
  apply in_map_iff in Hc. destruct Hc as (k & <- & Hin).
  rewrite Forall_forall in Hrep, Hshape.
  apply checkInvariants_ok.
  - apply Hrep. apply list_elem_of_In. exact Hin.
  - apply Hshape. apply list_elem_of_In. exact Hin.
  - simpl in Hh. pose proof (height_kid k kids Hin). lia.
  - exact HQ'.
Qed.

Lemma lookup_median {A} (dflt : A) (l : list A) :
  len l = 2 * d - 1 ->
  l !! Z.to_nat (d - 1) = Some (nth (Z.to_nat (d - 1)) l dflt).
Proof.
  intros H. unfold len in H.
  destruct (nth_lookup_or_length l (Z.to_nat (d - 1)) dflt) as [E|E]; [exact E|lia].
Qed.

Lemma splitChild_wp (fuel : nat) st p pn ls1 c cn kc ls2
    (Q : unit -> state -> Prop) :
  Degree (tree st) = d ->
  mem st !! p = Some pn -> mem st !! c = Some cn ->
  rep (mem st) (BNode p (erase pn) (ls1 ++ BNode c (erase cn) kc :: ls2)) ->
  shape_ok d (BNode p (erase pn) (ls1 ++ BNode c (erase cn) kc :: ls2)) = true ->
  NoDup (ptrs (BNode p (erase pn) (ls1 ++ BNode c (erase cn) kc :: ls2))) ->
  (forall q, In q (ptrs (BNode p (erase pn) (ls1 ++ BNode c (erase cn) kc :: ls2))) ->
             (q < next_ptr st)%positive) ->
  (height (BNode p (erase pn) (ls1 ++ BNode c (erase cn) kc :: ls2)) <= fuel)%nat ->
  Size cn = 2 * d - 1 ->
  (forall h',
     h' !! p = Some (split_parent vnil d (len ls1) (next_ptr st) cn pn) ->
     h' !! c = Some (split_lower d cn) ->
     h' !! next_ptr st = Some (split_upper d p cn) ->
     (forall q, In q (Children (split_upper d p cn)) ->
                h' !! q = set_Parent (Some (next_ptr st)) <$> mem st !! q) ->
     (forall q, q <> p -> q <> c -> q <> next_ptr st ->
                ~ In q (Children (split_upper d p cn)) ->
                h' !! q = mem st !! q) ->
     (forall q, q <> p -> q <> c -> q <> next_ptr st ->
                erase <$> h' !! q = erase <$> mem st !! q) ->
     (forall q, ~ In q (ptrs (BNode p (erase pn) (ls1 ++ BNode c (erase cn) kc :: ls2))) ->
                q <> next_ptr st -> h' !! q = mem st !! q) ->
     Q tt (mkState h' (Pos.succ (next_ptr st)) (tree st))) ->
  wp (splitChild vnil fuel p (len ls1)) Q st.
Proof.
  intros Hdeg Hp Hc Hrep Hshape Hnd Hfresh Hh Hfull HQ.
  set (tc := BNode c (erase cn) kc) in *.
  set (tp := BNode p (erase pn) (ls1 ++ tc :: ls2)) in *.
  set (nx := next_ptr st) in *.
  pose proof Hshape as Hshape0.
  apply shape_ok_node in Hshape. destruct Hshape as (Hn & Hl & Hi & Hk).
  apply (proj1 (node_facts_erase _ _)) in Hn.
  assert (Lp : IsLeaf pn = false).
  { destruct (IsLeaf pn) eqn:L; [|reflexivity].
    specialize (Hl L). destruct ls1; discriminate. }
  specialize (Hi Lp). cbn [Children erase set_Parent] in Hi.
  assert (Htc : shape_ok d tc = true).
  { rewrite Forall_forall in Hk. apply Hk. apply list_elem_of_In.
    apply in_app_iff. right. left. reflexivity. }
  pose proof Htc as Htc0.
  apply shape_ok_node in Htc. destruct Htc as (Hcn & Hcl & Hci & Hck).
  apply (proj1 (node_facts_erase _ _)) in Hcn.
  cbn [erase set_Parent IsLeaf Children] in Hci, Hcl.
  destruct Hn as [N1 N2 N3 N4 N5 N6 N7].
  destruct Hcn as [C1 C2 C3 C4 C5 C6 C7].
  specialize (N7 Lp).
  destruct (NoDup_tree_split _ _ _ _ _ _ _ Hnd) as (Hpc & Hsib & Hkc).
  assert (Hpnx : p <> nx).
  { intros E. specialize (Hfresh p (or_introl eq_refl)). rewrite E in Hfresh. lia. }
  assert (Hcnx : c <> nx).
  { intros E. assert (In c (ptrs tp)).
    { right. apply in_flat_map. exists tc. split; [|left; reflexivity].
      apply in_app_iff. right. left. reflexivity. }
    specialize (Hfresh c H). rewrite E in Hfresh. lia. }
  assert (Hidx : Children pn !! Z.to_nat (len ls1) = Some c).
  { rewrite <- Hi, map_app. unfold len. rewrite Nat2Z.id.
    rewrite lookup_app_r by (rewrite length_map; lia).
    rewrite length_map, Nat.sub_diag. reflexivity. }
  assert (Hlen1 : len ls1 + 1 <= len (Children pn)).
  { rewrite <- Hi. unfold len. rewrite length_map, length_app. simpl. lia. }
  pose proof (len_nonneg ls1) as Hls1.
  pose proof (len_nonneg (Keys pn)) as HKp.
  pose proof (len_nonneg (Keys cn)) as HKc.
  unfold splitChild.
  apply wp_bind, wp_get_tree. rewrite Hdeg.
  apply wp_bind. eapply wp_load; [exact Hp|].
  apply wp_bind. eapply wp_index; [lia|exact Hidx|].
  apply wp_bind. apply (checkInvariants_ok fuel tc).
  { apply rep_kids in Hrep. cbn [kids_of] in Hrep. rewrite Forall_forall in Hrep.
    apply Hrep. apply list_elem_of_In. apply in_app_iff. right. left. reflexivity. }
  { exact Htc0. }
  { pose proof (height_kid tc (ls1 ++ tc :: ls2)) as Hk'.
    unfold tp in Hh. cbn [height] in Hh.
    specialize (Hk' ltac:(apply in_app_iff; right; left; reflexivity)).
    lia. }
  apply wp_bind. eapply normalizeChildren_ok; [exact Hp| |].
  { intros _. rewrite d_wrap by lia. exact N7. }
  apply wp_bind. eapply wp_load; [exact Hc|].
  rewrite !(d_wrap (d - 1)) by lia. rewrite (d_wrap (2 * d - 1)) by lia.
  apply wp_bind. eapply wp_index; [lia|apply (lookup_median 0); lia|].
  apply wp_bind. eapply wp_index; [lia|apply (lookup_median vnil); lia|].
  apply wp_bind. apply wp_make; [lia|].
  apply wp_bind. apply wp_make; [lia|].
  apply wp_bind. apply wp_slice_from; [lia|].
  apply wp_bind. apply wp_slice_from; [lia|].
  set (hc := Children (split_upper d p cn)).
  assert (Hhc : forall q, In q hc ->
            In q (flat_map ptrs kc) /\ is_Some (mem st !! q)).
  { intros q Hq. unfold hc, split_upper in Hq. cbn [Children] in Hq.
    destruct (IsLeaf cn) eqn:Lc; [destruct Hq|].
    apply in_drop in Hq. rewrite <- (Hci eq_refl) in Hq.
    apply in_map_iff in Hq. destruct Hq as (k & <- & Hin).
    split.
    - apply in_flat_map. exists k. split; [exact Hin|apply root_in_ptrs].
    - apply rep_kids in Hrep. cbn [kids_of] in Hrep.
      apply Forall_app in Hrep. destruct Hrep as [_ Hrep].
      apply Forall_cons in Hrep. destruct Hrep as [Hrc _].
      apply rep_kids in Hrc. cbn [kids_of] in Hrc.
      rewrite Forall_forall in Hrc. apply list_elem_of_In in Hin.
      destruct (rep_lookup _ _ (Hrc k Hin)) as (n' & E & _). eauto. }
  assert (Hhc' : forall q, In q hc -> q <> p /\ q <> c /\ q <> nx).
  { intros q Hq. destruct (Hhc q Hq) as [Hin _].
    destruct (Hkc q Hin). split; [auto|split; [auto|]].
    intros E. assert (In q (ptrs tp)).
    { right. apply in_flat_map. exists tc. split.
      - apply in_app_iff. right. left. reflexivity.
      - right. exact Hin. }
    specialize (Hfresh q H1). rewrite E in Hfresh. lia. }
  apply wp_bind.
  assert (Hget : forall (Q' : list ptr -> state -> Prop),
            Q' hc st ->
            wp (if IsLeaf cn then ret [] else slice_from (Children cn) d) Q' st).
  { intros Q' H. unfold hc, split_upper in H. cbn [Children] in H.
    destruct (IsLeaf cn) eqn:Lc; [apply wp_ret; exact H|].
    apply wp_slice_from; [specialize (C7 eq_refl); lia|exact H]. }
  apply Hget. clear Hget.
  assert (Hnew :
    mkNode (copy (replicate (Z.to_nat (d - 1)) 0) (drop (Z.to_nat d) (Keys cn)))
           hc (IsLeaf cn) (Some p) (d - 1) (2 * d - 1) (d - 1)
           (copy (replicate (Z.to_nat (d - 1)) vnil) (drop (Z.to_nat d) (Values cn)))
    = split_upper d p cn).
  { unfold hc, split_upper. cbn [Children].
    rewrite !copy_full
      by (rewrite length_replicate, length_drop; unfold len in *; lia).
    reflexivity. }
  rewrite Hnew. clear Hnew.
  apply wp_bind. apply wp_alloc. fold nx.
  apply wp_bind. apply wp_reparent; cbn [mem next_ptr tree].
  { intros q Hq. destruct (Hhc' q Hq) as (_ & _ & Hqn).
    rewrite lookup_insert_ne by congruence. apply (Hhc q Hq). }
  intros h2 H2in H2out.
  assert (H2c : h2 !! c = Some cn).
  { rewrite H2out by (intros Hq; destruct (Hhc' c Hq) as (_ & E & _); congruence).
    rewrite lookup_insert_ne by congruence. exact Hc. }
  assert (H2p : h2 !! p = Some pn).
  { rewrite H2out by (intros Hq; destruct (Hhc' p Hq) as (E & _ & _); congruence).
    rewrite lookup_insert_ne by congruence. exact Hp. }
  apply wp_bind. eapply wp_load; [exact H2c|].
  apply wp_bind. apply wp_slice_to; [lia|].
  apply wp_bind. apply wp_slice_to; [lia|].
  apply wp_bind.
  assert (Hget : forall (Q' : list ptr -> state -> Prop) st',
            Q' (Children (split_lower d cn)) st' ->
            wp (if IsLeaf cn then ret (Children cn) else slice_to (Children cn) d) Q' st').
  { intros Q' st' H. unfold split_lower in H. cbn [Children] in H.
    destruct (IsLeaf cn) eqn:Lc; [apply wp_ret; exact H|].
    apply wp_slice_to; [specialize (C7 eq_refl); lia|exact H]. }
  apply Hget. clear Hget.
  apply wp_bind. eapply wp_modify; [exact H2c|]. cbn [mem next_ptr tree].
  apply wp_bind. eapply wp_load.
  { cbn [mem]. rewrite lookup_alter_ne by congruence. exact H2p. }
  apply wp_bind. apply wp_slice_to; [lia|].
  apply wp_bind. apply wp_slice_from; [lia|].
  apply wp_bind. apply wp_slice_to; [lia|].
  apply wp_bind. apply wp_slice_from; [lia|].
  rewrite (d_wrap (len ls1 + 1)) by lia.
  apply wp_bind. apply wp_slice_to; [lia|].
  apply wp_bind. apply wp_slice_from; [lia|].
  apply wp_bind. eapply wp_modify.
  { cbn [mem]. rewrite lookup_alter_ne by congruence. exact H2p. }
  cbn [mem next_ptr tree].
  match goal with
  | |- wp _ _ (mkState ?h _ _) => set (h4 := h)
  end.
  assert (F1 : h4 !! p = Some (split_parent vnil d (len ls1) nx cn pn)).
  { unfold h4. rewrite lookup_alter_eq, lookup_alter_ne by congruence.
    rewrite H2p. cbn [fmap option_fmap option_map]. f_equal.
    unfold split_parent, median_key, median_value, set_Size, set_Children,
      set_Values, set_Keys. cbn [Keys Children IsLeaf Parent Size MaxKeys MinKeys Values].
    replace (Z.to_nat (len ls1 + 1)) with (S (Z.to_nat (len ls1))) by lia.
    f_equal.
    rewrite len_app, len_cons, len_take, len_drop by lia. lia. }
  assert (F2 : h4 !! c = Some (split_lower d cn)).
  { unfold h4. rewrite lookup_alter_ne, lookup_alter_eq by congruence.
    rewrite H2c. reflexivity. }
  assert (F3 : h4 !! nx = Some (split_upper d p cn)).
  { unfold h4. rewrite !lookup_alter_ne by congruence.
    rewrite H2out by (intros Hq; destruct (Hhc' nx Hq) as (_ & _ & E); congruence).
    apply lookup_insert_eq. }
  assert (F4 : forall q, In q hc -> h4 !! q = set_Parent (Some nx) <$> mem st !! q).
  { intros q Hq. destruct (Hhc' q Hq) as (E1 & E2 & E3).
    unfold h4. rewrite !lookup_alter_ne by congruence.
    rewrite (H2in q Hq), lookup_insert_ne by congruence. reflexivity. }
  assert (F5 : forall q, q <> p -> q <> c -> q <> nx -> ~ In q hc ->
                         h4 !! q = mem st !! q).
  { intros q E1 E2 E3 Hq.
    unfold h4. rewrite !lookup_alter_ne by congruence.
    rewrite (H2out q Hq), lookup_insert_ne by congruence. reflexivity. }
  assert (F6 : forall q, q <> p -> q <> c -> q <> nx ->
                         erase <$> h4 !! q = erase <$> mem st !! q).
  { intros q E1 E2 E3. destruct (in_dec Pos.eq_dec q hc) as [Hq|Hq].
    - rewrite (F4 q Hq). destruct (mem st !! q); reflexivity.
    - rewrite (F5 q E1 E2 E3 Hq). reflexivity. }
  clearbody h4. clear H2in H2out H2c H2p.
  assert (Hnx : ~ In nx (ptrs tp)).
  { intros H. specialize (Hfresh nx H). lia. }
  pose proof (split_rep _ _ _ _ _ _ _ _ _ _ Hrep Hnd Hnx F1 F2 F3 F6) as Hrep'.
  pose proof (split_kids_shape _ _ nx _ _ _ Hshape0 Hfull) as Hshape'.
  fold tc in Hrep', Hshape'.
  pose proof (rep_kids _ _ Hrep') as Hkids'. cbn [kids_of] in Hkids'.
  pose proof (split_height p (erase pn)
                (split_parent vnil d (len ls1) nx (erase cn) (erase pn)) nx ls1 tc ls2)
    as Hheight.
  assert (Hlo : rep h4 (tree_lower d tc) /\ rep h4 (tree_upper d nx tc)).
  { apply Forall_app in Hkids'. destruct Hkids' as [_ Hk'].
    apply Forall_cons in Hk'. destruct Hk' as [Hlo Hk'].
    apply Forall_cons in Hk'. destruct Hk' as [Hhi _]. auto. }
  assert (Hloh : (height tc <= fuel)%nat).
  { pose proof (height_kid tc (ls1 ++ tc :: ls2)) as Hk'.
    unfold tp in Hh. cbn [height] in Hh.
    specialize (Hk' ltac:(apply in_app_iff; right; left; reflexivity)). lia. }
  pose proof (tree_halves_height nx tc) as [Hh1 Hh2].
  apply wp_bind. eapply normalizeChildren_ok; [exact F1| |].
  { intros _. unfold split_parent. cbn [Children Size].
    rewrite d_wrap by lia.
    unfold len in *. rewrite length_app. cbn [length].
    rewrite length_take, length_drop. lia. }
  apply wp_bind.
  apply (checkInvariants_ok fuel (tree_lower d tc));
    [apply Hlo|apply tree_lower_shape; auto|lia|].
  apply wp_bind.
  apply (checkInvariants_ok fuel (tree_upper d nx tc));
    [apply Hlo|apply tree_upper_shape; auto|lia|].
  eapply (checkInvariants_parent fuel p _
            (ls1 ++ tree_lower d tc :: tree_upper d nx tc :: ls2));
    [exact F1| | |exact Hkids'|exact Hshape'| |].
  - unfold split_parent. cbn [Children Size].
    rewrite d_wrap by lia.
    unfold len in *. rewrite length_app. cbn [length].
    rewrite length_take, length_drop. lia.
  - unfold split_parent. cbn [Children]. rewrite <- Hi.
    rewrite !map_app. cbn [map]. unfold len. rewrite Nat2Z.id.
    rewrite <- (length_map root_of ls1). apply insert_after.
  - etransitivity; [|exact Hh].
    apply (split_height p (erase pn)).
  - apply HQ; try assumption.
    intros q Hq Hqn. apply F5; auto.
    + intros ->. apply Hq. left. reflexivity.
    + intros ->. apply Hq. right. apply in_flat_map. exists tc. split.
      * apply in_app_iff. right. left. reflexivity.
      * left. reflexivity.
    + intros Hin. destruct (Hhc q Hin) as [Hin' _]. apply Hq.
      right. apply in_flat_map. exists tc. split.
      * apply in_app_iff. right. left. reflexivity.
      * right. exact Hin'.
Qed.

(** *** Replacing one child subtree *)

Lemma NoDup_kid p n ls1 k ls2 :
  NoDup (ptrs (BNode p n (ls1 ++ k :: ls2))) ->
  NoDup (ptrs k) /\
  forall q, In q (ptrs k) ->
    q <> p /\ ~ In q (flat_map ptrs ls1) /\ ~ In q (flat_map ptrs ls2).
Proof.
  cbn [ptrs]. rewrite flat_map_app. cbn [flat_map]. intros H.
  apply NoDup_cons in H. destruct H as [Hp H].
  rewrite list_elem_of_In in Hp. rewrite !in_app_iff in Hp.
  apply NoDup_app in H. destruct H as (_ & H1 & H).
  apply NoDup_app in H. destruct H as (Hk & H2 & _).
  split; [exact Hk|]. intros q Hq. split; [|split].
  - intros ->. apply Hp. right. left. exact Hq.
  - intros Hq1. apply (H1 q); [apply list_elem_of_In; exact Hq1|].
    apply list_elem_of_In. apply in_app_iff. left. exact Hq.
  - intros Hq2. apply (H2 q); apply list_elem_of_In; assumption.
Qed.

Lemma replace_kid_ptrs p n n' ls1 k k' ls2 (news : list ptr) :
  ptrs k' ≡ₚ news ++ ptrs k ->
  ptrs (BNode p n' (ls1 ++ k' :: ls2)) ≡ₚ news ++ ptrs (BNode p n (ls1 ++ k :: ls2)).
Proof.
  intros H. cbn [ptrs]. rewrite !flat_map_app. cbn [flat_map].
  rewrite H. solve_Permutation.
Qed.

Lemma replace_kid_entries p n ls1 k k' ls2 (e : Z * V) :
  entries k' ≡ₚ e :: entries k ->
  entries (BNode p n (ls1 ++ k' :: ls2)) ≡ₚ e :: entries (BNode p n (ls1 ++ k :: ls2)).
Proof.
  intros H. rewrite !entries_perm. rewrite !map_app, !concat_app.
  cbn [map concat]. rewrite H. solve_Permutation.
Qed.

Lemma replace_kid_height p n n' ls1 k k' ls2 :
  (height k' <= height k)%nat ->
  (height (BNode p n' (ls1 ++ k' :: ls2)) <= height (BNode p n (ls1 ++ k :: ls2)))%nat.
Proof.
  intros H. cbn [height]. apply le_n_S.
  induction ls1 as [|a ls1 IH]; simpl in *; lia.
Qed.

Lemma replace_kid_shape p n ls1 k k' ls2 :
  shape_ok d (BNode p n (ls1 ++ k :: ls2)) = true ->
  shape_ok d k' = true -> root_of k' = root_of k ->
  shape_ok d (BNode p n (ls1 ++ k' :: ls2)) = true.
Proof.
  intros Hs Hk' Hr.
  apply shape_ok_node in Hs. destruct Hs as (Hn & Hl & Hi & Hk).
  apply shape_ok_node. split; [exact Hn|]. split; [|split].
  - intros L. specialize (Hl L). destruct ls1; discriminate.
  - intros L. rewrite <- (Hi L). rewrite !map_app. cbn [map]. rewrite Hr. reflexivity.
  - apply Forall_app in Hk. destruct Hk as [H1 H2].
    apply Forall_cons in H2. destruct H2 as [_ H2].
    apply Forall_app. split; [exact H1|]. constructor; assumption.
Qed.

Lemma replace_kid_rep h h' (nx : ptr) p n ls1 k k' ls2 :
  rep h (BNode p n (ls1 ++ k :: ls2)) ->
  NoDup (ptrs (BNode p n (ls1 ++ k :: ls2))) ->
  (forall q, In q (ptrs (BNode p n (ls1 ++ k :: ls2))) -> (q < nx)%positive) ->
  rep h' k' ->
  (forall q, ~ In q (ptrs k) -> (q < nx)%positive -> h' !! q = h !! q) ->
  rep h' (BNode p n (ls1 ++ k' :: ls2)).
Proof.
  intros Hrep Hnd Hfresh Hk' Hframe.
  destruct (NoDup_kid _ _ _ _ _ Hnd) as [_ Hdisj].
  inversion Hrep as [p0 n0 pn0 kids0 Hp He Hk]; subst.
  assert (Hkeep : forall q, In q (ptrs (BNode p (erase pn0) (ls1 ++ k :: ls2))) ->
            ~ In q (ptrs k) -> h' !! q = h !! q).
  { intros q Hq Hnk. apply Hframe; [exact Hnk|]. apply Hfresh. exact Hq. }
  eapply rep_node with (n' := pn0); [|reflexivity|].
  - rewrite Hkeep; [exact Hp|left; reflexivity|].
    intros Hq. destruct (Hdisj p Hq) as [E _]. congruence.
  - apply Forall_app in Hk. destruct Hk as [H1 H2].
    apply Forall_cons in H2. destruct H2 as [_ H2].
    assert (Hsib : forall ks, Forall (rep h) ks ->
              (forall q, In q (flat_map ptrs ks) ->
                 In q (ptrs (BNode p (erase pn0) (ls1 ++ k :: ls2))) /\ ~ In q (ptrs k)) ->
              Forall (rep h') ks).
    { intros ks Hks Hq. rewrite Forall_forall in *. intros a Hin.
      eapply rep_ext; [apply Hks; exact Hin|].
      intros q Hqa. destruct (Hq q) as [Hq1 Hq2].
      { apply in_flat_map. exists a. split; [apply list_elem_of_In; exact Hin|exact Hqa]. }
      rewrite Hkeep; auto. }
    apply Forall_app. split; [|constructor; [exact Hk'|]].
    + apply Hsib; [exact H1|]. intros q Hq. split.
      * cbn [ptrs]. right. rewrite flat_map_app. apply in_app_iff. left. exact Hq.
      * intros Hqk. destruct (Hdisj q Hqk) as (_ & E & _). tauto.
    + apply Hsib; [exact H2|]. intros q Hq. split.
      * cbn [ptrs]. right. rewrite flat_map_app. apply in_app_iff. right.
        cbn [flat_map]. apply in_app_iff. right. exact Hq.
      * intros Hqk. destruct (Hdisj q Hqk) as (_ & _ & E). tauto.
Qed.

Lemma split_shape p pn nx ls1 tc ls2 :
  shape_ok d (BNode p pn (ls1 ++ tc :: ls2)) = true ->
  Size pn < 2 * d - 1 ->
  Size (node_of tc) = 2 * d - 1 ->
  shape_ok d (BNode p (split_parent vnil d (len ls1) nx (node_of tc) pn)
                (ls1 ++ tree_lower d tc :: tree_upper d nx tc :: ls2)) = true.
Proof.
  intros Hs Hsize Hfull.
  pose proof (split_kids_shape _ _ nx _ _ _ Hs Hfull) as Hkids.
  apply shape_ok_node in Hs. destruct Hs as (Hn & Hl & Hi & Hk).
  destruct Hn as [N1 N2 N3 N4 N5 N6 N7].
  assert (Lp : IsLeaf pn = false).
  { destruct (IsLeaf pn) eqn:L; [|reflexivity].
    specialize (Hl eq_refl). destruct ls1; discriminate. }
  specialize (N7 Lp). specialize (Hi Lp).
  assert (Hlen1 : len ls1 + 1 <= len (Children pn)).
  { rewrite <- Hi. unfold len. rewrite length_map, length_app. simpl. lia. }
  pose proof (len_nonneg ls1) as Hls1.
  apply shape_ok_node. split; [split|split; [|split]];
    unfold split_parent; cbn [Keys Values Children IsLeaf Size MaxKeys MinKeys].
  - unfold len in *. rewrite length_app. cbn [length].
    rewrite length_take, length_drop. lia.
  - unfold len in *. rewrite !length_app. cbn [length].
    rewrite !length_take, !length_drop. lia.
  - exact N3.
  - exact N4.
  - lia.
  - intros L. congruence.
  - intros _. unfold len in *. rewrite length_app. cbn [length].
    rewrite length_take, length_drop. lia.
  - intros L. congruence.
  - intros _. rewrite <- Hi. rewrite !map_app. cbn [map].
    unfold len. rewrite Nat2Z.id.
    replace (root_of (tree_lower d tc)) with (root_of tc) by (destruct tc; reflexivity).
    replace (root_of (tree_upper d nx tc)) with nx by (destruct tc; reflexivity).
    rewrite <- (length_map root_of ls1). symmetry. apply insert_after.
  - exact Hkids.
Qed.

Lemma agrees_le (cmp : Z -> Z -> Z) (key a : Z) :
  agrees cmp key a -> cmp a key <= 0 -> a <= key.
Proof. intros [_ A] H. destruct (Z_le_gt_dec a key); [assumption|]. apply A in g. lia. Qed.

Lemma agrees_ge (cmp : Z -> Z -> Z) (key a : Z) :
  agrees cmp key a -> cmp a key >= 0 -> key <= a.
Proof. intros [A _] H. destruct (Z_le_gt_dec key a); [assumption|]. assert (a < key) as L by lia. apply A in L. lia. Qed.

Lemma placed_ext (cmp : Z -> Z -> Z) (M : Z -> Prop) (e : Z * V) t1 t t' :
  entries t1 = entries t -> placed_at cmp M e t1 t' -> placed_at cmp M e t t'.
Proof.
  intros E (A & K1 & K2 & B & n & H1 & H). rewrite E in H1.
  exists A, K1, K2, B, n. split; [exact H1|exact H].
Qed.

Lemma placed_mono (cmp : Z -> Z -> Z) (M M' : Z -> Prop) (e : Z * V) t t' :
  (forall a, M a -> M' a) -> placed_at cmp M e t t' -> placed_at cmp M' e t t'.
Proof.
  intros HM (A & K1 & K2 & B & n & P1 & P2 & P3 & P4 & P5 & P6 & P7 & P8 & P9).
  exists A, K1, K2, B, n. repeat (split; [assumption|]).
  intros x Hx. destruct (P9 x Hx) as [H|[H1 H2]]; [left; exact H|right].
  split; [exact H1|apply HM, H2].
Qed.

Lemma nodes_kid t k n0 : In k (kids_of t) -> In n0 (nodes k) -> In n0 (nodes t).
Proof.
  destruct t as [p n kids]. cbn [kids_of nodes]. intros Hk Hn. right.
  apply in_flat_map. exists k. split; assumption.
Qed.

Lemma split_median_kid t k (a : Z) :
  In k (kids_of t) -> split_median d k a -> split_median d t a.
Proof.
  intros Hk (n0 & H1 & H2 & H3). exists n0.
  split; [apply (nodes_kid t k); assumption|]. split; assumption.
Qed.

(** A full node among the nodes of a half of [tc] is a node of [tc]: the
    halves themselves hold [d - 1] keys. *)
Lemma split_median_lower tc (a : Z) :
  split_median d (tree_lower d tc) a -> split_median d tc a.
Proof.
  destruct tc as [c cn kc]. intros (n0 & H1 & H2 & H3). exists n0.
  split; [|split; assumption].
  cbn [tree_lower nodes] in *. destruct H1 as [<-|H1].
  - cbn [split_lower Size] in H2. lia.
  - right. apply in_flat_map in H1. destruct H1 as (k & Hk & Hn).
    apply in_flat_map. exists k. split; [|exact Hn].
    apply (in_take _ _ _ Hk).
Qed.

Lemma split_median_upper q tc (a : Z) :
  split_median d (tree_upper d q tc) a -> split_median d tc a.
Proof.
  destruct tc as [c cn kc]. intros (n0 & H1 & H2 & H3). exists n0.
  split; [|split; assumption].
  cbn [tree_upper nodes] in *. destruct H1 as [<-|H1].
  - cbn [split_upper erase set_Parent Size] in H2. lia.
  - right. apply in_flat_map in H1. destruct H1 as (k & Hk & Hn).
    apply in_flat_map. exists k. split; [|exact Hn].
    apply (in_drop _ _ _ Hk).
Qed.

(** The position of the new pair, one level up: [ls1] and the separators
    before the child come first, the separators from the child's on and
    [ls2] come last. *)
Lemma placed_kid (cmp : Z -> Z -> Z) (M : Z -> Prop) (e : Z * V)
    p n ls1 k k' ls2 :
  shape_ok d (BNode p n (ls1 ++ k :: ls2)) = true ->
  (forall a, (0 < length ls1)%nat -> Keys n !! (length ls1 - 1)%nat = Some a ->
             cmp a (fst e) <= 0) ->
  (forall a, Keys n !! length ls1 = Some a ->
             cmp a (fst e) > 0 \/ (cmp a (fst e) >= 0 /\ M a)) ->
  placed_at cmp M e k k' ->
  placed_at cmp M e (BNode p n (ls1 ++ k :: ls2)) (BNode p n (ls1 ++ k' :: ls2)).
Proof.
  intros Hshape Hlo Hhi (A & K1 & K2 & B & nl & P1 & P2 & P3 & P4 & P5 & P6 & P7
                         & P8 & P9).
  apply shape_ok_node in Hshape. destruct Hshape as (Hn & Hl & Hi & Hk).
  destruct Hn as [N1 N2 N3 N4 N5 N6 N7].
  assert (Hleaf : IsLeaf n = false).
  { destruct (IsLeaf n) eqn:L; [|reflexivity].
    specialize (Hl eq_refl). destruct ls1; discriminate. }
  specialize (Hi Hleaf). specialize (N7 Hleaf).
  assert (Hlen : (length ls1 + length ls2 = length (Keys n))%nat).
  { apply (f_equal length) in Hi. rewrite length_map, length_app in Hi.
    cbn [length] in Hi. unfold len in *. lia. }
  destruct (interleave_at (map entries ls1) (map entries ls2)
              (zip (Keys n) (Values n)))
    as (X & Y & HXY & HX1 & HX0 & HY1 & HY0).
  { rewrite length_app, !length_map, length_zip. unfold len in *. lia. }
  rewrite length_map in HX1, HX0, HY1, HY0.
  exists (X ++ A), K1, K2, (B ++ Y), nl.
  split.
  { cbn [entries]. rewrite map_app. cbn [map]. rewrite HXY, P1.
    rewrite <- !app_assoc. reflexivity. }
  split.
  { cbn [entries]. rewrite map_app. cbn [map]. rewrite HXY, P2.
    rewrite <- !app_assoc. cbn [app]. rewrite <- !app_assoc. reflexivity. }
  split.
  { cbn [nodes]. right. apply in_flat_map. exists k'.
    split; [apply in_app_iff; right; left; reflexivity|exact P3]. }
  split; [exact P4|]. split; [exact P5|]. split; [exact P6|]. split; [exact P7|].
  split.
  - intros x Hx. rewrite last_app in Hx.
    destruct (last A) as [y|] eqn:EA.
    + injection Hx as <-. apply P8. reflexivity.
    + destruct (Nat.eq_dec (length ls1) 0) as [E0|E0].
      * rewrite (HX0 E0) in Hx. discriminate Hx.
      * destruct (lookup_lt_is_Some_2 (zip (Keys n) (Values n)) (length ls1 - 1))
          as [ab Hab]; [rewrite length_zip; unfold len in *; lia|].
        destruct (HX1 ab) as [X' EX]; [lia|exact Hab|]. subst X.
        rewrite last_snoc in Hx. injection Hx as <-.
        apply zip_lookup_fst in Hab. apply Hlo; [lia|exact Hab].
  - intros x Hx. destruct B as [|b B].
    + cbn [app] in Hx.
      destruct (zip (Keys n) (Values n) !! length ls1) as [ab|] eqn:Hab.
      * destruct (HY1 ab eq_refl) as [Y' EY]. subst Y.
        cbn [head] in Hx. injection Hx as <-.
        apply zip_lookup_fst in Hab. apply Hhi. exact Hab.
      * apply lookup_ge_None in Hab. rewrite length_zip in Hab.
        rewrite HY0 in Hx; [discriminate Hx|]. unfold len in *.
        rewrite length_zip. lia.
    + cbn [app head] in Hx. apply P9. exact Hx.
Qed.

Lemma grown_kid (e : Z * V) st p n ls1 k ls2 st' k' (news : list ptr) :
  rep (mem st) (BNode p n (ls1 ++ k :: ls2)) ->
  shape_ok d (BNode p n (ls1 ++ k :: ls2)) = true ->
  NoDup (ptrs (BNode p n (ls1 ++ k :: ls2))) ->
  (forall q, In q (ptrs (BNode p n (ls1 ++ k :: ls2))) -> (q < next_ptr st)%positive) ->
  (forall a, (0 < length ls1)%nat -> Keys n !! (length ls1 - 1)%nat = Some a ->
             Comparator (tree st) a (fst e) <= 0) ->
  (forall a, Keys n !! length ls1 = Some a ->
             Comparator (tree st) a (fst e) >= 0) ->
  grown d e st k st' k' news ->
  grown d e st (BNode p n (ls1 ++ k :: ls2)) st' (BNode p n (ls1 ++ k' :: ls2)) news.
Proof.
  intros Hrep Hshape Hnd Hfresh Hlo Hhi [G1 G2 G3 G4 G5 G6 G7 G8 G9 G10 G11 G12].
  split; auto.
  - eapply replace_kid_rep; eauto.
  - eapply replace_kid_shape; eauto.
  - apply replace_kid_ptrs. exact G5.
  - intros q Hq Hlt. apply G9; [|exact Hlt].
    intros Hk. apply Hq. cbn [ptrs]. right. rewrite flat_map_app.
    apply in_app_iff. right. cbn [flat_map]. apply in_app_iff. left. exact Hk.
  - apply replace_kid_entries. exact G10.
  - apply replace_kid_height. exact G11.
  - (* search order *)
    intros Hag Hord.
    apply shape_ok_node in Hshape. destruct Hshape as (Hn & Hl & Hi & Hk).
    destruct Hn as [N1 N2 N3 N4 N5 N6 N7].
    assert (Hleaf : IsLeaf n = false).
    { destruct (IsLeaf n) eqn:L; [|reflexivity].
      specialize (Hl eq_refl). destruct ls1; discriminate. }
    specialize (Hi Hleaf). specialize (N7 Hleaf).
    assert (Hlen : (length ls1 + length ls2 = length (Keys n))%nat).
    { apply (f_equal length) in Hi. rewrite length_map, length_app in Hi.
      cbn [length] in Hi. unfold len in *. lia. }
    destruct (interleave_at (map entries ls1) (map entries ls2)
                (zip (Keys n) (Values n)))
      as (X & Y & HXY & HX1 & HX0 & HY1 & HY0).
    { rewrite length_app, !length_map, length_zip. unfold len in *. lia. }
    rewrite length_map in HX1, HX0, HY1, HY0.
    unfold ordered, keys_of in Hag, Hord, G12 |- *.
    cbn [entries] in Hag, Hord |- *.
    rewrite map_app in Hag, Hord |- *. cbn [map] in Hag, Hord |- *.
    rewrite HXY in Hag, Hord |- *. rewrite !map_app in Hag, Hord |- *.
    apply Forall_app in Hag. destruct Hag as [HagX Hag].
    apply Forall_app in Hag. destruct Hag as [Hagk HagY].
    assert (Hok : StronglySorted Z.le (map fst (entries k))).
    { apply StronglySorted_app_1_r in Hord.
      apply StronglySorted_app_1_l in Hord. exact Hord. }
    apply (sorted_grow _ _ (map fst (entries k)) _ (fst e)).
    + exact Hord.
    + apply G12; assumption.
    + rewrite G10. reflexivity.
    + intros x Hx. destruct (Nat.eq_dec (length ls1) 0) as [E0|E0].
      * rewrite (HX0 E0) in Hx. destruct Hx.
      * destruct (lookup_lt_is_Some_2 (zip (Keys n) (Values n)) (length ls1 - 1))
          as [ab Hab]; [rewrite length_zip; unfold len in *; lia|].
        destruct (HX1 ab) as [X' EX]; [lia|exact Hab|]. subst X.
        rewrite map_app in Hx, HagX, Hord. cbn [map] in Hx, HagX, Hord.
        apply zip_lookup_fst in Hab.
        assert (x <= fst ab).
        { apply (sorted_last_bound (map fst X')); [|exact Hx].
          apply StronglySorted_app_1_l in Hord. exact Hord. }
        assert (fst ab <= fst e).
        { apply (agrees_le (Comparator (tree st))).
          - apply Forall_app in HagX. destruct HagX as [_ HagX].
            apply Forall_cons in HagX. apply HagX.
          - apply Hlo; [lia|exact Hab]. }
        lia.
    + intros y Hy.
      destruct (zip (Keys n) (Values n) !! length ls1) as [ab|] eqn:Hab.
      * destruct (HY1 ab eq_refl) as [Y' EY]. subst Y.
        cbn [map] in Hy, HagY, Hord.
        apply zip_lookup_fst in Hab.
        assert (fst ab <= y).
        { apply (sorted_head_bound (map fst Y')); [|exact Hy].
          apply StronglySorted_app_1_r in Hord.
          apply StronglySorted_app_1_r in Hord. exact Hord. }
        assert (fst e <= fst ab).
        { apply (agrees_ge (Comparator (tree st))).
          - apply Forall_cons in HagY. apply HagY.
          - apply Hhi. exact Hab. }
        lia.
      * apply lookup_ge_None in Hab. rewrite length_zip in Hab.
        rewrite HY0 in Hy; [destruct Hy|]. unfold len in *.
        rewrite length_zip. lia.
Qed.

Lemma grown_compose (e : Z * V) st t st1 t1 st2 t2 (news1 news2 : list ptr) :
  tree st1 = tree st ->
  root_of t1 = root_of t ->
  ptrs t1 ≡ₚ news1 ++ ptrs t ->
  Forall (fun q => (next_ptr st <= q < next_ptr st1)%positive) news1 ->
  NoDup news1 ->
  (next_ptr st <= next_ptr st1)%positive ->
  (forall q, ~ In q (ptrs t) -> (q < next_ptr st)%positive ->
             mem st1 !! q = mem st !! q) ->
  entries t1 = entries t ->
  (height t1 <= height t)%nat ->
  grown d e st1 t1 st2 t2 news2 ->
  grown d e st t st2 t2 (news2 ++ news1).
Proof.
  intros S1 S2 S3 S4 S5 S6 S7 S8 S9 [G1 G2 G3 G4 G5 G6 G7 G8 G9 G10 G11 G12].
  split; auto.
  - congruence.
  - congruence.
  - rewrite G5, S3. solve_Permutation.
  - apply Forall_app. split.
    + eapply Forall_impl; [exact G6|]. simpl. intros q Hq. lia.
    + eapply Forall_impl; [exact S4|]. simpl. intros q Hq. lia.
  - apply NoDup_app. split; [exact G7|]. split; [|exact S5].
    intros q H2 H1. rewrite Forall_forall in G6, S4.
    specialize (G6 q H2). specialize (S4 q H1). lia.
  - lia.
  - intros q Hq Hlt. rewrite G9.
    + apply S7; assumption.
    + intros H1. apply (Permutation_in _ S3) in H1. apply in_app_iff in H1.
      destruct H1 as [H1|H1]; [|tauto].
      rewrite Forall_forall in S4. apply list_elem_of_In in H1.
      specialize (S4 q H1). lia.
    + lia.
  - rewrite G10, S8. reflexivity.
  - lia.
  - unfold ordered, keys_of in *. rewrite S1, S8 in G12. exact G12.
Qed.

Lemma kid_lookup p n ls1 k ls2 :
  shape_ok d (BNode p n (ls1 ++ k :: ls2)) = true ->
  Children n !! length ls1 = Some (root_of k).
Proof.
  intros Hs. apply shape_ok_node in Hs. destruct Hs as (_ & Hl & Hi & _).
  destruct (IsLeaf n) eqn:L.
  - specialize (Hl eq_refl). destruct ls1; discriminate.
  - rewrite <- (Hi eq_refl), map_app.
    rewrite lookup_app_r by (rewrite length_map; lia).
    rewrite length_map, Nat.sub_diag. reflexivity.
Qed.

Lemma kids_split kids (i : nat) :
  (i < length kids)%nat ->
  exists ls1 k ls2, kids = ls1 ++ k :: ls2 /\ length ls1 = i.
Proof.
  intros H. destruct (lookup_lt_is_Some_2 kids i H) as [k Hk].
  exists (take i kids), k, (drop (S i) kids). split.
  - symmetry. apply take_drop_middle. exact Hk.
  - rewrite length_take. lia.
Qed.

(** *** The scan loops *)

Lemma scan_down_ok (cmp : Z -> Z -> Z) (keys : list Z) (key : Z) (i : Z) st
    (Q : Z -> state -> Prop) :
  -1 <= i < len keys ->
  (forall j, -1 <= j <= i ->
     (forall m a, j < m <= i -> keys !! Z.to_nat m = Some a -> cmp a key > 0) ->
     (0 <= j -> exists a, keys !! Z.to_nat j = Some a /\ cmp a key <= 0) ->
     Q j st) ->
  wp (scan_down cmp keys key (S (Z.to_nat (i + 1))) i) Q st.
Proof.
  remember (Z.to_nat (i + 1)) as m eqn:Hm. revert i Hm Q.
  induction m as [|m IH]; intros i Hm Q Hi HQ.
  - assert (i = -1) by lia. subst i. simpl. apply wp_ret.
    apply HQ; [lia|intros; lia|intros; lia].
  - cbn [scan_down].
    destruct (i <? 0) eqn:E; [apply Z.ltb_lt in E; lia|].
    destruct (lookup_lt_is_Some_2 keys (Z.to_nat i)) as [a Ha];
      [unfold len in Hi; lia|].
    apply wp_bind. eapply wp_index; [lia|exact Ha|].
    destruct (cmp a key >? 0) eqn:C.
    + apply IH; [lia|lia|].
      intros j Hj Hgt Hle. apply HQ; [lia| |exact Hle].
      intros m' a' Hm' Ha'. destruct (Z.eq_dec m' i) as [->|Hne].
      * rewrite Ha in Ha'. injection Ha' as <-. apply Z.gtb_lt in C. lia.
      * apply (Hgt m'); [lia|exact Ha'].
    + apply wp_ret. apply HQ; [lia|intros; lia|].
      intros _. exists a. split; [exact Ha|].
      rewrite Z.gtb_ltb in C. apply Z.ltb_ge in C. exact C.
Qed.

(** *** [insertNonFull] *)

Lemma ins_lookup_eq {A} (l : list A) (i : nat) (x : A) :
  (i <= length l)%nat -> (take i l ++ x :: drop i l) !! i = Some x.
Proof. intros H. apply list_lookup_middle. rewrite length_take. lia. Qed.

Lemma ins_lookup_lt {A} (l : list A) (i m : nat) (x : A) :
  (m < i)%nat -> (i <= length l)%nat ->
  (take i l ++ x :: drop i l) !! m = l !! m.
Proof.
  intros H Hi. rewrite lookup_app_l by (rewrite length_take; lia).
  apply lookup_take_lt. exact H.
Qed.

Lemma ins_lookup_gt {A} (l : list A) (i m : nat) (x : A) :
  (i <= m)%nat -> (i <= length l)%nat ->
  (take i l ++ x :: drop i l) !! (S m) = l !! m.
Proof.
  intros H Hi. rewrite lookup_app_r by (rewrite length_take; lia).
  rewrite length_take. replace (S m - i `min` length l)%nat with (S (m - i)) by lia.
  change ((x :: drop i l) !! S (m - i)%nat) with (drop i l !! (m - i)%nat).
  rewrite lookup_drop. f_equal. lia.
Qed.

Lemma zip_insert {A B} (l : list A) (l' : list B) (i : nat) (x : A) (y : B) :
  length l = length l' ->
  zip (take i l ++ x :: drop i l) (take i l' ++ y :: drop i l')
  ≡ₚ (x, y) :: zip l l'.
Proof.
  intros H.
  rewrite zip_app_same by (rewrite !length_take; lia).
  rewrite <- (take_drop i l) at 3. rewrite <- (take_drop i l') at 3.
  rewrite zip_app_same by (rewrite !length_take; lia).
  cbn [zip zip_with]. solve_Permutation.
Qed.

Lemma insertNonFull_wp (key : Z) (value : V) (fuel : nat) :
  forall t st,
    Degree (tree st) = d ->
    rep (mem st) t -> shape_ok d t = true -> NoDup (ptrs t) ->
    (forall q, In q (ptrs t) -> (q < next_ptr st)%positive) ->
    (height t <= fuel)%nat ->
    Size (node_of t) < 2 * d - 1 ->
    wp (insertNonFull vnil fuel (root_of t) key value)
       (fun _ st' => exists t' news,
          grown d (key, value) st t st' t' news /\
          placed (Comparator (tree st)) d (key, value) t t') st.
Proof.
  induction fuel as [|f IH]; intros [p n kids] st Hdeg Hrep Hshape Hnd Hfresh Hh Hsize.
  { simpl in Hh. lia. }
  pose proof Hshape as Hshape0.
  apply shape_ok_node in Hshape. destruct Hshape as (Hn & Hl & Hi & Hk).
  inversion Hrep as [p0 n0 pn kids0 Hp He Hrk]. subst p0 n0 kids0 n.
  apply (proj1 (node_facts_erase _ _)) in Hn.
  cbn [erase set_Parent IsLeaf Children] in Hi, Hl.
  cbn [node_of erase set_Parent Size] in Hsize.
  destruct Hn as [N1 N2 N3 N4 N5 N6 N7].
  pose proof (len_nonneg (Keys pn)) as HK.
  cbn [insertNonFull root_of].
  apply wp_bind, wp_get_tree.
  apply wp_bind. eapply wp_load; [exact Hp|].
  rewrite (d_wrap (Size pn - 1)) by lia.
  destruct (IsLeaf pn) eqn:L.
  - (* leaf *)
    specialize (Hl eq_refl). subst kids.
    apply wp_bind. apply scan_down_ok; [lia|].
    intros j Hj Hgt Hle.
    rewrite (d_wrap (j + 1)) by lia.
    apply wp_bind. apply wp_slice_to; [lia|].
    apply wp_bind. apply wp_slice_from; [lia|].
    apply wp_bind. apply wp_slice_to; [lia|].
    apply wp_bind. apply wp_slice_from; [lia|].
    eapply wp_modify; [exact Hp|].
    match goal with
    | |- context [alter ?f p (mem st)] => set (g := f)
    end.
    assert (Hg : g pn =
      mkNode (take (Z.to_nat (j + 1)) (Keys pn) ++ key :: drop (Z.to_nat (j + 1)) (Keys pn))
             (Children pn) (IsLeaf pn) (Parent pn) (Size pn + 1)
             (MaxKeys pn) (MinKeys pn)
             (take (Z.to_nat (j + 1)) (Values pn) ++ value
                :: drop (Z.to_nat (j + 1)) (Values pn))).
    { unfold g, set_Size, set_Values, set_Keys.
      cbn [Keys Values Children IsLeaf Parent Size MaxKeys MinKeys].
      rewrite (d_wrap (Size pn + 1)) by lia. reflexivity. }
    clearbody g.
    exists (BNode p (erase (g pn)) []), [].
    split; [split|]; cbn [mem next_ptr tree root_of ptrs flat_map app].
    + reflexivity.
    + eapply rep_node; [|reflexivity|constructor].
      rewrite lookup_alter_eq, Hp. reflexivity.
    + apply shape_ok_node. split; [|split; [|split]].
      * apply node_facts_erase. rewrite Hg.
        split; cbn [Keys Values Children IsLeaf Size MaxKeys MinKeys]; auto.
        -- unfold len in *. rewrite length_app. cbn [length].
           rewrite length_take, length_drop. lia.
        -- unfold len in *. rewrite !length_app. cbn [length].
           rewrite !length_take, !length_drop. lia.
        -- lia.
        -- congruence.
      * reflexivity.
      * rewrite Hg. cbn. congruence.
      * constructor.
    + reflexivity.
    + reflexivity.
    + constructor.
    + constructor.
    + lia.
    + intros q Hq _. apply lookup_alter_ne. intros ->. apply Hq. left. reflexivity.
    + rewrite Hg. cbn [entries map interleave erase set_Parent Keys Values].
      apply zip_insert. unfold len in *. lia.
    + reflexivity.
    + (* search order *)
      intros Hag Hord. unfold ordered, keys_of in Hag, Hord |- *.
      rewrite Hg.
      cbn [entries map interleave erase set_Parent Keys Values fst] in Hag, Hord |- *.
      rewrite map_fst_zip in Hag, Hord by (unfold len in *; lia).
      rewrite map_fst_zip
        by (rewrite !length_app; cbn [length];
            rewrite !length_take, !length_drop; unfold len in *; lia).
      rewrite Forall_forall in Hag.
      apply sorted_insert_at; [exact Hord| |].
      * intros m a Hm Ha.
        destruct Hle as (b & Hb & Hcb); [lia|].
        assert (a <= b)
          by (apply (sorted_lookup_le (Keys pn) m (Z.to_nat j)); auto; lia).
        assert (b <= key).
        { apply (agrees_le (Comparator (tree st))); [|exact Hcb].
          apply Hag. apply list_elem_of_lookup. eauto. }
        lia.
      * intros m a Hm Ha.
        pose proof (lookup_lt_Some _ _ _ Ha) as Hlt.
        apply (agrees_ge (Comparator (tree st))).
        -- apply Hag. apply list_elem_of_lookup. eauto.
        -- assert (Comparator (tree st) a key > 0); [|lia].
           apply (Hgt (Z.of_nat m)); [unfold len in *; lia|].
           rewrite Nat2Z.id. exact Ha.
    + (* the scan position *)
      set (i := Z.to_nat (j + 1)) in *.
      assert (HT : length (take i (Keys pn)) = length (take i (Values pn)))
        by (rewrite !length_take; unfold len in *; lia).
      exists [], (zip (take i (Keys pn)) (take i (Values pn))),
        (zip (drop i (Keys pn)) (drop i (Values pn))), [], (erase (g pn)).
      cbn [app]. rewrite app_nil_r.
      split.
      { cbn [entries map interleave erase set_Parent Keys Values].
        rewrite <- zip_app_same by exact HT. rewrite !take_drop. reflexivity. }
      split.
      { rewrite Hg. cbn [entries map interleave erase set_Parent Keys Values].
        rewrite zip_app_same by exact HT. reflexivity. }
      split; [left; reflexivity|].
      split; [rewrite Hg; exact L|].
      split.
      { rewrite Hg. cbn [erase set_Parent Keys Values].
        rewrite zip_app_same by exact HT. reflexivity. }
      split.
      { apply Forall_forall. intros x Hx. apply list_elem_of_lookup in Hx.
        destruct Hx as [m Hm]. apply zip_lookup_fst in Hm.
        rewrite lookup_drop in Hm. cbn [fst].
        pose proof (lookup_lt_Some _ _ _ Hm) as Hlt.
        apply (Hgt (Z.of_nat (i + m))); [unfold len, i in *; lia|].
        rewrite Nat2Z.id. exact Hm. }
      split.
      { intros x Hx.
        assert (HL : length (zip (take i (Keys pn)) (take i (Values pn))) = i).
        { rewrite length_zip, !length_take. unfold len, i in *. lia. }
        rewrite last_lookup, HL in Hx.
        pose proof (lookup_lt_Some _ _ _ Hx) as Hlt. rewrite HL in Hlt.
        apply zip_lookup_fst in Hx.
        rewrite lookup_take_lt in Hx by exact Hlt.
        destruct Hle as (b & Hb & Hcb); [unfold i in *; lia|].
        replace (Nat.pred i) with (Z.to_nat j) in Hx by (unfold i in *; lia).
        rewrite Hb in Hx. injection Hx as <-. cbn [fst]. exact Hcb. }
      split; intros x Hx; discriminate Hx.
  - (* internal node *)
    specialize (Hi eq_refl). specialize (N7 eq_refl).
    apply wp_bind. apply scan_down_ok; [lia|].
    intros j Hj Hgt Hle.
    rewrite (d_wrap (j + 1)) by lia.
    destruct (kids_split kids (Z.to_nat (j + 1))) as (ls1 & tc & ls2 & -> & Hlen).
    { rewrite <- (length_map root_of kids), Hi. unfold len in *. lia. }
    assert (Hj1 : j + 1 = len ls1) by (unfold len; lia).
    assert (Hlo : forall a, (0 < length ls1)%nat ->
                    Keys pn !! (length ls1 - 1)%nat = Some a ->
                    Comparator (tree st) a key <= 0).
    { intros a H0 Ha. destruct Hle as (b & Hb & Hcb); [lia|].
      replace (Z.to_nat j) with (length ls1 - 1)%nat in Hb by (unfold len in *; lia).
      congruence. }
    assert (Hhi : forall a, Keys pn !! length ls1 = Some a ->
                    Comparator (tree st) a key >= 0).
    { intros a Ha. pose proof (lookup_lt_Some _ _ _ Ha) as Hlt.
      assert (Comparator (tree st) a key > 0); [|lia].
      apply (Hgt (len ls1)); [unfold len in *; lia|].
      unfold len. rewrite Nat2Z.id. exact Ha. }
    assert (Hhi' : forall a, Keys pn !! length ls1 = Some a ->
                     Comparator (tree st) a key > 0).
    { intros a Ha. pose proof (lookup_lt_Some _ _ _ Ha) as Hlt.
      apply (Hgt (len ls1)); [unfold len in *; lia|].
      unfold len. rewrite Nat2Z.id. exact Ha. }
    rewrite Hj1. clear Hgt Hle. clear j Hj Hj1 Hlen.
    pose proof (len_nonneg ls1) as Hls1.
    assert (Hlen1 : len ls1 + 1 <= len (Children pn)).
    { rewrite <- Hi. unfold len. rewrite length_map, length_app. simpl. lia. }
    destruct tc as [c cn0 kc].
    assert (Hrc : rep (mem st) (BNode c cn0 kc)).
    { rewrite Forall_forall in Hrk. apply Hrk. apply list_elem_of_In.
      apply in_app_iff. right. left. reflexivity. }
    inversion Hrc as [c0 n0 cn kc0 Hc Hec Hrkc]. subst c0 n0 kc0 cn0.
    assert (Htc : shape_ok d (BNode c (erase cn) kc) = true).
    { rewrite Forall_forall in Hk. apply Hk. apply list_elem_of_In.
      apply in_app_iff. right. left. reflexivity. }
    pose proof Htc as Htc0.
    apply shape_ok_node in Htc. destruct Htc as (Hcn & _).
    apply (proj1 (node_facts_erase _ _)) in Hcn.
    destruct Hcn as [C1 C2 C3 C4 C5 C6 C7].
    assert (Hhc : (height (BNode c (erase cn) kc) <= f)%nat).
    { pose proof (height_kid (BNode c (erase cn) kc) (ls1 ++ BNode c (erase cn) kc :: ls2))
        as Hk'.
      cbn [height] in Hh.
      specialize (Hk' ltac:(apply in_app_iff; right; left; reflexivity)). lia. }
    apply wp_bind. eapply wp_index; [lia| |].
    { unfold len. rewrite Nat2Z.id. apply (kid_lookup _ _ _ _ _ Hshape0). }
    cbn [root_of].
    apply wp_bind. eapply wp_load; [exact Hc|].
    rewrite C3.
    destruct (Size cn =? 2 * d - 1) eqn:F.
    + (* the child is full: split first *)
      apply Z.eqb_eq in F.
      apply wp_bind. apply wp_bind.
      eapply (splitChild_wp (S f) st p pn ls1 c cn kc ls2); try eassumption.
      intros h' F1 F2 F3 F4 F5 F6 F7.
      set (nx := next_ptr st) in *.
      set (st1 := mkState h' (Pos.succ nx) (tree st)).
      set (tc := BNode c (erase cn) kc) in *.
      set (t := BNode p (erase pn) (ls1 ++ tc :: ls2)) in *.
      set (lo := tree_lower d tc).
      set (hi := tree_upper d nx tc).
      set (pn1 := split_parent vnil d (len ls1) nx (erase cn) (erase pn)).
      set (t1 := BNode p pn1 (ls1 ++ lo :: hi :: ls2)).
      assert (Hnx : ~ In nx (ptrs t)).
      { intros H. specialize (Hfresh nx H). lia. }
      assert (R1 : rep (mem st1) t1).
      { apply split_rep with (h := mem st); auto. }
      assert (S1 : shape_ok d t1 = true).
      { apply (split_shape p (erase pn) nx ls1 tc ls2); auto. }
      assert (P1 : ptrs t1 ≡ₚ [nx] ++ ptrs t).
      { apply (split_ptrs p (erase pn)). }
      assert (ND1 : NoDup (ptrs t1)).
      { rewrite P1. constructor; [rewrite list_elem_of_In; exact Hnx|exact Hnd]. }
      assert (FR1 : forall q, In q (ptrs t1) -> (q < Pos.succ nx)%positive).
      { intros q Hq. apply (Permutation_in _ P1) in Hq. destruct Hq as [<-|Hq]; [lia|].
        specialize (Hfresh q Hq). lia. }
      assert (E1 : entries t1 ≡ₚ entries t).
      { apply (split_entries p (erase pn) nx ls1 tc ls2); auto. }
      assert (H1 : (height t1 <= height t)%nat).
      { apply (split_height p (erase pn)). }
      pose proof (tree_halves_height nx tc) as [Hh1 Hh2]. fold lo in Hh1. fold hi in Hh2.
      assert (Step : forall st2 t2 news,
                grown d (key, value) st1 t1 st2 t2 news ->
                grown d (key, value) st t st2 t2 (news ++ [nx])).
      { intros st2 t2 news G.
        eapply (grown_compose _ st t st1 t1); try eassumption; try reflexivity.
        - constructor; [|constructor]. cbn [next_ptr st1]. fold nx. lia.
        - constructor; [rewrite list_elem_of_In; intros []|constructor].
        - cbn [next_ptr st1]. fold nx. lia.
        - intros q Hq Hlt. apply F7; [exact Hq|]. fold nx in Hlt. lia.
        - apply (split_entries_eq p (erase pn) nx ls1 tc ls2); auto. }
      apply wp_bind. eapply wp_load; [exact F1|].
      apply wp_bind. eapply wp_index; [lia| |].
      { unfold split_parent. cbn [Keys]. apply list_lookup_middle.
        rewrite length_take. unfold len in *. lia. }
      apply wp_ret.
      apply wp_bind. eapply wp_load; [exact F1|].
      assert (Hi1 : (length ls1 <= length (Keys pn))%nat) by (unfold len in *; lia).
      destruct (Comparator (tree st) (median_key d cn) key <? 0) eqn:Cm.
      * (* the key goes to the new sibling *)
        rewrite (d_wrap (len ls1 + 1)) by lia.
        assert (Hkids : ls1 ++ lo :: hi :: ls2 = (ls1 ++ [lo]) ++ hi :: ls2).
        { rewrite <- app_assoc. reflexivity. }
        apply wp_bind. eapply wp_index; [lia| |].
        { change (Children (split_parent vnil d (len ls1) nx cn pn))
            with (Children pn1).
          replace (Z.to_nat (len ls1 + 1)) with (length (ls1 ++ [lo]))
            by (rewrite length_app; unfold len; simpl; lia).
          apply (kid_lookup p pn1 (ls1 ++ [lo]) hi ls2).
          rewrite <- Hkids. exact S1. }
        replace (root_of hi) with nx by (unfold hi, tc; reflexivity).
        assert (Hroot : root_of hi = nx) by (unfold hi, tc; reflexivity).
        unfold t1 in R1, S1, ND1, FR1. rewrite Hkids in R1, S1, ND1, FR1.
        destruct (NoDup_kid _ _ _ _ _ ND1) as [Hndk _].
        eapply wp_mono.
        -- rewrite <- Hroot. apply (IH hi st1); auto.
           ++ apply rep_kids in R1. cbn [kids_of] in R1.
              rewrite Forall_forall in R1. apply R1. apply list_elem_of_In.
              apply in_app_iff. right. left. reflexivity.
           ++ apply tree_upper_shape; auto.
           ++ intros q Hq. apply FR1. right. apply in_flat_map.
              exists hi. split; [|exact Hq].
              apply in_app_iff. right. left. reflexivity.
           ++ lia.
           ++ unfold hi, tc. cbn. lia.
        -- intros [] st2 (t' & news & G & P).
           exists (BNode p pn1 ((ls1 ++ [lo]) ++ t' :: ls2)), (news ++ [nx]).
           apply Z.ltb_lt in Cm.
           assert (Hlo1 : forall a, (0 < length (ls1 ++ [lo]))%nat ->
                     Keys pn1 !! (length (ls1 ++ [lo]) - 1)%nat = Some a ->
                     Comparator (tree st) a key <= 0).
           { intros a _. rewrite length_app. cbn [length].
             replace (length ls1 + 1 - 1)%nat with (length ls1) by lia.
             unfold pn1, split_parent, len. cbn [Keys erase set_Parent].
             rewrite Nat2Z.id, ins_lookup_eq by exact Hi1.
             intros [= <-]. unfold median_key in *.
             cbn [Keys erase set_Parent]. lia. }
           assert (Hhi1 : forall a, Keys pn1 !! length (ls1 ++ [lo]) = Some a ->
                     Comparator (tree st) a key > 0).
           { intros a. rewrite length_app. cbn [length].
             unfold pn1, split_parent, len. cbn [Keys erase set_Parent].
             rewrite Nat2Z.id.
             replace (length ls1 + 1)%nat with (S (length ls1)) by lia.
             rewrite ins_lookup_gt by lia. apply Hhi'. }
           split.
           ++ apply Step. unfold t1. rewrite Hkids.
              apply grown_kid; auto.
              intros a Ha. specialize (Hhi1 a Ha). cbn [fst tree st1]. lia.
           ++ apply (placed_ext _ _ _ t1 t).
              { apply (split_entries_eq p (erase pn) nx ls1 tc ls2); auto. }
              unfold t1. rewrite Hkids.
              apply placed_kid; [exact S1|exact Hlo1| |].
              ** intros a Ha. left. apply Hhi1. exact Ha.
              ** apply (placed_mono _ (split_median d hi)); [|exact P].
                 intros a Ha. apply (split_median_kid t tc).
                 --- unfold t. cbn [kids_of]. apply in_app_iff. right. left.
                     reflexivity.
                 --- apply (split_median_upper nx tc). exact Ha.
      * (* the key stays on the side of the original child *)
        apply wp_bind. eapply wp_index; [lia| |].
        { change (Children (split_parent vnil d (len ls1) nx cn pn))
            with (Children pn1).
          unfold len. rewrite Nat2Z.id.
          apply (kid_lookup p pn1 ls1 lo (hi :: ls2)). exact S1. }
        assert (Hroot : root_of lo = c) by (unfold lo, tc; reflexivity).
        rewrite Hroot.
        unfold t1 in R1, S1, ND1, FR1.
        destruct (NoDup_kid _ _ _ _ _ ND1) as [Hndk _].
        eapply wp_mono.
        -- rewrite <- Hroot. apply (IH lo st1); auto.
           ++ apply rep_kids in R1. cbn [kids_of] in R1.
              rewrite Forall_forall in R1. apply R1. apply list_elem_of_In.
              apply in_app_iff. right. left. reflexivity.
           ++ apply tree_lower_shape; auto.
           ++ intros q Hq. apply FR1. right. apply in_flat_map.
              exists lo. split; [|exact Hq].
              apply in_app_iff. right. left. reflexivity.
           ++ lia.
           ++ unfold lo, tc. cbn. lia.
        -- intros [] st2 (t' & news & G & P).
           exists (BNode p pn1 (ls1 ++ t' :: hi :: ls2)), (news ++ [nx]).
           apply Z.ltb_ge in Cm.
           assert (Hlo1 : forall a, (0 < length ls1)%nat ->
                     Keys pn1 !! (length ls1 - 1)%nat = Some a ->
                     Comparator (tree st) a key <= 0).
           { intros a H0.
             unfold pn1, split_parent, len. cbn [Keys erase set_Parent].
             rewrite Nat2Z.id, ins_lookup_lt by lia. apply Hlo. exact H0. }
           assert (Hhi1 : forall a, Keys pn1 !! length ls1 = Some a ->
                     Comparator (tree st) a key >= 0 /\ split_median d t a).
           { intros a.
             unfold pn1, split_parent, len. cbn [Keys erase set_Parent].
             rewrite Nat2Z.id, ins_lookup_eq by exact Hi1.
             intros [= <-]. split.
             - unfold median_key in *. cbn [Keys erase set_Parent]. lia.
             - exists (erase cn). split; [|split; [exact F|reflexivity]].
               unfold t. cbn [nodes]. right. apply in_flat_map. exists tc.
               split; [apply in_app_iff; right; left; reflexivity|].
               unfold tc. cbn [nodes]. left. reflexivity. }
           split.
           ++ apply Step. unfold t1.
              apply grown_kid; auto.
              intros a Ha. apply (Hhi1 a Ha).
           ++ apply (placed_ext _ _ _ t1 t).
              { apply (split_entries_eq p (erase pn) nx ls1 tc ls2); auto. }
              unfold t1.
              apply placed_kid; [exact S1|exact Hlo1| |].
              ** intros a Ha. right. apply Hhi1. exact Ha.
              ** apply (placed_mono _ (split_median d lo)); [|exact P].
                 intros a Ha. apply (split_median_kid t tc).
                 --- unfold t. cbn [kids_of]. apply in_app_iff. right. left.
                     reflexivity.
                 --- apply (split_median_lower tc). exact Ha.
    + (* room in the child *)
      apply Z.eqb_neq in F.
      apply wp_bind. apply wp_ret.
      apply wp_bind. eapply wp_load; [exact Hp|].
      apply wp_bind. eapply wp_index; [lia| |].
      { unfold len. rewrite Nat2Z.id. apply (kid_lookup _ _ _ _ _ Hshape0). }
      destruct (NoDup_kid _ _ _ _ _ Hnd) as [Hndk _].
      eapply wp_mono.
      * apply (IH (BNode c (erase cn) kc) st); auto.
        -- intros q Hq. apply Hfresh. right. apply in_flat_map.
           exists (BNode c (erase cn) kc). split; [|exact Hq].
           apply in_app_iff. right. left. reflexivity.
        -- cbn [node_of erase set_Parent Size]. lia.
      * intros [] st' (t' & news & G & P).
        exists (BNode p (erase pn) (ls1 ++ t' :: ls2)), news.
        split; [apply grown_kid; auto|].
        apply placed_kid; [exact Hshape0|exact Hlo| |].
        -- intros a Ha. left. apply Hhi'. exact Ha.
        -- apply (placed_mono _ (split_median d (BNode c (erase cn) kc))); [|exact P].
           intros a Ha.
           apply (split_median_kid _ (BNode c (erase cn) kc)); [|exact Ha].
           cbn [kids_of]. apply in_app_iff. right. left. reflexivity.
Qed.


(** *** [Insert] *)

Lemma news_wf (nx nx' : ptr) (l news l' : list ptr) :
  NoDup l -> (forall q, In q l -> (q < nx)%positive) ->
  l' ≡ₚ news ++ l -> NoDup news ->
  Forall (fun q => (nx <= q < nx')%positive) news ->
  (nx <= nx')%positive ->
  NoDup l' /\ forall q, In q l' -> (q < nx')%positive.
Proof.
  intros Hnd Hfresh Hp Hn Hf Hle. rewrite Forall_forall in Hf. split.
  - rewrite Hp. apply NoDup_app. split; [exact Hn|]. split; [|exact Hnd].
    intros q H1 H2. specialize (Hf q H1). apply list_elem_of_In in H2.
    specialize (Hfresh q H2). lia.
  - intros q Hq. apply (Permutation_in _ Hp) in Hq. apply in_app_iff in Hq.
    destruct Hq as [Hq|Hq].
    + apply list_elem_of_In in Hq. specialize (Hf q Hq). lia.
    + specialize (Hfresh q Hq). lia.
Qed.

(** The part of [Insert] from [insertNonFull] on. *)
Lemma Insert_tail (key : Z) (value : V) (fuel : nat) st t :
  Degree (tree st) = d ->
  Root (tree st) = Some (root_of t) ->
  rep (mem st) t -> shape_ok d t = true -> NoDup (ptrs t) ->
  (forall q, In q (ptrs t) -> (q < next_ptr st)%positive) ->
  (height t <= fuel)%nat ->
  Size (node_of t) < 2 * d - 1 ->
  wp (bind get_tree (fun tr =>
        bind (deref (Root tr)) (fun r0 =>
          bind (insertNonFull vnil fuel r0 key value) (fun _ =>
            bind (modify_tree (fun tr => set_Tree_Size (wrap (Tree_Size tr + 1)) tr))
              (fun _ => bind get_tree (fun tr => checkInvariants fuel (Root tr)))))))
     (fun _ st' => exists st2 t' news,
        grown d (key, value) st t st2 t' news /\
        placed (Comparator (tree st)) d (key, value) t t' /\
        st' = mkState (mem st2) (next_ptr st2)
                (set_Tree_Size (wrap (Tree_Size (tree st) + 1)) (tree st))) st.
Proof.
  intros Hdeg Hroot Hrep Hshape Hnd Hfresh Hh Hsize.
  apply wp_bind, wp_get_tree. rewrite Hroot.
  apply wp_bind, wp_deref.
  apply wp_bind. eapply wp_mono; [apply insertNonFull_wp; eassumption|].
  intros [] st2 (t' & news & G & P). cbv beta.
  apply wp_bind, wp_modify_tree.
  apply wp_bind, wp_get_tree. cbn [tree mem next_ptr].
  destruct G as [G1 G2 G3 G4 G5 G6 G7 G8 G9 G10 G11].
  rewrite G1. cbn [set_Tree_Size Root]. rewrite Hroot, <- G4.
  apply checkInvariants_ok; [exact G2|exact G3|lia|].
  exists st2, t', news. split; [|split; [exact P|reflexivity]].
  split; auto.
Qed.

Lemma Insert_wp (key : Z) (value : V) (fuel : nat) st t :
  Degree (tree st) = d ->
  Root (tree st) = Some (root_of t) ->
  rep (mem st) t -> shape_ok d t = true -> NoDup (ptrs t) ->
  (forall q, In q (ptrs t) -> (q < next_ptr st)%positive) ->
  (height t < fuel)%nat ->
  wp (Insert vnil fuel key value)
     (fun _ st' => exists t' news,
        Root (tree st') = Some (root_of t') /\
        Degree (tree st') = d /\
        Comparator (tree st') = Comparator (tree st) /\
        Tree_Size (tree st') = wrap (Tree_Size (tree st) + 1) /\
        rep (mem st') t' /\ shape_ok d t' = true /\
        ptrs t' ≡ₚ news ++ ptrs t /\ NoDup news /\
        Forall (fun q => (next_ptr st <= q < next_ptr st')%positive) news /\
        (next_ptr st <= next_ptr st')%positive /\
        entries t' ≡ₚ (key, value) :: entries t /\
        (height t' <= S (height t))%nat /\
        (forall q, ~ In q (ptrs t) -> (q < next_ptr st)%positive ->
                   mem st' !! q = mem st !! q) /\
        (Forall (agrees (Comparator (tree st)) key) (keys_of t) ->
         ordered t -> ordered t') /\
        placed (Comparator (tree st)) d (key, value) t t') st.
Proof.
  intros Hdeg Hroot Hrep Hshape Hnd Hfresh Hh.
  unfold Insert. apply wp_bind, wp_get_tree. rewrite Hroot.
  apply wp_bind. apply checkInvariants_ok; [exact Hrep|exact Hshape|lia|].
  destruct t as [r n kids].
  pose proof Hshape as Hshape0.
  apply shape_ok_node in Hshape. destruct Hshape as (Hn & Hl & Hi & Hk).
  inversion Hrep as [p0 n0 rn kids0 Hp He Hrk]. subst p0 n0 kids0 n.
  apply (proj1 (node_facts_erase _ _)) in Hn.
  destruct Hn as [N1 N2 N3 N4 N5 N6 N7].
  cbn [root_of].
  apply wp_bind. eapply wp_load; [exact Hp|].
  rewrite N3, Hdeg.
  apply wp_bind.
  destruct (Size rn =? 2 * d - 1) eqn:F.
  - (* full root *)
    apply Z.eqb_eq in F.
    rewrite (d_wrap (2 * d - 1)) by lia. rewrite (d_wrap (d - 1)) by lia.
    apply wp_bind. apply wp_alloc.
    set (nx := next_ptr st) in *.
    set (newroot := mkNode [] [r] false None 0 (2 * d - 1) (d - 1) ([] : list V)).
    assert (Hrnx : r <> nx).
    { intros E. specialize (Hfresh r (or_introl eq_refl)). lia. }
    apply wp_bind. eapply wp_modify.
    { cbn [mem]. rewrite lookup_insert_ne by congruence. exact Hp. }
    cbn [mem next_ptr tree].
    set (hA := alter (set_Parent (Some nx)) r (<[nx := newroot]> (mem st))).
    set (sA := mkState hA (Pos.succ nx) (tree st)).
    set (t := BNode r (erase rn) kids) in *.
    assert (HAnx : hA !! nx = Some newroot).
    { unfold hA. rewrite lookup_alter_ne by congruence. apply lookup_insert_eq. }
    assert (HAr : hA !! r = Some (set_Parent (Some nx) rn)).
    { unfold hA. rewrite lookup_alter_eq, lookup_insert_ne by congruence.
      rewrite Hp. reflexivity. }
    assert (HAe : forall q, In q (ptrs t) -> erase <$> hA !! q = erase <$> mem st !! q).
    { intros q Hq. unfold hA. destruct (decide (r = q)) as [<-|Hne].
      - rewrite lookup_alter_eq, lookup_insert_ne by congruence.
        rewrite Hp. reflexivity.
      - rewrite lookup_alter_ne by exact Hne. rewrite lookup_insert_ne; [reflexivity|].
        intros <-. specialize (Hfresh nx Hq). lia. }
    assert (RA : rep hA (BNode nx (erase newroot)
                     ([] ++ BNode r (erase (set_Parent (Some nx) rn)) kids :: []))).
    { eapply rep_node; [exact HAnx|reflexivity|]. constructor; [|constructor].
      apply (rep_ext (mem st)); [exact Hrep|exact HAe]. }
    assert (SA : shape_ok d (BNode nx (erase newroot)
                     ([] ++ BNode r (erase (set_Parent (Some nx) rn)) kids :: [])) = true).
    { apply shape_ok_node. split; [|split; [|split]].
      - split; cbn; auto; try lia; try congruence.
      - cbn. congruence.
      - reflexivity.
      - constructor; [exact Hshape0|constructor]. }
    assert (NA : NoDup (ptrs (BNode nx (erase newroot)
                     ([] ++ BNode r (erase (set_Parent (Some nx) rn)) kids :: [])))).
    { cbn [ptrs app flat_map]. rewrite app_nil_r. constructor; [|exact Hnd].
      rewrite list_elem_of_In. intros H. specialize (Hfresh nx H). lia. }
    assert (FA : forall q, In q (ptrs (BNode nx (erase newroot)
                     ([] ++ BNode r (erase (set_Parent (Some nx) rn)) kids :: []))) ->
                   (q < Pos.succ nx)%positive).
    { cbn [ptrs app flat_map]. rewrite app_nil_r. intros q [<-|Hq]; [lia|].
      specialize (Hfresh q Hq). lia. }
    apply wp_bind.
    change 0 with (len ([] : list (@btree V))).
    eapply (splitChild_wp fuel sA nx newroot [] r (set_Parent (Some nx) rn) kids []);
      try eassumption;
      try (unfold t in Hh; cbn [height app foldr] in *; lia).
    intros h' F1 F2 F3 F4 F5 F6 F7.
    cbn [mem next_ptr tree sA] in *.
    apply wp_modify_tree. cbn [mem next_ptr tree].
    set (rn' := set_Parent (Some nx) rn) in *.
    set (tc := BNode r (erase rn') kids) in *.
    set (nx' := Pos.succ nx) in *.
    set (t0 := BNode nx (erase newroot) ([] ++ tc :: [])) in *.
    set (t1 := BNode nx (split_parent vnil d (len ([] : list (@btree V))) nx' (erase rn') (erase newroot))
                 ([] ++ tree_lower d tc :: tree_upper d nx' tc :: [])).
    set (sC := mkState h' (Pos.succ nx')
                 (set_Height (wrap (Height (tree st) + 1)) (set_Root (Some nx) (tree st)))).
    assert (Hnx' : ~ In nx' (ptrs t0)).
    { intros H. specialize (FA nx' H). lia. }
    assert (R1 : rep (mem sC) t1).
    { apply split_rep with (h := hA); auto. }
    assert (S1 : shape_ok d t1 = true).
    { apply (split_shape nx (erase newroot) nx' [] tc []); auto. cbn. lia. }
    assert (P1 : ptrs t1 ≡ₚ [nx'] ++ ptrs t0).
    { apply (split_ptrs nx (erase newroot)). }
    destruct (news_wf (Pos.succ nx) (Pos.succ nx') (ptrs t0) [nx'] (ptrs t1))
      as [ND1 FR1]; auto.
    { constructor; [rewrite list_elem_of_In; intros []|constructor]. }
    { constructor; [|constructor]. fold nx'. lia. }
    { lia. }
    eapply wp_mono.
    + apply (Insert_tail key value fuel sC t1); auto.
      * etransitivity; [apply (split_height nx (erase newroot))|].
        unfold t in Hh. unfold tc. cbn [height app foldr] in *. lia.
      * cbn. lia.
    + intros [] st' (st2 & t' & news & G & G13 & ->).
      destruct G as [G1 G2 G3 G4 G5 G6 G7 G8 G9 G10 G11 G12].
      cbn [mem next_ptr tree sC] in *.
      exists t', (news ++ [nx'; nx]).
      split; [rewrite G4; reflexivity|].
      split; [exact Hdeg|]. split; [reflexivity|]. split; [reflexivity|].
      split; [exact G2|]. split; [exact G3|].
      assert (P0 : ptrs t0 = nx :: ptrs t).
      { cbn [ptrs t0 app flat_map tc]. rewrite app_nil_r. reflexivity. }
      split; [rewrite G5, P1, P0; solve_Permutation|].
      rewrite Forall_forall in G6.
      split.
      { apply NoDup_app. split; [exact G7|]. split.
        - intros q H1 H2. specialize (G6 q H1).
          apply list_elem_of_In in H2. destruct H2 as [<-|[<-|[]]]; lia.
        - constructor; [|constructor; [|constructor]].
          + rewrite list_elem_of_In. intros [E|[]]. lia.
          + rewrite list_elem_of_In. intros []. }
      split.
      { apply Forall_app. split.
        - apply Forall_forall. intros q Hq. specialize (G6 q Hq). lia.
        - constructor; [lia|constructor; [lia|constructor]]. }
      split; [lia|].
      split.
      { rewrite G10.
        assert (E1 : entries t1 ≡ₚ entries t0).
        { apply (split_entries nx (erase newroot) nx' [] tc []); auto. }
        rewrite E1.
        apply Permutation_cons; [reflexivity|].
        cbn [entries t0 app map interleave zip zip_with erase newroot set_Parent Keys Values].
        rewrite app_nil_r. reflexivity. }
      split.
      { etransitivity; [exact G11|].
        etransitivity; [apply (split_height nx (erase newroot))|].
        unfold t, tc. cbn [height app foldr]. lia. }
      split.
      { intros q Hq Hlt.
        rewrite G9.
        * rewrite F7.
          -- unfold hA. rewrite lookup_alter_ne, lookup_insert_ne; [reflexivity| |].
             ++ lia.
             ++ intros <-. apply Hq. left. reflexivity.
          -- rewrite P0. intros [E|H]; [lia|tauto].
          -- lia.
        * intros H. apply (Permutation_in _ P1) in H. rewrite P0 in H.
          destruct H as [E|[E|H]]; [lia|lia|tauto].
        * lia. }
      assert (E1 : entries t1 = entries t).
      { transitivity (entries t0).
        - apply (split_entries_eq nx (erase newroot) nx' [] tc []); auto.
        - cbn [entries t0 app map interleave zip zip_with erase newroot set_Parent
               Keys Values].
          rewrite app_nil_r. reflexivity. }
      split.
      { unfold ordered, keys_of in G12 |- *. rewrite E1 in G12. exact G12. }
      apply (placed_ext _ _ _ t1 t t' E1).
      apply (placed_mono _ (split_median d t1)); [|exact G13].
      intros a (n0 & H1 & H2 & H3).
      assert (Htc : split_median d tc a -> split_median d t a)
        by (intros H; exact H).
      unfold t1 in H1. cbn [nodes app flat_map] in H1.
      rewrite app_nil_r in H1.
      destruct H1 as [<-|H1].
      { cbn [split_parent Size erase set_Parent newroot] in H2. lia. }
      apply in_app_iff in H1. apply Htc. destruct H1 as [H1|H1].
      * apply split_median_lower. exists n0. repeat split; assumption.
      * apply (split_median_upper nx'). exists n0. repeat split; assumption.
  - (* room in the root *)
    apply Z.eqb_neq in F.
    apply wp_ret.
    eapply wp_mono.
    + apply (Insert_tail key value fuel st (BNode r (erase rn) kids)); auto.
      * lia.
      * cbn. lia.
    + intros [] st' (st2 & t' & news & G & G13 & ->).
      destruct G as [G1 G2 G3 G4 G5 G6 G7 G8 G9 G10 G11 G12].
      cbn [mem next_ptr tree] in *.
      exists t', news.
      split; [rewrite G4; exact Hroot|].
      repeat (split; [first [assumption|reflexivity]|]).
      split; [lia|]. split; [exact G9|]. split; [exact G12|exact G13].
Qed.

(** *** Searching, and deleting a key that is not found *)

Lemma scan_up_run (cmp : Z -> Z -> Z) (keys : list Z) (key size : Z) (i : Z) st :
  0 <= i <= size -> size <= len keys ->
  exists j,
    scan_up cmp keys key size (S (Z.to_nat (size - i))) i st = Ok (j, st) /\
    i <= j <= size /\
    (forall m a, i <= m < j -> keys !! Z.to_nat m = Some a -> cmp a key < 0) /\
    (j < size -> exists a, keys !! Z.to_nat j = Some a /\ cmp a key >= 0).
Proof.
  remember (Z.to_nat (size - i)) as m eqn:Hm. revert i Hm.
  induction m as [|m IH]; intros i Hm Hi Hs.
  - assert (i = size) by lia. subst i. exists size. cbn [scan_up].
    rewrite Z.ltb_irrefl. split; [reflexivity|]. split; [lia|].
    split; intros; lia.
  - cbn [scan_up]. destruct (i <? size) eqn:E; [|apply Z.ltb_ge in E; lia].
    destruct (lookup_lt_is_Some_2 keys (Z.to_nat i)) as [a Ha];
      [unfold len in Hs; lia|].
    unfold bind at 1. unfold index.
    destruct (i <? 0) eqn:E0; [apply Z.ltb_lt in E0; lia|].
    rewrite Ha. cbn [ret].
    destruct (cmp a key <? 0) eqn:C.
    + destruct (IH (i + 1)) as (j & Hrun & Hj & Hlt & Hge); [lia|lia|lia|].
      exists j. split; [exact Hrun|]. split; [lia|]. split; [|exact Hge].
      intros m' a' Hm' Ha'. destruct (Z.eq_dec m' i) as [->|Hne].
      * rewrite Ha in Ha'. injection Ha' as <-. apply Z.ltb_lt in C. exact C.
      * apply (Hlt m'); [lia|exact Ha'].
    + exists i. split; [reflexivity|]. split; [lia|]. split; [intros; lia|].
      intros _. exists a. split; [exact Ha|]. apply Z.ltb_ge in C. lia.
Qed.

(** Where the descent of [searchNode] ends without a hit, [deleteNode]
    follows the same path and writes nothing. *)
Lemma deleteNode_not_found (key : Z) (gas fuel : nat) :
  forall t st (v : V) st',
    rep (mem st) t -> shape_ok d t = true -> (height t <= gas)%nat ->
    searchNode vnil fuel (Some (root_of t)) key st = Ok ((v, false), st') ->
    deleteNode gas fuel (root_of t) key st = Ok (tt, st).
Proof.
  induction fuel as [|f IH]; intros [p n kids] st v st' Hrep Hshape Hh Hsearch.
  { discriminate Hsearch. }
  pose proof Hshape as Hshape0.
  apply shape_ok_node in Hshape. destruct Hshape as (Hn & Hl & Hi & Hk).
  inversion Hrep as [p0 n0 pn kids0 Hp He Hrk]. subst p0 n0 kids0 n.
  apply (proj1 (node_facts_erase _ _)) in Hn.
  cbn [erase set_Parent IsLeaf Children] in Hi, Hl.
  destruct Hn as [N1 N2 N3 N4 N5 N6 N7].
  pose proof (len_nonneg (Keys pn)) as HK.
  assert (Hcheck : checkInvariants gas (Some p) st = Ok (tt, st)).
  { pose proof (checkInvariants_ok gas (BNode p (erase pn) kids) st
                  (fun _ st1 => st1 = st) Hrep Hshape0 Hh eq_refl) as H.
    apply wp_elim in H. destruct H as ([] & st1 & H & ->). exact H. }
  cbn [root_of] in *.
  cbn [searchNode] in Hsearch. cbn [deleteNode].
  destruct (scan_up_run (Comparator (tree st)) (Keys pn) key (Size pn) 0 st)
    as (j & Hscan & Hj & _ & _); [lia|lia|].
  rewrite Z.sub_0_r in Hscan.
  unfold bind, get_tree, load, index in Hsearch |- *.
  rewrite Hp in *. rewrite Hscan in *.
  destruct (j <? 0) eqn:E0; [apply Z.ltb_lt in E0; lia|].
  assert (Hdown : IsLeaf pn = false ->
            exists tc, Children pn !! Z.to_nat j = Some (root_of tc) /\
                       rep (mem st) tc /\ shape_ok d tc = true /\
                       (height tc <= gas)%nat).
  { intros L. specialize (Hi L). specialize (N7 L).
    destruct (kids_split kids (Z.to_nat j)) as (ls1 & tc & ls2 & -> & Hlen).
    { rewrite <- (length_map root_of kids), Hi. unfold len in *. lia. }
    pose proof (kid_lookup _ _ _ _ _ Hshape0) as Hkid.
    cbn [erase set_Parent Children] in Hkid. rewrite Hlen in Hkid.
    assert (Hin : In tc (ls1 ++ tc :: ls2))
      by (apply in_app_iff; right; left; reflexivity).
    exists tc. rewrite Forall_forall in Hrk, Hk.
    split; [exact Hkid|]. split; [apply Hrk, list_elem_of_In, Hin|].
    split; [apply Hk, list_elem_of_In, Hin|].
    cbn [height] in Hh. pose proof (height_kid tc _ Hin). lia. }
  destruct (j <? Size pn) eqn:Ej.
  - apply Z.ltb_lt in Ej.
    destruct (lookup_lt_is_Some_2 (Keys pn) (Z.to_nat j)) as [a Ha];
      [unfold len in *; lia|].
    rewrite Ha in *. cbn [ret] in *.
    destruct (Comparator (tree st) a key =? 0) eqn:C.
    + (* a hit: the search would have reported it *)
      exfalso.
      destruct (lookup_lt_is_Some_2 (Values pn) (Z.to_nat j)) as [b Hb];
        [unfold len in *; lia|].
      rewrite Hb in Hsearch. discriminate Hsearch.
    + destruct (IsLeaf pn) eqn:L.
      * cbn [negb ret]. exact Hcheck.
      * cbn [negb].
        destruct (Hdown eq_refl) as (tc & Hkid & Hrc & Hsc & Hhc).
        rewrite Hkid in *. cbn [ret] in *.
        rewrite (IH tc st v st' Hrc Hsc Hhc Hsearch). exact Hcheck.
  - cbn [ret] in *.
    destruct (IsLeaf pn) eqn:L.
    + cbn [negb ret]. exact Hcheck.
    + cbn [negb].
      destruct (Hdown eq_refl) as (tc & Hkid & Hrc & Hsc & Hhc).
      rewrite Hkid in *. cbn [ret] in *.
      rewrite (IH tc st v st' Hrc Hsc Hhc Hsearch). exact Hcheck.
Qed.

(** *** What [searchNode] reports on a tree in search order *)

Lemma scan_up_ok (cmp : Z -> Z -> Z) (keys : list Z) (key size : Z) st
    (Q : Z -> state -> Prop) :
  0 <= size <= len keys ->
  (forall j, 0 <= j <= size ->
     (forall m a, 0 <= m < j -> keys !! Z.to_nat m = Some a -> cmp a key < 0) ->
     (j < size -> exists a, keys !! Z.to_nat j = Some a /\ cmp a key >= 0) ->
     Q j st) ->
  wp (scan_up cmp keys key size (S (Z.to_nat size)) 0) Q st.
Proof.
  intros Hs HQ.
  destruct (scan_up_run cmp keys key size 0 st) as (j & Hrun & Hj & Hlt & Hge);
    [lia|lia|].
  rewrite Z.sub_0_r in Hrun. eapply wp_intro; [exact Hrun|]. apply HQ; auto.
Qed.

Lemma zip_lookup_in {A B} (l : list A) (k : list B) (i : nat) (a : A) (b : B) :
  l !! i = Some a -> k !! i = Some b -> In (a, b) (zip l k).
Proof.
  revert k i. induction l as [|x l IH]; intros [|y k] [|i] Ha Hb; simpl in *;
    try discriminate.
  - injection Ha as ->. injection Hb as ->. left. reflexivity.
  - right. apply (IH k i); assumption.
Qed.

Lemma zip_in_lookup {A B} (l : list A) (k : list B) (a : A) (b : B) :
  In (a, b) (zip l k) -> exists i, l !! i = Some a /\ k !! i = Some b.
Proof.
  revert k. induction l as [|x l IH]; intros [|y k] H; simpl in *;
    try contradiction.
  destruct H as [H|H].
  - injection H as -> ->. exists O. split; reflexivity.
  - destruct (IH k H) as (i & H1 & H2). exists (S i). split; assumption.
Qed.

Lemma keys_of_node_in p n kids (a : Z) :
  len (Values n) = len (Keys n) -> In a (Keys n) -> In a (keys_of (BNode p n kids)).
Proof.
  intros H Ha. unfold keys_of.
  apply (Permutation_in _ (Permutation_sym (Permutation_map fst (entries_perm p n kids)))).
  rewrite map_app. apply in_app_iff. right.
  rewrite map_fst_zip by (unfold len in H; lia). exact Ha.
Qed.

Lemma zip_in_entries p n kids (ab : Z * V) :
  In ab (zip (Keys n) (Values n)) -> In ab (entries (BNode p n kids)).
Proof.
  intros H. apply (Permutation_in _ (Permutation_sym (entries_perm p n kids))).
  apply in_app_iff. right. exact H.
Qed.

Lemma searchNode_spec (key : Z) (fuel : nat) :
  forall t st,
    rep (mem st) t -> shape_ok d t = true -> (height t <= fuel)%nat ->
    ordered t ->
    Forall (agrees (Comparator (tree st)) key) (keys_of t) ->
    wp (searchNode vnil fuel (Some (root_of t)) key)
       (fun r st' =>
          st' = st /\
          ((snd r = true /\ In (key, fst r) (entries t))
           \/ (r = (vnil, false) /\ ~ In key (keys_of t)))) st.
Proof.
  induction fuel as [|f IH]; intros [p n kids] st Hrep Hshape Hh Hord Hag.
  { simpl in Hh. lia. }
  pose proof Hshape as Hshape0.
  apply shape_ok_node in Hshape. destruct Hshape as (Hn & Hl & Hi & Hk).
  inversion Hrep as [p0 n0 pn kids0 Hp He Hrk]. subst p0 n0 kids0 n.
  apply (proj1 (node_facts_erase _ _)) in Hn.
  cbn [erase set_Parent IsLeaf Children] in Hi, Hl.
  destruct Hn as [N1 N2 N3 N4 N5 N6 N7].
  pose proof (len_nonneg (Keys pn)) as HK.
  set (t := BNode p (erase pn) kids) in *.
  assert (HagK : forall a, In a (Keys pn) -> agrees (Comparator (tree st)) key a).
  { intros a Ha. rewrite Forall_forall in Hag. apply Hag, list_elem_of_In.
    apply keys_of_node_in; [exact N2|exact Ha]. }
  cbn [searchNode root_of t].
  apply wp_bind, wp_get_tree.
  apply wp_bind. eapply wp_load; [exact Hp|].
  apply wp_bind. apply scan_up_ok; [lia|]. intros j Hj Hlt Hge.
  assert (Hlt' : forall m a, (m < Z.to_nat j)%nat -> Keys pn !! m = Some a -> a < key).
  { intros m a Hm Ha. apply (HagK a).
    - apply list_elem_of_In, list_elem_of_lookup. eauto.
    - apply (Hlt (Z.of_nat m)); [lia|]. rewrite Nat2Z.id. exact Ha. }
  assert (Hmiss :
    (forall a, Keys pn !! Z.to_nat j = Some a -> key < a) ->
    wp (if IsLeaf pn then ret (vnil, false)
        else bind (index (Children pn) j) (fun c => searchNode vnil f (Some c) key))
       (fun r st' =>
          st' = st /\
          ((snd r = true /\ In (key, fst r) (entries t))
           \/ (r = (vnil, false) /\ ~ In key (keys_of t)))) st).
  { intros Hgt. destruct (IsLeaf pn) eqn:L.
    - (* a leaf: the key is not here *)
      apply wp_ret. split; [reflexivity|]. right. split; [reflexivity|].
      specialize (Hl eq_refl). subst kids.
      unfold ordered, keys_of, t in Hord |- *.
      cbn [entries map interleave erase set_Parent Keys Values] in Hord |- *.
      rewrite map_fst_zip in Hord |- * by (unfold len in *; lia).
      intros Hin. apply list_elem_of_In, list_elem_of_lookup in Hin.
      destruct Hin as [m Hm].
      destruct (Nat.lt_ge_cases m (Z.to_nat j)) as [Hc|Hc].
      + specialize (Hlt' m key Hc Hm). lia.
      + pose proof (lookup_lt_Some _ _ _ Hm) as Hlen.
        destruct (lookup_lt_is_Some_2 (Keys pn) (Z.to_nat j)) as [a Ha]; [lia|].
        specialize (Hgt a Ha).
        pose proof (sorted_lookup_le _ _ _ _ _ Hord Ha Hm Hc). lia.
    - (* an internal node: the key can only be below child [j] *)
      specialize (Hi eq_refl). specialize (N7 eq_refl).
      destruct (kids_split kids (Z.to_nat j)) as (ls1 & tc & ls2 & Ekids & Hlen).
      { rewrite <- (length_map root_of kids), Hi. unfold len in *. lia. }
      assert (Hin : In tc kids)
        by (rewrite Ekids; apply in_app_iff; right; left; reflexivity).
      assert (Hkid : Children pn !! Z.to_nat j = Some (root_of tc)).
      { rewrite <- Hlen. apply (kid_lookup p (erase pn) ls1 tc ls2).
        rewrite <- Ekids. exact Hshape0. }
      assert (Hlen2 : (length ls1 + length ls2 = length (Keys pn))%nat).
      { apply (f_equal length) in Hi. rewrite Ekids, length_map, length_app in Hi.
        cbn [length] in Hi. unfold len in *. lia. }
      destruct (interleave_at (map entries ls1) (map entries ls2)
                  (zip (Keys pn) (Values pn)))
        as (X & Y & HXY & HX1 & HX0 & HY1 & HY0).
      { rewrite length_app, !length_map, length_zip. unfold len in *. lia. }
      rewrite length_map in HX1, HX0, HY1, HY0.
      assert (HE : entries t = X ++ entries tc ++ Y).
      { unfold t. cbn [entries erase set_Parent Keys Values].
        rewrite Ekids, map_app. cbn [map]. apply HXY. }
      unfold ordered, keys_of in Hord, Hag |- *. rewrite HE in Hord, Hag |- *.
      rewrite !map_app in Hord, Hag.
      assert (HX : forall x, In x (map fst X) -> x < key).
      { intros x Hx. destruct (Nat.eq_dec (length ls1) 0) as [E0|E0].
        - rewrite (HX0 E0) in Hx. destruct Hx.
        - destruct (lookup_lt_is_Some_2 (zip (Keys pn) (Values pn)) (length ls1 - 1))
            as [ab Hab]; [rewrite length_zip; unfold len in *; lia|].
          destruct (HX1 ab) as [X' EX]; [lia|exact Hab|]. subst X.
          rewrite map_app in Hx, Hord. cbn [map] in Hx, Hord.
          apply zip_lookup_fst in Hab.
          assert (x <= fst ab).
          { apply (sorted_last_bound (map fst X')); [|exact Hx].
            apply StronglySorted_app_1_l in Hord. exact Hord. }
          assert (fst ab < key) by (apply (Hlt' (length ls1 - 1)%nat); [lia|exact Hab]).
          lia. }
      assert (HY : forall y, In y (map fst Y) -> key < y).
      { intros y Hy.
        destruct (zip (Keys pn) (Values pn) !! length ls1) as [ab|] eqn:Hab.
        - destruct (HY1 ab eq_refl) as [Y' EY]. subst Y.
          cbn [map] in Hy, Hord.
          apply zip_lookup_fst in Hab.
          assert (fst ab <= y).
          { apply (sorted_head_bound (map fst Y')); [|exact Hy].
            apply StronglySorted_app_1_r in Hord.
            apply StronglySorted_app_1_r in Hord. exact Hord. }
          assert (key < fst ab) by (apply Hgt; rewrite <- Hlen; exact Hab).
          lia.
        - apply lookup_ge_None in Hab. rewrite length_zip in Hab.
          rewrite HY0 in Hy; [destruct Hy|]. unfold len in *.
          rewrite length_zip. lia. }
      apply wp_bind. eapply wp_index; [lia|exact Hkid|].
      eapply wp_mono.
      + apply (IH tc st).
        * rewrite Forall_forall in Hrk. apply Hrk, list_elem_of_In, Hin.
        * rewrite Forall_forall in Hk. apply Hk, list_elem_of_In, Hin.
        * unfold t in Hh. cbn [height] in Hh. pose proof (height_kid tc _ Hin). lia.
        * apply StronglySorted_app_1_r in Hord.
          apply StronglySorted_app_1_l in Hord. exact Hord.
        * apply Forall_app in Hag. destruct Hag as [_ Hag].
          apply Forall_app in Hag. destruct Hag as [Hag _]. exact Hag.
      + intros r st' (-> & [[Hr1 Hr2]|[-> Hr2]]); (split; [reflexivity|]).
        * left. split; [exact Hr1|].
          apply in_app_iff. right. apply in_app_iff. left. exact Hr2.
        * right. split; [reflexivity|]. rewrite !map_app. intros Hc.
          apply in_app_iff in Hc. destruct Hc as [Hc|Hc].
          -- specialize (HX _ Hc). lia.
          -- apply in_app_iff in Hc. destruct Hc as [Hc|Hc]; [exact (Hr2 Hc)|].
             specialize (HY _ Hc). lia. }
  destruct (j <? Size pn) eqn:Ej.
  - apply Z.ltb_lt in Ej. destruct (Hge Ej) as (a & Ha & Hca).
    apply wp_bind. apply wp_bind. eapply wp_index; [lia|exact Ha|]. apply wp_ret.
    assert (HagA : agrees (Comparator (tree st)) key a).
    { apply HagK. apply list_elem_of_In, list_elem_of_lookup. eauto. }
    destruct (Comparator (tree st) a key =? 0) eqn:C.
    + (* a hit *)
      apply Z.eqb_eq in C.
      destruct (lookup_lt_is_Some_2 (Values pn) (Z.to_nat j)) as [b Hb];
        [unfold len in *; lia|].
      apply wp_bind. eapply wp_index; [lia|exact Hb|]. apply wp_ret.
      split; [reflexivity|]. left. split; [reflexivity|]. cbn [fst].
      assert (a = key).
      { destruct HagA as [A1 A2].
        destruct (Z.lt_trichotomy a key) as [H|[H|H]]; [|exact H|].
        - apply A1 in H. lia.
        - apply Z.lt_gt in H. apply A2 in H. lia. }
      subst a. apply zip_in_entries. cbn [erase set_Parent Keys Values].
      apply (zip_lookup_in _ _ (Z.to_nat j)); assumption.
    + apply Z.eqb_neq in C. apply Hmiss.
      intros a' Ha'. rewrite Ha in Ha'. injection Ha' as <-.
      destruct HagA as [A1 A2]. apply Z.gt_lt, A2. lia.
  - apply Z.ltb_ge in Ej. apply wp_bind, wp_ret. apply Hmiss.
    intros a Ha. apply lookup_lt_Some in Ha. unfold len in *. lia.
Qed.

End Degree.

(** ** Reading trees off the heap *)

Lemma wf_tree_facts d (nx : ptr) t :
  wf_tree d nx t = true <->
  shape_ok d t = true /\ NoDup (ptrs t) /\ forall q, In q (ptrs t) -> (q < nx)%positive.
Proof.
  unfold wf_tree. rewrite !andb_true_iff, bool_decide_eq_true, forallb_Forall.
  rewrite Forall_forall. split.
  - intros [[H1 H2] H3]. split; [exact H1|split; [exact H2|]].
    intros q Hq. apply Pos.ltb_lt. apply H3. apply list_elem_of_In. exact Hq.
  - intros (H1 & H2 & H3). split; [split; assumption|].
    intros q Hq. apply Pos.ltb_lt. apply H3. apply list_elem_of_In. exact Hq.
Qed.

Lemma reify_list_sound (f : ptr -> option (@btree V)) (P : @btree V -> Prop)
    (ps : list ptr) ts :
  (forall p t, f p = Some t -> P t /\ root_of t = p) ->
  reify_list f ps = Some ts -> Forall P ts /\ map root_of ts = ps.
Proof.
  intros Hf. revert ts. induction ps as [|p ps IH]; intros ts H; simpl in H.
  - injection H as <-. split; [constructor|reflexivity].
  - destruct (f p) as [t|] eqn:E; [|discriminate].
    destruct (reify_list f ps) as [ts'|]; [|discriminate].
    injection H as <-. destruct (Hf _ _ E) as [HP Hr].
    destruct (IH ts' eq_refl) as [HF Hm].
    split; [constructor; assumption|]. simpl. congruence.
Qed.

Lemma reify_sound (fuel : nat) h p t :
  reify fuel h p = Some t -> rep h t /\ root_of t = p.
Proof.
  revert p t. induction fuel as [|f IH]; intros p t H; simpl in H; [discriminate|].
  destruct (h !! p) as [n|] eqn:E; [|discriminate].
  destruct (IsLeaf n).
  - injection H as <-. split; [|reflexivity].
    eapply rep_node; [exact E|reflexivity|constructor].
  - destruct (reify_list (reify f h) (Children n)) as [ts|] eqn:R; [|discriminate].
    injection H as <-. split; [|reflexivity].
    destruct (reify_list_sound _ (rep h) _ _ IH R) as [HF _].
    eapply rep_node; [exact E|reflexivity|exact HF].
Qed.

Lemma reify_list_complete (f : ptr -> option (@btree V)) ts :
  Forall (fun t => f (root_of t) = Some t) ts ->
  reify_list f (map root_of ts) = Some ts.
Proof.
  induction 1 as [|t ts Ht _ IH]; simpl; [reflexivity|].
  rewrite Ht, IH. reflexivity.
Qed.

Lemma reify_complete d (fuel : nat) h t :
  rep h t -> shape_ok d t = true -> (height t <= fuel)%nat ->
  reify fuel h (root_of t) = Some t.
Proof.
  revert fuel. induction t as [p n kids IH] using btree_ind'.
  intros fuel Hrep Hshape Hh.
  destruct fuel as [|f]; [simpl in Hh; lia|].
  apply shape_ok_node in Hshape. destruct Hshape as (_ & Hl & Hi & Hk).
  inversion Hrep as [p0 n0 n' kids0 Hp He Hrk]. subst p0 n0 kids0 n.
  cbn [erase set_Parent IsLeaf Children] in Hl, Hi.
  simpl. rewrite Hp.
  destruct (IsLeaf n') eqn:L.
  - rewrite (Hl eq_refl). reflexivity.
  - rewrite <- (Hi eq_refl).
    rewrite reify_list_complete; [reflexivity|].
    rewrite Forall_forall in *. intros k Hin.
    apply IH; auto.
    simpl in Hh. pose proof (height_kid k kids) as Hk'.
    apply list_elem_of_In in Hin. specialize (Hk' Hin). lia.
Qed.

Lemma height_le_ptrs t : (height t <= length (ptrs t))%nat.
Proof.
  induction t as [p n kids IH] using btree_ind'. simpl. apply le_n_S.
  induction kids as [|k kids IHk]; simpl; [lia|].
  apply Forall_cons in IH. destruct IH as [Hk IH]. specialize (IHk IH).
  rewrite length_app. lia.
Qed.

Lemma rep_dom h t q : rep h t -> In q (ptrs t) -> is_Some (h !! q).
Proof.
  induction t as [p n kids IH] using btree_ind'.
  intros Hrep [<-|Hq].
  - inversion Hrep; subst. eauto.
  - apply in_flat_map in Hq. destruct Hq as (k & Hk & Hq).
    apply rep_kids in Hrep. cbn [kids_of] in Hrep.
    rewrite Forall_forall in IH, Hrep. apply list_elem_of_In in Hk.
    apply (IH k Hk); auto.
Qed.

Lemma ptrs_le_size h t : rep h t -> NoDup (ptrs t) -> (length (ptrs t) <= size h)%nat.
Proof.
  intros Hrep Hnd.
  rewrite <- length_map_to_list, <- (length_fmap fst (map_to_list h)).
  apply submseteq_length. apply NoDup_submseteq; [exact Hnd|].
  intros q Hq. apply list_elem_of_In in Hq.
  destruct (rep_dom _ _ _ Hrep Hq) as [n Hn].
  apply list_elem_of_fmap. exists (q, n). split; [reflexivity|].
  apply elem_of_map_to_list. exact Hn.
Qed.

Lemma tree_of_sound st t :
  tree_of st = Some t -> Root (tree st) = Some (root_of t) /\ rep (mem st) t.
Proof.
  unfold tree_of. destruct (Root (tree st)) as [r|]; [|discriminate].
  intros H. apply reify_sound in H. destruct H as [H <-]. auto.
Qed.

Lemma tree_of_complete d st t :
  Root (tree st) = Some (root_of t) -> rep (mem st) t ->
  shape_ok d t = true -> NoDup (ptrs t) -> tree_of st = Some t.
Proof.
  intros Hroot Hrep Hshape Hnd. unfold tree_of. rewrite Hroot.
  apply (reify_complete d); auto.
  pose proof (height_le_ptrs t). pose proof (ptrs_le_size _ _ Hrep Hnd). lia.
Qed.

(** ** The claims about splitting and inserting *)

(** C5.  [splitChild(parent, index)] on a full child ([Size = MaxKeys = 2t-1])
    of a well-formed subtree returns, and afterwards: the parent holds the
    child's median key and value (local position [t-1]) at position [index]
    and the new sibling right after the original child; the new sibling, a
    freshly allocated node, holds the upper [t-1] keys and values and, for
    an internal child, its upper [t] children, each of them re-parented to
    the new sibling; the original child keeps its lower [t-1] keys and
    values and its lower [t] children; no other node changes. *)
Theorem splitChild_splits_full_child (fuel n : nat) st (parent child : ptr)
    (idx : Z) tp pn cn :
  2 <= Degree (tree st) -> Degree (tree st) < 2 ^ 62 ->
  reify n (mem st) parent = Some tp ->
  wf_tree (Degree (tree st)) (next_ptr st) tp = true ->
  (height tp <= fuel)%nat ->
  mem st !! parent = Some pn ->
  0 <= idx -> Children pn !! Z.to_nat idx = Some child ->
  mem st !! child = Some cn ->
  Size cn = MaxKeys cn ->
  exists st',
    splitChild vnil fuel parent idx st = Ok (tt, st') /\
    tree st' = tree st /\
    next_ptr st' = Pos.succ (next_ptr st) /\
    mem st' !! parent =
      Some (split_parent vnil (Degree (tree st)) idx (next_ptr st) cn pn) /\
    mem st' !! child = Some (split_lower (Degree (tree st)) cn) /\
    mem st' !! next_ptr st = Some (split_upper (Degree (tree st)) parent cn) /\
    (forall q, In q (Children (split_upper (Degree (tree st)) parent cn)) ->
       mem st' !! q = set_Parent (Some (next_ptr st)) <$> mem st !! q) /\
    (forall q, q <> parent -> q <> child -> q <> next_ptr st ->
       ~ In q (Children (split_upper (Degree (tree st)) parent cn)) ->
       mem st' !! q = mem st !! q) /\
    (* the shape of the three nodes, spelled out *)
    Keys cn !! Z.to_nat (Degree (tree st) - 1) = Some (median_key (Degree (tree st)) cn) /\
    Values cn !! Z.to_nat (Degree (tree st) - 1)
      = Some (median_value vnil (Degree (tree st)) cn) /\
    len (Keys (split_lower (Degree (tree st)) cn)) = Degree (tree st) - 1 /\
    len (Keys (split_upper (Degree (tree st)) parent cn)) = Degree (tree st) - 1 /\
    len (Values (split_lower (Degree (tree st)) cn)) = Degree (tree st) - 1 /\
    len (Values (split_upper (Degree (tree st)) parent cn)) = Degree (tree st) - 1 /\
    Keys cn = Keys (split_lower (Degree (tree st)) cn)
              ++ median_key (Degree (tree st)) cn
              :: Keys (split_upper (Degree (tree st)) parent cn) /\
    Values cn = Values (split_lower (Degree (tree st)) cn)
                ++ median_value vnil (Degree (tree st)) cn
                :: Values (split_upper (Degree (tree st)) parent cn) /\
    (IsLeaf cn = false ->
       len (Children (split_lower (Degree (tree st)) cn)) = Degree (tree st) /\
       len (Children (split_upper (Degree (tree st)) parent cn)) = Degree (tree st) /\
       Children cn = Children (split_lower (Degree (tree st)) cn)
                     ++ Children (split_upper (Degree (tree st)) parent cn)) /\
    ~ In (next_ptr st) (ptrs tp).
Proof.
  intros Hd2 Hd62 Hreify Hwf Hh Hp Hidx0 Hidx Hc Hfull.
  set (d := Degree (tree st)) in *.
  apply reify_sound in Hreify. destruct Hreify as [Hrep Hroot].
  apply wf_tree_facts in Hwf. destruct Hwf as (Hshape & Hnd & Hfresh).
  destruct tp as [p tn kids]. cbn [root_of] in Hroot. subst p.
  inversion Hrep as [p0 n0 pn' kids0 Hp' He Hrk]. subst p0 n0 kids0 tn.
  rewrite Hp in Hp'. injection Hp' as <-.
  pose proof Hshape as Hshape0.
  apply shape_ok_node in Hshape. destruct Hshape as (Hn & Hl & Hi & Hk).
  cbn [erase set_Parent IsLeaf Children] in Hl, Hi.
  destruct (IsLeaf pn) eqn:Lp.
  { apply (proj1 (node_facts_erase _ _)) in Hn.
    rewrite (nf_leaf _ _ Hn Lp) in Hidx. discriminate. }
  specialize (Hi eq_refl).
  destruct (kids_split kids (Z.to_nat idx)) as (ls1 & tc & ls2 & -> & Hlen).
  { rewrite <- (length_map root_of kids), Hi. apply lookup_lt_is_Some_1. eauto. }
  assert (Hidx1 : idx = len ls1) by (unfold len; lia).
  assert (Hct : root_of tc = child).
  { pose proof (kid_lookup d _ _ _ _ _ Hshape0) as H.
    cbn [erase set_Parent Children] in H. rewrite Hlen, Hidx in H. congruence. }
  destruct tc as [c cn0 kc]. cbn [root_of] in Hct. subst c.
  assert (Hrc : rep (mem st) (BNode child cn0 kc)).
  { rewrite Forall_forall in Hrk. apply Hrk. apply list_elem_of_In.
    apply in_app_iff. right. left. reflexivity. }
  inversion Hrc as [c0 n0 cn' kc0 Hc' Hec Hrkc]. subst c0 n0 kc0 cn0.
  rewrite Hc in Hc'. injection Hc' as <-.
  assert (Htc : shape_ok d (BNode child (erase cn) kc) = true).
  { rewrite Forall_forall in Hk. apply Hk. apply list_elem_of_In.
    apply in_app_iff. right. left. reflexivity. }
  apply shape_ok_node in Htc. destruct Htc as (Hcn & _).
  apply (proj1 (node_facts_erase _ _)) in Hcn.
  destruct Hcn as [C1 C2 C3 C4 C5 C6 C7].
  assert (Hfull' : Size cn = 2 * d - 1) by congruence.
  pose proof (splitChild_wp d Hd2 Hd62 fuel st parent pn ls1 child cn kc ls2
    (fun _ st' =>
       tree st' = tree st /\ next_ptr st' = Pos.succ (next_ptr st) /\
       mem st' !! parent = Some (split_parent vnil d idx (next_ptr st) cn pn) /\
       mem st' !! child = Some (split_lower d cn) /\
       mem st' !! next_ptr st = Some (split_upper d parent cn) /\
       (forall q, In q (Children (split_upper d parent cn)) ->
          mem st' !! q = set_Parent (Some (next_ptr st)) <$> mem st !! q) /\
       (forall q, q <> parent -> q <> child -> q <> next_ptr st ->
          ~ In q (Children (split_upper d parent cn)) ->
          mem st' !! q = mem st !! q))
    eq_refl Hp Hc Hrep Hshape0 Hnd Hfresh Hh Hfull') as H.
  rewrite <- Hidx1 in H.
  assert (H' := H ltac:(intros h' F1 F2 F3 F4 F5 F6 F7; cbn [mem next_ptr tree];
                        repeat (split; [first [reflexivity|assumption]|]); assumption)).
  clear H. apply wp_elim in H'.
  destruct H' as ([] & st' & Hrun & R1 & R2 & R3 & R4 & R5 & R6 & R7).
  exists st'.
  repeat (split; [assumption|]).
  pose proof (len_nonneg (Keys cn)) as HK.
  split; [apply lookup_median; lia|].
  split; [apply lookup_median; lia|].
  unfold split_lower, split_upper. cbn [Keys Values Children].
  split; [rewrite len_take; lia|].
  split; [rewrite len_drop; lia|].
  split; [rewrite len_take; lia|].
  split; [rewrite len_drop; lia|].
  split; [apply split_at_median; lia|].
  split; [apply split_at_median; lia|].
  split.
  - intros Lc. rewrite Lc. specialize (C7 Lc).
    split; [rewrite len_take; lia|].
    split; [rewrite len_drop; lia|].
    symmetry. apply take_drop.
  - intros H. specialize (Hfresh _ H). lia.
Qed.


End Proofs.


(** * Supporting results: sizes and absent keys *)

Section Sizes.
Context {V : Type} (vnil : V).
Implicit Types (st : @state V) (t : @btree V).

(** On a well-shaped tree the node-local sizes add up to the number of
    entries. *)
Lemma sum_sizes_entries d t :
  shape_ok d t = true -> sum_sizes t = len (entries t).
Proof.
  induction t as [p n kids IH] using btree_ind'. intros Hshape.
  apply shape_ok_node in Hshape. destruct Hshape as (Hn & _ & _ & Hk).
  destruct Hn as [N1 N2 _ _ _ _ _].
  unfold len. rewrite (Permutation_length (entries_perm p n kids)).
  rewrite length_app, length_zip. cbn [sum_sizes].
  assert (E : foldr (fun k s => sum_sizes k + s) 0 kids
              = Z.of_nat (length (concat (map entries kids)))).
  { clear -IH Hk. induction kids as [|k kids IHk]; [reflexivity|].
    apply Forall_cons in IH. destruct IH as [IH1 IH2].
    apply Forall_cons in Hk. destruct Hk as [Hk1 Hk2].
    cbn [foldr map concat]. rewrite length_app, IHk, (IH1 Hk1) by assumption.
    unfold len. lia. }
  rewrite E. unfold len in *. lia.
Qed.

(** A key that [Search] does not find: [Delete] changes no node, and takes
    one off [Tree.Size] all the same. *)
Theorem Delete_not_found_decrements_size (fuel : nat) st t (key : Z) (v : V) :
  2 <= Degree (tree st) -> Degree (tree st) < 2 ^ 62 ->
  tree_of st = Some t ->
  wf_tree (Degree (tree st)) (next_ptr st) t = true ->
  (height t <= fuel)%nat ->
  (IsLeaf (node_of t) = false -> Size (node_of t) <> 0) ->
  result_of (Search vnil fuel key st) = Ok (v, false) ->
  Delete fuel key st
  = Ok (tt, mkState (mem st) (next_ptr st)
              (set_Tree_Size (wrap (Tree_Size (tree st) - 1)) (tree st))).
Proof.
  intros Hd2 Hd62 Htree Hwf Hh Hroot0 Hs.
  apply tree_of_sound in Htree. destruct Htree as [Hroot Hrep].
  apply wf_tree_facts in Hwf. destruct Hwf as (Hshape & Hnd & Hfresh).
  unfold Search, bind, get_tree in Hs. rewrite Hroot in Hs.
  destruct (searchNode vnil fuel (Some (root_of t)) key st)
    as [[[v' b] st']| | |] eqn:Hsearch; try discriminate Hs.
  cbn [result_of] in Hs. injection Hs as -> ->.
  pose proof (deleteNode_not_found vnil _ Hd62 key fuel fuel
                t st v st' Hrep Hshape Hh Hsearch) as Hdel.
  set (st1 := mkState (mem st) (next_ptr st)
                (set_Tree_Size (wrap (Tree_Size (tree st) - 1)) (tree st))).
  assert (W : wp (Delete fuel key) (fun _ st2 => st2 = st1) st).
  { unfold Delete. apply wp_bind, wp_get_tree. rewrite Hroot.
    apply wp_bind. eapply wp_intro; [exact Hdel|].
    apply wp_bind, wp_get_tree. rewrite Hroot.
    apply wp_bind, wp_deref.
    destruct t as [r n kids]. cbn [root_of node_of] in *.
    inversion Hrep as [p0 n0 rn kids0 Hp He Hrk]. subst p0 n0 kids0 n.
    cbn [erase set_Parent Size IsLeaf] in Hroot0.
    apply wp_bind. eapply wp_load; [exact Hp|].
    assert (C : (Size rn =? 0) && negb (IsLeaf rn) = false).
    { destruct (IsLeaf rn); [apply andb_false_r|].
      rewrite andb_true_r. apply Z.eqb_neq. auto. }
    rewrite C. apply wp_bind, wp_ret.
    apply wp_bind, wp_modify_tree.
    apply wp_bind, wp_get_tree. cbn [tree set_Tree_Size Root].
    rewrite Hroot.
    apply (checkInvariants_ok _ Hd62 fuel (BNode r (erase rn) kids));
      [exact Hrep|exact Hshape|exact Hh|].
    reflexivity. }
  apply wp_elim in W. destruct W as ([] & st2 & Hrun & ->). exact Hrun.
Qed.

(** ** Trees built by [Insert] alone *)

Lemma default_comparator_agrees (key a : Z) :
  small_key key -> small_key a -> agrees default_comparator key a.
Proof.
  unfold small_key, agrees, default_comparator. intros H1 H2.
  rewrite wrap_id by (unfold min_int, max_int; lia). lia.
Qed.

Lemma holds_perm d st (l l' : list (Z * V)) :
  l ≡ₚ l' -> holds d st l -> holds d st l'.
Proof.
  intros Hp (t & H1 & H2 & H3 & H4 & H5 & H6 & H7 & H8).
  exists t. repeat (split; [assumption|]).
  split; [rewrite H6; exact Hp|].
  unfold len in *. rewrite <- (Permutation_length Hp). auto.
Qed.

(** The first [Insert], into the empty tree. *)
Lemma Insert_first d (fuel : nat) st (key : Z) (value : V) :
  2 <= d -> d < 2 ^ 62 ->
  Root (tree st) = None -> Degree (tree st) = d ->
  Comparator (tree st) = default_comparator -> Tree_Size (tree st) = 0 ->
  exists st', Insert vnil fuel key value st = Ok (tt, st') /\
              holds d st' [(key, value)].
Proof.
  intros Hd2 Hd62 Hroot Hdeg Hcmp Hsize.
  unfold Insert, bind, get_tree. rewrite Hroot.
  unfold alloc, modify_tree. cbn [mem next_ptr tree].
  eexists. split; [reflexivity|].
  rewrite Hdeg, Hsize.
  rewrite (d_wrap d Hd62 (2 * d - 1)) by lia.
  rewrite (d_wrap d Hd62 (d - 1)) by lia.
  set (nd := mkNode [key] [] true None 1 (2 * d - 1) (d - 1) [value]).
  exists (BNode (next_ptr st) (erase nd) []).
  assert (Hrep : rep (<[next_ptr st := nd]> (mem st))
                     (BNode (next_ptr st) (erase nd) [])).
  { eapply rep_node; [apply lookup_insert_eq|reflexivity|constructor]. }
  assert (Hshape : shape_ok d (BNode (next_ptr st) (erase nd) []) = true).
  { apply shape_ok_node. split; [|split; [|split]].
    - split; cbn; auto; try lia; congruence.
    - reflexivity.
    - cbn. congruence.
    - constructor. }
  assert (Hnd : NoDup (ptrs (BNode (next_ptr st) (erase nd) []))).
  { cbn. constructor; [rewrite list_elem_of_In; intros []|constructor]. }
  split.
  { apply (tree_of_complete d); auto. }
  split.
  { apply wf_tree_facts. split; [exact Hshape|]. split; [exact Hnd|].
    cbn. intros q [<-|[]]. lia. }
  split; [exact Hdeg|]. split; [exact Hcmp|].
  split.
  { unfold ordered, keys_of. cbn. repeat constructor. }
  split; [reflexivity|]. split; [reflexivity|]. cbn. lia.
Qed.

(** Every later [Insert]. *)
Lemma Insert_holds d (fuel : nat) st (kvs : list (Z * V)) (key : Z) (value : V) :
  2 <= d -> d < 2 ^ 62 ->
  holds d st kvs ->
  Forall small_key (map fst kvs) -> small_key key ->
  (length kvs < fuel)%nat -> len kvs < max_int ->
  exists st', Insert vnil fuel key value st = Ok (tt, st') /\
              holds d st' ((key, value) :: kvs).
Proof.
  intros Hd2 Hd62 (t & Htree & Hwf & Hdeg & Hcmp & Hord & Hent & Hsize & Hh)
    Hsmall Hkey Hfuel Hmax.
  apply tree_of_sound in Htree. destruct Htree as [Hroot Hrep].
  apply wf_tree_facts in Hwf. destruct Hwf as (Hshape & Hnd & Hfresh).
  pose proof (Insert_wp vnil d Hd2 Hd62 key value fuel st t
                Hdeg Hroot Hrep Hshape Hnd Hfresh ltac:(lia)) as H.
  apply wp_elim in H.
  destruct H as ([] & st' & Hrun & t' & news & R1 & R2 & R3 & R4 & R5 & R6
                 & R7 & R8 & R9 & R10 & R11 & R12 & R13 & R14 & _).
  destruct (news_wf (next_ptr st) (next_ptr st') (ptrs t) news (ptrs t'))
    as [Hnd' Hfresh']; auto.
  exists st'. split; [exact Hrun|].
  exists t'.
  split; [apply (tree_of_complete d); auto|].
  split; [apply wf_tree_facts; auto|].
  split; [exact R2|]. split; [rewrite R3; exact Hcmp|].
  split.
  { apply R14; [|exact Hord]. rewrite Hcmp.
    unfold keys_of. rewrite Hent.
    eapply Forall_impl; [exact Hsmall|]. cbv beta.
    intros a Ha. apply default_comparator_agrees; assumption. }
  split; [rewrite R11, Hent; reflexivity|].
  split.
  { rewrite R4, Hsize. pose proof (len_nonneg kvs).
    rewrite wrap_id by (unfold min_int, max_int in *; lia).
    unfold len. cbn [length]. lia. }
  cbn [length]. lia.
Qed.

Lemma insert_all_holds d (fuel : nat) (kvs : list (Z * V)) :
  2 <= d -> d < 2 ^ 62 ->
  forall st (acc : list (Z * V)),
    holds d st acc ->
    Forall small_key (map fst (kvs ++ acc)) ->
    (length (kvs ++ acc) < fuel)%nat -> len (kvs ++ acc) <= max_int ->
    exists st', run vnil fuel (insert_all kvs) st = Ok (tt, st') /\
                holds d st' (kvs ++ acc).
Proof.
  intros Hd2 Hd62.
  induction kvs as [|[k v] kvs IH]; intros st acc Hholds Hsmall Hfuel Hmax.
  - exists st. split; [reflexivity|exact Hholds].
  - cbn [app map fst] in Hsmall. apply Forall_cons in Hsmall.
    destruct Hsmall as [Hk Hsmall].
    rewrite map_app in Hsmall. apply Forall_app in Hsmall.
    destruct Hsmall as [Hs1 Hs2].
    unfold len in Hmax. cbn [app length] in Hfuel, Hmax.
    rewrite length_app in Hfuel, Hmax.
    destruct (Insert_holds d fuel st acc k v) as (st1 & Hrun1 & Hholds1); auto.
    { lia. }
    { unfold len. lia. }
    destruct (IH st1 ((k, v) :: acc)) as (st' & Hrun & Hholds'); auto.
    { rewrite map_app. apply Forall_app. split; [exact Hs1|].
      cbn [map fst]. constructor; assumption. }
    { rewrite length_app. cbn [length]. lia. }
    { unfold len. rewrite length_app. cbn [length]. lia. }
    exists st'. split.
    + cbn [insert_all map run fst snd]. unfold bind. rewrite Hrun1. exact Hrun.
    + eapply holds_perm; [|exact Hholds'].
      symmetry. apply Permutation_middle.
Qed.

Lemma NoDup_fst_unique {A B} (l : list (A * B)) (a : A) (b b' : B) :
  NoDup (map fst l) -> In (a, b) l -> In (a, b') l -> b = b'.
Proof.
  induction l as [|[x y] l IH]; intros Hnd H1 H2; [destruct H1|].
  cbn [map fst] in Hnd. apply NoDup_cons in Hnd. destruct Hnd as [Hx Hnd].
  assert (Hin : forall c, In (x, c) l -> False).
  { intros c Hc. apply Hx. apply list_elem_of_In.
    apply (in_map fst) in Hc. exact Hc. }
  destruct H1 as [H1|H1], H2 as [H2|H2].
  - congruence.
  - injection H1 as -> ->. destruct (Hin _ H2).
  - injection H2 as -> ->. destruct (Hin _ H1).
  - apply IH; assumption.
Qed.

(** [Search] on a tree in search order: it returns, changes nothing, and
    reports a stored value of the key, or the miss of a key that the tree
    does not hold. *)
Theorem Search_on_ordered_tree d (fuel : nat) st t (key : Z) :
  tree_of st = Some t ->
  wf_tree d (next_ptr st) t = true ->
  (height t <= fuel)%nat ->
  ordered t ->
  Forall (agrees (Comparator (tree st)) key) (keys_of t) ->
  exists r, Search vnil fuel key st = Ok (r, st) /\
            ((snd r = true /\ In (key, fst r) (entries t))
             \/ (r = (vnil, false) /\ ~ In key (keys_of t))).
Proof.
  intros Htree Hwf Hh Hord Hag.
  apply tree_of_sound in Htree. destruct Htree as [Hroot Hrep].
  apply wf_tree_facts in Hwf. destruct Hwf as (Hshape & _ & _).
  pose proof (searchNode_spec vnil d key fuel t st Hrep Hshape Hh Hord Hag) as H.
  apply wp_elim in H. destruct H as (r & st' & Hrun & -> & Hr).
  exists r. split; [|exact Hr].
  unfold Search, bind, get_tree. rewrite Hroot. exact Hrun.
Qed.

(** X4.  Keys inserted into a fresh tree are all found again, each with its
    value, and [Tree.Size] is their number, provided the differences of the
    keys do not overflow the comparator's subtraction. *)
Theorem inserted_keys_are_found d (fuel : nat) (kvs : list (Z * V)) :
  2 <= d -> d < 2 ^ 62 ->
  Forall small_key (map fst kvs) -> NoDup (map fst kvs) ->
  (length kvs < fuel)%nat -> len kvs <= max_int ->
  exists tr st,
    NewTree d = Ok tr /\
    run vnil fuel (insert_all kvs) (init_state tr) = Ok (tt, st) /\
    Tree_Size (tree st) = len kvs /\
    forall k v, In (k, v) kvs -> Search vnil fuel k st = Ok ((v, true), st).
Proof.
  intros Hd2 Hd62 Hsmall Hnd Hfuel Hmax.
  exists (mkTree None d 0 0 default_comparator).
  assert (Hnew : NewTree d = Ok (mkTree None d 0 0 default_comparator)).
  { unfold NewTree. destruct (d <? 2) eqn:E; [apply Z.ltb_lt in E; lia|reflexivity]. }
  destruct kvs as [|[k0 v0] kvs].
  { eexists. split; [exact Hnew|]. split; [reflexivity|]. split; [reflexivity|].
    intros k v []. }
  destruct (Insert_first d fuel (init_state (mkTree None d 0 0 default_comparator))
              k0 v0) as (st1 & Hrun1 & Hholds1); auto.
  cbn [map fst] in Hsmall. apply Forall_cons in Hsmall.
  destruct Hsmall as [Hk0 Hsmall].
  unfold len in Hmax. cbn [length] in Hfuel, Hmax.
  destruct (insert_all_holds d fuel kvs Hd2 Hd62 st1 [(k0, v0)])
    as (st & Hrun & Hholds); auto.
  { rewrite map_app. apply Forall_app. split; [exact Hsmall|].
    cbn [map fst]. constructor; [exact Hk0|constructor]. }
  { rewrite length_app. cbn [length]. lia. }
  { unfold len. rewrite length_app. cbn [length]. lia. }
  assert (Hperm : kvs ++ [(k0, v0)] ≡ₚ (k0, v0) :: kvs).
  { symmetry. apply Permutation_cons_append. }
  apply (holds_perm _ _ _ _ Hperm) in Hholds.
  exists st. split; [exact Hnew|].
  split.
  { cbn [insert_all map run fst snd]. unfold bind. rewrite Hrun1. exact Hrun. }
  destruct Hholds as (t & Htree & Hwf & Hdeg & Hcmp & Hord & Hent & Hsize & Hh).
  split; [exact Hsize|].
  intros k v Hin.
  assert (Hks : Forall small_key (map fst ((k0, v0) :: kvs))).
  { cbn [map fst]. constructor; assumption. }
  assert (Hk : small_key k).
  { rewrite Forall_forall in Hks. apply Hks, list_elem_of_In.
    apply (in_map fst) in Hin. exact Hin. }
  destruct (Search_on_ordered_tree d fuel st t k Htree Hwf) as (r & Hrun' & Hr).
  { cbn [length] in Hh. lia. }
  { exact Hord. }
  { rewrite Hcmp. unfold keys_of. rewrite Hent.
    eapply Forall_impl; [exact Hks|]. cbv beta.
    intros a Ha. apply default_comparator_agrees; assumption. }
  rewrite Hrun'. destruct Hr as [[Hr1 Hr2]|[_ Hr2]].
  - destruct r as [v' b]. cbn [fst snd] in *. subst b.
    apply (Permutation_in _ Hent) in Hr2.
    rewrite (NoDup_fst_unique _ k v v' Hnd Hin Hr2). reflexivity.
  - exfalso. apply Hr2. unfold keys_of.
    apply (Permutation_in _ (Permutation_sym (Permutation_map fst Hent))).
    apply (in_map fst) in Hin. exact Hin.
Qed.

(** With it, the sum of the node-local sizes is [Tree.Size] as long as
    only [Insert] is called. *)
Theorem holds_sum_sizes d st (kvs : list (Z * V)) :
  holds d st kvs ->
  exists t, tree_of st = Some t /\ sum_sizes t = Tree_Size (tree st).
Proof.
  intros (t & Htree & Hwf & _ & _ & _ & Hent & Hsize & _).
  exists t. split; [exact Htree|].
  apply wf_tree_facts in Hwf. destruct Hwf as (Hshape & _ & _).
  rewrite (sum_sizes_entries d t Hshape), Hsize.
  unfold len. rewrite (Permutation_length Hent). reflexivity.
Qed.

(** X20.  A key that a tree in search order does not hold: [Delete]
    returns, touches no node, leaves [Root] and [Height] as they are, and
    takes one off [Tree.Size]. *)
Theorem Delete_absent_key_decrements_size (fuel : nat) st t (key : Z) :
  2 <= Degree (tree st) -> Degree (tree st) < 2 ^ 62 ->
  tree_of st = Some t ->
  wf_tree (Degree (tree st)) (next_ptr st) t = true ->
  (height t <= fuel)%nat ->
  (IsLeaf (node_of t) = false -> Size (node_of t) <> 0) ->
  ordered t ->
  Forall (agrees (Comparator (tree st)) key) (keys_of t) ->
  ~ In key (keys_of t) ->
  Delete fuel key st
  = Ok (tt, mkState (mem st) (next_ptr st)
              (set_Tree_Size (wrap (Tree_Size (tree st) - 1)) (tree st))).
Proof.
  intros Hd2 Hd62 Htree Hwf Hh Hroot0 Hord Hag Hnot.
  destruct (Search_on_ordered_tree _ fuel st t key Htree Hwf Hh Hord Hag)
    as (r & Hrun & Hr).
  destruct Hr as [[_ Hr]|[-> _]].
  - exfalso. apply Hnot. unfold keys_of. apply (in_map fst) in Hr. exact Hr.
  - apply (Delete_not_found_decrements_size fuel st t key vnil); auto.
    rewrite Hrun. reflexivity.
Qed.

End Sizes.

(** * Runs of the code on concrete trees *)

Lemma NewTree_2 : NewTree 2 = Ok tree2.
Proof. reflexivity. Qed.

(** Two calls in a row, read off their outcomes. *)
Lemma two_calls {V : Type} (o : outcome (unit * @state V))
    (f : @state V -> outcome (unit * @state V)) (P : @state V -> @state V -> Prop) :
  match o with
  | Ok (_, st1) =>
    match f st1 with
    | Ok (_, st2) => P st1 st2
    | _ => False
    end
  | _ => False
  end ->
  exists st1 st2, o = Ok (tt, st1) /\ f st1 = Ok (tt, st2) /\ P st1 st2.
Proof.
  destruct o as [[[] st1]| | |]; try contradiction.
  destruct (f st1) as [[[] st2]| | |] eqn:E; try contradiction.
  intros H. exists st1, st2. auto.
Qed.

Lemma one_call {V : Type} (o : outcome (unit * @state V)) (P : @state V -> Prop) :
  match o with
  | Ok (_, st) => P st
  | _ => False
  end ->
  exists st, o = Ok (tt, st) /\ P st.
Proof.
  destruct o as [[[] st]| | |]; try contradiction. intros H. exists st. auto.
Qed.

(** C1 (as the code behaves).  Deleting a key that is not in the tree leaves
    the nodes, the root and the height as they were, but still decrements
    [Tree.Size]: after [Insert(10)], [Delete(20)] the single leaf holds its
    key and the tree reports size 0. *)
Theorem Delete_absent_key_changes_size :
  exists st1 st2,
    go [INS 10 "a"%string] = Ok (tt, st1) /\
    Delete fuel64 20 st1 = Ok (tt, st2) /\
    (result_of (Search nil_string fuel64 20 st1) = Ok (nil_string, false) /\
     tree_of st2 = tree_of st1 /\
     option_map key_shape (tree_of st2) = Some (KNode [10] []) /\
     Root (tree st2) = Root (tree st1) /\
     Height (tree st2) = Height (tree st1) /\
     Tree_Size (tree st1) = 1 /\
     Tree_Size (tree st2) = 0).
Proof.
  apply two_calls. vm_compute. repeat split.
Qed.

(** C2 (as the code behaves).  With degree 2 the tree [20 | 10 , 30] has its
    key 20 in the root and both children at [MinKeys].  [Delete(20)] merges
    the children around 20 and returns: 20 is not deleted from the merged
    node, [Search(20)] still finds it, and [Tree.Size] is 2 over 3 keys. *)
Theorem Delete_merge_at_root_keeps_key :
  exists st1 st2,
    go [INS 10 "a"; INS 20 "b"; INS 30 "c"; INS 40 "d"; DEL 40]%string = Ok (tt, st1) /\
    Delete fuel64 20 st1 = Ok (tt, st2) /\
    (option_map key_shape (tree_of st1) = Some (KNode [20] [KNode [10] []; KNode [30] []]) /\
     option_map key_shape (tree_of st2) = Some (KNode [10; 20; 30] []) /\
     result_of (Search nil_string fuel64 20 st2) = Ok ("b"%string, true) /\
     Tree_Size (tree st2) = 2).
Proof.
  apply two_calls. vm_compute. repeat split.
Qed.

(** C3 (as the code behaves).  After the completed calls [Insert(10)],
    [Delete(20)] the node sizes sum to 1 and [Tree.Size] is 0. *)
Theorem Tree_Size_differs_from_sum_of_sizes :
  exists st,
    go [INS 10 "a"%string; DEL 20] = Ok (tt, st) /\
    (option_map sum_sizes (tree_of st) = Some 1 /\
     Tree_Size (tree st) = 0).
Proof.
  apply one_call. vm_compute. repeat split.
Qed.

(** C4 (as the code behaves).  The default comparator is the wrapped
    difference [a - b]; on keys more than [2^63] apart it reports the wrong
    sign.  After inserting 0, [max_int] and -2 into a fresh tree the leaf
    holds them in that order and [Search(-2)] reports not-found. *)
Theorem Search_misses_inserted_key :
  exists st,
    go [INS 0 "a"; INS max_int "b"; INS (-2) "c"]%string = Ok (tt, st) /\
    (option_map key_shape (tree_of st) = Some (KNode [0; max_int; -2] []) /\
     Tree_Size (tree st) = 3 /\
     default_comparator max_int (-2) < 0 /\
     result_of (Search nil_string fuel64 (-2) st) = Ok (nil_string, false)).
Proof.
  apply one_call. vm_compute. repeat split.
Qed.

(** C6 (as the code behaves).  Borrowing from the left sibling on an internal
    node reads the sibling's child at its already decremented [Size]: the
    last child but one moves across and stays in the sibling too, and the
    last child is dropped.  With degree 2 and keys 100, 90, ..., 10 inserted,
    [Delete(100)] empties the node [90], which borrows from [30 50]: the
    leaf [40] ends up under both nodes, the leaf [60] is gone and
    [Search(60)] reports not-found. *)
Theorem borrow_from_left_loses_last_child :
  exists st1 st2,
    go descending = Ok (tt, st1) /\
    Delete fuel64 100 st1 = Ok (tt, st2) /\
    (option_map key_shape (tree_of st1) =
       Some (KNode [70]
               [KNode [30; 50] [KNode [10; 20] []; KNode [40] []; KNode [60] []];
                KNode [90] [KNode [80] []; KNode [100] []]]) /\
     result_of (Search nil_string fuel64 60 st1) = Ok ("f"%string, true) /\
     option_map key_shape (tree_of st2) =
       Some (KNode [50]
               [KNode [30] [KNode [10; 20] []; KNode [40] []];
                KNode [70] [KNode [40] []; KNode [80; 90] []]]) /\
     result_of (Search nil_string fuel64 60 st2) = Ok (nil_string, false)).
Proof.
  apply two_calls. vm_compute. repeat split.
Qed.

(** C8 (as the code behaves).  [ValidateTree] accepts an internal node with
    one key and one child, and a leaf that has a child; [checkInvariants]
    rejects the former. *)
Theorem ValidateTree_accepts_wrong_children_count :
  result_of (ValidateTree fuel64 lopsided) = Ok true /\
  result_of (ValidateTree fuel64 leaf_with_child) = Ok true /\
  option_map (fun n => (IsLeaf n, len (Children n), len (Keys n)))
    (mem lopsided !! 1%positive) = Some (false, 1, 1) /\
  option_map (fun n => (IsLeaf n, len (Children n)))
    (mem leaf_with_child !! 1%positive) = Some (true, 1) /\
  result_of (checkInvariants fuel64 (Root (tree lopsided)) lopsided) =
    Panic "Invariant violation: node %v has %d keys but %d children (expected %d)".
Proof.
  vm_compute. repeat split.
Qed.

(** C9, as stated, fails: [NewTree(1)] does not return an error value. *)
Lemma NewTree_degree_1_is_not_an_error :
  ~ (exists msg, NewTree 1 = Error msg).
Proof. intros [msg H]. discriminate H. Qed.

(** C9, amended.  [NewTree] with a degree below 2 panics with the message
    "degree must be at least 2"; it has no error result. *)
Theorem NewTree_small_degree_panics (degree : Z) :
  degree < 2 -> NewTree degree = Panic "degree must be at least 2".
Proof.
  intros H. unfold NewTree.
  destruct (degree <? 2) eqn:E; [reflexivity|]. apply Z.ltb_ge in E. lia.
Qed.

Lemma NewTree_small_degree_panics_witness :
  1 < 2 /\ NewTree 1 = Panic "degree must be at least 2".
Proof. split; [lia | apply (NewTree_small_degree_panics 1); lia]. Defined.

(** C10.  [Delete] on an empty tree returns at once: the state is the one
    it was called in. *)
Theorem Delete_on_empty_tree (V : Type) (fuel : nat) (key : Z) (st : state (V := V)) :
  Root (tree st) = None -> Delete fuel key st = Ok (tt, st).
Proof.
  intros H. unfold Delete, bind, get_tree. rewrite H. reflexivity.
Qed.

Lemma Delete_on_empty_tree_witness :
  Root (tree (init_state (V := string) tree2)) = None /\
  Delete fuel64 7 (init_state (V := string) tree2) = Ok (tt, init_state tree2).
Proof.
  split; [reflexivity | apply (Delete_on_empty_tree string fuel64 7); reflexivity].
Defined.

Lemma splitChild_splits_full_child_witness :
  (2 <= Degree (tree split_demo) /\ Degree (tree split_demo) < 2 ^ 62 /\
   reify 8 (mem split_demo) 2%positive = Some split_demo_tree /\
   wf_tree (Degree (tree split_demo)) (next_ptr split_demo) split_demo_tree = true /\
   (height split_demo_tree <= fuel64)%nat /\
   mem split_demo !! 2%positive = Some split_demo_parent /\
   0 <= 1 /\
   Children split_demo_parent !! Z.to_nat 1 = Some 3%positive /\
   mem split_demo !! 3%positive = Some split_demo_child /\
   Size split_demo_child = MaxKeys split_demo_child) /\
  exists st',
    splitChild nil_string fuel64 2%positive 1 split_demo = Ok (tt, st') /\
    mem st' !! 2%positive =
      Some (mkNode [20; 40] [1; 3; 4]%positive false None 2 3 1 ["b"; "d"]%string) /\
    mem st' !! 3%positive =
      Some (mkNode [30] [] true (Some 2%positive) 1 3 1 ["c"%string]) /\
    mem st' !! 4%positive =
      Some (mkNode [50] [] true (Some 2%positive) 1 3 1 ["e"%string]).
Proof.
  assert (H1 : 2 <= Degree (tree split_demo)) by (cbn; lia).
  assert (H2 : Degree (tree split_demo) < 2 ^ 62) by (cbn; lia).
  assert (H3 : reify 8 (mem split_demo) 2%positive = Some split_demo_tree)
    by (vm_compute; reflexivity).
  assert (H4 : wf_tree (Degree (tree split_demo)) (next_ptr split_demo)
                 split_demo_tree = true) by (vm_compute; reflexivity).
  assert (H5 : (height split_demo_tree <= fuel64)%nat) by (vm_compute; lia).
  assert (H6 : mem split_demo !! 2%positive = Some split_demo_parent)
    by (vm_compute; reflexivity).
  assert (H7 : 0 <= 1) by lia.
  assert (H8 : Children split_demo_parent !! Z.to_nat 1 = Some 3%positive)
    by reflexivity.
  assert (H9 : mem split_demo !! 3%positive = Some split_demo_child)
    by (vm_compute; reflexivity).
  assert (H10 : Size split_demo_child = MaxKeys split_demo_child) by reflexivity.
  split; [repeat (split; [assumption|]); assumption|].
  destruct (splitChild_splits_full_child nil_string fuel64 8 split_demo
              2%positive 3%positive 1 split_demo_tree split_demo_parent
              split_demo_child H1 H2 H3 H4 H5 H6 H7 H8 H9 H10)
    as (st' & R1 & _ & _ & R4 & R5 & R6 & _).
  exists st'. repeat split; assumption.
Defined.

(** The scan position of a duplicate, by example.  In a leaf with room the
    new pair goes behind the pair with the equal key; when [insertNonFull]
    first splits the full leaf [10 20 30] under the root [50], the equal
    median moves up and the new pair goes to the lower half, before it. *)
Lemma Insert_duplicate_positions :
  (exists st,
     go [INS 10 "a"; INS 20 "b"; INS 20 "z"]%string = Ok (tt, st) /\
     option_map entries (tree_of st)
     = Some [(10, "a"); (20, "b"); (20, "z")]%string) /\
  (exists st,
     go [INS 50 "e"; INS 60 "f"; INS 30 "c"; INS 10 "a"; INS 20 "b";
         INS 20 "z"]%string = Ok (tt, st) /\
     option_map key_shape (tree_of st)
     = Some (KNode [20; 50] [KNode [10; 20] []; KNode [30] []; KNode [60] []]) /\
     option_map entries (tree_of st)
     = Some [(10, "a"); (20, "z"); (20, "b"); (30, "c"); (50, "e");
             (60, "f")]%string).
Proof.
  split; apply one_call; vm_compute; repeat split.
Qed.



(** * Further properties of the package *)

Section Cover.
Context {V : Type} (vnil : V).
Implicit Types (st : @state V) (t : @btree V).

(** ** [Insert] and [Search] on well-formed trees *)

(** X1.  On a well-formed, non-empty tree [Insert] does not panic, whatever
    the key: it returns with a well-formed tree of the same degree whose
    entries are the old ones and the new pair, [Tree.Size] is incremented,
    the height grows by at most one, and no node outside the tree is
    touched. *)
Theorem Insert_keeps_tree_well_formed (fuel : nat) st t (key : Z) (value : V) :
  2 <= Degree (tree st) -> Degree (tree st) < 2 ^ 62 ->
  tree_of st = Some t ->
  wf_tree (Degree (tree st)) (next_ptr st) t = true ->
  (height t < fuel)%nat ->
  exists st' t',
    Insert vnil fuel key value st = Ok (tt, st') /\
    tree_of st' = Some t' /\
    wf_tree (Degree (tree st')) (next_ptr st') t' = true /\
    Degree (tree st') = Degree (tree st) /\
    Tree_Size (tree st') = wrap (Tree_Size (tree st) + 1) /\
    entries t' ≡ₚ (key, value) :: entries t /\
    (height t' <= S (height t))%nat /\
    (forall q, ~ In q (ptrs t) -> (q < next_ptr st)%positive ->
               mem st' !! q = mem st !! q).
Proof.
  intros Hd2 Hd62 Htree Hwf Hh.
  apply tree_of_sound in Htree. destruct Htree as [Hroot Hrep].
  apply wf_tree_facts in Hwf. destruct Hwf as (Hshape & Hnd & Hfresh).
  pose proof (Insert_wp vnil (Degree (tree st)) Hd2 Hd62 key value fuel st t
                eq_refl Hroot Hrep Hshape Hnd Hfresh Hh) as H.
  apply wp_elim in H.
  destruct H as ([] & st' & Hrun & t' & news & R1 & R2 & R3 & R4 & R5 & R6
                 & R7 & R8 & R9 & R10 & R11 & R12 & R13 & R14 & _).
  destruct (news_wf (next_ptr st) (next_ptr st') (ptrs t) news (ptrs t'))
    as [Hnd' Hfresh']; auto.
  exists st', t'.
  split; [exact Hrun|].
  split; [apply (tree_of_complete (Degree (tree st))); auto|].
  split; [rewrite R2; apply wf_tree_facts; auto|].
  split; [exact R2|]. split; [exact R4|]. split; [exact R11|].
  split; [exact R12|exact R13].
Qed.

(** X2.  [Insert] keeps the search order: if the keys of a well-formed tree
    ascend in symmetric order and the comparator agrees with the order of
    the integers between the new key and every stored key, the keys of the
    new tree ascend again. *)
Theorem Insert_keeps_search_order (fuel : nat) st t (key : Z) (value : V) :
  2 <= Degree (tree st) -> Degree (tree st) < 2 ^ 62 ->
  tree_of st = Some t ->
  wf_tree (Degree (tree st)) (next_ptr st) t = true ->
  (height t < fuel)%nat ->
  ordered t ->
  Forall (agrees (Comparator (tree st)) key) (keys_of t) ->
  exists st' t',
    Insert vnil fuel key value st = Ok (tt, st') /\
    tree_of st' = Some t' /\
    ordered t' /\
    keys_of t' ≡ₚ key :: keys_of t.
Proof.
  intros Hd2 Hd62 Htree Hwf Hh Hord Hag.
  apply tree_of_sound in Htree. destruct Htree as [Hroot Hrep].
  apply wf_tree_facts in Hwf. destruct Hwf as (Hshape & Hnd & Hfresh).
  pose proof (Insert_wp vnil (Degree (tree st)) Hd2 Hd62 key value fuel st t
                eq_refl Hroot Hrep Hshape Hnd Hfresh Hh) as H.
  apply wp_elim in H.
  destruct H as ([] & st' & Hrun & t' & news & R1 & R2 & R3 & R4 & R5 & R6
                 & R7 & R8 & R9 & R10 & R11 & R12 & R13 & R14 & _).
  destruct (news_wf (next_ptr st) (next_ptr st') (ptrs t) news (ptrs t'))
    as [Hnd' Hfresh']; auto.
  exists st', t'.
  split; [exact Hrun|].
  split; [apply (tree_of_complete (Degree (tree st))); auto|].
  split; [apply R14; assumption|].
  unfold keys_of. rewrite R11. reflexivity.
Qed.


(** X5.  [Insert] keeps the size bookkeeping: where [Tree.Size] is the sum
    of the node-local sizes before the call, it is so after it. *)
Theorem Insert_keeps_size_sum (fuel : nat) st t (key : Z) (value : V) :
  2 <= Degree (tree st) -> Degree (tree st) < 2 ^ 62 ->
  tree_of st = Some t ->
  wf_tree (Degree (tree st)) (next_ptr st) t = true ->
  (height t < fuel)%nat ->
  Tree_Size (tree st) = sum_sizes t ->
  Tree_Size (tree st) < max_int ->
  exists st' t',
    Insert vnil fuel key value st = Ok (tt, st') /\
    tree_of st' = Some t' /\
    Tree_Size (tree st') = sum_sizes t'.
Proof.
  intros Hd2 Hd62 Htree Hwf Hh Hsum Hmax.
  apply tree_of_sound in Htree. destruct Htree as [Hroot Hrep].
  apply wf_tree_facts in Hwf. destruct Hwf as (Hshape & Hnd & Hfresh).
  pose proof (Insert_wp vnil (Degree (tree st)) Hd2 Hd62 key value fuel st t
                eq_refl Hroot Hrep Hshape Hnd Hfresh Hh) as H.
  apply wp_elim in H.
  destruct H as ([] & st' & Hrun & t' & news & R1 & R2 & R3 & R4 & R5 & R6
                 & R7 & R8 & R9 & R10 & R11 & R12 & R13 & R14 & _).
  exists st', t'.
  split; [exact Hrun|].
  split; [apply (tree_of_complete (Degree (tree st))); auto|].
  { destruct (news_wf (next_ptr st) (next_ptr st') (ptrs t) news (ptrs t'))
      as [Hnd' _]; auto. }
  rewrite R4, (sum_sizes_entries _ t' R6).
  rewrite (sum_sizes_entries _ t Hshape) in Hsum.
  unfold len in *. rewrite (Permutation_length R11). cbn [length].
  rewrite wrap_id by (unfold min_int, max_int in *; lia). lia.
Qed.

(** ** [Search] with an arbitrary comparator *)

Lemma searchNode_safe d (key : Z) (fuel : nat) :
  forall t st,
    rep (mem st) t -> shape_ok d t = true -> (height t <= fuel)%nat ->
    wp (searchNode vnil fuel (Some (root_of t)) key)
       (fun r st' =>
          st' = st /\
          ((snd r = true /\
            exists k, In (k, fst r) (entries t) /\ Comparator (tree st) k key = 0)
           \/ r = (vnil, false))) st.
Proof.
  induction fuel as [|f IH]; intros [p n kids] st Hrep Hshape Hh.
  { simpl in Hh. lia. }
  pose proof Hshape as Hshape0.
  apply shape_ok_node in Hshape. destruct Hshape as (Hn & Hl & Hi & Hk).
  inversion Hrep as [p0 n0 pn kids0 Hp He Hrk]. subst p0 n0 kids0 n.
  apply (proj1 (node_facts_erase _ _)) in Hn.
  cbn [erase set_Parent IsLeaf Children] in Hi, Hl.
  destruct Hn as [N1 N2 N3 N4 N5 N6 N7].
  pose proof (len_nonneg (Keys pn)) as HK.
  cbn [searchNode root_of].
  apply wp_bind, wp_get_tree.
  apply wp_bind. eapply wp_load; [exact Hp|].
  apply wp_bind. apply scan_up_ok; [lia|]. intros j Hj _ Hge.
  assert (Hmiss :
    wp (if IsLeaf pn then ret (vnil, false)
        else bind (index (Children pn) j) (fun c => searchNode vnil f (Some c) key))
       (fun r st' =>
          st' = st /\
          ((snd r = true /\
            exists k, In (k, fst r) (entries (BNode p (erase pn) kids)) /\
                      Comparator (tree st) k key = 0)
           \/ r = (vnil, false))) st).
  { destruct (IsLeaf pn) eqn:L.
    - apply wp_ret. split; [reflexivity|]. right. reflexivity.
    - specialize (Hi eq_refl). specialize (N7 eq_refl).
      destruct (kids_split kids (Z.to_nat j)) as (ls1 & tc & ls2 & Ekids & Hlen).
      { rewrite <- (length_map root_of kids), Hi. unfold len in *. lia. }
      assert (Hin : In tc kids)
        by (rewrite Ekids; apply in_app_iff; right; left; reflexivity).
      assert (Hkid : Children pn !! Z.to_nat j = Some (root_of tc)).
      { rewrite <- Hlen. apply (kid_lookup d p (erase pn) ls1 tc ls2).
        rewrite <- Ekids. exact Hshape0. }
      apply wp_bind. eapply wp_index; [lia|exact Hkid|].
      eapply wp_mono.
      + apply (IH tc st).
        * rewrite Forall_forall in Hrk. apply Hrk, list_elem_of_In, Hin.
        * rewrite Forall_forall in Hk. apply Hk, list_elem_of_In, Hin.
        * cbn [height] in Hh. pose proof (height_kid tc _ Hin). lia.
      + intros r st' (-> & [[Hr1 (k & Hr2 & Hr3)]| -> ]); (split; [reflexivity|]).
        * left. split; [exact Hr1|]. exists k. split; [|exact Hr3].
          apply (Permutation_in _ (Permutation_sym (entries_perm p (erase pn) kids))).
          apply in_app_iff. left. apply in_concat.
          exists (entries tc). split; [|exact Hr2]. apply in_map. exact Hin.
        * right. reflexivity. }
  destruct (j <? Size pn) eqn:Ej.
  - apply Z.ltb_lt in Ej. destruct (Hge Ej) as (a & Ha & Hca).
    apply wp_bind. apply wp_bind. eapply wp_index; [lia|exact Ha|]. apply wp_ret.
    destruct (Comparator (tree st) a key =? 0) eqn:C.
    + apply Z.eqb_eq in C.
      destruct (lookup_lt_is_Some_2 (Values pn) (Z.to_nat j)) as [b Hb];
        [unfold len in *; lia|].
      apply wp_bind. eapply wp_index; [lia|exact Hb|]. apply wp_ret.
      split; [reflexivity|]. left. split; [reflexivity|]. cbn [fst].
      exists a. split; [|exact C].
      apply zip_in_entries. cbn [erase set_Parent Keys Values].
      apply (zip_lookup_in _ _ (Z.to_nat j)); assumption.
    + exact Hmiss.
  - apply wp_bind, wp_ret. exact Hmiss.
Qed.

(** X6.  [Search] is safe on every well-formed tree, ordered or not and
    whatever the comparator: it returns without a panic and without changing
    the state; a hit carries the value stored with a key that the comparator
    reports equal to the probe; a miss carries the nil value. *)
Theorem Search_returns_and_reads_only d (fuel : nat) st t (key : Z) :
  tree_of st = Some t ->
  wf_tree d (next_ptr st) t = true ->
  (height t <= fuel)%nat ->
  exists r, Search vnil fuel key st = Ok (r, st) /\
            ((snd r = true /\
              exists k, In (k, fst r) (entries t) /\ Comparator (tree st) k key = 0)
             \/ r = (vnil, false)).
Proof.
  intros Htree Hwf Hh.
  apply tree_of_sound in Htree. destruct Htree as [Hroot Hrep].
  apply wf_tree_facts in Hwf. destruct Hwf as (Hshape & _ & _).
  pose proof (searchNode_safe d key fuel t st Hrep Hshape Hh) as H.
  apply wp_elim in H. destruct H as (r & st' & Hrun & -> & Hr).
  exists r. split; [|exact Hr].
  unfold Search, bind, get_tree. rewrite Hroot. exact Hrun.
Qed.

(** ** [getPredecessor] and [getSuccessor] *)

Lemma all_nodes_node (P : @Node V -> bool) p n kids :
  all_nodes P (BNode p n kids) = true <->
  P n = true /\ Forall (fun k => all_nodes P k = true) kids.
Proof.
  cbn [all_nodes]. rewrite andb_true_iff, forallb_forall, Forall_forall.
  split; intros [H1 H2]; (split; [exact H1|]); intros x Hx; apply H2.
  - apply list_elem_of_In. exact Hx.
  - apply list_elem_of_In. exact Hx.
Qed.









(** ** [checkInvariants], as a test on the tree read off the heap *)

Lemma reify_list_cons (f : ptr -> option (@btree V)) c cs ts :
  reify_list f (c :: cs) = Some ts ->
  exists k ts', f c = Some k /\ reify_list f cs = Some ts' /\ ts = k :: ts'.
Proof.
  cbn [reify_list]. destruct (f c) as [k|]; [|discriminate].
  destruct (reify_list f cs) as [ts'|]; [|discriminate].
  intros [= <-]. eauto.
Qed.

Lemma reify_node (m : nat) (h : gmap ptr (@Node V)) p t :
  reify (S m) h p = Some t ->
  exists n, h !! p = Some n /\
    ((IsLeaf n = true /\ t = BNode p (erase n) [])
     \/ (IsLeaf n = false /\ exists ts,
           reify_list (reify m h) (Children n) = Some ts /\
           t = BNode p (erase n) ts)).
Proof.
  cbn [reify]. destruct (h !! p) as [n|]; [|discriminate].
  destruct (IsLeaf n) eqn:L.
  - intros [= <-]. exists n. split; [reflexivity|]. left.
    split; [exact L|reflexivity].
  - destruct (reify_list (reify m h) (Children n)) as [ts|] eqn:Hts; [|discriminate].
    intros [= <-]. exists n. split; [reflexivity|]. right.
    split; [exact L|]. exists ts. split; [exact Hts|reflexivity].
Qed.

Lemma checkInvariants_reify (m : nat) :
  forall (fuel : nat) st p t,
    reify m (mem st) p = Some t -> (height t <= fuel)%nat ->
    checkInvariants fuel (Some p) st
    = if all_nodes count_ok t then Ok (tt, st) else Panic check_msg.
Proof.
  induction m as [|m IH]; intros fuel st p t Hr Hh; [discriminate|].
  apply reify_node in Hr. destruct Hr as (n & Hp & Hr).
  destruct fuel as [|f]; [destruct t; simpl in Hh; lia|].
  cbn [checkInvariants]. unfold bind at 1. unfold load. rewrite Hp.
  destruct Hr as [[L ->]|(L & ts & Hts & ->)].
  - rewrite L. cbn [all_nodes forallb]. unfold count_ok.
    cbn [erase set_Parent IsLeaf]. rewrite L. reflexivity.
  - rewrite L. cbn [all_nodes]. unfold count_ok at 1.
    cbn [erase set_Parent IsLeaf Children Size]. rewrite L. cbn [orb].
    destruct (len (Children n) =? wrap (Size n + 1)); cbn [negb andb];
      [|reflexivity].
    cbn [height] in Hh.
    assert (Hhs : Forall (fun k => (height k <= f)%nat) ts).
    { apply Forall_forall. intros k Hk. apply list_elem_of_In in Hk.
      pose proof (height_kid k ts Hk). lia. }
    clear Hh Hp L. revert ts Hts Hhs.
    induction (Children n) as [|c cs IHc]; intros ts Hts Hhs.
    + injection Hts as <-. reflexivity.
    + apply reify_list_cons in Hts. destruct Hts as (k & ts' & Hk & Hts' & ->).
      apply Forall_cons in Hhs. destruct Hhs as [Hhk Hhs].
      cbn [for_each forallb]. unfold bind.
      rewrite (IH f st c k Hk Hhk).
      destruct (all_nodes count_ok k); [|reflexivity].
      cbn [andb]. apply (IHc ts' Hts' Hhs).
Qed.

(** X9.  [checkInvariants], run from the root of a tree that can be read
    off the heap, is a test of the children counts and nothing else: it
    returns, leaving the state as it is, when every internal node has one
    child more than its [Size], and panics with its "Invariant violation"
    message otherwise. *)
Theorem checkInvariants_tests_child_counts (fuel : nat) st t :
  tree_of st = Some t -> (height t <= fuel)%nat ->
  checkInvariants fuel (Root (tree st)) st
  = if all_nodes count_ok t then Ok (tt, st) else Panic check_msg.
Proof.
  unfold tree_of. destruct (Root (tree st)) as [r|]; [|discriminate].
  intros Hr Hh. apply (checkInvariants_reify _ fuel st r t Hr Hh).
Qed.

(** ** [ValidateTree], as a test on the tree read off the heap *)

Lemma ascending_short (cmp : Z -> Z -> Z) (l : list Z) :
  (length l <= 1)%nat -> ascending cmp l = true.
Proof. destruct l as [|a [|b l]]; cbn; intros; try reflexivity; lia. Qed.

Lemma ascending_cons2 (cmp : Z -> Z -> Z) (a b : Z) (l : list Z) :
  ascending cmp (a :: b :: l) = (cmp a b <? 0) && ascending cmp (b :: l).
Proof. reflexivity. Qed.

Lemma keys_sorted_run (cmp : Z -> Z -> Z) (keys : list Z) (size : Z) st (fuel : nat) :
  forall i,
    1 <= i -> size <= len keys -> (Z.to_nat (size - i) < fuel)%nat ->
    keys_sorted cmp keys size fuel i st
    = Ok (ascending cmp (drop (Z.to_nat (i - 1)) (take (Z.to_nat size) keys)), st).
Proof.
  induction fuel as [|f IH]; intros i Hi Hs Hf; [lia|].
  cbn [keys_sorted]. destruct (i <? size) eqn:E.
  - apply Z.ltb_lt in E.
    destruct (lookup_lt_is_Some_2 keys (Z.to_nat (i - 1))) as [a Ha];
      [unfold len in *; lia|].
    destruct (lookup_lt_is_Some_2 keys (Z.to_nat i)) as [b Hb];
      [unfold len in *; lia|].
    unfold bind, index.
    destruct (i - 1 <? 0) eqn:E1; [apply Z.ltb_lt in E1; lia|].
    destruct (i <? 0) eqn:E2; [apply Z.ltb_lt in E2; lia|].
    rewrite Ha, Hb. cbn [ret].
    assert (Ha' : take (Z.to_nat size) keys !! Z.to_nat (i - 1) = Some a)
      by (rewrite lookup_take_lt by lia; exact Ha).
    assert (Hb' : take (Z.to_nat size) keys !! S (Z.to_nat (i - 1)) = Some b).
    { replace (S (Z.to_nat (i - 1))) with (Z.to_nat i) by lia.
      rewrite lookup_take_lt by lia. exact Hb. }
    rewrite (drop_S _ _ _ Ha'), (drop_S _ _ _ Hb').
    rewrite ascending_cons2. rewrite <- (drop_S _ _ _ Hb').
    replace (S (Z.to_nat (i - 1))) with (Z.to_nat (i + 1 - 1)) by lia.
    destruct (cmp a b >=? 0) eqn:C.
    + apply Z.geb_le in C. replace (cmp a b <? 0) with false; [reflexivity|].
      symmetry. apply Z.ltb_ge. lia.
    + replace (cmp a b <? 0) with true.
      * cbn [andb]. apply IH; lia.
      * symmetry. apply Z.ltb_lt. rewrite Z.geb_leb in C. apply Z.leb_gt in C. lia.
  - apply Z.ltb_ge in E. rewrite ascending_short; [reflexivity|].
    rewrite length_drop, length_take. lia.
Qed.

Lemma forallb_split {A} (a b c : A -> bool) (l : list A) :
  forallb (fun k => a k && (b k && c k)) l
  = forallb b l && forallb (fun k => a k && c k) l.
Proof.
  induction l as [|x l IH]; [reflexivity|]. cbn [forallb]. rewrite IH.
  destruct (a x), (b x), (c x), (forallb b l); reflexivity.
Qed.

Lemma validateNode_reify (m : nat) :
  forall (fuel : nat) st p t (isRoot : bool),
    reify m (mem st) p = Some t -> (height t <= fuel)%nat ->
    all_nodes (fun n => Size n <=? len (Keys n)) t = true ->
    validateNode fuel p isRoot st
    = Ok (keys_valid (Comparator (tree st)) isRoot t && parents_ok (mem st) t, st).
Proof.
  induction m as [|m IH]; intros fuel st p t isRoot Hr Hh Hall; [discriminate|].
  apply reify_node in Hr. destruct Hr as (n & Hp & Hr).
  destruct fuel as [|f]; [destruct t; simpl in Hh; lia|].
  cbn [validateNode]. unfold bind at 1. unfold get_tree.
  unfold bind at 1. unfold load. rewrite Hp.
  assert (Hsz : Size n <= len (Keys n)).
  { destruct Hr as [[_ ->]|(_ & ts & _ & ->)];
      apply all_nodes_node in Hall; destruct Hall as [Hall _];
      apply Z.leb_le in Hall; exact Hall. }
  assert (Et : exists ts, t = BNode p (erase n) ts) by
    (destruct Hr as [[_ ->]|(_ & ts & _ & ->)]; eauto).
  destruct Et as [ts0 Et].
  assert (Enode : node_valid (Comparator (tree st)) isRoot (erase n)
                  = (isRoot || ((MinKeys n <=? Size n) && (Size n <=? MaxKeys n)))
                    && ascending (Comparator (tree st))
                         (take (Z.to_nat (Size n)) (Keys n))) by reflexivity.
  destruct (negb isRoot && ((Size n <? MinKeys n) || (Size n >? MaxKeys n))) eqn:Eb.
  { (* out of bounds *)
    subst t. cbn [keys_valid]. rewrite Enode.
    replace (isRoot || (MinKeys n <=? Size n) && (Size n <=? MaxKeys n)) with false;
      [reflexivity|].
    destruct isRoot; [discriminate|]. cbn [negb andb orb] in Eb |- *.
    symmetry. apply andb_false_iff. apply orb_true_iff in Eb.
    destruct Eb as [Eb|Eb].
    - left. apply Z.ltb_lt in Eb. apply Z.leb_gt. lia.
    - right. rewrite Z.gtb_ltb in Eb. apply Z.ltb_lt in Eb. apply Z.leb_gt. lia. }
  assert (Ebounds : isRoot || (MinKeys n <=? Size n) && (Size n <=? MaxKeys n) = true).
  { destruct isRoot; [reflexivity|]. cbn [negb andb orb] in Eb |- *.
    apply orb_false_iff in Eb. destruct Eb as [E1 E2].
    apply Z.ltb_ge in E1. rewrite Z.gtb_ltb in E2. apply Z.ltb_ge in E2.
    apply andb_true_iff. split; apply Z.leb_le; lia. }
  unfold bind at 1.
  rewrite (keys_sorted_run _ _ _ st (S (Z.to_nat (Size n))) 1) by lia.
  change (Z.to_nat (1 - 1)) with O. rewrite drop_0.
  destruct (ascending (Comparator (tree st)) (take (Z.to_nat (Size n)) (Keys n))) eqn:Ea;
    cbn [negb].
  2:{ subst t. cbn [keys_valid]. rewrite Enode.
      rewrite andb_false_r. reflexivity. }
  destruct Hr as [[L ->]|(L & ts & Hts & ->)].
  - rewrite L. cbn [negb keys_valid parents_ok forallb].
    rewrite Enode, Ebounds. reflexivity.
  - rewrite L. cbn [negb keys_valid parents_ok].
    rewrite Enode, Ebounds. cbn [andb].
    cbn [height] in Hh.
    apply all_nodes_node in Hall. destruct Hall as [_ Hall].
    assert (Hhs : Forall (fun k => (height k <= f)%nat) ts).
    { apply Forall_forall. intros k Hk. apply list_elem_of_In in Hk.
      pose proof (height_kid k ts Hk). lia. }
    clear Hh Hp L Hsz Enode Eb Ebounds Et. revert ts Hts Hhs Hall.
    induction (Children n) as [|c cs IHc]; intros ts Hts Hhs Hall.
    + injection Hts as <-. reflexivity.
    + apply reify_list_cons in Hts. destruct Hts as (k & ts' & Hk & Hts' & ->).
      apply Forall_cons in Hhs. destruct Hhs as [Hhk Hhs].
      apply Forall_cons in Hall. destruct Hall as [Hak Hall].
      pose proof (reify_sound _ _ _ _ Hk) as [Hrk Hroot].
      destruct (rep_lookup _ _ Hrk) as (cn & Hcn & _). rewrite Hroot in Hcn.
      cbn [validate_children forallb]. unfold bind at 1. unfold load. rewrite Hcn.
      unfold parent_is at 1. rewrite Hroot, Hcn.
      destruct (bool_decide (Parent cn = Some p)); cbn [negb andb].
      * unfold bind at 1. rewrite (IH f st c k false Hk Hhk Hak).
        destruct (keys_valid (Comparator (tree st)) false k); cbn [andb].
        -- destruct (parents_ok (mem st) k); cbn [andb].
           ++ apply (IHc ts' Hts' Hhs Hall).
           ++ rewrite andb_false_r. reflexivity.
        -- reflexivity.
      * rewrite andb_false_r. reflexivity.
Qed.

Lemma shape_sizes d t :
  shape_ok d t = true -> all_nodes (fun n => Size n <=? len (Keys n)) t = true.
Proof.
  induction t as [p n kids IH] using btree_ind'. intros Hs.
  apply shape_ok_node in Hs. destruct Hs as (Hn & _ & _ & Hk).
  destruct Hn as [N1 _ _ _ _ _ _].
  apply all_nodes_node. split; [apply Z.leb_le; lia|].
  rewrite Forall_forall in IH, Hk |- *. intros k Hin. apply IH; auto.
Qed.

(** X10.  [ValidateTree] on a tree that can be read off the heap, with no
    [Size] beyond the keys present, returns without changing the state, and
    its verdict is the conjunction of two tests: every node's keys compare
    strictly ascending and every node but the root is within
    [MinKeys .. MaxKeys]; and every child of a node points back to it. *)
Theorem ValidateTree_decides_validity (fuel : nat) st t :
  tree_of st = Some t -> (height t <= fuel)%nat ->
  all_nodes (fun n => Size n <=? len (Keys n)) t = true ->
  ValidateTree fuel st
  = Ok (keys_valid (Comparator (tree st)) true t && parents_ok (mem st) t, st).
Proof.
  unfold tree_of, ValidateTree, bind, get_tree.
  destruct (Root (tree st)) as [r|]; [|discriminate].
  intros Hr Hh Hall. apply (validateNode_reify _ fuel st r t true Hr Hh Hall).
Qed.

(** ** [RebuildParentPointers] *)

Lemma forallb_agree {A} (f g : A -> bool) (l : list A) :
  (forall x, In x l -> f x = g x) -> forallb f l = forallb g l.
Proof.
  induction l as [|x l IH]; intros H; [reflexivity|].
  cbn [forallb]. rewrite (H x) by (left; reflexivity).
  rewrite IH; [reflexivity|]. intros y Hy. apply H. right. exact Hy.
Qed.

Lemma parent_is_ext (h h' : gmap ptr (@Node V)) p (k : @btree V) :
  h' !! root_of k = h !! root_of k -> parent_is h' p k = parent_is h p k.
Proof. unfold parent_is. intros ->. reflexivity. Qed.

Lemma parents_ok_ext (h h' : gmap ptr (@Node V)) t :
  (forall q, In q (ptrs t) -> h' !! q = h !! q) ->
  parents_ok h' t = parents_ok h t.
Proof.
  induction t as [p n kids IH] using btree_ind'. intros H.
  cbn [parents_ok]. rewrite Forall_forall in IH.
  apply forallb_agree. intros k Hk. f_equal.
  - apply parent_is_ext. apply H. right. apply in_flat_map.
    exists k. split; [exact Hk|apply root_in_ptrs].
  - apply IH; [apply list_elem_of_In; exact Hk|].
    intros q Hq. apply H. right. apply in_flat_map. eauto.
Qed.

Lemma rebuildParents_spec d (fuel : nat) :
  forall t st,
    rep (mem st) t -> shape_ok d t = true -> NoDup (ptrs t) ->
    (height t <= fuel)%nat ->
    exists h',
      rebuildParents fuel (root_of t) st
      = Ok (tt, mkState h' (next_ptr st) (tree st)) /\
      (forall q, ~ In q (flat_map ptrs (kids_of t)) -> h' !! q = mem st !! q) /\
      (forall q, erase <$> h' !! q = erase <$> mem st !! q) /\
      parents_ok h' t = true.
Proof.
  induction fuel as [|f IH]; intros [p n kids] st Hrep Hshape Hnd Hh.
  { simpl in Hh. lia. }
  pose proof Hshape as Hshape0.
  apply shape_ok_node in Hshape. destruct Hshape as (Hn & Hl & Hi & Hk).
  inversion Hrep as [p0 n0 pn kids0 Hp He Hrk]. subst p0 n0 kids0 n.
  apply (proj1 (node_facts_erase _ _)) in Hn.
  cbn [erase set_Parent IsLeaf Children] in Hi, Hl.
  destruct Hn as [N1 N2 N3 N4 N5 N6 N7].
  assert (Hch : Children pn = map root_of kids).
  { destruct (IsLeaf pn) eqn:L.
    - rewrite (Hl eq_refl), (N6 eq_refl). reflexivity.
    - symmetry. apply Hi. reflexivity. }
  cbn [rebuildParents root_of kids_of parents_ok]. unfold bind at 1. unfold load.
  rewrite Hp, Hch.
  cbn [ptrs] in Hnd. apply NoDup_cons in Hnd. destruct Hnd as [_ Hnd].
  cbn [height] in Hh.
  assert (Hhs : Forall (fun k => (height k <= f)%nat) kids).
  { apply Forall_forall. intros k Hin. apply list_elem_of_In in Hin.
    pose proof (height_kid k kids Hin). lia. }
  clear Hp Hch Hh Hl Hi N1 N2 N3 N4 N5 N6 N7 Hshape0 Hrep.
  revert st Hrk Hnd. induction kids as [|k ks IHk]; intros st Hrk Hnd.
  { exists (mem st). split; [destruct st; reflexivity|]. auto. }
  apply Forall_cons in Hrk. destruct Hrk as [Hrk1 Hrk].
  apply Forall_cons in Hk. destruct Hk as [Hk1 Hk].
  apply Forall_cons in Hhs. destruct Hhs as [Hh1 Hhs].
  cbn [flat_map] in Hnd. apply NoDup_app in Hnd. destruct Hnd as (Hnd1 & Hdisj & Hnd2).
  destruct (rep_lookup _ _ Hrk1) as (kn & Hkn & _).
  set (st2 := mkState (alter (set_Parent (Some p)) (root_of k) (mem st))
                (next_ptr st) (tree st)).
  assert (Her2 : forall q, erase <$> mem st2 !! q = erase <$> mem st !! q).
  { intros q. cbn [mem st2]. destruct (decide (root_of k = q)) as [<-|Hne].
    - rewrite lookup_alter_eq, Hkn. reflexivity.
    - rewrite lookup_alter_ne by exact Hne. reflexivity. }
  destruct (IH k st2) as (h3 & Hrun3 & Hfr3 & Her3 & Hpo3); auto.
  { apply (rep_ext (mem st)); [exact Hrk1|]. intros q _. apply Her2. }
  cbn [next_ptr tree st2] in Hrun3.
  set (st3 := mkState h3 (next_ptr st) (tree st)).
  assert (Hroot3 : h3 !! root_of k = Some (set_Parent (Some p) kn)).
  { rewrite Hfr3.
    - cbn [mem st2]. rewrite lookup_alter_eq, Hkn. reflexivity.
    - destruct k as [c cn kc]. cbn [ptrs kids_of root_of] in *.
      apply NoDup_cons in Hnd1. destruct Hnd1 as [Hnd1 _].
      rewrite list_elem_of_In in Hnd1. exact Hnd1. }
  destruct (IHk Hk Hhs st3) as (h4 & Hrun4 & Hfr4 & Her4 & Hpo4).
  { apply Forall_forall. intros k' Hk'. rewrite Forall_forall in Hrk.
    apply (rep_ext (mem st)); [apply Hrk; exact Hk'|].
    intros q _. cbn [mem st3]. rewrite Her3. apply Her2. }
  { exact Hnd2. }
  cbn [mem next_ptr tree st3] in Hrun4, Hfr4, Her4.
  assert (Hsame : forall q, In q (ptrs k) -> h4 !! q = h3 !! q).
  { intros q Hq. apply Hfr4. intros Hq'.
    apply (Hdisj q); apply list_elem_of_In; assumption. }
  exists h4. split.
  { cbn [map for_each]. unfold bind at 1. unfold bind at 1. unfold modify.
    rewrite Hkn. fold st2. rewrite Hrun3. fold st3. exact Hrun4. }
  split.
  { intros q Hq. cbn [flat_map] in Hq. rewrite in_app_iff in Hq.
    rewrite Hfr4 by tauto. rewrite Hfr3.
    - cbn [mem st2]. apply lookup_alter_ne. intros <-. apply Hq. left.
      apply root_in_ptrs.
    - intros Hq'. apply Hq. left. destruct k as [c cn kc].
      cbn [ptrs kids_of] in *. right. exact Hq'. }
  split.
  { intros q. rewrite Her4, Her3. apply Her2. }
  cbn [forallb]. rewrite Hpo4, andb_true_r.
  apply andb_true_iff. split.
  - rewrite (parent_is_ext h3) by (apply Hsame, root_in_ptrs).
    unfold parent_is. rewrite Hroot3. apply bool_decide_eq_true. reflexivity.
  - rewrite (parents_ok_ext h3) by exact Hsame. exact Hpo3.
Qed.

Lemma Rebuild_run d (fuel : nat) st t :
  tree_of st = Some t ->
  wf_tree d (next_ptr st) t = true ->
  (height t <= fuel)%nat ->
  exists st',
    RebuildParentPointers fuel st = Ok (tt, st') /\
    tree st' = tree st /\ next_ptr st' = next_ptr st /\
    tree_of st' = Some t /\
    parents_ok (mem st') t = true /\
    (forall q, erase <$> mem st' !! q = erase <$> mem st !! q) /\
    (forall q, ~ In q (flat_map ptrs (kids_of t)) -> mem st' !! q = mem st !! q).
Proof.
  intros Htree Hwf Hh.
  apply tree_of_sound in Htree. destruct Htree as [Hroot Hrep].
  apply wf_tree_facts in Hwf. destruct Hwf as (Hshape & Hnd & Hfresh).
  destruct (rebuildParents_spec d fuel t st Hrep Hshape Hnd Hh)
    as (h' & Hrun & Hfr & Her & Hpo).
  exists (mkState h' (next_ptr st) (tree st)).
  split.
  { unfold RebuildParentPointers, bind, get_tree. rewrite Hroot. exact Hrun. }
  split; [reflexivity|]. split; [reflexivity|].
  split.
  { apply (tree_of_complete d); auto.
    apply (rep_ext (mem st)); [exact Hrep|]. intros q _. apply Her. }
  auto.
Qed.

(** X11.  [RebuildParentPointers] on a well-formed tree returns and makes
    every child of every node point back to that node.  Nothing else
    changes: each cell keeps all fields but [Parent], the tree read off the
    heap is the same, and the root and every cell outside the tree keep
    their [Parent] too (the root's is not reset). *)
Theorem RebuildParentPointers_links_children d (fuel : nat) st t :
  tree_of st = Some t ->
  wf_tree d (next_ptr st) t = true ->
  (height t <= fuel)%nat ->
  exists st',
    RebuildParentPointers fuel st = Ok (tt, st') /\
    tree st' = tree st /\ next_ptr st' = next_ptr st /\
    tree_of st' = Some t /\
    parents_ok (mem st') t = true /\
    (forall q, erase <$> mem st' !! q = erase <$> mem st !! q) /\
    (forall q, ~ In q (flat_map ptrs (kids_of t)) -> mem st' !! q = mem st !! q).
Proof. apply Rebuild_run. Qed.

(** X12.  After [RebuildParentPointers], as the loader runs it on a tree it
    has read, the verdict of [ValidateTree] depends on the keys alone: the
    parent-link test cannot fail. *)
Theorem ValidateTree_after_rebuild d (fuel : nat) st t :
  tree_of st = Some t ->
  wf_tree d (next_ptr st) t = true ->
  (height t <= fuel)%nat ->
  exists st',
    RebuildParentPointers fuel st = Ok (tt, st') /\
    ValidateTree fuel st' = Ok (keys_valid (Comparator (tree st)) true t, st').
Proof.
  intros Htree Hwf Hh.
  destruct (Rebuild_run d fuel st t Htree Hwf Hh)
    as (st' & Hrun & Ht & Hn & Htree' & Hpo & _ & _).
  exists st'. split; [exact Hrun|].
  apply wf_tree_facts in Hwf. destruct Hwf as (Hshape & _ & _).
  unfold tree_of, ValidateTree, bind, get_tree in *.
  destruct (Root (tree st')) as [r|]; [|discriminate].
  rewrite (validateNode_reify _ fuel st' r t true Htree' Hh (shape_sizes d t Hshape)).
  rewrite Hpo, andb_true_r, Ht. reflexivity.
Qed.

(** ** [Delete] on a tree that is a single leaf *)

Lemma Delete_leaf_root_run (f : nat) st r rn (i : nat) (k key : Z) :
  Root (tree st) = Some r -> mem st !! r = Some rn ->
  IsLeaf rn = true -> Children rn = [] -> Parent rn = None ->
  Size rn = len (Keys rn) -> len (Values rn) = len (Keys rn) ->
  len (Keys rn) < 2 ^ 62 ->
  Keys rn !! i = Some k -> Comparator (tree st) k key = 0 ->
  (forall m a, (m < i)%nat -> Keys rn !! m = Some a ->
               Comparator (tree st) a key < 0) ->
  exists st',
    Delete (S f) key st = Ok (tt, st') /\
    mem st' !! r
    = Some (set_Size (Size rn - 1)
              (set_Values (take i (Values rn) ++ drop (S i) (Values rn))
                 (set_Keys (take i (Keys rn) ++ drop (S i) (Keys rn)) rn))) /\
    (forall q, q <> r -> mem st' !! q = mem st !! q) /\
    next_ptr st' = next_ptr st /\
    tree st' = set_Tree_Size (wrap (Tree_Size (tree st) - 1)) (tree st).
Proof.
  intros Hroot Hp L Hch Hpar N1 N2 Hsmall Hk Hc Hlt.
  pose proof (len_nonneg (Keys rn)) as HK.
  pose proof (lookup_lt_Some _ _ _ Hk) as Hi.
  assert (W : wp (Delete (S f) key)
    (fun _ st' =>
       mem st' !! r
       = Some (set_Size (Size rn - 1)
                 (set_Values (take i (Values rn) ++ drop (S i) (Values rn))
                    (set_Keys (take i (Keys rn) ++ drop (S i) (Keys rn)) rn))) /\
       (forall q, q <> r -> mem st' !! q = mem st !! q) /\
       next_ptr st' = next_ptr st /\
       tree st' = set_Tree_Size (wrap (Tree_Size (tree st) - 1)) (tree st)) st).
  { unfold Delete. apply wp_bind, wp_get_tree. rewrite Hroot.
    apply wp_bind. cbn [deleteNode].
    apply wp_bind, wp_get_tree.
    apply wp_bind. eapply wp_load; [exact Hp|].
    apply wp_bind. apply scan_up_ok; [lia|]. intros j Hj Hlo Hhi.
    assert (Ej : j = Z.of_nat i).
    { destruct (Z.lt_trichotomy j (Z.of_nat i)) as [H|[H|H]]; [|exact H|].
      - exfalso. destruct Hhi as (a & Ha & Hca); [unfold len in *; lia|].
        specialize (Hlt (Z.to_nat j) a ltac:(lia) Ha). lia.
      - exfalso. specialize (Hlo (Z.of_nat i) k ltac:(lia)).
        rewrite Nat2Z.id in Hlo. specialize (Hlo Hk). lia. }
    subst j. clear Hlo Hhi.
    destruct (Z.of_nat i <? Size rn) eqn:E; [|apply Z.ltb_ge in E; unfold len in *; lia].
    apply wp_bind. apply wp_bind. eapply wp_index; [lia|rewrite Nat2Z.id; exact Hk|].
    apply wp_ret. rewrite Hc. change (0 =? 0) with true. cbv iota.
    apply wp_bind. rewrite L.
    assert (Hw : wrap (Z.of_nat i + 1) = Z.of_nat i + 1)
      by (apply wrap_id; unfold min_int, max_int, len in *; lia).
    rewrite Hw.
    apply wp_bind. apply wp_slice_to; [unfold len in *; lia|].
    apply wp_bind. apply wp_slice_from; [unfold len in *; lia|].
    apply wp_bind. apply wp_slice_to; [unfold len in *; lia|].
    apply wp_bind. apply wp_slice_from; [unfold len in *; lia|].
    rewrite Nat2Z.id. replace (Z.to_nat (Z.of_nat i + 1)) with (S i) by lia.
    apply wp_bind. eapply wp_modify; [exact Hp|].
    match goal with
    | |- context [alter ?g0 r (mem st)] => set (g := g0)
    end.
    assert (Hg : g rn
      = set_Size (Size rn - 1)
          (set_Values (take i (Values rn) ++ drop (S i) (Values rn))
             (set_Keys (take i (Keys rn) ++ drop (S i) (Keys rn)) rn))).
    { unfold g, set_Size, set_Values, set_Keys.
      cbn [Keys Values Children IsLeaf Parent Size MaxKeys MinKeys].
      rewrite wrap_id by (unfold min_int, max_int, len in *; lia). reflexivity. }
    clearbody g.
    set (st1 := mkState (alter g r (mem st)) (next_ptr st) (tree st)).
    assert (Hp1 : mem st1 !! r = Some (g rn)).
    { cbn [mem st1]. rewrite lookup_alter_eq, Hp. reflexivity. }
    assert (L1 : IsLeaf (g rn) = true) by (rewrite Hg; exact L).
    assert (Hcheck : forall (Q : unit -> state -> Prop) st2,
              mem st2 = mem st1 -> Q tt st2 ->
              wp (checkInvariants (S f) (Some r)) Q st2).
    { intros Q st2 E2 HQ. eapply checkInvariants_node; [rewrite E2; exact Hp1| |exact HQ].
      intros HL. rewrite L1 in HL. discriminate. }
    apply wp_bind. apply Hcheck; [reflexivity|].
    apply wp_bind. eapply wp_load; [exact Hp1|].
    assert (Hbal : forall Q : unit -> state -> Prop,
              Q tt st1 ->
              wp (if Size (g rn) <? MinKeys (g rn)
                  then balanceAfterDeletion (S f) (S f) r else ret tt) Q st1).
    { intros Q HQ. destruct (Size (g rn) <? MinKeys (g rn)); [|apply wp_ret; exact HQ].
      cbn [balanceAfterDeletion]. apply wp_bind. eapply wp_load; [exact Hp1|].
      assert (Hpar1 : Parent (g rn) = None) by (rewrite Hg; exact Hpar).
      assert (Hch1 : Children (g rn) = []) by (rewrite Hg; exact Hch).
      rewrite Hpar1, Hch1.
      rewrite bool_decide_eq_true_2 by reflexivity. rewrite orb_true_r.
      change (len (@nil ptr) >? 0) with false. rewrite andb_false_r.
      apply wp_ret. exact HQ. }
    apply Hbal.
    apply Hcheck; [reflexivity|].
    apply wp_bind, wp_get_tree. cbn [tree st1]. rewrite Hroot.
    apply wp_bind, wp_deref.
    apply wp_bind. eapply wp_load; [exact Hp1|].
    rewrite L1. cbn [negb]. rewrite andb_false_r.
    apply wp_bind, wp_ret.
    apply wp_bind, wp_modify_tree.
    apply wp_bind, wp_get_tree. cbn [tree set_Tree_Size Root mem next_ptr st1].
    rewrite Hroot.
    apply Hcheck; [reflexivity|].
    cbn [mem next_ptr tree].
    split; [rewrite <- Hg; exact Hp1|].
    split; [intros q Hq; apply lookup_alter_ne; congruence|].
    split; reflexivity. }
  apply wp_elim in W. destruct W as ([] & st' & Hrun & HQ).
  exists st'. split; [exact Hrun|exact HQ].
Qed.

(** X13.  [Delete] of a key held by a tree that is a single leaf: where
    position [i] is the first whose key the comparator does not put below
    the probe, and it reports that key equal, the call returns, the leaf
    loses exactly the key and value at [i], its [Size] and [Tree.Size] go
    down by one, and nothing else changes; the root stays in place even when
    the leaf becomes empty. *)
Theorem Delete_from_leaf_root (f : nat) st r rn (i : nat) (k key : Z) :
  Root (tree st) = Some r -> mem st !! r = Some rn ->
  IsLeaf rn = true -> Children rn = [] -> Parent rn = None ->
  Size rn = len (Keys rn) -> len (Values rn) = len (Keys rn) ->
  len (Keys rn) < 2 ^ 62 ->
  Keys rn !! i = Some k -> Comparator (tree st) k key = 0 ->
  (forall m a, (m < i)%nat -> Keys rn !! m = Some a ->
               Comparator (tree st) a key < 0) ->
  exists st',
    Delete (S f) key st = Ok (tt, st') /\
    mem st' !! r
    = Some (set_Size (Size rn - 1)
              (set_Values (take i (Values rn) ++ drop (S i) (Values rn))
                 (set_Keys (take i (Keys rn) ++ drop (S i) (Keys rn)) rn))) /\
    (forall q, q <> r -> mem st' !! q = mem st !! q) /\
    next_ptr st' = next_ptr st /\
    tree st' = set_Tree_Size (wrap (Tree_Size (tree st) - 1)) (tree st).
Proof. apply Delete_leaf_root_run. Qed.

(** X14.  [Insert] and then [Delete] of the same key, on an empty tree,
    do not give the empty tree back: both calls return, the root stays the
    leaf that [Insert] allocated, now without keys, [Height] stays 1, and
    [Search] misses the key. *)
Theorem Insert_then_Delete_leaves_empty_leaf (f : nat) st (key : Z) (value : V) :
  Root (tree st) = None ->
  Comparator (tree st) key key = 0 ->
  exists st1 st2,
    Insert vnil (S f) key value st = Ok (tt, st1) /\
    Delete (S f) key st1 = Ok (tt, st2) /\
    Root (tree st2) = Some (next_ptr st) /\
    (exists n, mem st2 !! next_ptr st = Some n /\
               Keys n = [] /\ Values n = [] /\ Size n = 0 /\ IsLeaf n = true) /\
    Height (tree st2) = 1 /\
    Tree_Size (tree st2) = wrap (wrap (Tree_Size (tree st) + 1) - 1) /\
    Search vnil (S f) key st2 = Ok ((vnil, false), st2).
Proof.
  intros Hroot Hcmp.
  set (nd := mkNode [key] [] true None 1 (wrap (2 * Degree (tree st) - 1))
               (wrap (Degree (tree st) - 1)) [value]).
  set (st1 := mkState (<[next_ptr st := nd]> (mem st)) (Pos.succ (next_ptr st))
                (set_Height 1 (set_Tree_Size (wrap (Tree_Size (tree st) + 1))
                                 (set_Root (Some (next_ptr st)) (tree st))))).
  assert (Hrun1 : Insert vnil (S f) key value st = Ok (tt, st1)).
  { unfold Insert, bind, get_tree. rewrite Hroot. reflexivity. }
  assert (Hnd : mem st1 !! next_ptr st = Some nd)
    by (cbn [mem st1]; apply lookup_insert_eq).
  assert (Hlen : len (Keys nd) < 2 ^ 62) by (change (1 < 2 ^ 62); lia).
  assert (Hlt : forall m a, (m < 0)%nat -> Keys nd !! m = Some a ->
                  Comparator (tree st1) a key < 0) by (intros m a Hm; lia).
  destruct (Delete_leaf_root_run f st1 (next_ptr st) nd 0 key key
              eq_refl Hnd eq_refl eq_refl eq_refl eq_refl eq_refl Hlen
              eq_refl Hcmp Hlt)
    as (st2 & Hrun2 & Hnode & _ & _ & Htree).
  exists st1, st2.
  split; [exact Hrun1|]. split; [exact Hrun2|].
  rewrite Htree. cbn [tree st1 set_Tree_Size set_Height set_Root Root Height Tree_Size].
  split; [reflexivity|].
  split.
  { eexists. split; [exact Hnode|]. repeat split. }
  split; [reflexivity|]. split; [reflexivity|].
  unfold Search, bind, get_tree. rewrite Htree.
  cbn [tree st1 set_Tree_Size set_Height set_Root Root searchNode].
  unfold bind, get_tree, load. rewrite Hnode.
  cbn [set_Size set_Values set_Keys Keys Size IsLeaf nd take drop app scan_up].
  reflexivity.
Qed.

(** ** [Delete] of a key in a leaf that can spare one *)









End Cover.

(** ** pkg/logger and pkg/config *)

(** X15.  [ParseLevel] accepts exactly the four lower-case names, each with
    its level; on anything else it answers [Info] together with the error
    "invalid log level: " followed by the input. *)
Theorem ParseLevel_accepts_lower_case_names (s : string) :
  (s = "debug"%string /\ logger.ParseLevel s = (logger.Debug, None)) \/
  (s = "info"%string /\ logger.ParseLevel s = (logger.Info, None)) \/
  (s = "warn"%string /\ logger.ParseLevel s = (logger.Warn, None)) \/
  (s = "error"%string /\ logger.ParseLevel s = (logger.Error, None)) \/
  (s <> "debug"%string /\ s <> "info"%string /\ s <> "warn"%string /\
   s <> "error"%string /\
   logger.ParseLevel s = (logger.Info, Some ("invalid log level: " ++ s)%string)).
Proof.
  unfold logger.ParseLevel.
  destruct (String.eqb s "debug") eqn:E1;
    [apply String.eqb_eq in E1; auto|apply String.eqb_neq in E1].
  destruct (String.eqb s "info") eqn:E2;
    [apply String.eqb_eq in E2; auto|apply String.eqb_neq in E2].
  destruct (String.eqb s "warn") eqn:E3;
    [apply String.eqb_eq in E3; auto|apply String.eqb_neq in E3].
  destruct (String.eqb s "error") eqn:E4;
    [apply String.eqb_eq in E4; auto 6|apply String.eqb_neq in E4].
  right. right. right. right. auto.
Qed.

(** X16.  The name that [String] gives a level is never accepted by
    [ParseLevel]: the names are upper case ("UNKNOWN" for an integer that is
    no level) and the parser compares with lower-case names only. *)
Theorem ParseLevel_rejects_String (l : logger.Level) :
  logger.ParseLevel (logger.Level_String l)
  = (logger.Info, Some ("invalid log level: " ++ logger.Level_String l)%string).
Proof.
  unfold logger.Level_String.
  destruct (l =? logger.Debug); [reflexivity|].
  destruct (l =? logger.Info); [reflexivity|].
  destruct (l =? logger.Warn); [reflexivity|].
  destruct (l =? logger.Error); reflexivity.
Qed.

(** X17.  The level is a threshold: a logger that writes a line for
    [Debugf] writes one for [Infof], one that does for [Infof] does for
    [Warnf], one that does for [Warnf] does for [Errorf]; [Panicf] writes
    its line at every level. *)
Theorem log_level_is_a_threshold (l : logger.Logger) (msg : string) :
  (logger.lines (logger.Debugf l msg) <> logger.lines l ->
   logger.lines (logger.Infof l msg) = logger.lines l ++ [("[INFO] " ++ msg)%string]) /\
  (logger.lines (logger.Infof l msg) <> logger.lines l ->
   logger.lines (logger.Warnf l msg) = logger.lines l ++ [("[WARN] " ++ msg)%string]) /\
  (logger.lines (logger.Warnf l msg) <> logger.lines l ->
   logger.lines (logger.Errorf l msg) = logger.lines l ++ [("[ERROR] " ++ msg)%string]) /\
  logger.lines (fst (logger.Panicf l msg))
  = logger.lines l ++ [("PANIC: " ++ msg)%string].
Proof.
  unfold logger.Debugf, logger.Infof, logger.Warnf, logger.Errorf,
    logger.Debug, logger.Info, logger.Warn, logger.Error.
  repeat split.
  - destruct (logger.level l <=? 0) eqn:E; [|intros H; destruct H; reflexivity].
    intros _. apply Z.leb_le in E.
    destruct (logger.level l <=? 1) eqn:E'; [reflexivity|].
    apply Z.leb_gt in E'. lia.
  - destruct (logger.level l <=? 1) eqn:E; [|intros H; destruct H; reflexivity].
    intros _. apply Z.leb_le in E.
    destruct (logger.level l <=? 2) eqn:E'; [reflexivity|].
    apply Z.leb_gt in E'. lia.
  - destruct (logger.level l <=? 2) eqn:E; [|intros H; destruct H; reflexivity].
    intros _. apply Z.leb_le in E.
    destruct (logger.level l <=? 3) eqn:E'; [reflexivity|].
    apply Z.leb_gt in E'. lia.
Qed.

(** X18.  A configuration that [Load] returns can be handed to [NewTree] as
    it is, the way [main] does: its degree is at least 2, so [NewTree]
    returns a tree of that degree and does not panic. *)
Theorem Load_degree_suits_NewTree (atoi : string -> option Z)
    (getenv : string -> string) (cfg : config.Config) :
  config.Load atoi getenv = Ok cfg ->
  2 <= config.TreeDegree cfg /\
  NewTree (config.TreeDegree cfg)
  = Ok (mkTree None (config.TreeDegree cfg) 0 0 default_comparator).
Proof.
  intros H.
  assert (Hd : 2 <= config.TreeDegree cfg).
  { unfold config.Load in H.
    destruct (negb (String.eqb (getenv "TREE_DEGREE") "")).
    - destruct (atoi (getenv "TREE_DEGREE")) as [degree|]; [|discriminate].
      destruct (degree <? 2) eqn:E; [discriminate|]. apply Z.ltb_ge in E.
      destruct (negb (String.eqb (getenv "LOG_LEVEL") "")).
      + destruct (logger.ParseLevel (getenv "LOG_LEVEL")) as [lv [e|]];
          [discriminate|].
        destruct (negb (String.eqb (getenv "STORAGE_PATH") ""));
          injection H as <-; exact E.
      + destruct (negb (String.eqb (getenv "STORAGE_PATH") ""));
          injection H as <-; exact E.
    - destruct (negb (String.eqb (getenv "LOG_LEVEL") "")).
      + destruct (logger.ParseLevel (getenv "LOG_LEVEL")) as [lv [e|]];
          [discriminate|].
        destruct (negb (String.eqb (getenv "STORAGE_PATH") ""));
          injection H as <-; cbn; lia.
      + destruct (negb (String.eqb (getenv "STORAGE_PATH") ""));
          injection H as <-; cbn; lia. }
  split; [exact Hd|]. unfold NewTree.
  destruct (config.TreeDegree cfg <? 2) eqn:E; [|reflexivity].
  apply Z.ltb_lt in E. lia.
Qed.

(** X19.  [Load] fails in two cases only, and reports the first that
    applies: TREE_DEGREE is set and is not an integer or is below 2; or
    LOG_LEVEL is set and is none of the four level names.  A variable that
    is not set is never an error. *)
Theorem Load_fails_on_bad_degree_or_level (atoi : string -> option Z)
    (getenv : string -> string) :
  let bad_degree :=
    getenv "TREE_DEGREE" <> ""%string /\
    (atoi (getenv "TREE_DEGREE") = None \/
     exists degree, atoi (getenv "TREE_DEGREE") = Some degree /\ degree < 2) in
  let bad_level :=
    getenv "LOG_LEVEL" <> ""%string /\
    snd (logger.ParseLevel (getenv "LOG_LEVEL")) <> None in
  (bad_degree ->
   config.Load atoi getenv = Error (config.degree_error (getenv "TREE_DEGREE"))) /\
  (~ bad_degree -> bad_level ->
   config.Load atoi getenv = Error (config.level_error (getenv "LOG_LEVEL"))) /\
  (~ bad_degree -> ~ bad_level -> exists cfg, config.Load atoi getenv = Ok cfg).
Proof.
  cbv zeta. unfold config.Load.
  destruct (String.eqb (getenv "TREE_DEGREE") "") eqn:ED;
    [apply String.eqb_eq in ED|apply String.eqb_neq in ED]; cbn [negb].
  - (* TREE_DEGREE not set *)
    split; [intros [H _]; contradiction|].
    destruct (String.eqb (getenv "LOG_LEVEL") "") eqn:EL;
      [apply String.eqb_eq in EL|apply String.eqb_neq in EL]; cbn [negb].
    + split; [intros _ [H _]; contradiction|]. intros _ _.
      destruct (negb (String.eqb (getenv "STORAGE_PATH") "")); eauto.
    + destruct (logger.ParseLevel (getenv "LOG_LEVEL")) as [lv [e|]]; cbn [snd].
      * split; [reflexivity|]. intros _ H. exfalso. apply H. split; [exact EL|discriminate].
      * split; [intros _ [_ H]; contradiction|]. intros _ _.
        destruct (negb (String.eqb (getenv "STORAGE_PATH") "")); eauto.
  - destruct (atoi (getenv "TREE_DEGREE")) as [degree|] eqn:EA.
    + destruct (degree <? 2) eqn:E;
        [apply Z.ltb_lt in E|apply Z.ltb_ge in E].
      * split; [reflexivity|]. split.
        -- intros H. exfalso. apply H. split; [exact ED|]. right. eauto.
        -- intros H. exfalso. apply H. split; [exact ED|]. right. eauto.
      * assert (Hok : ~ (getenv "TREE_DEGREE" <> ""%string /\
                         (Some degree = None \/
                          exists degree0, Some degree = Some degree0 /\ degree0 < 2))).
        { intros [_ [H|(d0 & H1 & H2)]]; [discriminate|]. injection H1 as <-. lia. }
        split; [intros H; contradiction|].
        destruct (String.eqb (getenv "LOG_LEVEL") "") eqn:EL;
          [apply String.eqb_eq in EL|apply String.eqb_neq in EL]; cbn [negb].
        -- split; [intros _ [H _]; contradiction|]. intros _ _.
           destruct (negb (String.eqb (getenv "STORAGE_PATH") "")); eauto.
        -- destruct (logger.ParseLevel (getenv "LOG_LEVEL")) as [lv [e|]]; cbn [snd].
           ++ split; [reflexivity|]. intros _ H. exfalso. apply H.
              split; [exact EL|discriminate].
           ++ split; [intros _ [_ H]; contradiction|]. intros _ _.
              destruct (negb (String.eqb (getenv "STORAGE_PATH") "")); eauto.
    + split; [reflexivity|]. split.
      * intros H. exfalso. apply H. split; [exact ED|]. left. reflexivity.
      * intros H. exfalso. apply H. split; [exact ED|]. left. reflexivity.
Qed.

(** ** Witnesses *)

Lemma order_demo_facts :
  2 <= Degree (tree order_demo) /\ Degree (tree order_demo) < 2 ^ 62 /\
  tree_of order_demo = Some order_demo_tree /\
  wf_tree (Degree (tree order_demo)) (next_ptr order_demo) order_demo_tree = true /\
  (height order_demo_tree < fuel64)%nat /\
  ordered order_demo_tree /\
  Tree_Size (tree order_demo) = sum_sizes order_demo_tree /\
  Tree_Size (tree order_demo) < max_int.
Proof.
  split; [cbn; lia|]. split; [cbn; lia|].
  split; [vm_compute; reflexivity|]. split; [vm_compute; reflexivity|].
  split; [vm_compute; lia|].
  split; [unfold ordered; cbn; repeat constructor; lia|].
  split; [reflexivity|]. cbn. unfold max_int. lia.
Defined.

Lemma order_demo_agrees (key : Z) :
  small_key key ->
  Forall (agrees (Comparator (tree order_demo)) key) (keys_of order_demo_tree).
Proof.
  intros Hk. cbn.
  repeat constructor; apply default_comparator_agrees;
    solve [exact Hk | unfold small_key; lia].
Defined.

Lemma Insert_keeps_tree_well_formed_witness :
  (2 <= Degree (tree order_demo) /\ Degree (tree order_demo) < 2 ^ 62 /\
   tree_of order_demo = Some order_demo_tree /\
   wf_tree (Degree (tree order_demo)) (next_ptr order_demo) order_demo_tree = true /\
   (height order_demo_tree < fuel64)%nat) /\
  exists st' t',
    Insert nil_string fuel64 35 "z"%string order_demo = Ok (tt, st') /\
    tree_of st' = Some t' /\
    entries t' ≡ₚ (35, "z"%string) :: entries order_demo_tree.
Proof.
  destruct order_demo_facts as (H1 & H2 & H3 & H4 & H5 & _).
  split; [repeat (split; [assumption|]); assumption|].
  destruct (Insert_keeps_tree_well_formed nil_string fuel64 order_demo order_demo_tree
              35 "z"%string H1 H2 H3 H4 H5)
    as (st' & t' & R1 & R2 & _ & _ & _ & R6 & _).
  exists st', t'. repeat split; assumption.
Defined.

Lemma Insert_keeps_search_order_witness :
  (2 <= Degree (tree order_demo) /\ Degree (tree order_demo) < 2 ^ 62 /\
   tree_of order_demo = Some order_demo_tree /\
   wf_tree (Degree (tree order_demo)) (next_ptr order_demo) order_demo_tree = true /\
   (height order_demo_tree < fuel64)%nat /\
   ordered order_demo_tree /\
   Forall (agrees (Comparator (tree order_demo)) 35) (keys_of order_demo_tree)) /\
  exists st' t',
    Insert nil_string fuel64 35 "z"%string order_demo = Ok (tt, st') /\
    tree_of st' = Some t' /\ ordered t'.
Proof.
  destruct order_demo_facts as (H1 & H2 & H3 & H4 & H5 & H6 & _).
  assert (H7 : Forall (agrees (Comparator (tree order_demo)) 35)
                 (keys_of order_demo_tree))
    by (apply order_demo_agrees; unfold small_key; lia).
  split; [repeat (split; [assumption|]); assumption|].
  destruct (Insert_keeps_search_order nil_string fuel64 order_demo order_demo_tree
              35 "z"%string H1 H2 H3 H4 H5 H6 H7)
    as (st' & t' & R1 & R2 & R3 & _).
  exists st', t'. repeat split; assumption.
Defined.


Lemma inserted_keys_are_found_witness :
  (2 <= 2 /\ 2 < 2 ^ 62 /\
   Forall small_key (map fst [(1, "a"); (2, "b"); (3, "c")]%string) /\
   NoDup (map fst [(1, "a"); (2, "b"); (3, "c")]%string) /\
   (length [(1, "a"); (2, "b"); (3, "c")]%string < fuel64)%nat /\
   len [(1, "a"); (2, "b"); (3, "c")]%string <= max_int) /\
  exists tr st,
    NewTree 2 = Ok tr /\
    run nil_string fuel64 (insert_all [(1, "a"); (2, "b"); (3, "c")]%string)
        (init_state tr) = Ok (tt, st) /\
    Tree_Size (tree st) = 3 /\
    Search nil_string fuel64 2 st = Ok (("b"%string, true), st).
Proof.
  assert (H1 : 2 <= 2) by lia.
  assert (H2 : 2 < 2 ^ 62) by lia.
  assert (H3 : Forall small_key (map fst [(1, "a"); (2, "b"); (3, "c")]%string))
    by (cbn; repeat constructor; unfold small_key; lia).
  assert (H4 : NoDup (map fst [(1, "a"); (2, "b"); (3, "c")]%string))
    by (cbn; repeat constructor; rewrite list_elem_of_In; cbn; intuition discriminate).
  assert (H5 : (length [(1, "a"); (2, "b"); (3, "c")]%string < fuel64)%nat)
    by (vm_compute; lia).
  assert (H6 : len [(1, "a"); (2, "b"); (3, "c")]%string <= max_int)
    by (unfold max_int, len; cbn [length]; lia).
  split; [repeat (split; [assumption|]); assumption|].
  destruct (inserted_keys_are_found nil_string 2 fuel64
              [(1, "a"); (2, "b"); (3, "c")]%string H1 H2 H3 H4 H5 H6)
    as (tr & st & R1 & R2 & R3 & R4).
  exists tr, st. split; [exact R1|]. split; [exact R2|]. split; [exact R3|].
  apply R4. right. left. reflexivity.
Defined.

Lemma Insert_keeps_size_sum_witness :
  (2 <= Degree (tree order_demo) /\ Degree (tree order_demo) < 2 ^ 62 /\
   tree_of order_demo = Some order_demo_tree /\
   wf_tree (Degree (tree order_demo)) (next_ptr order_demo) order_demo_tree = true /\
   (height order_demo_tree < fuel64)%nat /\
   Tree_Size (tree order_demo) = sum_sizes order_demo_tree /\
   Tree_Size (tree order_demo) < max_int) /\
  exists st' t',
    Insert nil_string fuel64 35 "z"%string order_demo = Ok (tt, st') /\
    tree_of st' = Some t' /\
    Tree_Size (tree st') = sum_sizes t'.
Proof.
  destruct order_demo_facts as (H1 & H2 & H3 & H4 & H5 & _ & H7 & H8).
  split; [repeat (split; [assumption|]); assumption|].
  apply (Insert_keeps_size_sum nil_string fuel64 order_demo order_demo_tree
           35 "z"%string H1 H2 H3 H4 H5 H7 H8).
Defined.

Lemma Search_returns_and_reads_only_witness :
  (tree_of order_demo = Some order_demo_tree /\
   wf_tree 2 (next_ptr order_demo) order_demo_tree = true /\
   (height order_demo_tree <= fuel64)%nat) /\
  exists r, Search nil_string fuel64 30 order_demo = Ok (r, order_demo).
Proof.
  destruct order_demo_facts as (_ & _ & H3 & H4 & H5 & _).
  assert (H5' : (height order_demo_tree <= fuel64)%nat) by lia.
  split; [repeat (split; [assumption|]); assumption|].
  destruct (Search_returns_and_reads_only nil_string 2 fuel64 order_demo
              order_demo_tree 30 H3 H4 H5') as (r & R1 & _).
  exists r. exact R1.
Defined.




Lemma checkInvariants_tests_child_counts_witness :
  (tree_of order_demo = Some order_demo_tree /\
   (height order_demo_tree <= fuel64)%nat) /\
  checkInvariants fuel64 (Root (tree order_demo)) order_demo = Ok (tt, order_demo).
Proof.
  destruct order_demo_facts as (_ & _ & H3 & _ & H5 & _).
  assert (H5' : (height order_demo_tree <= fuel64)%nat) by lia.
  split; [split; assumption|].
  exact (checkInvariants_tests_child_counts fuel64 order_demo order_demo_tree H3 H5').
Defined.

Lemma ValidateTree_decides_validity_witness :
  (tree_of order_demo = Some order_demo_tree /\
   (height order_demo_tree <= fuel64)%nat /\
   all_nodes (fun n => Size n <=? len (Keys n)) order_demo_tree = true) /\
  ValidateTree fuel64 order_demo
  = Ok (keys_valid (Comparator (tree order_demo)) true order_demo_tree
        && parents_ok (mem order_demo) order_demo_tree, order_demo).
Proof.
  destruct order_demo_facts as (_ & _ & H3 & _ & H5 & _).
  assert (H5' : (height order_demo_tree <= fuel64)%nat) by lia.
  assert (H6 : all_nodes (fun n => Size n <=? len (Keys n)) order_demo_tree = true)
    by (vm_compute; reflexivity).
  split; [repeat (split; [assumption|]); assumption|].
  exact (ValidateTree_decides_validity fuel64 order_demo order_demo_tree H3 H5' H6).
Defined.

Lemma RebuildParentPointers_links_children_witness :
  (tree_of loaded_demo = Some loaded_demo_tree /\
   wf_tree 2 (next_ptr loaded_demo) loaded_demo_tree = true /\
   (height loaded_demo_tree <= fuel64)%nat) /\
  exists st',
    RebuildParentPointers fuel64 loaded_demo = Ok (tt, st') /\
    parents_ok (mem loaded_demo) loaded_demo_tree = false /\
    parents_ok (mem st') loaded_demo_tree = true.
Proof.
  assert (H1 : tree_of loaded_demo = Some loaded_demo_tree)
    by (vm_compute; reflexivity).
  assert (H2 : wf_tree 2 (next_ptr loaded_demo) loaded_demo_tree = true)
    by (vm_compute; reflexivity).
  assert (H3 : (height loaded_demo_tree <= fuel64)%nat) by (vm_compute; lia).
  split; [repeat (split; [assumption|]); assumption|].
  destruct (RebuildParentPointers_links_children 2 fuel64 loaded_demo
              loaded_demo_tree H1 H2 H3) as (st' & R1 & _ & _ & _ & R5 & _).
  exists st'. split; [exact R1|]. split; [vm_compute; reflexivity|exact R5].
Defined.

Lemma ValidateTree_after_rebuild_witness :
  (tree_of loaded_demo = Some loaded_demo_tree /\
   wf_tree 2 (next_ptr loaded_demo) loaded_demo_tree = true /\
   (height loaded_demo_tree <= fuel64)%nat) /\
  exists st',
    RebuildParentPointers fuel64 loaded_demo = Ok (tt, st') /\
    ValidateTree fuel64 st' = Ok (true, st').
Proof.
  assert (H1 : tree_of loaded_demo = Some loaded_demo_tree)
    by (vm_compute; reflexivity).
  assert (H2 : wf_tree 2 (next_ptr loaded_demo) loaded_demo_tree = true)
    by (vm_compute; reflexivity).
  assert (H3 : (height loaded_demo_tree <= fuel64)%nat) by (vm_compute; lia).
  split; [repeat (split; [assumption|]); assumption|].
  exact (ValidateTree_after_rebuild 2 fuel64 loaded_demo loaded_demo_tree H1 H2 H3).
Defined.

Lemma Delete_from_leaf_root_witness :
  (Root (tree dup_demo) = Some 1%positive /\
   mem dup_demo !! 1%positive = Some dup_demo_root /\
   IsLeaf dup_demo_root = true /\ Children dup_demo_root = [] /\
   Parent dup_demo_root = None /\
   Size dup_demo_root = len (Keys dup_demo_root) /\
   len (Values dup_demo_root) = len (Keys dup_demo_root) /\
   len (Keys dup_demo_root) < 2 ^ 62 /\
   Keys dup_demo_root !! 1%nat = Some 20 /\
   Comparator (tree dup_demo) 20 20 = 0 /\
   (forall m a, (m < 1)%nat -> Keys dup_demo_root !! m = Some a ->
                Comparator (tree dup_demo) a 20 < 0)) /\
  exists st',
    Delete fuel64 20 dup_demo = Ok (tt, st') /\
    mem st' !! 1%positive
    = Some (mkNode [10; 30] [] true None 2 3 1 ["a"; "c"]%string).
Proof.
  assert (H1 : Root (tree dup_demo) = Some 1%positive) by reflexivity.
  assert (H2 : mem dup_demo !! 1%positive = Some dup_demo_root)
    by (vm_compute; reflexivity).
  assert (H8 : len (Keys dup_demo_root) < 2 ^ 62) by (change (3 < 2 ^ 62); lia).
  assert (H10 : Comparator (tree dup_demo) 20 20 = 0) by (vm_compute; reflexivity).
  assert (H11 : forall m a, (m < 1)%nat -> Keys dup_demo_root !! m = Some a ->
                  Comparator (tree dup_demo) a 20 < 0).
  { intros m a Hm. destruct m as [|m]; [|lia]. intros [= <-]. vm_compute. reflexivity. }
  split.
  { repeat (split; [first [assumption|reflexivity]|]). exact H11. }
  destruct (Delete_from_leaf_root 63 dup_demo 1%positive dup_demo_root 1 20 20
              H1 H2 eq_refl eq_refl eq_refl eq_refl eq_refl H8 eq_refl H10 H11)
    as (st' & R1 & R2 & _).
  exists st'. split; [exact R1|exact R2].
Defined.

Lemma Insert_then_Delete_leaves_empty_leaf_witness :
  (Root (tree (init_state (V := string) tree2)) = None /\
   Comparator (tree (init_state (V := string) tree2)) 7 7 = 0) /\
  exists st1 st2,
    Insert nil_string fuel64 7 "x"%string (init_state tree2) = Ok (tt, st1) /\
    Delete fuel64 7 st1 = Ok (tt, st2) /\
    Root (tree st2) = Some 1%positive /\
    Height (tree st2) = 1.
Proof.
  assert (H1 : Root (tree (init_state (V := string) tree2)) = None) by reflexivity.
  assert (H2 : Comparator (tree (init_state (V := string) tree2)) 7 7 = 0)
    by (vm_compute; reflexivity).
  split; [split; assumption|].
  destruct (Insert_then_Delete_leaves_empty_leaf nil_string 63
              (init_state tree2) 7 "x"%string H1 H2)
    as (st1 & st2 & R1 & R2 & R3 & _ & R5 & _).
  exists st1, st2. repeat split; assumption.
Defined.

Lemma Load_degree_suits_NewTree_witness :
  config.Load (fun _ => None) (fun _ => ""%string)
  = Ok (config.mkConfig 3 logger.Info "data/tree.json") /\
  2 <= 3 /\
  NewTree 3 = Ok (mkTree None 3 0 0 default_comparator).
Proof.
  assert (H : config.Load (fun _ => None) (fun _ => ""%string)
              = Ok (config.mkConfig 3 logger.Info "data/tree.json")) by reflexivity.
  split; [exact H|].
  exact (Load_degree_suits_NewTree (fun _ => None) (fun _ => ""%string)
           (config.mkConfig 3 logger.Info "data/tree.json") H).
Defined.

Lemma Delete_absent_key_decrements_size_witness :
  (2 <= Degree (tree order_demo) /\ Degree (tree order_demo) < 2 ^ 62 /\
   tree_of order_demo = Some order_demo_tree /\
   wf_tree (Degree (tree order_demo)) (next_ptr order_demo) order_demo_tree = true /\
   (height order_demo_tree <= fuel64)%nat /\
   (IsLeaf (node_of order_demo_tree) = false -> Size (node_of order_demo_tree) <> 0) /\
   ordered order_demo_tree /\
   Forall (agrees (Comparator (tree order_demo)) 25) (keys_of order_demo_tree) /\
   ~ In 25 (keys_of order_demo_tree)) /\
  Delete fuel64 25 order_demo
  = Ok (tt, mkState (mem order_demo) (next_ptr order_demo)
              (set_Tree_Size (wrap (Tree_Size (tree order_demo) - 1))
                 (tree order_demo))).
Proof.
  destruct order_demo_facts as (H1 & H2 & H3 & H4 & H5 & H6 & _).
  assert (H5' : (height order_demo_tree <= fuel64)%nat) by lia.
  assert (H7 : IsLeaf (node_of order_demo_tree) = false ->
               Size (node_of order_demo_tree) <> 0) by (intros _; cbn; lia).
  assert (H8 : Forall (agrees (Comparator (tree order_demo)) 25)
                 (keys_of order_demo_tree))
    by (apply order_demo_agrees; unfold small_key; lia).
  assert (H9 : ~ In 25 (keys_of order_demo_tree)) by (cbn; intuition discriminate).
  split; [repeat (split; [assumption|]); assumption|].
  exact (Delete_absent_key_decrements_size nil_string fuel64 order_demo
           order_demo_tree 25 H1 H2 H3 H4 H5' H7 H6 H8 H9).
Defined.




(** * balance.go: borrowing and merging keep the symmetric order *)

Section Balance.
Context {V : Type} (vnil : V).
Implicit Types (st : @state V) (t a b : @btree V) (n pn an bn : @Node V).
Implicit Types (p q : ptr).

(** [modify], by what the new state is known to satisfy. *)
Lemma wp_modify_frame p (f : @Node V -> @Node V) n (Q : unit -> @state V -> Prop) st :
  mem st !! p = Some n ->
  (forall st', mem st' !! p = Some (f n) ->
               (forall q, q <> p -> mem st' !! q = mem st !! q) ->
               next_ptr st' = next_ptr st -> tree st' = tree st -> Q tt st') ->
  wp (modify p f) Q st.
Proof.
  intros Hp H. eapply wp_modify; [exact Hp|]. apply H; cbn [mem next_ptr tree].
  - rewrite lookup_alter_eq, Hp. reflexivity.
  - intros q Hq. apply lookup_alter_ne. congruence.
  - reflexivity.
  - reflexivity.
Qed.

Lemma rotate_right_entries {A} (L1 L2 : list (list A)) (Z1 Z2 : list A)
    (ea eb ea' eb' X : list A) (s r : A) :
  length L1 = length Z1 ->
  ea' = ea ++ s :: X -> eb = X ++ r :: eb' ->
  interleave (L1 ++ ea' :: eb' :: L2) (Z1 ++ r :: Z2)
  = interleave (L1 ++ ea :: eb :: L2) (Z1 ++ s :: Z2).
Proof.
  intros HL -> ->. rewrite !interleave_app by exact HL.
  f_equal. cbn [interleave]. rewrite <- ?app_assoc. cbn [app].
  rewrite <- ?app_assoc. reflexivity.
Qed.

Ltac mem_solve := rewrite ?elem_of_app, ?elem_of_cons; intuition auto.

Lemma siblings_facts d (h : gmap ptr (@Node V)) p pn ls1 a b ls2 :
  rep h (BNode p pn (ls1 ++ a :: b :: ls2)) ->
  shape_ok d (BNode p pn (ls1 ++ a :: b :: ls2)) = true ->
  NoDup (ptrs (BNode p pn (ls1 ++ a :: b :: ls2))) ->
  exists pn0 an0 bn0,
    h !! p = Some pn0 /\ erase pn0 = pn /\
    h !! root_of a = Some an0 /\ erase an0 = node_of a /\
    h !! root_of b = Some bn0 /\ erase bn0 = node_of b /\
    node_facts d pn0 /\ IsLeaf pn0 = false /\
    Children pn0 = map root_of (ls1 ++ a :: b :: ls2) /\
    (length (Keys pn0) = length ls1 + 1 + length ls2)%nat /\
    Forall (rep h) ls1 /\ Forall (rep h) ls2 /\
    Forall (rep h) (kids_of a) /\ Forall (rep h) (kids_of b) /\
    Forall (fun k => shape_ok d k = true) ls1 /\
    Forall (fun k => shape_ok d k = true) ls2 /\
    shape_ok d a = true /\ shape_ok d b = true /\
    p <> root_of a /\ p <> root_of b /\ root_of a <> root_of b /\
    (forall q, In q (flat_map ptrs ls1) \/ In q (flat_map ptrs ls2) \/
               In q (flat_map ptrs (kids_of a)) \/ In q (flat_map ptrs (kids_of b)) ->
               q <> p /\ q <> root_of a /\ q <> root_of b).
Proof.
  intros Hrep Hshape Hnd.
  apply shape_ok_node in Hshape. destruct Hshape as (Hn & Hl & Hi & Hk).
  inversion Hrep as [p0 n0 pn0 kids0 Hp He Hrk]. subst p0 n0 kids0 pn.
  apply (proj1 (node_facts_erase _ _)) in Hn.
  cbn [erase set_Parent IsLeaf Children] in Hi, Hl.
  assert (L : IsLeaf pn0 = false).
  { destruct (IsLeaf pn0); [|reflexivity]. specialize (Hl eq_refl).
    destruct ls1; discriminate. }
  specialize (Hi L).
  apply Forall_app in Hrk. destruct Hrk as [Hr1 Hr2].
  apply Forall_cons in Hr2. destruct Hr2 as [Hra Hr2].
  apply Forall_cons in Hr2. destruct Hr2 as [Hrb Hr2].
  apply Forall_app in Hk. destruct Hk as [Hk1 Hk2].
  apply Forall_cons in Hk2. destruct Hk2 as [Hsa Hk2].
  apply Forall_cons in Hk2. destruct Hk2 as [Hsb Hk2].
  destruct a as [pa an ka]. destruct b as [pb bn kb].
  inversion Hra as [pa0 n0 an0 ka0 Hpa Hea Hrka]. subst pa0 n0 ka0.
  inversion Hrb as [pb0 n0 bn0 kb0 Hpb Heb Hrkb]. subst pb0 n0 kb0.
  cbn [root_of node_of kids_of].
  exists pn0, an0, bn0.
  cbn [ptrs] in Hnd. rewrite flat_map_app in Hnd. cbn [flat_map ptrs] in Hnd.
  assert (Hlen : (length (Keys pn0) = length ls1 + 1 + length ls2)%nat).
  { destruct Hn as [N1 N2 N3 N4 N5 N6 N7]. specialize (N7 L).
    rewrite <- Hi in N7. unfold len in N7, N1.
    rewrite length_map, length_app in N7. cbn [length] in N7. lia. }
  apply NoDup_cons in Hnd. destruct Hnd as [Hp0 Hnd].
  apply NoDup_app in Hnd. destruct Hnd as (_ & H1 & Hnd).
  apply NoDup_app in Hnd. destruct Hnd as (Hnda & H2 & Hnd).
  apply NoDup_app in Hnd. destruct Hnd as (Hndb & H3 & _).
  apply NoDup_cons in Hnda. destruct Hnda as [Hpa0 _].
  apply NoDup_cons in Hndb. destruct Hndb as [Hpb0 _].
  repeat (split; [first [assumption|reflexivity|symmetry; assumption]|]).
  split; [intros ->; apply Hp0; mem_solve|].
  split; [intros ->; apply Hp0; mem_solve|].
  split; [intros ->; apply (H2 pb); mem_solve|].
  intros q Hq. rewrite <- !list_elem_of_In in Hq.
  split; [intros ->; apply Hp0; mem_solve|].
  split; intros ->.
  - destruct Hq as [Hq|[Hq|[Hq|Hq]]].
    + apply (H1 _ Hq). mem_solve.
    + apply (H2 pa); mem_solve.
    + apply Hpa0, Hq.
    + apply (H2 pa); mem_solve.
  - destruct Hq as [Hq|[Hq|[Hq|Hq]]].
    + apply (H1 _ Hq). mem_solve.
    + apply (H3 pb); mem_solve.
    + apply (H2 pb); mem_solve.
    + apply Hpb0, Hq.
Qed.

Lemma borrowFromRightSibling_wp d st p pn ls1 a b ls2 :
  d < 2 ^ 62 ->
  rep (mem st) (BNode p pn (ls1 ++ a :: b :: ls2)) ->
  shape_ok d (BNode p pn (ls1 ++ a :: b :: ls2)) = true ->
  NoDup (ptrs (BNode p pn (ls1 ++ a :: b :: ls2))) ->
  IsLeaf (node_of a) = IsLeaf (node_of b) ->
  1 <= Size (node_of b) ->
  Size (node_of a) < 2 * d - 1 ->
  wp (borrowFromRightSibling p (len ls1))
     (fun _ st' => exists pn' a' b',
        tree st' = tree st /\ next_ptr st' = next_ptr st /\
        rep (mem st') (BNode p pn' (ls1 ++ a' :: b' :: ls2)) /\
        shape_ok d (BNode p pn' (ls1 ++ a' :: b' :: ls2)) = true /\
        entries (BNode p pn' (ls1 ++ a' :: b' :: ls2))
        = entries (BNode p pn (ls1 ++ a :: b :: ls2)) /\
        root_of a' = root_of a /\ root_of b' = root_of b /\
        Size (node_of a') = Size (node_of a) + 1 /\
        Size (node_of b') = Size (node_of b) - 1 /\
        ptrs (BNode p pn' (ls1 ++ a' :: b' :: ls2))
        ≡ₚ ptrs (BNode p pn (ls1 ++ a :: b :: ls2)) /\
        (forall q, ~ In q (ptrs (BNode p pn (ls1 ++ a :: b :: ls2))) ->
                   mem st' !! q = mem st !! q)) st.
Proof.
  intros Hd Hrep Hshape Hnd Hleaf Hb1 Ha1.
  destruct (siblings_facts d (mem st) p pn ls1 a b ls2 Hrep Hshape Hnd)
    as (pn0 & an0 & bn0 & Hp & Hep & Hpa & Hea & Hpb & Heb & Hnf & L & Hch & Hlen
        & Hr1 & Hr2 & Hrka & Hrkb & Hk1 & Hk2 & Hsa & Hsb & Dpa & Dpb & Dab & Hdis).
  destruct a as [pa an ka]. destruct b as [pb bn kb].
  cbn [root_of node_of kids_of] in *. subst pn an bn.
  cbn [erase set_Parent IsLeaf Size] in Hleaf, Hb1, Ha1.
  apply shape_ok_node in Hsa. destruct Hsa as (Af & Ala & Aia & Aka).
  apply shape_ok_node in Hsb. destruct Hsb as (Bf & Bla & Bia & Bka).
  apply (proj1 (node_facts_erase _ _)) in Af, Bf.
  cbn [erase set_Parent IsLeaf Children] in Ala, Aia, Bla, Bia.
  destruct Hnf as [N1 N2 N3 N4 N5 N6 N7].
  destruct Af as [A1 A2 A3 A4 A5 A6 A7].
  destruct Bf as [B1 B2 B3 B4 B5 B6 B7].
  pose proof (len_nonneg (Keys pn0)) as HK.
  set (i := length ls1) in *.
  assert (Hi : len ls1 = Z.of_nat i) by reflexivity.
  assert (Hka : Children pn0 !! i = Some pa).
  { rewrite Hch, map_app. rewrite lookup_app_r by (rewrite length_map; unfold i; lia).
    rewrite length_map. unfold i. rewrite Nat.sub_diag. reflexivity. }
  assert (Hkb : Children pn0 !! S i = Some pb).
  { rewrite Hch, map_app. rewrite lookup_app_r by (rewrite length_map; unfold i; lia).
    rewrite length_map. unfold i.
    replace (S (length ls1) - length ls1)%nat with 1%nat by lia. reflexivity. }
  destruct (lookup_lt_is_Some_2 (Keys pn0) i) as [sk Hsk]; [lia|].
  destruct (lookup_lt_is_Some_2 (Values pn0) i) as [sv Hsv]; [unfold len in *; lia|].
  destruct (Keys bn0) as [|rk rks] eqn:EKb; [unfold len in *; cbn in *; lia|].
  destruct (Values bn0) as [|rv rvs] eqn:EVb; [unfold len in *; cbn in *; lia|].
  unfold borrowFromRightSibling. rewrite Hi.
  apply wp_bind. eapply wp_load; [exact Hp|].
  apply wp_bind. eapply wp_index; [lia|rewrite Nat2Z.id; exact Hka|].
  rewrite (d_wrap d Hd (Z.of_nat i + 1)) by (unfold len in *; lia).
  apply wp_bind. eapply wp_index; [lia| |].
  { replace (Z.to_nat (Z.of_nat i + 1)) with (S i) by lia. exact Hkb. }
  apply wp_bind. eapply wp_load; [exact Hp|].
  apply wp_bind. eapply wp_index; [lia|rewrite Nat2Z.id; exact Hsk|].
  apply wp_bind. eapply wp_index; [lia|rewrite Nat2Z.id; exact Hsv|].
  apply wp_bind. eapply wp_modify_frame; [exact Hpa|]. intros st1 Hpa1 F1 X1 T1.
  assert (Hp1 : mem st1 !! p = Some pn0) by (rewrite F1 by congruence; exact Hp).
  assert (Hpb1 : mem st1 !! pb = Some bn0) by (rewrite F1 by congruence; exact Hpb).
  apply wp_bind. eapply wp_load; [exact Hpb1|]. rewrite EKb.
  apply wp_bind. eapply wp_index; [lia|reflexivity|].
  apply wp_bind. eapply wp_load; [exact Hp1|].
  apply wp_bind. apply wp_set_index; [unfold len in *; lia|]. rewrite Nat2Z.id.
  apply wp_bind. eapply wp_modify_frame; [exact Hp1|]. intros st2 Hp2 F2 X2 T2.
  assert (Hpa2 : mem st2 !! pa = Some _) by (rewrite F2 by congruence; exact Hpa1).
  assert (Hpb2 : mem st2 !! pb = Some bn0) by (rewrite F2 by congruence; exact Hpb1).
  apply wp_bind. eapply wp_load; [exact Hpb2|]. rewrite EVb.
  apply wp_bind. eapply wp_index; [lia|reflexivity|].
  apply wp_bind. eapply wp_load; [exact Hp2|].
  apply wp_bind. apply wp_set_index; [cbn [set_Keys Values]; unfold len in *; lia|].
  rewrite Nat2Z.id.
  apply wp_bind. eapply wp_modify_frame; [exact Hp2|]. intros st3 Hp3 F3 X3 T3.
  assert (Hpa3 : mem st3 !! pa = Some _) by (rewrite F3 by congruence; exact Hpa2).
  assert (Hpb3 : mem st3 !! pb = Some bn0) by (rewrite F3 by congruence; exact Hpb2).
  apply wp_bind. eapply wp_load; [exact Hpb3|]. rewrite EKb, EVb.
  apply wp_bind. apply wp_slice_from; [rewrite len_cons; pose proof (len_nonneg rks); lia|].
  apply wp_bind. apply wp_slice_from; [rewrite len_cons; pose proof (len_nonneg rvs); lia|].
  change (Z.to_nat 1) with 1%nat. cbn [drop].
  apply wp_bind. eapply wp_modify_frame; [exact Hpb3|]. intros st4 Hpb4 F4 X4 T4.
  assert (Hpa4 : mem st4 !! pa = Some _) by (rewrite F4 by congruence; exact Hpa3).
  assert (Hp4 : mem st4 !! p = Some _) by (rewrite F4 by congruence; exact Hp3).
  apply wp_bind. eapply wp_load; [exact Hpa4|].
  cbn [set_Size set_Values set_Keys IsLeaf].
  cbn [drop] in Hpb4. cbn [set_Keys Values] in Hp3, Hp4.
  rewrite (d_wrap d Hd (Size an0 + 1)) in *
    by (pose proof (len_nonneg (Keys an0)); lia).
  rewrite (d_wrap d Hd (Size bn0 - 1)) in * by lia.
  pose proof (len_nonneg (Keys an0)) as HKa.
  rewrite !len_cons in B1, B2.
  pose proof (len_nonneg rks) as HKb.
  set (t := BNode p (erase pn0)
              (ls1 ++ BNode pa (erase an0) ka :: BNode pb (erase bn0) kb :: ls2)) in *.
  assert (Hkeep : forall h' : gmap ptr (@Node V),
            (forall q, q <> p -> q <> pa -> q <> pb ->
                       erase <$> h' !! q = erase <$> mem st !! q) ->
            forall ks, (forall q, In q (flat_map ptrs ks) ->
                          q <> p /\ q <> pa /\ q <> pb) ->
                       Forall (rep (mem st)) ks -> Forall (rep h') ks).
  { intros h' E ks Hks Hr. rewrite Forall_forall in Hr. apply Forall_forall.
    intros k Hk. apply (rep_ext (mem st)); [apply Hr, Hk|].
    intros q Hq. destruct (Hks q) as (Q1 & Q2 & Q3).
    - apply in_flat_map. exists k. split; [apply list_elem_of_In, Hk|exact Hq].
    - apply E; assumption. }
  assert (Hpar : node_facts d
            (erase (set_Values (<[i:=rv]> (Values pn0))
                      (set_Keys (<[i:=rk]> (Keys pn0)) pn0)))).
  { apply node_facts_erase. split;
      cbn [set_Values set_Keys Keys Values Children IsLeaf Size MaxKeys MinKeys];
      unfold len in *; rewrite ?length_insert; auto. }
  assert (HKs : <[i:=rk]> (Keys pn0) = take i (Keys pn0) ++ rk :: drop (S i) (Keys pn0)
                /\ Keys pn0 = take i (Keys pn0) ++ sk :: drop (S i) (Keys pn0)
                /\ <[i:=rv]> (Values pn0)
                   = take i (Values pn0) ++ rv :: drop (S i) (Values pn0)
                /\ Values pn0 = take i (Values pn0) ++ sv :: drop (S i) (Values pn0)).
  { split; [apply insert_take_drop; lia|].
    split; [symmetry; apply take_drop_middle; exact Hsk|].
    split; [apply insert_take_drop; unfold len in *; lia|].
    symmetry; apply take_drop_middle; exact Hsv. }
  destruct HKs as (EK' & EK & EV' & EV).
  assert (Hent : forall ea eb ea' eb' X,
            ea' = ea ++ (sk, sv) :: X -> eb = X ++ (rk, rv) :: eb' ->
            interleave (map entries ls1 ++ ea' :: eb' :: map entries ls2)
              (zip (<[i:=rk]> (Keys pn0)) (<[i:=rv]> (Values pn0)))
            = interleave (map entries ls1 ++ ea :: eb :: map entries ls2)
                (zip (Keys pn0) (Values pn0))).
  { intros ea eb ea' eb' X E1 E2.
    assert (HL1 : length (take i (Keys pn0)) = i) by (rewrite length_take; lia).
    assert (HL2 : length (take i (Values pn0)) = i)
      by (rewrite length_take; unfold len in *; lia).
    revert EK' EK EV' EV HL1 HL2.
    generalize (take i (Keys pn0)) (drop (S i) (Keys pn0))
               (take i (Values pn0)) (drop (S i) (Values pn0)).
    intros K1 K2 V1 V2 EK' EK EV' EV HL1 HL2.
    rewrite EK', EV', EK, EV.
    rewrite !zip_app_same by lia.
    cbn [zip zip_with].
    apply (rotate_right_entries _ _ _ _ ea eb ea' eb' X); [|exact E1|exact E2].
    rewrite length_map, length_zip. unfold i in *. lia. }
  assert (Hframe : forall q, q <> p -> q <> pa -> q <> pb ->
                             mem st4 !! q = mem st !! q).
  { intros q Q1 Q2 Q3. rewrite F4, F3, F2, F1 by assumption. reflexivity. }
  assert (Hout : forall q, ~ In q (ptrs t) -> q <> p /\ q <> pa /\ q <> pb).
  { intros q Hq. unfold t in Hq. cbn [ptrs] in Hq. rewrite flat_map_app in Hq.
    cbn [flat_map ptrs] in Hq. repeat split; intros ->; apply Hq.
    - left. reflexivity.
    - right. apply in_app_iff. right. left. reflexivity.
    - right. apply in_app_iff. right. apply in_app_iff. right. left. reflexivity. }
  destruct (IsLeaf an0) eqn:La.
  - (* leaves: only keys and values move *)
    specialize (Ala eq_refl). symmetry in Hleaf. specialize (Bla Hleaf).
    specialize (A6 eq_refl). specialize (B6 Hleaf). subst ka kb.
    apply wp_ret.
    exists (erase (set_Values (<[i:=rv]> (Values pn0))
                     (set_Keys (<[i:=rk]> (Keys pn0)) pn0))),
      (BNode pa (erase (set_Size (Size an0 + 1)
                          (set_Values (Values an0 ++ [sv])
                             (set_Keys (Keys an0 ++ [sk]) an0)))) []),
      (BNode pb (erase (set_Size (Size bn0 - 1)
                          (set_Values rvs (set_Keys rks bn0)))) []).
    cbn [root_of node_of].
    split; [congruence|]. split; [congruence|].
    assert (E : forall q, q <> p -> q <> pa -> q <> pb ->
                  erase <$> mem st4 !! q = erase <$> mem st !! q).
    { intros q Q1 Q2 Q3. rewrite Hframe by assumption. reflexivity. }
    split.
    { eapply rep_node; [exact Hp4|reflexivity|].
      apply Forall_app. split.
      { apply (Hkeep _ E); [|exact Hr1]. intros q Hq. apply Hdis. auto. }
      constructor; [eapply rep_node; [exact Hpa4|reflexivity|constructor]|].
      constructor; [eapply rep_node; [exact Hpb4|reflexivity|constructor]|].
      apply (Hkeep _ E); [|exact Hr2]. intros q Hq. apply Hdis. auto. }
    split.
    { apply shape_ok_node. split; [exact Hpar|].
      split; [cbn; congruence|]. split; [intros _; rewrite !map_app; cbn; rewrite Hch, !map_app; reflexivity|].
      apply Forall_app. split; [exact Hk1|].
      constructor.
      { apply shape_ok_node. split; [|split; [reflexivity|split; [cbn; congruence|constructor]]].
        apply node_facts_erase. split;
          cbn [set_Size set_Values set_Keys Keys Values Children IsLeaf Size MaxKeys MinKeys];
          rewrite ?len_app; unfold len in *; cbn [length]; auto; try lia; congruence. }
      constructor; [|exact Hk2].
      apply shape_ok_node. split; [|split; [reflexivity|split; [cbn; congruence|constructor]]].
      apply node_facts_erase. split;
        cbn [set_Size set_Values set_Keys Keys Values Children IsLeaf Size MaxKeys MinKeys];
        unfold len in *; cbn [length] in *; auto; try lia; congruence. }
    split.
    { unfold t. cbn [entries erase set_Parent set_Size set_Values set_Keys Keys Values].
      rewrite !map_app. cbn [map entries interleave erase set_Parent set_Size
                               set_Values set_Keys Keys Values].
      apply (Hent _ _ _ _ []).
      - rewrite zip_app_same by (unfold len in *; lia). reflexivity.
      - rewrite EKb, EVb. reflexivity. }
    split; [reflexivity|]. split; [reflexivity|].
    split; [reflexivity|]. split; [reflexivity|].
    split.
    { unfold t. cbn [ptrs]. rewrite !flat_map_app. cbn [flat_map ptrs]. reflexivity. }
    intros q Hq. destruct (Hout q Hq) as (Q1 & Q2 & Q3). apply Hframe; assumption.
  - (* internal nodes: the first child of the right sibling moves too *)
    symmetry in Hleaf. specialize (A7 eq_refl). specialize (B7 Hleaf).
    specialize (Aia eq_refl). specialize (Bia Hleaf).
    destruct kb as [|k0 kb'].
    { cbn [map] in Bia. rewrite <- Bia in B7. unfold len in B7. cbn [length] in B7. lia. }
    cbn [map] in Bia.
    apply Forall_cons in Hrkb. destruct Hrkb as [Hrk0 Hrkb].
    apply Forall_cons in Bka. destruct Bka as [Hsk0 Bka].
    destruct (rep_lookup _ _ Hrk0) as (cn0 & Hpc & Hec).
    set (pc := root_of k0) in *.
    assert (Dc : pc <> p /\ pc <> pa /\ pc <> pb).
    { apply Hdis. right. right. right. cbn [flat_map]. apply in_app_iff. left.
      apply root_in_ptrs. }
    destruct Dc as (Dc1 & Dc2 & Dc3).
    apply wp_bind. eapply wp_load; [exact Hpb4|].
    cbn [set_Size set_Values set_Keys Children]. rewrite <- Bia.
    apply wp_bind. eapply wp_index; [lia|reflexivity|].
    apply wp_bind. eapply wp_modify_frame; [exact Hpa4|]. intros st5 Hpa5 F5 X5 T5.
    assert (Hpc5 : mem st5 !! pc = Some cn0).
    { rewrite F5, Hframe by assumption. exact Hpc. }
    apply wp_bind. eapply wp_modify_frame; [exact Hpc5|]. intros st6 Hpc6 F6 X6 T6.
    pose proof Hpb4 as Hpb6.
    rewrite <- (F5 pb), <- (F6 pb) in Hpb6 by congruence.
    apply wp_bind. eapply wp_load; [exact Hpb6|].
    cbn [set_Size set_Values set_Keys Children]. rewrite <- Bia.
    apply wp_bind. apply wp_slice_from.
    { rewrite len_cons. pose proof (len_nonneg (map root_of kb')). lia. }
    change (Z.to_nat 1) with 1%nat. cbn [drop].
    eapply wp_modify_frame; [exact Hpb6|]. intros st7 Hpb7 F7 X7 T7.
    pose proof Hpa5 as Hpa7.
    rewrite <- (F6 pa), <- (F7 pa) in Hpa7 by congruence.
    pose proof Hp4 as Hp7.
    rewrite <- (F5 p), <- (F6 p), <- (F7 p) in Hp7 by congruence.
    exists (erase (set_Values (<[i:=rv]> (Values pn0))
                     (set_Keys (<[i:=rk]> (Keys pn0)) pn0))),
      (BNode pa (erase (set_Children (Children an0 ++ [pc])
                          (set_Size (Size an0 + 1)
                             (set_Values (Values an0 ++ [sv])
                                (set_Keys (Keys an0 ++ [sk]) an0)))))
             (ka ++ [k0])),
      (BNode pb (erase (set_Children (map root_of kb')
                          (set_Size (Size bn0 - 1)
                             (set_Values rvs (set_Keys rks bn0)))))
             kb').
    cbn [root_of node_of].
    split; [congruence|]. split; [congruence|].
    assert (E : forall q, q <> p -> q <> pa -> q <> pb ->
                  erase <$> mem st7 !! q = erase <$> mem st !! q).
    { intros q Q1 Q2 Q3. rewrite F7 by assumption.
      destruct (decide (q = pc)) as [->|Q4].
      - rewrite Hpc6, Hpc. reflexivity.
      - rewrite F6, F5, Hframe by assumption. reflexivity. }
    split.
    { eapply rep_node; [exact Hp7|reflexivity|].
      apply Forall_app. split.
      { apply (Hkeep _ E); [|exact Hr1]. intros q Hq. apply Hdis. auto. }
      constructor.
      { eapply rep_node; [exact Hpa7|reflexivity|].
        apply (Hkeep _ E).
        - intros q Hq. apply Hdis. rewrite flat_map_app in Hq.
          apply in_app_iff in Hq. cbn [flat_map] in *.
          rewrite app_nil_r in Hq. rewrite in_app_iff. tauto.
        - apply Forall_app. split; [exact Hrka|]. constructor; [exact Hrk0|constructor]. }
      constructor.
      { eapply rep_node; [exact Hpb7|reflexivity|].
        apply (Hkeep _ E); [|exact Hrkb].
        intros q Hq. apply Hdis. cbn [flat_map]. rewrite in_app_iff. tauto. }
      apply (Hkeep _ E); [|exact Hr2]. intros q Hq. apply Hdis. auto. }
    split.
    { apply shape_ok_node. split; [exact Hpar|].
      split; [cbn; congruence|].
      split; [intros _; rewrite !map_app; cbn; rewrite Hch, !map_app; reflexivity|].
      apply Forall_app. split; [exact Hk1|].
      constructor.
      { apply shape_ok_node. split; [|split; [cbn; congruence|split]].
        - apply node_facts_erase. split;
            cbn [set_Children set_Size set_Values set_Keys Keys Values Children
                 IsLeaf Size MaxKeys MinKeys];
            rewrite ?len_app; unfold len in *; cbn [length]; auto; try lia; congruence.
        - intros _. cbn. rewrite map_app, Aia. reflexivity.
        - apply Forall_app. split; [exact Aka|]. constructor; [exact Hsk0|constructor]. }
      constructor; [|exact Hk2].
      apply shape_ok_node. split; [|split; [cbn; congruence|split]].
      - apply node_facts_erase. split;
          cbn [set_Children set_Size set_Values set_Keys Keys Values Children
               IsLeaf Size MaxKeys MinKeys];
          try (rewrite <- Bia in B7; rewrite len_cons in B7);
          unfold len in *; cbn [length] in *; auto; try lia; congruence.
      - intros _. reflexivity.
      - exact Bka. }
    split.
    { unfold t.
      cbn [entries erase set_Parent set_Children set_Size set_Values set_Keys
           Keys Values].
      rewrite !map_app.
      cbn [map entries erase set_Parent set_Children set_Size set_Values set_Keys
           Keys Values].
      apply (Hent _ _ _ _ (entries k0)).
      - rewrite map_app. cbn [map].
        rewrite zip_app_same by (unfold len in *; lia). cbn [zip zip_with].
        rewrite interleave_app_sep.
        + cbn [interleave]. rewrite app_nil_r. reflexivity.
        + rewrite length_map, length_zip.
          apply (f_equal (@length _)) in Aia. rewrite length_map in Aia.
          unfold len in *. lia.
      - rewrite EKb, EVb. reflexivity. }
    split; [reflexivity|]. split; [reflexivity|].
    split; [reflexivity|]. split; [reflexivity|].
    split.
    { unfold t. cbn [ptrs]. rewrite !flat_map_app. cbn [flat_map ptrs].
      rewrite flat_map_app. cbn [flat_map]. rewrite app_nil_r.
      constructor. apply Permutation_app_head.
      cbn [app]. constructor. rewrite <- !app_assoc. apply Permutation_app_head.
      cbn [app]. symmetry. apply Permutation_middle. }
    intros q Hq. destruct (Hout q Hq) as (Q1 & Q2 & Q3).
    assert (Q4 : q <> pc).
    { intros ->. apply Hq. unfold t. cbn [ptrs]. rewrite flat_map_app.
      cbn [flat_map ptrs]. right. apply in_app_iff. right.
      apply in_app_iff. right. right. apply in_app_iff. left.
      apply in_app_iff. left. apply root_in_ptrs. }
    rewrite F7, F6, F5 by assumption. apply Hframe; assumption.
Qed.

(** X23.  [borrowFromRightSibling] is a left rotation: for two adjacent
    children of a well-formed node, both leaves or both internal, where the
    right one has a key and the left one is not full, the call returns, the
    left child gains one key and the right one loses one, the node and its
    subtrees stay well formed, and the entries in symmetric order are the
    same as before. *)
Theorem borrowFromRightSibling_keeps_entries d st p pn ls1 a b ls2 :
  d < 2 ^ 62 ->
  rep (mem st) (BNode p pn (ls1 ++ a :: b :: ls2)) ->
  shape_ok d (BNode p pn (ls1 ++ a :: b :: ls2)) = true ->
  NoDup (ptrs (BNode p pn (ls1 ++ a :: b :: ls2))) ->
  IsLeaf (node_of a) = IsLeaf (node_of b) ->
  1 <= Size (node_of b) ->
  Size (node_of a) < 2 * d - 1 ->
  exists st' pn' a' b',
    borrowFromRightSibling p (len ls1) st = Ok (tt, st') /\
    tree st' = tree st /\ next_ptr st' = next_ptr st /\
    rep (mem st') (BNode p pn' (ls1 ++ a' :: b' :: ls2)) /\
    shape_ok d (BNode p pn' (ls1 ++ a' :: b' :: ls2)) = true /\
    entries (BNode p pn' (ls1 ++ a' :: b' :: ls2))
    = entries (BNode p pn (ls1 ++ a :: b :: ls2)) /\
    root_of a' = root_of a /\ root_of b' = root_of b /\
    Size (node_of a') = Size (node_of a) + 1 /\
    Size (node_of b') = Size (node_of b) - 1 /\
    ptrs (BNode p pn' (ls1 ++ a' :: b' :: ls2))
    ≡ₚ ptrs (BNode p pn (ls1 ++ a :: b :: ls2)) /\
    (forall q, ~ In q (ptrs (BNode p pn (ls1 ++ a :: b :: ls2))) ->
               mem st' !! q = mem st !! q).
Proof.
  intros Hd Hrep Hshape Hnd Hleaf Hb1 Ha1.
  pose proof (borrowFromRightSibling_wp d st p pn ls1 a b ls2
                Hd Hrep Hshape Hnd Hleaf Hb1 Ha1) as W.
  apply wp_elim in W. destruct W as ([] & st' & Hrun & pn' & a' & b' & W).
  exists st', pn', a', b'. split; [exact Hrun|exact W].
Qed.

Lemma rotate_left_entries {A} (L1 L2 : list (list A)) (Z1 Z2 : list A)
    (ea eb ea' eb' X : list A) (s r : A) :
  length L1 = length Z1 ->
  ea = ea' ++ r :: X -> eb' = X ++ s :: eb ->
  interleave (L1 ++ ea' :: eb' :: L2) (Z1 ++ r :: Z2)
  = interleave (L1 ++ ea :: eb :: L2) (Z1 ++ s :: Z2).
Proof.
  intros HL -> ->. rewrite !interleave_app by exact HL.
  f_equal. cbn [interleave]. rewrite <- ?app_assoc. cbn [app].
  rewrite <- ?app_assoc. reflexivity.
Qed.

Lemma leaf_pair_height p n n' ls1 (a b a' b' : @btree V) ls2 :
  (height a' <= height a)%nat -> (height b' <= height b)%nat ->
  (height (BNode p n' (ls1 ++ a' :: b' :: ls2))
   <= height (BNode p n (ls1 ++ a :: b :: ls2)))%nat.
Proof.
  intros Ha Hb.
  transitivity (height (BNode p n (ls1 ++ a :: b' :: ls2))).
  - apply replace_kid_height. exact Ha.
  - replace (ls1 ++ a :: b' :: ls2) with ((ls1 ++ [a]) ++ b' :: ls2)
      by (rewrite <- app_assoc; reflexivity).
    replace (ls1 ++ a :: b :: ls2) with ((ls1 ++ [a]) ++ b :: ls2)
      by (rewrite <- app_assoc; reflexivity).
    apply replace_kid_height. exact Hb.
Qed.

Lemma borrowFromLeftSibling_leaf_wp d (fuel : nat) st p pn ls1 a b ls2 :
  d < 2 ^ 62 ->
  rep (mem st) (BNode p pn (ls1 ++ a :: b :: ls2)) ->
  shape_ok d (BNode p pn (ls1 ++ a :: b :: ls2)) = true ->
  NoDup (ptrs (BNode p pn (ls1 ++ a :: b :: ls2))) ->
  (height (BNode p pn (ls1 ++ a :: b :: ls2)) <= fuel)%nat ->
  IsLeaf (node_of a) = true -> IsLeaf (node_of b) = true ->
  1 <= Size (node_of a) ->
  Size (node_of b) < 2 * d - 1 ->
  wp (borrowFromLeftSibling fuel p (len ls1 + 1))
     (fun _ st' => exists pn' a' b',
        tree st' = tree st /\ next_ptr st' = next_ptr st /\
        rep (mem st') (BNode p pn' (ls1 ++ a' :: b' :: ls2)) /\
        shape_ok d (BNode p pn' (ls1 ++ a' :: b' :: ls2)) = true /\
        entries (BNode p pn' (ls1 ++ a' :: b' :: ls2))
        = entries (BNode p pn (ls1 ++ a :: b :: ls2)) /\
        root_of a' = root_of a /\ root_of b' = root_of b /\
        Size (node_of a') = Size (node_of a) - 1 /\
        Size (node_of b') = Size (node_of b) + 1 /\
        ptrs (BNode p pn' (ls1 ++ a' :: b' :: ls2))
        = ptrs (BNode p pn (ls1 ++ a :: b :: ls2)) /\
        (forall q, ~ In q (ptrs (BNode p pn (ls1 ++ a :: b :: ls2))) ->
                   mem st' !! q = mem st !! q)) st.
Proof.
  intros Hd Hrep Hshape Hnd Hfuel La Lb Ha1 Hb1.
  destruct (siblings_facts d (mem st) p pn ls1 a b ls2 Hrep Hshape Hnd)
    as (pn0 & an0 & bn0 & Hp & Hep & Hpa & Hea & Hpb & Heb & Hnf & L & Hch & Hlen
        & Hr1 & Hr2 & Hrka & Hrkb & Hk1 & Hk2 & Hsa & Hsb & Dpa & Dpb & Dab & Hdis).
  destruct a as [pa an ka]. destruct b as [pb bn kb].
  cbn [root_of node_of kids_of] in *. subst pn an bn.
  cbn [erase set_Parent IsLeaf Size] in La, Lb, Ha1, Hb1.
  apply shape_ok_node in Hsa. destruct Hsa as (Af & Ala & Aia & Aka).
  apply shape_ok_node in Hsb. destruct Hsb as (Bf & Bla & Bia & Bka).
  apply (proj1 (node_facts_erase _ _)) in Af, Bf.
  cbn [erase set_Parent IsLeaf Children] in Ala, Aia, Bla, Bia.
  specialize (Ala La). specialize (Bla Lb). subst ka kb.
  destruct Hnf as [N1 N2 N3 N4 N5 N6 N7].
  destruct Af as [A1 A2 A3 A4 A5 A6 A7].
  destruct Bf as [B1 B2 B3 B4 B5 B6 B7].
  specialize (N7 L).
  pose proof (len_nonneg (Keys pn0)) as HK.
  pose proof (len_nonneg (Keys an0)) as HKa.
  pose proof (len_nonneg (Keys bn0)) as HKb.
  set (i := length ls1) in *.
  assert (Hi : len ls1 = Z.of_nat i) by reflexivity.
  assert (Hka : Children pn0 !! i = Some pa).
  { rewrite Hch, map_app. rewrite lookup_app_r by (rewrite length_map; unfold i; lia).
    rewrite length_map. unfold i. rewrite Nat.sub_diag. reflexivity. }
  assert (Hkb : Children pn0 !! S i = Some pb).
  { rewrite Hch, map_app. rewrite lookup_app_r by (rewrite length_map; unfold i; lia).
    rewrite length_map. unfold i.
    replace (S (length ls1) - length ls1)%nat with 1%nat by lia. reflexivity. }
  destruct (lookup_lt_is_Some_2 (Keys pn0) i) as [sk Hsk]; [lia|].
  destruct (lookup_lt_is_Some_2 (Values pn0) i) as [sv Hsv]; [unfold len in *; lia|].
  set (m := Z.to_nat (Size an0 - 1)).
  destruct (lookup_lt_is_Some_2 (Keys an0) m) as [lk Hlk]; [unfold len, m in *; lia|].
  destruct (lookup_lt_is_Some_2 (Values an0) m) as [lv Hlv]; [unfold len, m in *; lia|].
  unfold borrowFromLeftSibling. rewrite Hi.
  apply wp_bind. eapply wp_load; [exact Hp|].
  replace ((Z.of_nat i + 1 <=? 0) || (Z.of_nat i + 1 >=? len (Children pn0))) with false.
  2:{ symmetry. apply orb_false_iff. split; [apply Z.leb_gt; lia|].
      rewrite Z.geb_leb. apply Z.leb_gt. unfold len in *. lia. }
  replace (Z.of_nat i + 1 - 1) with (Z.of_nat i) by lia.
  rewrite (d_wrap d Hd (Z.of_nat i)) by (unfold len in *; lia).
  apply wp_bind. eapply wp_index; [lia| |].
  { replace (Z.to_nat (Z.of_nat i + 1)) with (S i) by lia. exact Hkb. }
  apply wp_bind. eapply wp_index; [lia|rewrite Nat2Z.id; exact Hka|].
  apply wp_bind. eapply wp_load; [exact Hpb|].
  apply wp_bind. eapply wp_load; [exact Hpa|].
  apply wp_bind. eapply wp_load; [exact Hp|].
  apply wp_bind. eapply wp_index; [lia|rewrite Nat2Z.id; exact Hsk|].
  apply wp_bind. eapply wp_index; [lia|rewrite Nat2Z.id; exact Hsv|].
  apply wp_bind. eapply wp_modify_frame; [exact Hpb|]. intros st1 Hpb1 F1 X1 T1.
  pose proof Hp as Hp1. rewrite <- (F1 p) in Hp1 by congruence.
  pose proof Hpa as Hpa1. rewrite <- (F1 pa) in Hpa1 by congruence.
  rewrite (d_wrap d Hd (Size bn0 + 1)) in Hpb1 by lia.
  apply wp_bind. eapply wp_load; [exact Hpa1|].
  rewrite (d_wrap d Hd (Size an0 - 1)) by lia.
  apply wp_bind. eapply wp_index; [lia|exact Hlk|].
  apply wp_bind. eapply wp_load; [exact Hp1|].
  apply wp_bind. apply wp_set_index; [unfold len in *; lia|]. rewrite Nat2Z.id.
  apply wp_bind. eapply wp_modify_frame; [exact Hp1|]. intros st2 Hp2 F2 X2 T2.
  pose proof Hpa1 as Hpa2. rewrite <- (F2 pa) in Hpa2 by congruence.
  pose proof Hpb1 as Hpb2. rewrite <- (F2 pb) in Hpb2 by congruence.
  apply wp_bind. eapply wp_load; [exact Hpa2|].
  rewrite (d_wrap d Hd (Size an0 - 1)) by lia.
  apply wp_bind. eapply wp_index; [lia|exact Hlv|].
  apply wp_bind. eapply wp_load; [exact Hp2|].
  apply wp_bind. apply wp_set_index; [cbn [set_Keys Values]; unfold len in *; lia|].
  rewrite Nat2Z.id.
  apply wp_bind. eapply wp_modify_frame; [exact Hp2|]. intros st3 Hp3 F3 X3 T3.
  pose proof Hpa2 as Hpa3. rewrite <- (F3 pa) in Hpa3 by congruence.
  pose proof Hpb2 as Hpb3. rewrite <- (F3 pb) in Hpb3 by congruence.
  apply wp_bind. eapply wp_load; [exact Hpa3|].
  rewrite (d_wrap d Hd (Size an0 - 1)) by lia.
  apply wp_bind. apply wp_slice_to; [unfold len in *; lia|].
  apply wp_bind. apply wp_slice_to; [unfold len in *; lia|].
  fold m.
  apply wp_bind. eapply wp_modify_frame; [exact Hpa3|]. intros st4 Hpa4 F4 X4 T4.
  pose proof Hp3 as Hp4. rewrite <- (F4 p) in Hp4 by congruence.
  pose proof Hpb3 as Hpb4. rewrite <- (F4 pb) in Hpb4 by congruence.
  rewrite (d_wrap d Hd (Size an0 - 1)) in Hpa4 by lia.
  apply wp_bind. eapply wp_load; [exact Hpb4|].
  cbn [set_Size set_Values set_Keys IsLeaf]. rewrite Lb.
  apply wp_bind, wp_ret.
  cbn [set_Keys Values] in Hp3, Hp4.
  set (t := BNode p (erase pn0)
              (ls1 ++ BNode pa (erase an0) [] :: BNode pb (erase bn0) [] :: ls2)) in *.
  set (t' := BNode p (erase (set_Values (<[i:=lv]> (Values pn0))
                               (set_Keys (<[i:=lk]> (Keys pn0)) pn0)))
               (ls1 ++ BNode pa (erase (set_Size (Size an0 - 1)
                                          (set_Values (take m (Values an0))
                                             (set_Keys (take m (Keys an0)) an0)))) []
                    :: BNode pb (erase (set_Size (Size bn0 + 1)
                                          (set_Values (sv :: Values bn0)
                                             (set_Keys (sk :: Keys bn0) bn0)))) []
                    :: ls2)).
  assert (Hframe : forall q, q <> p -> q <> pa -> q <> pb ->
                             mem st4 !! q = mem st !! q).
  { intros q Q1 Q2 Q3. rewrite F4, F3, F2, F1 by assumption. reflexivity. }
  assert (Hout : forall q, ~ In q (ptrs t) -> q <> p /\ q <> pa /\ q <> pb).
  { intros q Hq. unfold t in Hq. cbn [ptrs] in Hq. rewrite flat_map_app in Hq.
    cbn [flat_map ptrs] in Hq. repeat split; intros ->; apply Hq.
    - left. reflexivity.
    - right. apply in_app_iff. right. left. reflexivity.
    - right. apply in_app_iff. right. apply in_app_iff. right. left. reflexivity. }
  assert (Hkeep : forall ks, (forall q, In q (flat_map ptrs ks) ->
                                q <> p /\ q <> pa /\ q <> pb) ->
                             Forall (rep (mem st)) ks -> Forall (rep (mem st4)) ks).
  { intros ks Hks Hr. rewrite Forall_forall in Hr. apply Forall_forall.
    intros k Hk. apply (rep_ext (mem st)); [apply Hr, Hk|].
    intros q Hq. destruct (Hks q) as (Q1 & Q2 & Q3).
    - apply in_flat_map. exists k. split; [apply list_elem_of_In, Hk|exact Hq].
    - rewrite Hframe by assumption. reflexivity. }
  assert (Hrep' : rep (mem st4) t').
  { eapply rep_node; [exact Hp4|reflexivity|].
    apply Forall_app. split.
    { apply Hkeep; [|exact Hr1]. intros q Hq. apply Hdis. auto. }
    constructor; [eapply rep_node; [exact Hpa4|reflexivity|constructor]|].
    constructor; [eapply rep_node; [exact Hpb4|reflexivity|constructor]|].
    apply Hkeep; [|exact Hr2]. intros q Hq. apply Hdis. auto. }
  assert (Hshape' : shape_ok d t' = true).
  { apply shape_ok_node. split.
    { apply node_facts_erase. split;
        cbn [set_Values set_Keys Keys Values Children IsLeaf Size MaxKeys MinKeys];
        unfold len in *; rewrite ?length_insert; auto. }
    split; [cbn; congruence|].
    split; [intros _; rewrite !map_app; cbn; rewrite Hch, !map_app; reflexivity|].
    apply Forall_app. split; [exact Hk1|].
    constructor.
    { apply shape_ok_node. split; [|split; [reflexivity|split; [cbn; congruence|constructor]]].
      apply node_facts_erase. split;
        cbn [set_Size set_Values set_Keys Keys Values Children IsLeaf Size MaxKeys MinKeys];
        unfold len, m in *; rewrite ?length_take; auto; try lia; congruence. }
    constructor; [|exact Hk2].
    apply shape_ok_node. split; [|split; [reflexivity|split; [cbn; congruence|constructor]]].
    apply node_facts_erase. split;
      cbn [set_Size set_Values set_Keys Keys Values Children IsLeaf Size MaxKeys MinKeys];
      unfold len in *; cbn [length] in *; auto; try lia; congruence. }
  assert (Hh' : (height t' <= height t)%nat).
  { apply leaf_pair_height; cbn; lia. }
  apply (checkInvariants_ok d Hd fuel t' st4); [exact Hrep'|exact Hshape'|lia|].
  eexists _, _, _. fold t'.
  split; [congruence|]. split; [congruence|].
  split; [exact Hrep'|]. split; [exact Hshape'|].
  split.
  { unfold t', t.
    cbn [entries erase set_Parent set_Size set_Values set_Keys Keys Values].
    rewrite !map_app.
    cbn [map entries interleave erase set_Parent set_Size set_Values set_Keys
         Keys Values].
    assert (HL1 : length (take i (Keys pn0)) = i) by (rewrite length_take; lia).
    assert (HL2 : length (take i (Values pn0)) = i)
      by (rewrite length_take; unfold len in *; lia).
    rewrite (insert_take_drop (Keys pn0) i lk) by lia.
    rewrite (insert_take_drop (Values pn0) i lv) by (unfold len in *; lia).
    rewrite <- (take_drop_middle (Keys pn0) i sk Hsk) at 3.
    rewrite <- (take_drop_middle (Values pn0) i sv Hsv) at 3.
    rewrite !zip_app_same by lia.
    cbn [zip zip_with].
    apply (rotate_left_entries _ _ _ _ _ _ _ _ []).
    - rewrite length_map, length_zip. unfold i in *. lia.
    - rewrite <- (take_drop_middle (Keys an0) m lk Hlk) at 1.
      rewrite <- (take_drop_middle (Values an0) m lv Hlv) at 1.
      rewrite zip_app_same by (rewrite !length_take; unfold len in *; lia).
      cbn [zip zip_with].
      rewrite !drop_ge by (unfold len, m in *; lia). reflexivity.
    - reflexivity. }
  split; [reflexivity|]. split; [reflexivity|].
  split; [reflexivity|]. split; [reflexivity|].
  split.
  { unfold t', t. cbn [ptrs]. rewrite !flat_map_app. reflexivity. }
  intros q Hq. destruct (Hout q Hq) as (Q1 & Q2 & Q3). apply Hframe; assumption.
Qed.

(** X24.  [borrowFromLeftSibling] on leaves is a right rotation: for two
    adjacent leaf children of a well-formed node, where the left one has a
    key and the right one is not full, the call returns, the right leaf
    gains the separator, the left leaf's last key becomes the separator,
    the node stays well formed, and the entries in symmetric order are the
    same as before. *)
Theorem borrowFromLeftSibling_keeps_entries_of_leaves
    d (fuel : nat) st p pn ls1 a b ls2 :
  d < 2 ^ 62 ->
  rep (mem st) (BNode p pn (ls1 ++ a :: b :: ls2)) ->
  shape_ok d (BNode p pn (ls1 ++ a :: b :: ls2)) = true ->
  NoDup (ptrs (BNode p pn (ls1 ++ a :: b :: ls2))) ->
  (height (BNode p pn (ls1 ++ a :: b :: ls2)) <= fuel)%nat ->
  IsLeaf (node_of a) = true -> IsLeaf (node_of b) = true ->
  1 <= Size (node_of a) ->
  Size (node_of b) < 2 * d - 1 ->
  exists st' pn' a' b',
    borrowFromLeftSibling fuel p (len ls1 + 1) st = Ok (tt, st') /\
    tree st' = tree st /\ next_ptr st' = next_ptr st /\
    rep (mem st') (BNode p pn' (ls1 ++ a' :: b' :: ls2)) /\
    shape_ok d (BNode p pn' (ls1 ++ a' :: b' :: ls2)) = true /\
    entries (BNode p pn' (ls1 ++ a' :: b' :: ls2))
    = entries (BNode p pn (ls1 ++ a :: b :: ls2)) /\
    root_of a' = root_of a /\ root_of b' = root_of b /\
    Size (node_of a') = Size (node_of a) - 1 /\
    Size (node_of b') = Size (node_of b) + 1 /\
    ptrs (BNode p pn' (ls1 ++ a' :: b' :: ls2))
    = ptrs (BNode p pn (ls1 ++ a :: b :: ls2)) /\
    (forall q, ~ In q (ptrs (BNode p pn (ls1 ++ a :: b :: ls2))) ->
               mem st' !! q = mem st !! q).
Proof.
  intros Hd Hrep Hshape Hnd Hfuel La Lb Ha1 Hb1.
  pose proof (borrowFromLeftSibling_leaf_wp d fuel st p pn ls1 a b ls2
                Hd Hrep Hshape Hnd Hfuel La Lb Ha1 Hb1) as W.
  apply wp_elim in W. destruct W as ([] & st' & Hrun & pn' & a' & b' & W).
  exists st', pn', a', b'. split; [exact Hrun|exact W].
Qed.

Lemma erase_ext n n' :
  Keys n = Keys n' -> Values n = Values n' -> Children n = Children n' ->
  IsLeaf n = IsLeaf n' -> Size n = Size n' ->
  MaxKeys n = MaxKeys n' -> MinKeys n = MinKeys n' ->
  erase n = erase n'.
Proof.
  destruct n, n'. cbn. intros. subst. reflexivity.
Qed.

Lemma height_merged p n n' pa an (ka kb : list (@btree V)) pb bn ba ls1 ls2 :
  (height (BNode p n' (ls1 ++ BNode pa an (ka ++ kb) :: ls2))
   <= height (BNode p n (ls1 ++ BNode pa ba ka :: BNode pb bn kb :: ls2)))%nat.
Proof.
  cbn [height]. apply le_n_S.
  assert (H : (foldr (fun k m => Nat.max (height k) m) O (ka ++ kb)
               <= Nat.max (foldr (fun k m => Nat.max (height k) m) O ka)
                          (foldr (fun k m => Nat.max (height k) m) O kb))%nat).
  { induction ka as [|k ka IH]; cbn [app foldr]; lia. }
  induction ls1 as [|k ls1 IH]; cbn [app foldr height] in *; lia.
Qed.

Lemma merge_entries {A} (L1 L2 : list (list A)) (Z1 Z2 : list A)
    (ea eb : list A) (s : A) :
  length L1 = length Z1 ->
  interleave (L1 ++ (ea ++ s :: eb) :: L2) (Z1 ++ Z2)
  = interleave (L1 ++ ea :: eb :: L2) (Z1 ++ s :: Z2).
Proof.
  intros HL. rewrite !interleave_app by exact HL.
  f_equal. cbn [interleave]. rewrite <- ?app_assoc. reflexivity.
Qed.

(** The tree after a merge of two adjacent children, from what the heap
    holds afterwards. *)
Lemma merge_assembly d (h h' : gmap ptr (@Node V)) p pn ls1 a b ls2
    pn0 an0 bn0 pnF anF sk sv :
  let i := length ls1 in
  let t := BNode p pn (ls1 ++ a :: b :: ls2) in
  rep h t -> shape_ok d t = true -> NoDup (ptrs t) ->
  h !! p = Some pn0 -> h !! root_of a = Some an0 -> h !! root_of b = Some bn0 ->
  IsLeaf (node_of a) = IsLeaf (node_of b) ->
  Size (node_of a) + 1 + Size (node_of b) <= 2 * d - 1 ->
  Keys pn0 !! i = Some sk -> Values pn0 !! i = Some sv ->
  h' !! p = Some pnF -> h' !! root_of a = Some anF ->
  erase pnF
  = erase (set_Size (Size pn0 - 1)
             (set_Children (take (S i) (Children pn0) ++ drop (S (S i)) (Children pn0))
                (set_Values (take i (Values pn0) ++ drop (S i) (Values pn0))
                   (set_Keys (take i (Keys pn0) ++ drop (S i) (Keys pn0)) pn0)))) ->
  erase anF
  = erase (set_Children (if IsLeaf an0 then Children an0
                         else Children an0 ++ Children bn0)
             (set_Size (Size an0 + 1 + Size bn0)
                (set_Values (Values an0 ++ sv :: Values bn0)
                   (set_Keys (Keys an0 ++ sk :: Keys bn0) an0)))) ->
  (forall q, q <> p -> q <> root_of a -> q <> root_of b ->
             erase <$> h' !! q = erase <$> h !! q) ->
  let t' := BNode p (erase pnF)
              (ls1 ++ BNode (root_of a) (erase anF) (kids_of a ++ kids_of b) :: ls2) in
  rep h' t' /\ shape_ok d t' = true /\ entries t' = entries t /\
  (height t' <= height t)%nat /\
  (forall q, In q (ptrs t') -> In q (ptrs t)) /\ NoDup (ptrs t').
Proof.
  intros i t Hrep Hshape Hnd Hp' Hpa' Hpb' Hleaf Hsz Hsk Hsv HpF HaF EpF EaF E t'.
  destruct (siblings_facts d h p pn ls1 a b ls2 Hrep Hshape Hnd)
    as (pn0' & an0' & bn0' & Hp & Hep & Hpa & Hea & Hpb & Heb & Hnf & L & Hch & Hlen
        & Hr1 & Hr2 & Hrka & Hrkb & Hk1 & Hk2 & Hsa & Hsb & Dpa & Dpb & Dab & Hdis).
  rewrite Hp' in Hp. injection Hp as <-.
  rewrite Hpa' in Hpa. injection Hpa as <-.
  rewrite Hpb' in Hpb. injection Hpb as <-.
  destruct a as [pa an ka]. destruct b as [pb bn kb].
  cbn [root_of node_of kids_of] in *. subst pn an bn.
  cbn [erase set_Parent IsLeaf Size] in Hleaf, Hsz.
  apply shape_ok_node in Hsa. destruct Hsa as (Af & Ala & Aia & Aka).
  apply shape_ok_node in Hsb. destruct Hsb as (Bf & Bla & Bia & Bka).
  apply (proj1 (node_facts_erase _ _)) in Af, Bf.
  cbn [erase set_Parent IsLeaf Children] in Ala, Aia, Bla, Bia.
  destruct Hnf as [N1 N2 N3 N4 N5 N6 N7].
  destruct Af as [A1 A2 A3 A4 A5 A6 A7].
  destruct Bf as [B1 B2 B3 B4 B5 B6 B7].
  specialize (N7 L).
  pose proof (len_nonneg (Keys pn0)) as HK.
  pose proof (len_nonneg (Keys an0)) as HKa.
  pose proof (len_nonneg (Keys bn0)) as HKb.
  fold i in Hlen.
  assert (Hkeep : forall ks, (forall q, In q (flat_map ptrs ks) ->
                                q <> p /\ q <> pa /\ q <> pb) ->
                             Forall (rep h) ks -> Forall (rep h') ks).
  { intros ks Hks Hr. rewrite Forall_forall in Hr. apply Forall_forall.
    intros k Hk. apply (rep_ext h); [apply Hr, Hk|].
    intros q Hq. destruct (Hks q) as (Q1 & Q2 & Q3).
    - apply in_flat_map. exists k. split; [apply list_elem_of_In, Hk|exact Hq].
    - apply E; assumption. }
  assert (HC : take (S i) (Children pn0) ++ drop (S (S i)) (Children pn0)
               = map root_of (ls1 ++ BNode pa (erase anF) (ka ++ kb) :: ls2)).
  { rewrite Hch, !map_app. cbn [map root_of].
    rewrite take_app_ge by (rewrite length_map; unfold i; lia).
    rewrite drop_app_ge by (rewrite length_map; unfold i; lia).
    rewrite length_map. fold i.
    replace (S i - i)%nat with 1%nat by lia.
    replace (S (S i) - i)%nat with 2%nat by lia.
    cbn [take drop]. rewrite <- app_assoc. reflexivity. }
  split.
  { eapply rep_node; [exact HpF|reflexivity|].
    apply Forall_app. split.
    { apply Hkeep; [|exact Hr1]. intros q Hq. apply Hdis. auto. }
    constructor.
    { eapply rep_node; [exact HaF|reflexivity|].
      apply Hkeep.
      - intros q Hq. apply Hdis. rewrite flat_map_app in Hq.
        apply in_app_iff in Hq. tauto.
      - apply Forall_app. split; assumption. }
    apply Hkeep; [|exact Hr2]. intros q Hq. apply Hdis. auto. }
  split.
  { apply shape_ok_node. rewrite EpF.
    split.
    { apply node_facts_erase. split;
        cbn [set_Size set_Children set_Values set_Keys Keys Values Children IsLeaf
             Size MaxKeys MinKeys];
        try congruence.
      - unfold len in *. rewrite length_app, length_take, length_drop. lia.
      - unfold len in *. rewrite !length_app, !length_take, !length_drop. lia.
      - lia.
      - intros _. rewrite HC. unfold len in *. rewrite length_map, length_app.
        cbn [length]. lia. }
    split; [cbn; congruence|].
    split; [intros _; cbn [erase set_Parent set_Size set_Children Children];
            symmetry; exact HC|].
    apply Forall_app. split; [exact Hk1|].
    constructor; [|exact Hk2].
    apply shape_ok_node. rewrite EaF. split; [|split; [|split]].
    - apply node_facts_erase. split;
        cbn [set_Size set_Children set_Values set_Keys Keys Values Children IsLeaf
             Size MaxKeys MinKeys]; auto.
      + rewrite len_app, len_cons. lia.
      + rewrite !len_app, !len_cons. lia.
      + intros La. rewrite La. auto.
      + intros La. rewrite La. rewrite len_app.
        rewrite A7, B7 by congruence. lia.
    - cbn [erase set_Parent set_Size set_Children IsLeaf set_Values set_Keys].
      intros La. rewrite (Ala La), (Bla ltac:(congruence)). reflexivity.
    - cbn [erase set_Parent set_Size set_Children IsLeaf set_Values set_Keys Children].
      intros La. rewrite La. rewrite map_app, (Aia La), (Bia ltac:(congruence)).
      reflexivity.
    - apply Forall_app. split; assumption. }
  split.
  { unfold t', t. cbn [entries]. rewrite EpF, EaF.
    cbn [erase set_Parent set_Size set_Children set_Values set_Keys Keys Values].
    rewrite !map_app.
    cbn [map entries erase set_Parent set_Size set_Children set_Values set_Keys
         Keys Values].
    assert (HL1 : length (take i (Keys pn0)) = i) by (rewrite length_take; lia).
    assert (HL2 : length (take i (Values pn0)) = i)
      by (rewrite length_take; unfold len in *; lia).
    rewrite <- (take_drop_middle (Keys pn0) i sk Hsk) at 3.
    rewrite <- (take_drop_middle (Values pn0) i sv Hsv) at 3.
    rewrite !zip_app_same by (unfold len in *; lia).
    cbn [zip zip_with].
    rewrite <- (merge_entries _ _ _ _ _ _ (sk, sv))
      by (rewrite length_map, length_zip; unfold i in *; lia).
    f_equal. f_equal. f_equal.
    destruct (IsLeaf an0) eqn:La.
    - rewrite (Ala eq_refl), (Bla ltac:(congruence)). reflexivity.
    - rewrite map_app. apply interleave_app_sep.
      rewrite length_map, length_zip.
      pose proof (f_equal (@length _) (Aia eq_refl)) as HLa.
      rewrite length_map in HLa. specialize (A7 eq_refl).
      unfold len in *. lia. }
  split; [apply height_merged|].
  split.
  { intros q. unfold t', t. cbn [ptrs]. rewrite !flat_map_app.
    cbn [flat_map ptrs]. rewrite flat_map_app.
    cbn [In]. rewrite !in_app_iff. cbn [In]. rewrite !in_app_iff. tauto. }
  unfold t', t in *. cbn [ptrs] in *. rewrite !flat_map_app in *.
  cbn [flat_map ptrs] in *. rewrite flat_map_app.
  apply NoDup_cons in Hnd. destruct Hnd as [Hp0 Hnd].
  apply NoDup_cons. split.
  { intros Hin. apply Hp0. revert Hin. rewrite !elem_of_app, !elem_of_cons, !elem_of_app.
    tauto. }
  apply NoDup_app in Hnd. destruct Hnd as (Hn1 & H1 & Hnd).
  apply NoDup_app. split; [exact Hn1|]. split.
  { intros x Hx Hin. apply (H1 x Hx). revert Hin.
    rewrite !elem_of_app, !elem_of_cons, !elem_of_app. tauto. }
  apply NoDup_app in Hnd. destruct Hnd as (Hnda & H2 & Hnd).
  apply NoDup_app in Hnd. destruct Hnd as (Hndb & H3 & Hn2).
  apply NoDup_cons in Hnda. destruct Hnda as [Hpa0 Hnda].
  apply NoDup_cons in Hndb. destruct Hndb as [Hpb0 Hndb].
  apply NoDup_app. split; [|split; [|exact Hn2]].
  - apply NoDup_cons. split.
    + rewrite elem_of_app. intros [Hin|Hin]; [exact (Hpa0 Hin)|].
      apply (H2 pa); [left|]. rewrite elem_of_app. left. right. exact Hin.
    + apply NoDup_app. split; [exact Hnda|]. split; [|exact Hndb].
      intros x Hx Hin. apply (H2 x); [right; exact Hx|].
      rewrite elem_of_app. left. right. exact Hin.
  - intros x Hx Hin. rewrite elem_of_cons, elem_of_app in Hx.
    destruct Hx as [->|[Hx|Hx]].
    + apply (H2 pa); [left|]. rewrite elem_of_app. right. exact Hin.
    + apply (H2 x); [right; exact Hx|]. rewrite elem_of_app. right. exact Hin.
    + apply (H3 x); [right; exact Hx|exact Hin].
Qed.

Lemma mergeWithRightSibling_wp d (fuel : nat) st p pn ls1 a b ls2 :
  d < 2 ^ 62 ->
  rep (mem st) (BNode p pn (ls1 ++ a :: b :: ls2)) ->
  shape_ok d (BNode p pn (ls1 ++ a :: b :: ls2)) = true ->
  NoDup (ptrs (BNode p pn (ls1 ++ a :: b :: ls2))) ->
  (height (BNode p pn (ls1 ++ a :: b :: ls2)) <= fuel)%nat ->
  IsLeaf (node_of a) = IsLeaf (node_of b) ->
  Size (node_of a) + 1 + Size (node_of b) <= 2 * d - 1 ->
  wp (mergeWithRightSibling fuel p (len ls1))
     (fun _ st' => exists pn' ab,
        tree st' = tree st /\ next_ptr st' = next_ptr st /\
        rep (mem st') (BNode p pn' (ls1 ++ ab :: ls2)) /\
        shape_ok d (BNode p pn' (ls1 ++ ab :: ls2)) = true /\
        entries (BNode p pn' (ls1 ++ ab :: ls2))
        = entries (BNode p pn (ls1 ++ a :: b :: ls2)) /\
        root_of ab = root_of a /\
        kids_of ab = kids_of a ++ kids_of b /\
        Size (node_of ab) = Size (node_of a) + 1 + Size (node_of b) /\
        Size pn' = Size pn - 1 /\
        NoDup (ptrs (BNode p pn' (ls1 ++ ab :: ls2))) /\
        (forall q, In q (ptrs (BNode p pn' (ls1 ++ ab :: ls2))) ->
                   In q (ptrs (BNode p pn (ls1 ++ a :: b :: ls2)))) /\
        (forall q, ~ In q (ptrs (BNode p pn (ls1 ++ a :: b :: ls2))) ->
                   mem st' !! q = mem st !! q)) st.
Proof.
  intros Hd Hrep Hshape Hnd Hfuel Hleaf Hsz.
  destruct (siblings_facts d (mem st) p pn ls1 a b ls2 Hrep Hshape Hnd)
    as (pn0 & an0 & bn0 & Hp & Hep & Hpa & Hea & Hpb & Heb & Hnf & L & Hch & Hlen
        & Hr1 & Hr2 & Hrka & Hrkb & Hk1 & Hk2 & Hsa & Hsb & Dpa & Dpb & Dab & Hdis).
  destruct a as [pa an ka]. destruct b as [pb bn kb].
  cbn [root_of node_of kids_of] in *. subst pn an bn.
  pose proof (fun h' pnF anF sk sv =>
            merge_assembly d (mem st) h' p _ ls1 _ _ ls2 pn0 an0 bn0 pnF anF sk sv
              Hrep Hshape Hnd Hp Hpa Hpb Hleaf Hsz) as Hasm.
  cbn [root_of node_of kids_of] in Hasm.
  set (t := BNode p (erase pn0)
              (ls1 ++ BNode pa (erase an0) ka :: BNode pb (erase bn0) kb :: ls2)) in *.
  assert (Hout : forall q, ~ In q (ptrs t) ->
                   q <> p /\ q <> pa /\ q <> pb /\ ~ In q (flat_map ptrs kb)).
  { intros q Hq. unfold t in Hq. cbn [ptrs] in Hq. rewrite flat_map_app in Hq.
    cbn [flat_map ptrs] in Hq. repeat split; try intros ->; try intros Hin; apply Hq.
    - left. reflexivity.
    - right. apply in_app_iff. right. left. reflexivity.
    - right. apply in_app_iff. right. apply in_app_iff. right. left. reflexivity.
    - right. apply in_app_iff. right. apply in_app_iff. right. right.
      apply in_app_iff. left. assumption. }
  cbn [erase set_Parent IsLeaf Size] in Hleaf, Hsz.
  apply shape_ok_node in Hsa. destruct Hsa as (Af & Ala & Aia & Aka).
  apply shape_ok_node in Hsb. destruct Hsb as (Bf & Bla & Bia & Bka).
  apply (proj1 (node_facts_erase _ _)) in Af, Bf.
  cbn [erase set_Parent IsLeaf Children] in Ala, Aia, Bla, Bia.
  destruct Hnf as [N1 N2 N3 N4 N5 N6 N7].
  destruct Af as [A1 A2 A3 A4 A5 A6 A7].
  destruct Bf as [B1 B2 B3 B4 B5 B6 B7].
  specialize (N7 L).
  pose proof (len_nonneg (Keys pn0)) as HK.
  pose proof (len_nonneg (Keys an0)) as HKa.
  pose proof (len_nonneg (Keys bn0)) as HKb.
  set (i := length ls1) in *.
  assert (Hi : len ls1 = Z.of_nat i) by reflexivity.
  assert (Hka : Children pn0 !! i = Some pa).
  { rewrite Hch, map_app. rewrite lookup_app_r by (rewrite length_map; unfold i; lia).
    rewrite length_map. unfold i. rewrite Nat.sub_diag. reflexivity. }
  assert (Hkb : Children pn0 !! S i = Some pb).
  { rewrite Hch, map_app. rewrite lookup_app_r by (rewrite length_map; unfold i; lia).
    rewrite length_map. unfold i.
    replace (S (length ls1) - length ls1)%nat with 1%nat by lia. reflexivity. }
  destruct (lookup_lt_is_Some_2 (Keys pn0) i) as [sk Hsk]; [lia|].
  destruct (lookup_lt_is_Some_2 (Values pn0) i) as [sv Hsv]; [unfold len in *; lia|].
  unfold mergeWithRightSibling. rewrite Hi.
  apply wp_bind. eapply wp_load; [exact Hp|].
  apply wp_bind. eapply wp_modify_frame; [exact Hp|]. intros st0 Hp0 F0 X0 T0.
  pose proof Hpa as Hpa0. rewrite <- (F0 pa) in Hpa0 by congruence.
  pose proof Hpb as Hpb0. rewrite <- (F0 pb) in Hpb0 by congruence.
  apply wp_bind. eapply wp_load; [exact Hp0|].
  cbn [set_Size Size Children Keys Values].
  rewrite (d_wrap d Hd (Z.of_nat i + 1)) by (unfold len in *; lia).
  replace (len (Keys pn0) =? 0) with false by (symmetry; apply Z.eqb_neq; unfold len in *; lia).
  replace ((Z.of_nat i <? 0) || (Z.of_nat i >=? len (Keys pn0))) with false.
  2:{ symmetry. apply orb_false_iff. split; [apply Z.ltb_ge; lia|].
      rewrite Z.geb_leb. apply Z.leb_gt. unfold len in *. lia. }
  replace (Z.of_nat i + 1 >=? len (Children pn0)) with false.
  2:{ symmetry. rewrite Z.geb_leb. apply Z.leb_gt. unfold len in *. lia. }
  apply wp_bind. eapply wp_index; [lia|rewrite Nat2Z.id; exact Hka|].
  apply wp_bind. eapply wp_index; [lia| |].
  { replace (Z.to_nat (Z.of_nat i + 1)) with (S i) by lia. exact Hkb. }
  apply wp_bind. eapply wp_load; [exact Hpa0|].
  apply wp_bind. eapply wp_load; [exact Hpb0|].
  apply wp_bind. eapply wp_load; [exact Hp0|].
  cbn [set_Size Size Children Keys Values].
  apply wp_bind. eapply wp_index; [lia|rewrite Nat2Z.id; exact Hsk|].
  apply wp_bind. eapply wp_index; [lia|rewrite Nat2Z.id; exact Hsv|].
  apply wp_bind. eapply wp_modify_frame; [exact Hpa0|]. intros st1 Hpa1 F1 X1 T1.
  pose proof Hp0 as Hp1. rewrite <- (F1 p) in Hp1 by congruence.
  pose proof Hpb0 as Hpb1. rewrite <- (F1 pb) in Hpb1 by congruence.
  apply wp_bind. eapply wp_load; [exact Hpb1|].
  apply wp_bind. eapply wp_modify_frame; [exact Hpa1|]. intros st2 Hpa2 F2 X2 T2.
  pose proof Hp1 as Hp2. rewrite <- (F2 p) in Hp2 by congruence.
  pose proof Hpb1 as Hpb2. rewrite <- (F2 pb) in Hpb2 by congruence.
  cbn [set_Size set_Values set_Keys Keys Values] in Hpa2.
  rewrite <- !app_assoc in Hpa2. cbn [app] in Hpa2.
  apply wp_bind. eapply wp_load; [exact Hpa2|].
  cbn [set_Size set_Values set_Keys IsLeaf].
  assert (Hframe2 : forall q, q <> p -> q <> pa -> mem st2 !! q = mem st !! q).
  { intros q Q1 Q2. rewrite F2, F1, F0 by assumption. reflexivity. }
  apply wp_bind.
  apply (wp_mono _ (fun _ s =>
           tree s = tree st /\ next_ptr s = next_ptr st /\
           mem s !! p = Some (set_Size (len (Keys pn0)) pn0) /\
           (exists anF, mem s !! pa = Some anF /\
              erase anF
              = erase (set_Children (if IsLeaf an0 then Children an0
                                     else Children an0 ++ Children bn0)
                         (set_Size (Size an0 + 1 + Size bn0)
                            (set_Values (Values an0 ++ sv :: Values bn0)
                               (set_Keys (Keys an0 ++ sk :: Keys bn0) an0))))) /\
           (forall q, q <> p -> q <> pa -> q <> pb ->
                      erase <$> mem s !! q = erase <$> mem st !! q) /\
           (forall q, ~ In q (ptrs t) -> mem s !! q = mem st !! q))).
  { destruct (IsLeaf an0) eqn:La.
    - apply wp_ret.
      split; [congruence|]. split; [congruence|]. split; [exact Hp2|].
      split.
      { eexists. split; [exact Hpa2|].
        apply erase_ext; try reflexivity.
        cbn [set_Children set_Size set_Values set_Keys Size Keys].
        rewrite len_app, len_cons. lia. }
      split.
      { intros q Q1 Q2 Q3. rewrite Hframe2 by assumption. reflexivity. }
      intros q Hq. destruct (Hout q Hq) as (Q1 & Q2 & Q3 & Q4).
      apply Hframe2; assumption.
    - apply wp_bind. eapply wp_load; [exact Hpb2|].
      apply wp_bind. eapply wp_modify_frame; [exact Hpa2|]. intros st3 Hpa3 F3 X3 T3.
      pose proof Hp2 as Hp3. rewrite <- (F3 p) in Hp3 by congruence.
      pose proof Hpb2 as Hpb3. rewrite <- (F3 pb) in Hpb3 by congruence.
      apply wp_bind. eapply wp_load; [exact Hpb3|].
      assert (Hcs : forall q, In q (Children bn0) ->
                      q <> p /\ q <> pa /\ q <> pb /\ In q (flat_map ptrs kb)).
      { intros q Hq. rewrite <- (Bia ltac:(congruence)) in Hq.
        apply in_map_iff in Hq. destruct Hq as (k & <- & Hk).
        assert (Hin : In (root_of k) (flat_map ptrs kb)).
        { apply in_flat_map. exists k. split; [exact Hk|apply root_in_ptrs]. }
        destruct (Hdis (root_of k)) as (Q1 & Q2 & Q3); [tauto|]. tauto. }
      apply wp_reparent.
      + intros q Hq. destruct (Hcs q Hq) as (Q1 & Q2 & Q3 & Q4).
        rewrite F3, Hframe2 by assumption.
        rewrite <- (Bia ltac:(congruence)) in Hq.
        apply in_map_iff in Hq. destruct Hq as (k & <- & Hk).
        rewrite Forall_forall in Hrkb.
        destruct (rep_lookup _ _ (Hrkb k ltac:(apply list_elem_of_In; exact Hk)))
          as (n' & Hn' & _).
        rewrite Hn'. eexists. reflexivity.
      + intros h' Hin Hnin. cbn [mem next_ptr tree].
        assert (Hncs : forall q, q = p \/ q = pa -> ~ In q (Children bn0)).
        { intros q Hq Hc. destruct (Hcs q Hc) as (Q1 & Q2 & _).
          destruct Hq; contradiction. }
        split; [congruence|]. split; [congruence|].
        split; [rewrite Hnin by (apply Hncs; auto); exact Hp3|].
        split.
        { eexists. split; [rewrite Hnin by (apply Hncs; auto); exact Hpa3|].
          apply erase_ext; try reflexivity.
          cbn [set_Children set_Size set_Values set_Keys Size Keys].
          rewrite len_app, len_cons. lia. }
        split.
        { intros q Q1 Q2 Q3.
          destruct (in_dec Pos.eq_dec q (Children bn0)) as [Hc|Hc].
          - rewrite (Hin q Hc), F3, Hframe2 by assumption.
            destruct (mem st !! q); reflexivity.
          - rewrite (Hnin q Hc), F3, Hframe2 by assumption. reflexivity. }
        intros q Hq. destruct (Hout q Hq) as (Q1 & Q2 & Q3 & Q4).
        rewrite Hnin, F3, Hframe2; auto.
        intros Hc. apply Q4. apply (Hcs q Hc). }
  intros [] s (S1 & S2 & Sp & (anF & Spa & EaF) & SE & Sout).
  clear dependent st0. clear dependent st1. clear dependent st2.
  apply wp_bind. eapply wp_load; [exact Sp|].
  cbn [set_Size Keys Values Children].
  rewrite (d_wrap d Hd (Z.of_nat i + 2)) by (unfold len in *; lia).
  apply wp_bind. apply wp_slice_to; [unfold len in *; lia|].
  apply wp_bind. apply wp_slice_from; [unfold len in *; lia|].
  apply wp_bind. apply wp_slice_to; [unfold len in *; lia|].
  apply wp_bind. apply wp_slice_from; [unfold len in *; lia|].
  apply wp_bind. apply wp_slice_to; [unfold len in *; lia|].
  apply wp_bind. apply wp_slice_from; [unfold len in *; lia|].
  rewrite Nat2Z.id.
  replace (Z.to_nat (Z.of_nat i + 1)) with (S i) by lia.
  replace (Z.to_nat (Z.of_nat i + 2)) with (S (S i)) by lia.
  apply wp_bind. eapply wp_modify_frame; [exact Sp|]. intros stF HpF FF XF TF.
  pose proof Spa as HaF. rewrite <- (FF pa) in HaF by congruence.
  assert (Hlk : len (take i (Keys pn0) ++ drop (S i) (Keys pn0)) = Size pn0 - 1).
  { unfold len in *. rewrite length_app, length_take, length_drop. lia. }
  assert (Hlc : len (take (S i) (Children pn0) ++ drop (S (S i)) (Children pn0))
                = Size pn0).
  { unfold len in *. rewrite length_app, length_take, length_drop. lia. }
  destruct (Hasm (mem stF) _ anF sk sv Hsk Hsv HpF HaF)
    as (R1 & R2 & R3 & R4 & R5 & R6).
  { apply erase_ext; try reflexivity.
    cbn [set_Children set_Size set_Values set_Keys Size Keys]. exact Hlk. }
  { exact EaF. }
  { intros q Q1 Q2 Q3. rewrite FF by assumption. apply SE; assumption. }
  apply wp_bind. eapply wp_load; [exact HpF|].
  cbn [set_Size set_Children set_Values set_Keys Children Size].
  rewrite Hlk, Hlc.
  rewrite (d_wrap d Hd (Size pn0 - 1 + 1)) by (unfold len in *; lia).
  replace (Size pn0 =? Size pn0 - 1 + 1) with true by (symmetry; apply Z.eqb_eq; lia).
  cbn [negb].
  match type of R1 with rep _ ?t0 => set (t' := t0) in * end.
  apply (checkInvariants_ok d Hd fuel t' stF); [exact R1|exact R2|lia|].
  eexists _, _. fold t'.
  split; [congruence|]. split; [congruence|].
  split; [exact R1|]. split; [exact R2|]. split; [exact R3|].
  split; [reflexivity|]. split; [reflexivity|].
  split; [cbn [node_of]; rewrite EaF; reflexivity|].
  split; [cbn [erase set_Parent set_Size Size]; exact Hlk|].
  split; [exact R6|]. split; [exact R5|].
  intros q Hq. destruct (Hout q Hq) as (Q1 & Q2 & Q3 & Q4).
  rewrite FF by assumption. apply Sout. exact Hq.
Qed.

(** X25.  [mergeWithRightSibling] folds two adjacent children into the left
    one: when both are leaves or both internal and their keys and the
    separator fit into one node, the call returns, the node loses the
    separator and the right child, the left child holds its keys, the
    separator and the right child's keys (and both lists of children), the
    result is well formed, and the entries in symmetric order are the same
    as before. *)
Theorem mergeWithRightSibling_keeps_entries d (fuel : nat) st p pn ls1 a b ls2 :
  d < 2 ^ 62 ->
  rep (mem st) (BNode p pn (ls1 ++ a :: b :: ls2)) ->
  shape_ok d (BNode p pn (ls1 ++ a :: b :: ls2)) = true ->
  NoDup (ptrs (BNode p pn (ls1 ++ a :: b :: ls2))) ->
  (height (BNode p pn (ls1 ++ a :: b :: ls2)) <= fuel)%nat ->
  IsLeaf (node_of a) = IsLeaf (node_of b) ->
  Size (node_of a) + 1 + Size (node_of b) <= 2 * d - 1 ->
  exists st' pn' ab,
    mergeWithRightSibling fuel p (len ls1) st = Ok (tt, st') /\
    tree st' = tree st /\ next_ptr st' = next_ptr st /\
    rep (mem st') (BNode p pn' (ls1 ++ ab :: ls2)) /\
    shape_ok d (BNode p pn' (ls1 ++ ab :: ls2)) = true /\
    entries (BNode p pn' (ls1 ++ ab :: ls2))
    = entries (BNode p pn (ls1 ++ a :: b :: ls2)) /\
    root_of ab = root_of a /\
    kids_of ab = kids_of a ++ kids_of b /\
    Size (node_of ab) = Size (node_of a) + 1 + Size (node_of b) /\
    Size pn' = Size pn - 1 /\
    NoDup (ptrs (BNode p pn' (ls1 ++ ab :: ls2))) /\
    (forall q, In q (ptrs (BNode p pn' (ls1 ++ ab :: ls2))) ->
               In q (ptrs (BNode p pn (ls1 ++ a :: b :: ls2)))) /\
    (forall q, ~ In q (ptrs (BNode p pn (ls1 ++ a :: b :: ls2))) ->
               mem st' !! q = mem st !! q).
Proof.
  intros Hd Hrep Hshape Hnd Hfuel Hleaf Hsz.
  pose proof (mergeWithRightSibling_wp d fuel st p pn ls1 a b ls2
                Hd Hrep Hshape Hnd Hfuel Hleaf Hsz) as W.
  apply wp_elim in W. destruct W as ([] & st' & Hrun & pn' & ab & W).
  exists st', pn', ab. split; [exact Hrun|exact W].
Qed.

Lemma mergeWithLeftSibling_wp d (fuel : nat) st p pn ls1 a b ls2 pn0 :
  d < 2 ^ 62 ->
  rep (mem st) (BNode p pn (ls1 ++ a :: b :: ls2)) ->
  shape_ok d (BNode p pn (ls1 ++ a :: b :: ls2)) = true ->
  NoDup (ptrs (BNode p pn (ls1 ++ a :: b :: ls2))) ->
  (height (BNode p pn (ls1 ++ a :: b :: ls2)) <= fuel)%nat ->
  IsLeaf (node_of a) = IsLeaf (node_of b) ->
  Size (node_of a) + 1 + Size (node_of b) <= 2 * d - 1 ->
  mem st !! p = Some pn0 ->
  wp (mergeWithLeftSibling fuel p (len ls1))
     (fun _ st' => exists pn' ab,
        tree st'
        = (if bool_decide (Parent pn0 = None) && (Size pn0 =? 1)
           then set_Height (wrap (Height (tree st) - 1))
                  (set_Root (Some (root_of a)) (tree st))
           else tree st) /\
        next_ptr st' = next_ptr st /\
        rep (mem st') (BNode p pn' (ls1 ++ ab :: ls2)) /\
        shape_ok d (BNode p pn' (ls1 ++ ab :: ls2)) = true /\
        entries (BNode p pn' (ls1 ++ ab :: ls2))
        = entries (BNode p pn (ls1 ++ a :: b :: ls2)) /\
        root_of ab = root_of a /\
        kids_of ab = kids_of a ++ kids_of b /\
        Size (node_of ab) = Size (node_of a) + 1 + Size (node_of b) /\
        Size pn' = Size pn - 1 /\
        NoDup (ptrs (BNode p pn' (ls1 ++ ab :: ls2))) /\
        (forall q, In q (ptrs (BNode p pn' (ls1 ++ ab :: ls2))) ->
                   In q (ptrs (BNode p pn (ls1 ++ a :: b :: ls2)))) /\
        (forall q, ~ In q (ptrs (BNode p pn (ls1 ++ a :: b :: ls2))) ->
                   mem st' !! q = mem st !! q)) st.
Proof.
  intros Hd Hrep Hshape Hnd Hfuel Hleaf Hsz Hp0.
  destruct (siblings_facts d (mem st) p pn ls1 a b ls2 Hrep Hshape Hnd)
    as (pn0' & an0 & bn0 & Hp & Hep & Hpa & Hea & Hpb & Heb & Hnf & L & Hch & Hlen
        & Hr1 & Hr2 & Hrka & Hrkb & Hk1 & Hk2 & Hsa & Hsb & Dpa & Dpb & Dab & Hdis).
  rewrite Hp0 in Hp. injection Hp as <-. rename Hp0 into Hp.
  destruct a as [pa an ka]. destruct b as [pb bn kb].
  cbn [root_of node_of kids_of] in *. subst pn an bn.
  pose proof (fun h' pnF anF sk sv =>
            merge_assembly d (mem st) h' p _ ls1 _ _ ls2 pn0 an0 bn0 pnF anF sk sv
              Hrep Hshape Hnd Hp Hpa Hpb Hleaf Hsz) as Hasm.
  cbn [root_of node_of kids_of] in Hasm.
  set (t := BNode p (erase pn0)
              (ls1 ++ BNode pa (erase an0) ka :: BNode pb (erase bn0) kb :: ls2)) in *.
  assert (Hout : forall q, ~ In q (ptrs t) ->
                   q <> p /\ q <> pa /\ q <> pb /\ ~ In q (flat_map ptrs kb)).
  { intros q Hq. unfold t in Hq. cbn [ptrs] in Hq. rewrite flat_map_app in Hq.
    cbn [flat_map ptrs] in Hq. repeat split; try intros ->; try intros Hin; apply Hq.
    - left. reflexivity.
    - right. apply in_app_iff. right. left. reflexivity.
    - right. apply in_app_iff. right. apply in_app_iff. right. left. reflexivity.
    - right. apply in_app_iff. right. apply in_app_iff. right. right.
      apply in_app_iff. left. assumption. }
  cbn [erase set_Parent IsLeaf Size] in Hleaf, Hsz.
  apply shape_ok_node in Hsa. destruct Hsa as (Af & Ala & Aia & Aka).
  apply shape_ok_node in Hsb. destruct Hsb as (Bf & Bla & Bia & Bka).
  apply (proj1 (node_facts_erase _ _)) in Af, Bf.
  cbn [erase set_Parent IsLeaf Children] in Ala, Aia, Bla, Bia.
  destruct Hnf as [N1 N2 N3 N4 N5 N6 N7].
  destruct Af as [A1 A2 A3 A4 A5 A6 A7].
  destruct Bf as [B1 B2 B3 B4 B5 B6 B7].
  specialize (N7 L).
  pose proof (len_nonneg (Keys pn0)) as HK.
  pose proof (len_nonneg (Keys an0)) as HKa.
  pose proof (len_nonneg (Keys bn0)) as HKb.
  set (i := length ls1) in *.
  assert (Hi : len ls1 = Z.of_nat i) by reflexivity.
  assert (Hka : Children pn0 !! i = Some pa).
  { rewrite Hch, map_app. rewrite lookup_app_r by (rewrite length_map; unfold i; lia).
    rewrite length_map. unfold i. rewrite Nat.sub_diag. reflexivity. }
  assert (Hkb : Children pn0 !! S i = Some pb).
  { rewrite Hch, map_app. rewrite lookup_app_r by (rewrite length_map; unfold i; lia).
    rewrite length_map. unfold i.
    replace (S (length ls1) - length ls1)%nat with 1%nat by lia. reflexivity. }
  destruct (lookup_lt_is_Some_2 (Keys pn0) i) as [sk Hsk]; [lia|].
  destruct (lookup_lt_is_Some_2 (Values pn0) i) as [sv Hsv]; [unfold len in *; lia|].
  unfold mergeWithLeftSibling. rewrite Hi.
  apply wp_bind. eapply wp_load; [exact Hp|].
  rewrite (d_wrap d Hd (Z.of_nat i + 1)) by (unfold len in *; lia).
  replace ((Z.of_nat i <? 0) || (Z.of_nat i >=? len (Keys pn0))) with false.
  2:{ symmetry. apply orb_false_iff. split; [apply Z.ltb_ge; lia|].
      rewrite Z.geb_leb. apply Z.leb_gt. unfold len in *. lia. }
  replace (Z.of_nat i + 1 >=? len (Children pn0)) with false.
  2:{ symmetry. rewrite Z.geb_leb. apply Z.leb_gt. unfold len in *. lia. }
  apply wp_bind. eapply wp_index; [lia|rewrite Nat2Z.id; exact Hka|].
  apply wp_bind. eapply wp_index; [lia| |].
  { replace (Z.to_nat (Z.of_nat i + 1)) with (S i) by lia. exact Hkb. }
  apply wp_bind. eapply wp_load; [exact Hpa|].
  apply wp_bind. eapply wp_load; [exact Hpb|].
  apply wp_bind. eapply wp_load; [exact Hp|].
  apply wp_bind. eapply wp_index; [lia|rewrite Nat2Z.id; exact Hsk|].
  apply wp_bind. eapply wp_index; [lia|rewrite Nat2Z.id; exact Hsv|].
  apply wp_bind. eapply wp_modify_frame; [exact Hpa|]. intros st1 Hpa1 F1 X1 T1.
  pose proof Hp as Hp1. rewrite <- (F1 p) in Hp1 by congruence.
  pose proof Hpb as Hpb1. rewrite <- (F1 pb) in Hpb1 by congruence.
  apply wp_bind. eapply wp_load; [exact Hpb1|].
  apply wp_bind. eapply wp_modify_frame; [exact Hpa1|]. intros st2 Hpa2 F2 X2 T2.
  pose proof Hp1 as Hp2. rewrite <- (F2 p) in Hp2 by congruence.
  pose proof Hpb1 as Hpb2. rewrite <- (F2 pb) in Hpb2 by congruence.
  cbn [set_Size set_Values set_Keys Keys Values] in Hpa2.
  rewrite <- !app_assoc in Hpa2. cbn [app] in Hpa2.
  apply wp_bind. eapply wp_load; [exact Hpb2|].
  assert (Hframe2 : forall q, q <> p -> q <> pa -> mem st2 !! q = mem st !! q).
  { intros q Q1 Q2. rewrite F2, F1 by assumption. reflexivity. }
  apply wp_bind.
  apply (wp_mono _ (fun _ s =>
           tree s = tree st /\ next_ptr s = next_ptr st /\
           mem s !! p = Some pn0 /\
           (exists anF, mem s !! pa = Some anF /\
              erase anF
              = erase (set_Children (if IsLeaf an0 then Children an0
                                     else Children an0 ++ Children bn0)
                         (set_Size (Size an0 + 1 + Size bn0)
                            (set_Values (Values an0 ++ sv :: Values bn0)
                               (set_Keys (Keys an0 ++ sk :: Keys bn0) an0))))) /\
           (forall q, q <> p -> q <> pa -> q <> pb ->
                      erase <$> mem s !! q = erase <$> mem st !! q) /\
           (forall q, ~ In q (ptrs t) -> mem s !! q = mem st !! q))).
  { destruct (IsLeaf bn0) eqn:Lb.
    - apply wp_ret.
      split; [congruence|]. split; [congruence|]. split; [exact Hp2|].
      split.
      { eexists. split; [exact Hpa2|]. rewrite Hleaf.
        apply erase_ext; try reflexivity.
        cbn [set_Children set_Size set_Values set_Keys Size Keys].
        rewrite len_app, len_cons. lia. }
      split.
      { intros q Q1 Q2 Q3. rewrite Hframe2 by assumption. reflexivity. }
      intros q Hq. destruct (Hout q Hq) as (Q1 & Q2 & Q3 & Q4).
      apply Hframe2; assumption.
    - apply wp_bind. eapply wp_modify_frame; [exact Hpa2|]. intros st3 Hpa3 F3 X3 T3.
      pose proof Hp2 as Hp3. rewrite <- (F3 p) in Hp3 by congruence.
      pose proof Hpb2 as Hpb3. rewrite <- (F3 pb) in Hpb3 by congruence.
      apply wp_bind. eapply wp_load; [exact Hpb3|].
      assert (Hcs : forall q, In q (Children bn0) ->
                      q <> p /\ q <> pa /\ q <> pb /\ In q (flat_map ptrs kb)).
      { intros q Hq. rewrite <- (Bia ltac:(congruence)) in Hq.
        apply in_map_iff in Hq. destruct Hq as (k & <- & Hk).
        assert (Hin : In (root_of k) (flat_map ptrs kb)).
        { apply in_flat_map. exists k. split; [exact Hk|apply root_in_ptrs]. }
        destruct (Hdis (root_of k)) as (Q1 & Q2 & Q3); [tauto|]. tauto. }
      apply wp_reparent.
      + intros q Hq. destruct (Hcs q Hq) as (Q1 & Q2 & Q3 & Q4).
        rewrite F3, Hframe2 by assumption.
        rewrite <- (Bia ltac:(congruence)) in Hq.
        apply in_map_iff in Hq. destruct Hq as (k & <- & Hk).
        rewrite Forall_forall in Hrkb.
        destruct (rep_lookup _ _ (Hrkb k ltac:(apply list_elem_of_In; exact Hk)))
          as (n' & Hn' & _).
        rewrite Hn'. eexists. reflexivity.
      + intros h' Hin Hnin. cbn [mem next_ptr tree].
        assert (Hncs : forall q, q = p \/ q = pa -> ~ In q (Children bn0)).
        { intros q Hq Hc. destruct (Hcs q Hc) as (Q1 & Q2 & _).
          destruct Hq; contradiction. }
        split; [congruence|]. split; [congruence|].
        split; [rewrite Hnin by (apply Hncs; auto); exact Hp3|].
        split.
        { eexists. split; [rewrite Hnin by (apply Hncs; auto); exact Hpa3|].
          rewrite Hleaf.
          apply erase_ext; try reflexivity.
          cbn [set_Children set_Size set_Values set_Keys Size Keys].
          rewrite len_app, len_cons. lia. }
        split.
        { intros q Q1 Q2 Q3.
          destruct (in_dec Pos.eq_dec q (Children bn0)) as [Hc|Hc].
          - rewrite (Hin q Hc), F3, Hframe2 by assumption.
            destruct (mem st !! q); reflexivity.
          - rewrite (Hnin q Hc), F3, Hframe2 by assumption. reflexivity. }
        intros q Hq. destruct (Hout q Hq) as (Q1 & Q2 & Q3 & Q4).
        rewrite Hnin, F3, Hframe2; auto.
        intros Hc. apply Q4. apply (Hcs q Hc). }
  intros [] s (S1 & S2 & Sp & (anF & Spa & EaF) & SE & Sout).
  clear dependent st1. clear dependent st2.
  apply wp_bind. eapply wp_load; [exact Sp|].
  rewrite (d_wrap d Hd (Z.of_nat i + 2)) by (unfold len in *; lia).
  apply wp_bind. apply wp_slice_to; [unfold len in *; lia|].
  apply wp_bind. apply wp_slice_from; [unfold len in *; lia|].
  apply wp_bind. apply wp_slice_to; [unfold len in *; lia|].
  apply wp_bind. apply wp_slice_from; [unfold len in *; lia|].
  apply wp_bind. apply wp_slice_to; [unfold len in *; lia|].
  apply wp_bind. apply wp_slice_from; [unfold len in *; lia|].
  rewrite Nat2Z.id.
  replace (Z.to_nat (Z.of_nat i + 1)) with (S i) by lia.
  replace (Z.to_nat (Z.of_nat i + 2)) with (S (S i)) by lia.
  assert (Hlk : len (take i (Keys pn0) ++ drop (S i) (Keys pn0)) = Size pn0 - 1).
  { unfold len in *. rewrite length_app, length_take, length_drop. lia. }
  assert (Hlc : len (take (S i) (Children pn0) ++ drop (S (S i)) (Children pn0))
                = Size pn0).
  { unfold len in *. rewrite length_app, length_take, length_drop. lia. }
  apply wp_bind. apply wp_set_index; [rewrite Hlc; unfold len in *; lia|].
  rewrite Nat2Z.id.
  rewrite (list_insert_id (take (S i) (Children pn0) ++ drop (S (S i)) (Children pn0))
             i pa).
  2:{ rewrite lookup_app_l by (rewrite length_take; unfold len in *; lia).
      rewrite lookup_take_lt by lia. exact Hka. }
  apply wp_bind. eapply wp_modify_frame; [exact Sp|]. intros stF HpF FF XF TF.
  pose proof Spa as HaF. rewrite <- (FF pa) in HaF by congruence.
  destruct (Hasm (mem stF) _ anF sk sv Hsk Hsv HpF HaF)
    as (R1 & R2 & R3 & R4 & R5 & R6).
  { apply erase_ext; try reflexivity.
    cbn [set_Children set_Size set_Values set_Keys Size Keys]. exact Hlk. }
  { exact EaF. }
  { intros q Q1 Q2 Q3. rewrite FF by assumption. apply SE; assumption. }
  apply wp_bind. eapply wp_load; [exact HpF|].
  cbn [set_Size set_Children set_Values set_Keys Children Size].
  rewrite Hlk, Hlc.
  rewrite (d_wrap d Hd (Size pn0 - 1 + 1)) by (unfold len in *; lia).
  replace (Size pn0 =? Size pn0 - 1 + 1) with true by (symmetry; apply Z.eqb_eq; lia).
  cbn [negb].
  match type of R1 with rep _ ?t0 => set (t' := t0) in * end.
  apply wp_bind.
  apply (checkInvariants_ok d Hd fuel t' stF); [exact R1|exact R2|lia|].
  apply wp_bind. eapply wp_load; [exact HpF|].
  cbn [set_Size set_Children set_Values set_Keys Parent Size].
  rewrite Hlk.
  replace (Size pn0 - 1 =? 0) with (Size pn0 =? 1).
  2:{ destruct (Z.eqb_spec (Size pn0) 1), (Z.eqb_spec (Size pn0 - 1) 0);
        try reflexivity; lia. }
  destruct (bool_decide (Parent pn0 = None) && (Size pn0 =? 1)) eqn:Eroot.
  - apply wp_bind. eapply wp_load; [exact HaF|].
    apply wp_bind, wp_modify_tree.
    apply wp_bind. eapply wp_modify_frame; [exact HaF|].
    intros stG HaG FG XG TG.
    apply wp_modify_tree.
    cbn [mem next_ptr tree] in *.
    assert (EG : forall q, erase <$> mem stG !! q = erase <$> mem stF !! q).
    { intros q. destruct (decide (q = pa)) as [->|Q].
      - rewrite HaG, HaF. reflexivity.
      - rewrite FG by exact Q. reflexivity. }
    eexists _, _. fold t'.
    split; [rewrite TG; cbn [tree set_Height set_Root Height]; congruence|].
    split; [congruence|].
    split; [apply (rep_ext (mem stF)); [exact R1|intros q _; apply EG]|].
    split; [exact R2|]. split; [exact R3|].
    split; [reflexivity|]. split; [reflexivity|].
    split; [cbn [node_of]; rewrite EaF; reflexivity|].
    split; [cbn [erase set_Parent set_Size Size]; exact Hlk|].
    split; [exact R6|]. split; [exact R5|].
    intros q Hq. destruct (Hout q Hq) as (Q1 & Q2 & Q3 & Q4).
    rewrite FG, FF by assumption. apply Sout. exact Hq.
  - apply wp_ret.
    eexists _, _. fold t'.
    split; [congruence|]. split; [congruence|].
    split; [exact R1|]. split; [exact R2|]. split; [exact R3|].
    split; [reflexivity|]. split; [reflexivity|].
    split; [cbn [node_of]; rewrite EaF; reflexivity|].
    split; [cbn [erase set_Parent set_Size Size]; exact Hlk|].
    split; [exact R6|]. split; [exact R5|].
    intros q Hq. destruct (Hout q Hq) as (Q1 & Q2 & Q3 & Q4).
    rewrite FF by assumption. apply Sout. exact Hq.
Qed.

(** X26.  [mergeWithLeftSibling] folds two adjacent children into the left
    one, as [mergeWithRightSibling] does, with the same result for the node
    and the entries; in addition, when the node has no parent pointer and
    loses its only key, the left child becomes the root of the tree and
    [Height] goes down by one, and otherwise the tree record is unchanged. *)
Theorem mergeWithLeftSibling_keeps_entries d (fuel : nat) st p pn ls1 a b ls2 pn0 :
  d < 2 ^ 62 ->
  rep (mem st) (BNode p pn (ls1 ++ a :: b :: ls2)) ->
  shape_ok d (BNode p pn (ls1 ++ a :: b :: ls2)) = true ->
  NoDup (ptrs (BNode p pn (ls1 ++ a :: b :: ls2))) ->
  (height (BNode p pn (ls1 ++ a :: b :: ls2)) <= fuel)%nat ->
  IsLeaf (node_of a) = IsLeaf (node_of b) ->
  Size (node_of a) + 1 + Size (node_of b) <= 2 * d - 1 ->
  mem st !! p = Some pn0 ->
  exists st' pn' ab,
    mergeWithLeftSibling fuel p (len ls1) st = Ok (tt, st') /\
    tree st'
    = (if bool_decide (Parent pn0 = None) && (Size pn0 =? 1)
       then set_Height (wrap (Height (tree st) - 1))
              (set_Root (Some (root_of a)) (tree st))
       else tree st) /\
    next_ptr st' = next_ptr st /\
    rep (mem st') (BNode p pn' (ls1 ++ ab :: ls2)) /\
    shape_ok d (BNode p pn' (ls1 ++ ab :: ls2)) = true /\
    entries (BNode p pn' (ls1 ++ ab :: ls2))
    = entries (BNode p pn (ls1 ++ a :: b :: ls2)) /\
    root_of ab = root_of a /\
    kids_of ab = kids_of a ++ kids_of b /\
    Size (node_of ab) = Size (node_of a) + 1 + Size (node_of b) /\
    Size pn' = Size pn - 1 /\
    NoDup (ptrs (BNode p pn' (ls1 ++ ab :: ls2))) /\
    (forall q, In q (ptrs (BNode p pn' (ls1 ++ ab :: ls2))) ->
               In q (ptrs (BNode p pn (ls1 ++ a :: b :: ls2)))) /\
    (forall q, ~ In q (ptrs (BNode p pn (ls1 ++ a :: b :: ls2))) ->
               mem st' !! q = mem st !! q).
Proof.
  intros Hd Hrep Hshape Hnd Hfuel Hleaf Hsz Hp.
  pose proof (mergeWithLeftSibling_wp d fuel st p pn ls1 a b ls2 pn0
                Hd Hrep Hshape Hnd Hfuel Hleaf Hsz Hp) as W.
  apply wp_elim in W. destruct W as ([] & st' & Hrun & pn' & ab & W).
  exists st', pn', ab. split; [exact Hrun|exact W].
Qed.

Lemma mergeChildren_wp d (fuel : nat) st p pn ls1 a b ls2 pn0 :
  d < 2 ^ 62 ->
  rep (mem st) (BNode p pn (ls1 ++ a :: b :: ls2)) ->
  shape_ok d (BNode p pn (ls1 ++ a :: b :: ls2)) = true ->
  NoDup (ptrs (BNode p pn (ls1 ++ a :: b :: ls2))) ->
  (height (BNode p pn (ls1 ++ a :: b :: ls2)) <= fuel)%nat ->
  IsLeaf (node_of a) = IsLeaf (node_of b) ->
  Size (node_of a) + 1 + Size (node_of b) <= 2 * d - 1 ->
  mem st !! p = Some pn0 ->
  wp (mergeChildren fuel p (len ls1))
     (fun _ st' => exists pn' ab,
        tree st'
        = (if bool_decide (Parent pn0 = None) && (Size pn0 =? 1)
           then set_Height (wrap (Height (tree st) - 1))
                  (set_Root (Some (root_of a)) (tree st))
           else tree st) /\
        next_ptr st' = next_ptr st /\
        rep (mem st') (BNode p pn' (ls1 ++ ab :: ls2)) /\
        shape_ok d (BNode p pn' (ls1 ++ ab :: ls2)) = true /\
        entries (BNode p pn' (ls1 ++ ab :: ls2))
        = entries (BNode p pn (ls1 ++ a :: b :: ls2)) /\
        root_of ab = root_of a /\
        kids_of ab = kids_of a ++ kids_of b /\
        Size (node_of ab) = Size (node_of a) + 1 + Size (node_of b) /\
        Size pn' = Size pn - 1 /\
        NoDup (ptrs (BNode p pn' (ls1 ++ ab :: ls2))) /\
        (forall q, In q (ptrs (BNode p pn' (ls1 ++ ab :: ls2))) ->
                   In q (ptrs (BNode p pn (ls1 ++ a :: b :: ls2)))) /\
        (forall q, ~ In q (ptrs (BNode p pn (ls1 ++ a :: b :: ls2))) ->
                   mem st' !! q = mem st !! q)) st.
Proof.
  intros Hd Hrep Hshape Hnd Hfuel Hleaf Hsz Hp0.
  destruct (siblings_facts d (mem st) p pn ls1 a b ls2 Hrep Hshape Hnd)
    as (pn0' & an0 & bn0 & Hp & Hep & Hpa & Hea & Hpb & Heb & Hnf & L & Hch & Hlen
        & Hr1 & Hr2 & Hrka & Hrkb & Hk1 & Hk2 & Hsa & Hsb & Dpa & Dpb & Dab & Hdis).
  rewrite Hp0 in Hp. injection Hp as <-. rename Hp0 into Hp.
  destruct a as [pa an ka]. destruct b as [pb bn kb].
  cbn [root_of node_of kids_of] in *. subst pn an bn.
  pose proof (fun h' pnF anF sk sv =>
            merge_assembly d (mem st) h' p _ ls1 _ _ ls2 pn0 an0 bn0 pnF anF sk sv
              Hrep Hshape Hnd Hp Hpa Hpb Hleaf Hsz) as Hasm.
  cbn [root_of node_of kids_of] in Hasm.
  set (t := BNode p (erase pn0)
              (ls1 ++ BNode pa (erase an0) ka :: BNode pb (erase bn0) kb :: ls2)) in *.
  assert (Hout : forall q, ~ In q (ptrs t) ->
                   q <> p /\ q <> pa /\ q <> pb /\ ~ In q (flat_map ptrs kb)).
  { intros q Hq. unfold t in Hq. cbn [ptrs] in Hq. rewrite flat_map_app in Hq.
    cbn [flat_map ptrs] in Hq. repeat split; try intros ->; try intros Hin; apply Hq.
    - left. reflexivity.
    - right. apply in_app_iff. right. left. reflexivity.
    - right. apply in_app_iff. right. apply in_app_iff. right. left. reflexivity.
    - right. apply in_app_iff. right. apply in_app_iff. right. right.
      apply in_app_iff. left. assumption. }
  cbn [erase set_Parent IsLeaf Size] in Hleaf, Hsz.
  apply shape_ok_node in Hsa. destruct Hsa as (Af & Ala & Aia & Aka).
  apply shape_ok_node in Hsb. destruct Hsb as (Bf & Bla & Bia & Bka).
  apply (proj1 (node_facts_erase _ _)) in Af, Bf.
  cbn [erase set_Parent IsLeaf Children] in Ala, Aia, Bla, Bia.
  destruct Hnf as [N1 N2 N3 N4 N5 N6 N7].
  destruct Af as [A1 A2 A3 A4 A5 A6 A7].
  destruct Bf as [B1 B2 B3 B4 B5 B6 B7].
  specialize (N7 L).
  pose proof (len_nonneg (Keys pn0)) as HK.
  pose proof (len_nonneg (Keys an0)) as HKa.
  pose proof (len_nonneg (Keys bn0)) as HKb.
  set (i := length ls1) in *.
  assert (Hi : len ls1 = Z.of_nat i) by reflexivity.
  assert (Hka : Children pn0 !! i = Some pa).
  { rewrite Hch, map_app. rewrite lookup_app_r by (rewrite length_map; unfold i; lia).
    rewrite length_map. unfold i. rewrite Nat.sub_diag. reflexivity. }
  assert (Hkb : Children pn0 !! S i = Some pb).
  { rewrite Hch, map_app. rewrite lookup_app_r by (rewrite length_map; unfold i; lia).
    rewrite length_map. unfold i.
    replace (S (length ls1) - length ls1)%nat with 1%nat by lia. reflexivity. }
  destruct (lookup_lt_is_Some_2 (Keys pn0) i) as [sk Hsk]; [lia|].
  destruct (lookup_lt_is_Some_2 (Values pn0) i) as [sv Hsv]; [unfold len in *; lia|].
  unfold mergeChildren. rewrite Hi.
  apply wp_bind. eapply wp_load; [exact Hp|].
  rewrite (d_wrap d Hd (Z.of_nat i + 1)) by (unfold len in *; lia).
  rewrite (d_wrap d Hd (len (Children pn0) - 1)) by (unfold len in *; lia).
  replace ((Z.of_nat i <? 0) || (Z.of_nat i >=? len (Children pn0) - 1)) with false.
  2:{ symmetry. apply orb_false_iff. split; [apply Z.ltb_ge; lia|].
      rewrite Z.geb_leb. apply Z.leb_gt. unfold len in *. lia. }
  apply wp_bind. eapply wp_index; [lia|rewrite Nat2Z.id; exact Hka|].
  apply wp_bind. eapply wp_index; [lia| |].
  { replace (Z.to_nat (Z.of_nat i + 1)) with (S i) by lia. exact Hkb. }
  apply wp_bind. eapply wp_load; [exact Hpa|].
  apply wp_bind. eapply wp_load; [exact Hpb|].
  apply wp_bind. eapply wp_load; [exact Hp|].
  apply wp_bind. eapply wp_index; [lia|rewrite Nat2Z.id; exact Hsk|].
  apply wp_bind. eapply wp_index; [lia|rewrite Nat2Z.id; exact Hsv|].
  apply wp_bind. eapply wp_modify_frame; [exact Hpa|]. intros st1 Hpa1 F1 X1 T1.
  pose proof Hp as Hp1. rewrite <- (F1 p) in Hp1 by congruence.
  pose proof Hpb as Hpb1. rewrite <- (F1 pb) in Hpb1 by congruence.
  apply wp_bind. eapply wp_load; [exact Hpb1|].
  apply wp_bind. eapply wp_modify_frame; [exact Hpa1|]. intros st2 Hpa2 F2 X2 T2.
  pose proof Hp1 as Hp2. rewrite <- (F2 p) in Hp2 by congruence.
  pose proof Hpb1 as Hpb2. rewrite <- (F2 pb) in Hpb2 by congruence.
  cbn [set_Size set_Values set_Keys Keys Values] in Hpa2.
  rewrite <- !app_assoc in Hpa2. cbn [app] in Hpa2.
  apply wp_bind. eapply wp_load; [exact Hpa2|].
  cbn [set_Size set_Values set_Keys IsLeaf].
  assert (Hframe2 : forall q, q <> p -> q <> pa -> mem st2 !! q = mem st !! q).
  { intros q Q1 Q2. rewrite F2, F1 by assumption. reflexivity. }
  apply wp_bind.
  apply (wp_mono _ (fun _ s =>
           tree s = tree st /\ next_ptr s = next_ptr st /\
           mem s !! p = Some pn0 /\
           (exists anF, mem s !! pa = Some anF /\
              erase anF
              = erase (set_Children (if IsLeaf an0 then Children an0
                                     else Children an0 ++ Children bn0)
                         (set_Size (Size an0 + 1 + Size bn0)
                            (set_Values (Values an0 ++ sv :: Values bn0)
                               (set_Keys (Keys an0 ++ sk :: Keys bn0) an0))))) /\
           (forall q, q <> p -> q <> pa -> q <> pb ->
                      erase <$> mem s !! q = erase <$> mem st !! q) /\
           (forall q, ~ In q (ptrs t) -> mem s !! q = mem st !! q))).
  { destruct (IsLeaf an0) eqn:La.
    - apply wp_ret.
      split; [congruence|]. split; [congruence|]. split; [exact Hp2|].
      split.
      { eexists. split; [exact Hpa2|].
        apply erase_ext; try reflexivity.
        cbn [set_Children set_Size set_Values set_Keys Size Keys].
        rewrite len_app, len_cons. lia. }
      split.
      { intros q Q1 Q2 Q3. rewrite Hframe2 by assumption. reflexivity. }
      intros q Hq. destruct (Hout q Hq) as (Q1 & Q2 & Q3 & Q4).
      apply Hframe2; assumption.
    - apply wp_bind. eapply wp_load; [exact Hpb2|].
      apply wp_bind. eapply wp_modify_frame; [exact Hpa2|]. intros st3 Hpa3 F3 X3 T3.
      pose proof Hp2 as Hp3. rewrite <- (F3 p) in Hp3 by congruence.
      pose proof Hpb2 as Hpb3. rewrite <- (F3 pb) in Hpb3 by congruence.
      apply wp_bind. eapply wp_load; [exact Hpb3|].
      assert (Hcs : forall q, In q (Children bn0) ->
                      q <> p /\ q <> pa /\ q <> pb /\ In q (flat_map ptrs kb)).
      { intros q Hq. rewrite <- (Bia ltac:(congruence)) in Hq.
        apply in_map_iff in Hq. destruct Hq as (k & <- & Hk).
        assert (Hin : In (root_of k) (flat_map ptrs kb)).
        { apply in_flat_map. exists k. split; [exact Hk|apply root_in_ptrs]. }
        destruct (Hdis (root_of k)) as (Q1 & Q2 & Q3); [tauto|]. tauto. }
      apply wp_reparent.
      + intros q Hq. destruct (Hcs q Hq) as (Q1 & Q2 & Q3 & Q4).
        rewrite F3, Hframe2 by assumption.
        rewrite <- (Bia ltac:(congruence)) in Hq.
        apply in_map_iff in Hq. destruct Hq as (k & <- & Hk).
        rewrite Forall_forall in Hrkb.
        destruct (rep_lookup _ _ (Hrkb k ltac:(apply list_elem_of_In; exact Hk)))
          as (n' & Hn' & _).
        rewrite Hn'. eexists. reflexivity.
      + intros h' Hin Hnin. cbn [mem next_ptr tree].
        assert (Hncs : forall q, q = p \/ q = pa -> ~ In q (Children bn0)).
        { intros q Hq Hc. destruct (Hcs q Hc) as (Q1 & Q2 & _).
          destruct Hq; contradiction. }
        split; [congruence|]. split; [congruence|].
        split; [rewrite Hnin by (apply Hncs; auto); exact Hp3|].
        split.
        { eexists. split; [rewrite Hnin by (apply Hncs; auto); exact Hpa3|].
          apply erase_ext; try reflexivity.
          cbn [set_Children set_Size set_Values set_Keys Size Keys].
          rewrite len_app, len_cons. lia. }
        split.
        { intros q Q1 Q2 Q3.
          destruct (in_dec Pos.eq_dec q (Children bn0)) as [Hc|Hc].
          - rewrite (Hin q Hc), F3, Hframe2 by assumption.
            destruct (mem st !! q); reflexivity.
          - rewrite (Hnin q Hc), F3, Hframe2 by assumption. reflexivity. }
        intros q Hq. destruct (Hout q Hq) as (Q1 & Q2 & Q3 & Q4).
        rewrite Hnin, F3, Hframe2; auto.
        intros Hc. apply Q4. apply (Hcs q Hc). }
  intros [] s (S1 & S2 & Sp & (anF & Spa & EaF) & SE & Sout).
  clear dependent st1. clear dependent st2.
  apply wp_bind. eapply wp_load; [exact Sp|].
  rewrite (d_wrap d Hd (Z.of_nat i + 2)) by (unfold len in *; lia).
  apply wp_bind. apply wp_slice_to; [unfold len in *; lia|].
  apply wp_bind. apply wp_slice_from; [unfold len in *; lia|].
  apply wp_bind. apply wp_slice_to; [unfold len in *; lia|].
  apply wp_bind. apply wp_slice_from; [unfold len in *; lia|].
  apply wp_bind. apply wp_slice_to; [unfold len in *; lia|].
  apply wp_bind. apply wp_slice_from; [unfold len in *; lia|].
  rewrite Nat2Z.id.
  replace (Z.to_nat (Z.of_nat i + 1)) with (S i) by lia.
  replace (Z.to_nat (Z.of_nat i + 2)) with (S (S i)) by lia.
  assert (Hlk : len (take i (Keys pn0) ++ drop (S i) (Keys pn0)) = Size pn0 - 1).
  { unfold len in *. rewrite length_app, length_take, length_drop. lia. }
  assert (Hlc : len (take (S i) (Children pn0) ++ drop (S (S i)) (Children pn0))
                = Size pn0).
  { unfold len in *. rewrite length_app, length_take, length_drop. lia. }
  apply wp_bind. eapply wp_modify_frame; [exact Sp|]. intros stF HpF FF XF TF.
  pose proof Spa as HaF. rewrite <- (FF pa) in HaF by congruence.
  destruct (Hasm (mem stF) _ anF sk sv Hsk Hsv HpF HaF)
    as (R1 & R2 & R3 & R4 & R5 & R6).
  { apply erase_ext; try reflexivity.
    cbn [set_Children set_Size set_Values set_Keys Size Keys]. exact Hlk. }
  { exact EaF. }
  { intros q Q1 Q2 Q3. rewrite FF by assumption. apply SE; assumption. }
  apply wp_bind. eapply wp_load; [exact HpF|].
  cbn [set_Size set_Children set_Values set_Keys Children Size].
  rewrite Hlk, Hlc.
  rewrite (d_wrap d Hd (Size pn0 - 1 + 1)) by (unfold len in *; lia).
  replace (Size pn0 =? Size pn0 - 1 + 1) with true by (symmetry; apply Z.eqb_eq; lia).
  cbn [negb].
  match type of R1 with rep _ ?t0 => set (t' := t0) in * end.
  apply wp_bind.
  apply (checkInvariants_ok d Hd fuel t' stF); [exact R1|exact R2|lia|].
  apply wp_bind. eapply wp_load; [exact HpF|].
  cbn [set_Size set_Children set_Values set_Keys Parent Size].
  rewrite Hlk.
  replace (Size pn0 - 1 =? 0) with (Size pn0 =? 1).
  2:{ destruct (Z.eqb_spec (Size pn0) 1), (Z.eqb_spec (Size pn0 - 1) 0);
        try reflexivity; lia. }
  rewrite (andb_comm (Size pn0 =? 1)).
  destruct (bool_decide (Parent pn0 = None) && (Size pn0 =? 1)) eqn:Eroot.
  - apply wp_bind. eapply wp_load; [exact HaF|].
    apply wp_bind, wp_modify_tree.
    apply wp_bind. eapply wp_modify_frame; [exact HaF|].
    intros stG HaG FG XG TG.
    apply wp_modify_tree.
    cbn [mem next_ptr tree] in *.
    assert (EG : forall q, erase <$> mem stG !! q = erase <$> mem stF !! q).
    { intros q. destruct (decide (q = pa)) as [->|Q].
      - rewrite HaG, HaF. reflexivity.
      - rewrite FG by exact Q. reflexivity. }
    eexists _, _. fold t'.
    split; [rewrite TG; cbn [tree set_Height set_Root Height]; congruence|].
    split; [congruence|].
    split; [apply (rep_ext (mem stF)); [exact R1|intros q _; apply EG]|].
    split; [exact R2|]. split; [exact R3|].
    split; [reflexivity|]. split; [reflexivity|].
    split; [cbn [node_of]; rewrite EaF; reflexivity|].
    split; [cbn [erase set_Parent set_Size Size]; exact Hlk|].
    split; [exact R6|]. split; [exact R5|].
    intros q Hq. destruct (Hout q Hq) as (Q1 & Q2 & Q3 & Q4).
    rewrite FG, FF by assumption. apply Sout. exact Hq.
  - apply wp_ret.
    eexists _, _. fold t'.
    split; [congruence|]. split; [congruence|].
    split; [exact R1|]. split; [exact R2|]. split; [exact R3|].
    split; [reflexivity|]. split; [reflexivity|].
    split; [cbn [node_of]; rewrite EaF; reflexivity|].
    split; [cbn [erase set_Parent set_Size Size]; exact Hlk|].
    split; [exact R6|]. split; [exact R5|].
    intros q Hq. destruct (Hout q Hq) as (Q1 & Q2 & Q3 & Q4).
    rewrite FF by assumption. apply Sout. exact Hq.
Qed.


(** X27.  [mergeChildren] folds the children on both sides of a separator
    into the left one: when both are leaves or both internal and all their
    keys and the separator fit into one node, the call returns, the node
    loses the separator and the right child, the result is well formed, and
    the entries in symmetric order are the same as before; when the node
    has no parent pointer and loses its only key, the left child becomes
    the root of the tree and [Height] goes down by one. *)
Theorem mergeChildren_keeps_entries d (fuel : nat) st p pn ls1 a b ls2 pn0 :
  d < 2 ^ 62 ->
  rep (mem st) (BNode p pn (ls1 ++ a :: b :: ls2)) ->
  shape_ok d (BNode p pn (ls1 ++ a :: b :: ls2)) = true ->
  NoDup (ptrs (BNode p pn (ls1 ++ a :: b :: ls2))) ->
  (height (BNode p pn (ls1 ++ a :: b :: ls2)) <= fuel)%nat ->
  IsLeaf (node_of a) = IsLeaf (node_of b) ->
  Size (node_of a) + 1 + Size (node_of b) <= 2 * d - 1 ->
  mem st !! p = Some pn0 ->
  exists st' pn' ab,
    mergeChildren fuel p (len ls1) st = Ok (tt, st') /\
    tree st'
    = (if bool_decide (Parent pn0 = None) && (Size pn0 =? 1)
       then set_Height (wrap (Height (tree st) - 1))
              (set_Root (Some (root_of a)) (tree st))
       else tree st) /\
    next_ptr st' = next_ptr st /\
    rep (mem st') (BNode p pn' (ls1 ++ ab :: ls2)) /\
    shape_ok d (BNode p pn' (ls1 ++ ab :: ls2)) = true /\
    entries (BNode p pn' (ls1 ++ ab :: ls2))
    = entries (BNode p pn (ls1 ++ a :: b :: ls2)) /\
    root_of ab = root_of a /\
    kids_of ab = kids_of a ++ kids_of b /\
    Size (node_of ab) = Size (node_of a) + 1 + Size (node_of b) /\
    Size pn' = Size pn - 1 /\
    NoDup (ptrs (BNode p pn' (ls1 ++ ab :: ls2))) /\
    (forall q, In q (ptrs (BNode p pn' (ls1 ++ ab :: ls2))) ->
               In q (ptrs (BNode p pn (ls1 ++ a :: b :: ls2)))) /\
    (forall q, ~ In q (ptrs (BNode p pn (ls1 ++ a :: b :: ls2))) ->
               mem st' !! q = mem st !! q).
Proof.
  intros Hd Hrep Hshape Hnd Hfuel Hleaf Hsz Hp.
  pose proof (mergeChildren_wp d fuel st p pn ls1 a b ls2 pn0
                Hd Hrep Hshape Hnd Hfuel Hleaf Hsz Hp) as W.
  apply wp_elim in W. destruct W as ([] & st' & Hrun & pn' & ab & W).
  exists st', pn', ab. split; [exact Hrun|exact W].
Qed.

Lemma find_child_app (cs1 cs2 : list ptr) (c : ptr) (j : Z) :
  ~ In c cs1 -> find_child (cs1 ++ c :: cs2) c j = j + len cs1.
Proof.
  revert j. induction cs1 as [|x cs1 IH]; intros j Hn; cbn [app find_child].
  - rewrite bool_decide_eq_true_2 by reflexivity. unfold len. cbn. lia.
  - rewrite bool_decide_eq_false_2 by (intros ->; apply Hn; left; reflexivity).
    rewrite IH by (intros H; apply Hn; right; exact H).
    rewrite len_cons. lia.
Qed.

Lemma find_child_kid p n ls1 (k : @btree V) ls2 :
  NoDup (ptrs (BNode p n (ls1 ++ k :: ls2))) ->
  find_child (map root_of (ls1 ++ k :: ls2)) (root_of k) 0 = len ls1.
Proof.
  intros Hnd. rewrite map_app. cbn [map].
  rewrite find_child_app; [unfold len; rewrite length_map; lia|].
  intros Hin. apply in_map_iff in Hin. destruct Hin as (x & Hx & Hin).
  destruct (NoDup_kid _ _ _ _ _ Hnd) as [_ Hdisj].
  destruct (Hdisj (root_of k) (root_in_ptrs k)) as (_ & H1 & _).
  apply H1. apply in_flat_map. exists x. split; [exact Hin|].
  rewrite <- Hx. apply root_in_ptrs.
Qed.

Lemma balanceAfterDeletion_right_wp d (gas f : nat) st p pn ls1 a b ls2 an0 :
  d < 2 ^ 62 ->
  rep (mem st) (BNode p pn (ls1 ++ a :: b :: ls2)) ->
  shape_ok d (BNode p pn (ls1 ++ a :: b :: ls2)) = true ->
  NoDup (ptrs (BNode p pn (ls1 ++ a :: b :: ls2))) ->
  IsLeaf (node_of a) = IsLeaf (node_of b) ->
  mem st !! root_of a = Some an0 -> Parent an0 = Some p ->
  Size an0 < MinKeys an0 ->
  (forall l, last ls1 = Some l -> Size (node_of l) <= MinKeys (node_of l)) ->
  MinKeys (node_of b) < Size (node_of b) ->
  wp (balanceAfterDeletion gas (S f) (root_of a))
     (fun _ st' => exists pn' a' b',
        tree st' = tree st /\ next_ptr st' = next_ptr st /\
        rep (mem st') (BNode p pn' (ls1 ++ a' :: b' :: ls2)) /\
        shape_ok d (BNode p pn' (ls1 ++ a' :: b' :: ls2)) = true /\
        entries (BNode p pn' (ls1 ++ a' :: b' :: ls2))
        = entries (BNode p pn (ls1 ++ a :: b :: ls2)) /\
        root_of a' = root_of a /\ root_of b' = root_of b /\
        Size (node_of a') = Size (node_of a) + 1 /\
        Size (node_of b') = Size (node_of b) - 1 /\
        ptrs (BNode p pn' (ls1 ++ a' :: b' :: ls2))
        ≡ₚ ptrs (BNode p pn (ls1 ++ a :: b :: ls2)) /\
        (forall q, ~ In q (ptrs (BNode p pn (ls1 ++ a :: b :: ls2))) ->
                   mem st' !! q = mem st !! q)) st.
Proof.
  intros Hd Hrep Hshape Hnd Hleaf Hpa0 Hpar Hunder Hleft Hlend.
  pose proof (find_child_kid _ _ _ _ _ Hnd) as Hfind.
  destruct (siblings_facts d (mem st) p pn ls1 a b ls2 Hrep Hshape Hnd)
    as (pn0 & an0' & bn0 & Hp & Hep & Hpa & Hea & Hpb & Heb & Hnf & L & Hch & Hlen
        & Hr1 & Hr2 & Hrka & Hrkb & Hk1 & Hk2 & Hsa & Hsb & Dpa & Dpb & Dab & Hdis).
  rewrite Hpa0 in Hpa. injection Hpa as <-. rename Hpa0 into Hpa.
  assert (Hwp := borrowFromRightSibling_wp d st p pn ls1 a b ls2 Hd Hrep Hshape Hnd
                   Hleaf).
  destruct a as [pa an ka]. destruct b as [pb bn kb].
  cbn [root_of node_of kids_of] in *. subst pn an bn.
  cbn [erase set_Parent IsLeaf Size MinKeys] in Hleaf, Hlend, Hwp.
  apply shape_ok_node in Hsa. destruct Hsa as (Af & _).
  apply shape_ok_node in Hsb. destruct Hsb as (Bf & _).
  apply (proj1 (node_facts_erase _ _)) in Af, Bf.
  destruct Hnf as [N1 N2 N3 N4 N5 N6 N7].
  destruct Af as [A1 A2 A3 A4 A5 A6 A7].
  destruct Bf as [B1 B2 B3 B4 B5 B6 B7].
  specialize (N7 L).
  pose proof (len_nonneg (Keys pn0)) as HK.
  pose proof (len_nonneg (Keys an0)) as HKa.
  set (i := length ls1) in *.
  assert (Hi : len ls1 = Z.of_nat i) by reflexivity.
  assert (Hkb : Children pn0 !! S i = Some pb).
  { rewrite Hch, map_app. rewrite lookup_app_r by (rewrite length_map; unfold i; lia).
    rewrite length_map. unfold i.
    replace (S (length ls1) - length ls1)%nat with 1%nat by lia. reflexivity. }
  cbn [balanceAfterDeletion].
  apply wp_bind. eapply wp_load; [exact Hpa|].
  replace ((Size an0 >=? MinKeys an0) || bool_decide (Parent an0 = None)) with false.
  2:{ symmetry. apply orb_false_iff. split.
      - rewrite Z.geb_leb. apply Z.leb_gt. lia.
      - apply bool_decide_eq_false_2. congruence. }
  rewrite Hpar. apply wp_bind, wp_deref.
  apply wp_bind. eapply wp_load; [exact Hp|].
  rewrite Hch, Hfind, Hi. rewrite <- Hch.
  replace ((Z.of_nat i <? 0) || (Z.of_nat i >=? len (Children pn0))) with false.
  2:{ symmetry. apply orb_false_iff. split; [apply Z.ltb_ge; lia|].
      rewrite Z.geb_leb. apply Z.leb_gt. unfold len in *. lia. }
  apply wp_bind.
  apply (wp_mono _ (fun r s => r = false /\ s = st)).
  { destruct (Z.of_nat i >? 0) eqn:Ei; [|apply wp_ret; auto].
    rewrite Z.gtb_ltb in Ei. apply Z.ltb_lt in Ei.
    destruct (exists_last (l := ls1)) as (ls1' & l & Els).
    { intros E0. unfold i in Ei. rewrite E0 in Ei. cbn in Ei. lia. }
    assert (Hll : last ls1 = Some l) by (rewrite Els; apply last_snoc).
    specialize (Hleft l Hll).
    assert (Hrl : rep (mem st) l).
    { rewrite Forall_forall in Hr1. apply Hr1. rewrite Els.
      apply elem_of_app. right. left. }
    destruct (rep_lookup _ _ Hrl) as (ln0 & Hl0 & Hel).
    rewrite <- Hel in Hleft. cbn [erase set_Parent Size MinKeys] in Hleft.
    rewrite (d_wrap d Hd (Z.of_nat i - 1)) by (unfold len in *; lia).
    apply wp_bind. eapply wp_index; [lia| |].
    { rewrite Hch, map_app. rewrite lookup_app_l by (rewrite length_map; unfold i; lia).
      rewrite Els, map_app. cbn [map].
      rewrite lookup_app_r by (rewrite length_map; unfold i; rewrite Els, length_app;
                               cbn [length]; lia).
      rewrite length_map. unfold i. rewrite Els, length_app. cbn [length].
      replace (Z.to_nat (Z.of_nat (length ls1' + 1) - 1) - length ls1')%nat
        with 0%nat by lia.
      reflexivity. }
    apply wp_bind. eapply wp_load; [exact Hl0|].
    replace (Size ln0 >? MinKeys ln0) with false
      by (symmetry; rewrite Z.gtb_ltb; apply Z.ltb_ge; lia).
    apply wp_ret. auto. }
  intros r s [-> ->].
  apply wp_bind. eapply wp_load; [exact Hp|].
  rewrite (d_wrap d Hd (len (Children pn0) - 1)) by (unfold len in *; lia).
  rewrite (d_wrap d Hd (Z.of_nat i + 1)) by (unfold len in *; lia).
  replace (Z.of_nat i <? len (Children pn0) - 1) with true
    by (symmetry; apply Z.ltb_lt; unfold len in *; lia).
  apply wp_bind. apply wp_bind. eapply wp_index; [lia| |].
  { replace (Z.to_nat (Z.of_nat i + 1)) with (S i) by lia. exact Hkb. }
  apply wp_bind. eapply wp_load; [exact Hpb|].
  replace (Size bn0 >? MinKeys bn0) with true
    by (symmetry; rewrite Z.gtb_ltb; apply Z.ltb_lt; lia).
  apply wp_bind. rewrite <- Hi.
  eapply wp_mono; [apply Hwp; lia|].
  intros [] s HQ. apply wp_ret. apply wp_ret. exact HQ.
Qed.

Lemma balanceAfterDeletion_left_wp d (gas f : nat) st p pn ls1 a b ls2 bn0 :
  d < 2 ^ 62 ->
  rep (mem st) (BNode p pn (ls1 ++ a :: b :: ls2)) ->
  shape_ok d (BNode p pn (ls1 ++ a :: b :: ls2)) = true ->
  NoDup (ptrs (BNode p pn (ls1 ++ a :: b :: ls2))) ->
  (height (BNode p pn (ls1 ++ a :: b :: ls2)) <= gas)%nat ->
  IsLeaf (node_of a) = true -> IsLeaf (node_of b) = true ->
  mem st !! root_of b = Some bn0 -> Parent bn0 = Some p ->
  Size bn0 < MinKeys bn0 ->
  MinKeys (node_of a) < Size (node_of a) ->
  wp (balanceAfterDeletion gas (S f) (root_of b))
     (fun _ st' => exists pn' a' b',
        tree st' = tree st /\ next_ptr st' = next_ptr st /\
        rep (mem st') (BNode p pn' (ls1 ++ a' :: b' :: ls2)) /\
        shape_ok d (BNode p pn' (ls1 ++ a' :: b' :: ls2)) = true /\
        entries (BNode p pn' (ls1 ++ a' :: b' :: ls2))
        = entries (BNode p pn (ls1 ++ a :: b :: ls2)) /\
        root_of a' = root_of a /\ root_of b' = root_of b /\
        Size (node_of a') = Size (node_of a) - 1 /\
        Size (node_of b') = Size (node_of b) + 1 /\
        ptrs (BNode p pn' (ls1 ++ a' :: b' :: ls2))
        = ptrs (BNode p pn (ls1 ++ a :: b :: ls2)) /\
        (forall q, ~ In q (ptrs (BNode p pn (ls1 ++ a :: b :: ls2))) ->
                   mem st' !! q = mem st !! q)) st.
Proof.
  intros Hd Hrep Hshape Hnd Hgas La Lb Hpb0 Hpar Hunder Hlend.
  assert (Hfind : find_child (map root_of (ls1 ++ a :: b :: ls2)) (root_of b) 0
                  = len ls1 + 1).
  { replace (ls1 ++ a :: b :: ls2) with ((ls1 ++ [a]) ++ b :: ls2) in *
      by (rewrite <- app_assoc; reflexivity).
    rewrite (find_child_kid _ _ _ _ _ Hnd). rewrite len_app. reflexivity. }
  destruct (siblings_facts d (mem st) p pn ls1 a b ls2 Hrep Hshape Hnd)
    as (pn0 & an0 & bn0' & Hp & Hep & Hpa & Hea & Hpb & Heb & Hnf & L & Hch & Hlen
        & Hr1 & Hr2 & Hrka & Hrkb & Hk1 & Hk2 & Hsa & Hsb & Dpa & Dpb & Dab & Hdis).
  rewrite Hpb0 in Hpb. injection Hpb as <-. rename Hpb0 into Hpb.
  assert (Hwp := borrowFromLeftSibling_leaf_wp d gas st p pn ls1 a b ls2 Hd Hrep Hshape
                   Hnd Hgas La Lb).
  destruct a as [pa an ka]. destruct b as [pb bn kb].
  cbn [root_of node_of kids_of] in *. subst pn an bn.
  cbn [erase set_Parent IsLeaf Size MinKeys] in La, Lb, Hlend, Hwp.
  apply shape_ok_node in Hsa. destruct Hsa as (Af & _).
  apply shape_ok_node in Hsb. destruct Hsb as (Bf & _).
  apply (proj1 (node_facts_erase _ _)) in Af, Bf.
  destruct Hnf as [N1 N2 N3 N4 N5 N6 N7].
  destruct Af as [A1 A2 A3 A4 A5 A6 A7].
  destruct Bf as [B1 B2 B3 B4 B5 B6 B7].
  specialize (N7 L).
  pose proof (len_nonneg (Keys pn0)) as HK.
  pose proof (len_nonneg (Keys an0)) as HKa.
  pose proof (len_nonneg (Keys bn0)) as HKb.
  set (i := length ls1) in *.
  assert (Hi : len ls1 = Z.of_nat i) by reflexivity.
  assert (Hka : Children pn0 !! i = Some pa).
  { rewrite Hch, map_app. rewrite lookup_app_r by (rewrite length_map; unfold i; lia).
    rewrite length_map. unfold i. rewrite Nat.sub_diag. reflexivity. }
  cbn [balanceAfterDeletion].
  apply wp_bind. eapply wp_load; [exact Hpb|].
  replace ((Size bn0 >=? MinKeys bn0) || bool_decide (Parent bn0 = None)) with false.
  2:{ symmetry. apply orb_false_iff. split.
      - rewrite Z.geb_leb. apply Z.leb_gt. lia.
      - apply bool_decide_eq_false_2. congruence. }
  rewrite Hpar. apply wp_bind, wp_deref.
  apply wp_bind. eapply wp_load; [exact Hp|].
  rewrite Hch, Hfind, Hi. rewrite <- Hch.
  replace ((Z.of_nat i + 1 <? 0) || (Z.of_nat i + 1 >=? len (Children pn0)))
    with false.
  2:{ symmetry. apply orb_false_iff. split; [apply Z.ltb_ge; lia|].
      rewrite Z.geb_leb. apply Z.leb_gt. unfold len in *. lia. }
  replace (Z.of_nat i + 1 >? 0) with true
    by (symmetry; rewrite Z.gtb_ltb; apply Z.ltb_lt; lia).
  rewrite (d_wrap d Hd (Z.of_nat i + 1 - 1)) by (unfold len in *; lia).
  apply wp_bind. apply wp_bind. eapply wp_index; [lia| |].
  { replace (Z.to_nat (Z.of_nat i + 1 - 1)) with i by lia. exact Hka. }
  apply wp_bind. eapply wp_load; [exact Hpa|].
  replace (Size an0 >? MinKeys an0) with true
    by (symmetry; rewrite Z.gtb_ltb; apply Z.ltb_lt; lia).
  apply wp_bind. rewrite <- Hi.
  eapply wp_mono; [apply Hwp; lia|].
  intros [] s HQ. apply wp_ret. apply wp_ret. exact HQ.
Qed.

(** X28.  [balanceAfterDeletion] on an under-full child whose left
    neighbour cannot lend and whose right neighbour can: with the parent
    pointer of the child in place, the call returns and is the left
    rotation of [borrowFromRightSibling]: the child gains one key, the
    right neighbour loses one, the parent's subtree stays well formed and
    its entries in symmetric order are the same as before. *)
Theorem balanceAfterDeletion_borrows_from_right
    d (gas f : nat) st p pn ls1 a b ls2 an0 :
  d < 2 ^ 62 ->
  rep (mem st) (BNode p pn (ls1 ++ a :: b :: ls2)) ->
  shape_ok d (BNode p pn (ls1 ++ a :: b :: ls2)) = true ->
  NoDup (ptrs (BNode p pn (ls1 ++ a :: b :: ls2))) ->
  IsLeaf (node_of a) = IsLeaf (node_of b) ->
  mem st !! root_of a = Some an0 -> Parent an0 = Some p ->
  Size an0 < MinKeys an0 ->
  (forall l, last ls1 = Some l -> Size (node_of l) <= MinKeys (node_of l)) ->
  MinKeys (node_of b) < Size (node_of b) ->
  exists st' pn' a' b',
    balanceAfterDeletion gas (S f) (root_of a) st = Ok (tt, st') /\
    tree st' = tree st /\ next_ptr st' = next_ptr st /\
    rep (mem st') (BNode p pn' (ls1 ++ a' :: b' :: ls2)) /\
    shape_ok d (BNode p pn' (ls1 ++ a' :: b' :: ls2)) = true /\
    entries (BNode p pn' (ls1 ++ a' :: b' :: ls2))
    = entries (BNode p pn (ls1 ++ a :: b :: ls2)) /\
    root_of a' = root_of a /\ root_of b' = root_of b /\
    Size (node_of a') = Size (node_of a) + 1 /\
    Size (node_of b') = Size (node_of b) - 1 /\
    ptrs (BNode p pn' (ls1 ++ a' :: b' :: ls2))
    ≡ₚ ptrs (BNode p pn (ls1 ++ a :: b :: ls2)) /\
    (forall q, ~ In q (ptrs (BNode p pn (ls1 ++ a :: b :: ls2))) ->
               mem st' !! q = mem st !! q).
Proof.
  intros Hd Hrep Hshape Hnd Hleaf Hpa Hpar Hunder Hleft Hlend.
  pose proof (balanceAfterDeletion_right_wp d gas f st p pn ls1 a b ls2 an0
                Hd Hrep Hshape Hnd Hleaf Hpa Hpar Hunder Hleft Hlend) as W.
  apply wp_elim in W. destruct W as ([] & st' & Hrun & pn' & a' & b' & W).
  exists st', pn', a', b'. split; [exact Hrun|exact W].
Qed.

(** X29.  [balanceAfterDeletion] on an under-full leaf whose left neighbour
    is a leaf with more than [MinKeys] keys: with the parent pointer of the
    leaf in place, the call returns and is the right rotation of
    [borrowFromLeftSibling]: the leaf gains the separator, the left
    neighbour loses its last key, the parent's subtree stays well formed
    and its entries in symmetric order are the same as before. *)
Theorem balanceAfterDeletion_borrows_from_left
    d (gas f : nat) st p pn ls1 a b ls2 bn0 :
  d < 2 ^ 62 ->
  rep (mem st) (BNode p pn (ls1 ++ a :: b :: ls2)) ->
  shape_ok d (BNode p pn (ls1 ++ a :: b :: ls2)) = true ->
  NoDup (ptrs (BNode p pn (ls1 ++ a :: b :: ls2))) ->
  (height (BNode p pn (ls1 ++ a :: b :: ls2)) <= gas)%nat ->
  IsLeaf (node_of a) = true -> IsLeaf (node_of b) = true ->
  mem st !! root_of b = Some bn0 -> Parent bn0 = Some p ->
  Size bn0 < MinKeys bn0 ->
  MinKeys (node_of a) < Size (node_of a) ->
  exists st' pn' a' b',
    balanceAfterDeletion gas (S f) (root_of b) st = Ok (tt, st') /\
    tree st' = tree st /\ next_ptr st' = next_ptr st /\
    rep (mem st') (BNode p pn' (ls1 ++ a' :: b' :: ls2)) /\
    shape_ok d (BNode p pn' (ls1 ++ a' :: b' :: ls2)) = true /\
    entries (BNode p pn' (ls1 ++ a' :: b' :: ls2))
    = entries (BNode p pn (ls1 ++ a :: b :: ls2)) /\
    root_of a' = root_of a /\ root_of b' = root_of b /\
    Size (node_of a') = Size (node_of a) - 1 /\
    Size (node_of b') = Size (node_of b) + 1 /\
    ptrs (BNode p pn' (ls1 ++ a' :: b' :: ls2))
    = ptrs (BNode p pn (ls1 ++ a :: b :: ls2)) /\
    (forall q, ~ In q (ptrs (BNode p pn (ls1 ++ a :: b :: ls2))) ->
               mem st' !! q = mem st !! q).
Proof.
  intros Hd Hrep Hshape Hnd Hgas La Lb Hpb Hpar Hunder Hlend.
  pose proof (balanceAfterDeletion_left_wp d gas f st p pn ls1 a b ls2 bn0
                Hd Hrep Hshape Hnd Hgas La Lb Hpb Hpar Hunder Hlend) as W.
  apply wp_elim in W. destruct W as ([] & st' & Hrun & pn' & a' & b' & W).
  exists st', pn', a', b'. split; [exact Hrun|exact W].
Qed.

End Balance.

(** ** Witnesses *)

Lemma order_demo_rep :
  rep (mem order_demo) order_demo_tree /\
  shape_ok 2 order_demo_tree = true /\
  NoDup (ptrs order_demo_tree).
Proof.
  destruct order_demo_facts as (_ & _ & H3 & H4 & _).
  apply tree_of_sound in H3. destruct H3 as [_ H3].
  apply wf_tree_facts in H4. destruct H4 as (H4 & H5 & _).
  split; [exact H3|]. split; [exact H4|exact H5].
Defined.

Lemma borrowFromRightSibling_keeps_entries_witness :
  (2 < 2 ^ 62 /\
   rep (mem order_demo) order_demo_tree /\
   shape_ok 2 order_demo_tree = true /\
   NoDup (ptrs order_demo_tree) /\
   1 <= 2 /\ 1 < 2 * 2 - 1) /\
  exists st' t',
    borrowFromRightSibling 2%positive 0 order_demo = Ok (tt, st') /\
    rep (mem st') t' /\
    entries t' = entries order_demo_tree.
Proof.
  destruct order_demo_rep as (H1 & H2 & H3).
  assert (Hd : 2 < 2 ^ 62) by lia.
  assert (Hb : 1 <= 2) by lia.
  assert (Ha : 1 < 2 * 2 - 1) by lia.
  split; [repeat (split; [assumption|]); assumption|].
  destruct (borrowFromRightSibling_keeps_entries 2 order_demo 2%positive
              (erase order_demo_root) []
              (BNode 1%positive (mkNode [10] [] true None 1 3 1 ["a"%string]) [])
              (BNode 3%positive (mkNode [30; 40] [] true None 2 3 1 ["c"; "d"]%string) [])
              [] Hd H1 H2 H3 eq_refl Hb Ha)
    as (st' & pn' & a' & b' & R1 & _ & _ & R4 & _ & R6 & _).
  exists st', (BNode 2%positive pn' ([] ++ a' :: b' :: [])).
  split; [exact R1|]. split; [exact R4|exact R6].
Defined.

Lemma borrowFromLeftSibling_keeps_entries_of_leaves_witness :
  (2 < 2 ^ 62 /\
   rep (mem order_demo) order_demo_tree /\
   shape_ok 2 order_demo_tree = true /\
   NoDup (ptrs order_demo_tree) /\
   (height order_demo_tree <= fuel64)%nat /\
   1 <= 1 /\ 2 < 2 * 2 - 1) /\
  exists st' t',
    borrowFromLeftSibling fuel64 2%positive 1 order_demo = Ok (tt, st') /\
    rep (mem st') t' /\
    entries t' = entries order_demo_tree.
Proof.
  destruct order_demo_rep as (H1 & H2 & H3).
  assert (Hd : 2 < 2 ^ 62) by lia.
  assert (Hh : (height order_demo_tree <= fuel64)%nat) by (vm_compute; lia).
  assert (Ha : 1 <= 1) by lia.
  assert (Hb : 2 < 2 * 2 - 1) by lia.
  split; [repeat (split; [assumption|]); assumption|].
  destruct (borrowFromLeftSibling_keeps_entries_of_leaves 2 fuel64 order_demo 2%positive
              (erase order_demo_root) []
              (BNode 1%positive (mkNode [10] [] true None 1 3 1 ["a"%string]) [])
              (BNode 3%positive (mkNode [30; 40] [] true None 2 3 1 ["c"; "d"]%string) [])
              [] Hd H1 H2 H3 Hh eq_refl eq_refl Ha Hb)
    as (st' & pn' & a' & b' & R1 & _ & _ & R4 & _ & R6 & _).
  exists st', (BNode 2%positive pn' ([] ++ a' :: b' :: [])).
  split; [exact R1|]. split; [exact R4|exact R6].
Defined.

Lemma loaded_demo_rep :
  rep (mem loaded_demo) loaded_demo_tree /\
  shape_ok 2 loaded_demo_tree = true /\
  NoDup (ptrs loaded_demo_tree) /\
  (height loaded_demo_tree <= fuel64)%nat.
Proof.
  assert (H1 : tree_of loaded_demo = Some loaded_demo_tree)
    by (vm_compute; reflexivity).
  assert (H2 : wf_tree 2 (next_ptr loaded_demo) loaded_demo_tree = true)
    by (vm_compute; reflexivity).
  apply tree_of_sound in H1. destruct H1 as [_ H1].
  apply wf_tree_facts in H2. destruct H2 as (H2 & H3 & _).
  split; [exact H1|]. split; [exact H2|]. split; [exact H3|]. vm_compute; lia.
Defined.

Lemma mergeWithRightSibling_keeps_entries_witness :
  (2 < 2 ^ 62 /\
   rep (mem loaded_demo) loaded_demo_tree /\
   shape_ok 2 loaded_demo_tree = true /\
   NoDup (ptrs loaded_demo_tree) /\
   (height loaded_demo_tree <= fuel64)%nat /\
   1 + 1 + 1 <= 2 * 2 - 1) /\
  exists st' t',
    mergeWithRightSibling fuel64 1%positive 0 loaded_demo = Ok (tt, st') /\
    rep (mem st') t' /\
    entries t' = entries loaded_demo_tree.
Proof.
  destruct loaded_demo_rep as (H1 & H2 & H3 & H4).
  assert (Hd : 2 < 2 ^ 62) by lia.
  assert (Hs : 1 + 1 + 1 <= 2 * 2 - 1) by lia.
  split; [repeat (split; [assumption|]); assumption|].
  destruct (mergeWithRightSibling_keeps_entries 2 fuel64 loaded_demo 1%positive
              (mkNode [10] [2%positive; 3%positive] false None 1 3 1 ["x"%string]) []
              (BNode 2%positive (mkNode [5] [] true None 1 3 1 ["y"%string]) [])
              (BNode 3%positive (mkNode [15] [] true None 1 3 1 ["z"%string]) [])
              [] Hd H1 H2 H3 H4 eq_refl Hs)
    as (st' & pn' & ab & R1 & _ & _ & R4 & _ & R6 & _).
  exists st', (BNode 1%positive pn' ([] ++ ab :: [])).
  split; [exact R1|]. split; [exact R4|exact R6].
Defined.

Lemma mergeWithLeftSibling_keeps_entries_witness :
  (2 < 2 ^ 62 /\
   rep (mem loaded_demo) loaded_demo_tree /\
   shape_ok 2 loaded_demo_tree = true /\
   NoDup (ptrs loaded_demo_tree) /\
   (height loaded_demo_tree <= fuel64)%nat /\
   1 + 1 + 1 <= 2 * 2 - 1 /\
   mem loaded_demo !! 1%positive
   = Some (mkNode [10] [2%positive; 3%positive] false None 1 3 1 ["x"%string])) /\
  exists st' t',
    mergeWithLeftSibling fuel64 1%positive 0 loaded_demo = Ok (tt, st') /\
    Root (tree st') = Some 2%positive /\
    Height (tree st') = 1 /\
    rep (mem st') t' /\
    entries t' = entries loaded_demo_tree.
Proof.
  destruct loaded_demo_rep as (H1 & H2 & H3 & H4).
  assert (Hd : 2 < 2 ^ 62) by lia.
  assert (Hs : 1 + 1 + 1 <= 2 * 2 - 1) by lia.
  assert (Hp : mem loaded_demo !! 1%positive
               = Some (mkNode [10] [2%positive; 3%positive] false None 1 3 1
                         ["x"%string])) by reflexivity.
  split; [repeat (split; [assumption|]); assumption|].
  destruct (mergeWithLeftSibling_keeps_entries 2 fuel64 loaded_demo 1%positive
              (mkNode [10] [2%positive; 3%positive] false None 1 3 1 ["x"%string]) []
              (BNode 2%positive (mkNode [5] [] true None 1 3 1 ["y"%string]) [])
              (BNode 3%positive (mkNode [15] [] true None 1 3 1 ["z"%string]) [])
              [] _ Hd H1 H2 H3 H4 eq_refl Hs Hp)
    as (st' & pn' & ab & R1 & R2 & _ & R4 & _ & R6 & _).
  exists st', (BNode 1%positive pn' ([] ++ ab :: [])).
  split; [exact R1|].
  split; [rewrite R2; reflexivity|]. split; [rewrite R2; reflexivity|].
  split; [exact R4|exact R6].
Defined.

Lemma mergeChildren_keeps_entries_witness :
  (2 < 2 ^ 62 /\
   rep (mem loaded_demo) loaded_demo_tree /\
   shape_ok 2 loaded_demo_tree = true /\
   NoDup (ptrs loaded_demo_tree) /\
   (height loaded_demo_tree <= fuel64)%nat /\
   1 + 1 + 1 <= 2 * 2 - 1 /\
   mem loaded_demo !! 1%positive
   = Some (mkNode [10] [2%positive; 3%positive] false None 1 3 1 ["x"%string])) /\
  exists st' t',
    mergeChildren fuel64 1%positive 0 loaded_demo = Ok (tt, st') /\
    Root (tree st') = Some 2%positive /\
    Height (tree st') = 1 /\
    rep (mem st') t' /\
    entries t' = entries loaded_demo_tree.
Proof.
  destruct loaded_demo_rep as (H1 & H2 & H3 & H4).
  assert (Hd : 2 < 2 ^ 62) by lia.
  assert (Hs : 1 + 1 + 1 <= 2 * 2 - 1) by lia.
  assert (Hp : mem loaded_demo !! 1%positive
               = Some (mkNode [10] [2%positive; 3%positive] false None 1 3 1
                         ["x"%string])) by reflexivity.
  split; [repeat (split; [assumption|]); assumption|].
  destruct (mergeChildren_keeps_entries 2 fuel64 loaded_demo 1%positive
              (mkNode [10] [2%positive; 3%positive] false None 1 3 1 ["x"%string]) []
              (BNode 2%positive (mkNode [5] [] true None 1 3 1 ["y"%string]) [])
              (BNode 3%positive (mkNode [15] [] true None 1 3 1 ["z"%string]) [])
              [] _ Hd H1 H2 H3 H4 eq_refl Hs Hp)
    as (st' & pn' & ab & R1 & R2 & _ & R4 & _ & R6 & _).
  exists st', (BNode 1%positive pn' ([] ++ ab :: [])).
  split; [exact R1|].
  split; [rewrite R2; reflexivity|]. split; [rewrite R2; reflexivity|].
  split; [exact R4|exact R6].
Defined.

Lemma lend_right_rep :
  rep (mem lend_right_demo) lend_right_tree /\
  shape_ok 2 lend_right_tree = true /\
  NoDup (ptrs lend_right_tree).
Proof.
  assert (H1 : tree_of lend_right_demo = Some lend_right_tree)
    by (vm_compute; reflexivity).
  assert (H2 : wf_tree 2 (next_ptr lend_right_demo) lend_right_tree = true)
    by (vm_compute; reflexivity).
  apply tree_of_sound in H1. destruct H1 as [_ H1].
  apply wf_tree_facts in H2. destruct H2 as (H2 & H3 & _).
  split; [exact H1|]. split; [exact H2|exact H3].
Defined.

Lemma balanceAfterDeletion_borrows_from_right_witness :
  (2 < 2 ^ 62 /\
   rep (mem lend_right_demo) lend_right_tree /\
   shape_ok 2 lend_right_tree = true /\
   NoDup (ptrs lend_right_tree) /\
   mem lend_right_demo !! 1%positive
   = Some (mkNode [] [] true (Some 2%positive) 0 3 1 []) /\
   0 < 1 /\ 1 < 2) /\
  exists st' t',
    balanceAfterDeletion fuel64 fuel64 1%positive lend_right_demo = Ok (tt, st') /\
    rep (mem st') t' /\
    entries t' = entries lend_right_tree.
Proof.
  destruct lend_right_rep as (H1 & H2 & H3).
  assert (Hd : 2 < 2 ^ 62) by lia.
  assert (Hp : mem lend_right_demo !! 1%positive
               = Some (mkNode [] [] true (Some 2%positive) 0 3 1 [])) by reflexivity.
  assert (Hu : 0 < 1) by lia.
  assert (Hl : 1 < 2) by lia.
  split; [repeat (split; [assumption|]); assumption|].
  assert (Hleft : forall l : @btree string,
            last (@nil (@btree string)) = Some l ->
            Size (node_of l) <= MinKeys (node_of l)) by (intros l H; discriminate H).
  destruct (balanceAfterDeletion_borrows_from_right 2 fuel64 63 lend_right_demo
              2%positive (erase order_demo_root) []
              (BNode 1%positive (mkNode [] [] true None 0 3 1 []) [])
              (BNode 3%positive (mkNode [30; 40] [] true None 2 3 1 ["c"; "d"]%string) [])
              [] _ Hd H1 H2 H3 eq_refl Hp eq_refl Hu Hleft Hl)
    as (st' & pn' & a' & b' & R1 & _ & _ & R4 & _ & R6 & _).
  exists st', (BNode 2%positive pn' ([] ++ a' :: b' :: [])).
  split; [exact R1|]. split; [exact R4|exact R6].
Defined.

Lemma lend_left_rep :
  rep (mem lend_left_demo) lend_left_tree /\
  shape_ok 2 lend_left_tree = true /\
  NoDup (ptrs lend_left_tree) /\
  (height lend_left_tree <= fuel64)%nat.
Proof.
  assert (H1 : tree_of lend_left_demo = Some lend_left_tree)
    by (vm_compute; reflexivity).
  assert (H2 : wf_tree 2 (next_ptr lend_left_demo) lend_left_tree = true)
    by (vm_compute; reflexivity).
  apply tree_of_sound in H1. destruct H1 as [_ H1].
  apply wf_tree_facts in H2. destruct H2 as (H2 & H3 & _).
  split; [exact H1|]. split; [exact H2|]. split; [exact H3|]. vm_compute; lia.
Defined.

Lemma balanceAfterDeletion_borrows_from_left_witness :
  (2 < 2 ^ 62 /\
   rep (mem lend_left_demo) lend_left_tree /\
   shape_ok 2 lend_left_tree = true /\
   NoDup (ptrs lend_left_tree) /\
   (height lend_left_tree <= fuel64)%nat /\
   mem lend_left_demo !! 3%positive
   = Some (mkNode [] [] true (Some 2%positive) 0 3 1 []) /\
   0 < 1 /\ 1 < 2) /\
  exists st' t',
    balanceAfterDeletion fuel64 fuel64 3%positive lend_left_demo = Ok (tt, st') /\
    rep (mem st') t' /\
    entries t' = entries lend_left_tree.
Proof.
  destruct lend_left_rep as (H1 & H2 & H3 & H4).
  assert (Hd : 2 < 2 ^ 62) by lia.
  assert (Hp : mem lend_left_demo !! 3%positive
               = Some (mkNode [] [] true (Some 2%positive) 0 3 1 [])) by reflexivity.
  assert (Hu : 0 < 1) by lia.
  assert (Hl : 1 < 2) by lia.
  split; [repeat (split; [assumption|]); assumption|].
  destruct (balanceAfterDeletion_borrows_from_left 2 fuel64 63 lend_left_demo
              2%positive (erase order_demo_root) []
              (BNode 1%positive (mkNode [5; 10] [] true None 2 3 1 ["e"; "a"]%string) [])
              (BNode 3%positive (mkNode [] [] true None 0 3 1 []) [])
              [] _ Hd H1 H2 H3 H4 eq_refl eq_refl Hp eq_refl Hu Hl)
    as (st' & pn' & a' & b' & R1 & _ & _ & R4 & _ & R6 & _).
  exists st', (BNode 2%positive pn' ([] ++ a' :: b' :: [])).
  split; [exact R1|]. split; [exact R4|exact R6].
Defined.
